(** * BlenRose: material settings, shading-graph synchronisation and export

    A shallow embedding of [src/BlenRose.py] (the Blender add-on of
    PsgBuilder) and the properties its specification states about it.

    The add-on is driven by Blender's Python API ([bpy]).  The part of the
    host the add-on's functions read and write is modelled in the modules
    [Py] and [Host]: node trees with nodes, sockets and links, materials,
    mesh and curve objects.  The add-on's own functions keep their Python
    names and follow the source statement by statement. *)

From Stdlib Require Import String Ascii List ZArith Bool Floats Lia.
From stdpp Require Import gmap strings list.
Import ListNotations.

Set Warnings "-inexact-float".
Open Scope string_scope.

(* ===================================================================== *)
(** ** Python strings and exceptions *)
(* ===================================================================== *)

Module Py.

(** [str.lower()] on the ASCII letters; the identifiers and keywords of the
    add-on's tables are all ASCII. *)
Definition lower_char (c : ascii) : ascii :=
  let n := nat_of_ascii c in
  if (65 <=? n)%nat && (n <=? 90)%nat then ascii_of_nat (n + 32) else c.

Fixpoint lower (s : string) : string :=
  match s with
  | EmptyString => EmptyString
  | String c rest => String (lower_char c) (lower rest)
  end.

(** [s.startswith(p)] *)
Definition startswith (s p : string) : bool := String.prefix p s.

(** [sub in s] for two strings *)
Fixpoint contains (sub s : string) : bool :=
  String.prefix sub s ||
  match s with
  | EmptyString => false
  | String _ rest => contains sub rest
  end.

(** truth value of a string: non-empty *)
Definition truthy (s : string) : bool := negb (s =? "").

(** [x in l] for a list of strings *)
Definition str_in (x : string) (l : list string) : bool :=
  existsb (String.eqb x) l.

(** The exceptions the modelled host calls raise. *)
Inductive exn := KeyError | IndexError | TypeError | AttributeError | RuntimeError.

Inductive result (A : Type) :=
| Ok (a : A)
| Raised (e : exn).
Arguments Ok {A} a.
Arguments Raised {A} e.

End Py.
Import Py.

(* ===================================================================== *)
(** ** The host: images, node trees, materials, objects *)
(* ===================================================================== *)

Module Host.

(** [bpy.types.Image]: a data-block with a name and a file path. *)
Record Image := { image_name : string; filepath : string }.

(** [NodeSocket.type] of the sockets the add-on meets. *)
Inductive socket_type := VALUE | VECTOR | RGBA | SHADER.

(** A socket's [default_value].  [Unset] is the value the host gave the
    socket when the node was made; the add-on never reads it. *)
Inductive socket_value :=
| Unset
| Float (f : float)
| Vector3 (x y z : float).

Record NodeSocket := {
  sock_name : string;
  sock_type : socket_type;
  default_value : socket_value }.

(** [bpy.types.Node] with the attributes the add-on reads or writes.
    [as_pointer] is the node's identity. *)
Record Node := {
  as_pointer : nat;
  node_name : string;
  node_label : string;
  node_type : string;
  location : Z * Z;
  image : option Image;
  uv_map : string;
  attribute_name : string;
  blend_type : string;
  inputs : list NodeSocket;
  outputs : list NodeSocket }.

(** A socket of a node of the tree: the node's pointer and the socket's
    position in [inputs] or in [outputs]. *)
Record SocketRef := { sock_node : nat; sock_index : nat }.

(** [bpy.types.NodeLink]: from an output socket to an input socket. *)
Record NodeLink := {
  from_node : nat;
  from_socket : nat;
  to_node : nat;
  to_socket : nat }.

(** [bpy.types.NodeTree]: [nt.nodes] and [nt.links]. *)
Record NodeTree := { nodes : list Node; links : list NodeLink }.

Definition set_name (s : string) (n : Node) : Node :=
  {| as_pointer := as_pointer n; node_name := s; node_label := node_label n;
     node_type := node_type n; location := location n; image := image n;
     uv_map := uv_map n; attribute_name := attribute_name n;
     blend_type := blend_type n; inputs := inputs n; outputs := outputs n |}.

Definition set_label (s : string) (n : Node) : Node :=
  {| as_pointer := as_pointer n; node_name := node_name n; node_label := s;
     node_type := node_type n; location := location n; image := image n;
     uv_map := uv_map n; attribute_name := attribute_name n;
     blend_type := blend_type n; inputs := inputs n; outputs := outputs n |}.

Definition set_location (xy : Z * Z) (n : Node) : Node :=
  {| as_pointer := as_pointer n; node_name := node_name n; node_label := node_label n;
     node_type := node_type n; location := xy; image := image n;
     uv_map := uv_map n; attribute_name := attribute_name n;
     blend_type := blend_type n; inputs := inputs n; outputs := outputs n |}.

Definition set_image (i : option Image) (n : Node) : Node :=
  {| as_pointer := as_pointer n; node_name := node_name n; node_label := node_label n;
     node_type := node_type n; location := location n; image := i;
     uv_map := uv_map n; attribute_name := attribute_name n;
     blend_type := blend_type n; inputs := inputs n; outputs := outputs n |}.

Definition set_uv_map (s : string) (n : Node) : Node :=
  {| as_pointer := as_pointer n; node_name := node_name n; node_label := node_label n;
     node_type := node_type n; location := location n; image := image n;
     uv_map := s; attribute_name := attribute_name n;
     blend_type := blend_type n; inputs := inputs n; outputs := outputs n |}.

Definition set_blend_type (s : string) (n : Node) : Node :=
  {| as_pointer := as_pointer n; node_name := node_name n; node_label := node_label n;
     node_type := node_type n; location := location n; image := image n;
     uv_map := uv_map n; attribute_name := attribute_name n;
     blend_type := s; inputs := inputs n; outputs := outputs n |}.

Definition set_inputs (l : list NodeSocket) (n : Node) : Node :=
  {| as_pointer := as_pointer n; node_name := node_name n; node_label := node_label n;
     node_type := node_type n; location := location n; image := image n;
     uv_map := uv_map n; attribute_name := attribute_name n;
     blend_type := blend_type n; inputs := l; outputs := outputs n |}.

Definition set_default (v : socket_value) (s : NodeSocket) : NodeSocket :=
  {| sock_name := sock_name s; sock_type := sock_type s; default_value := v |}.

(** *** Looking nodes and sockets up *)

(** The node with pointer [p]. *)
Definition find_node (p : nat) (t : NodeTree) : option Node :=
  find (fun n => as_pointer n =? p)%nat (nodes t).

(** [nt.nodes.get(name)] *)
Definition nodes_get (name : string) (t : NodeTree) : option Node :=
  find (fun n => node_name n =? name) (nodes t).

(** Position of the first socket called [name]: [sockets.get(name)],
    [name in sockets]. *)
Fixpoint socket_index (name : string) (l : list NodeSocket) : option nat :=
  match l with
  | [] => None
  | s :: rest =>
      if sock_name s =? name then Some 0%nat
      else option_map S (socket_index name rest)
  end.

(** [link.to_socket.is_linked] for an input socket: some link ends in it. *)
Definition is_linked (s : SocketRef) (t : NodeTree) : bool :=
  existsb (fun l => (to_node l =? sock_node s)%nat && (to_socket l =? sock_index s)%nat)
          (links t).

(** Name of the socket a link leaves, and of the socket it enters. *)
Definition from_socket_name (t : NodeTree) (l : NodeLink) : option string :=
  match find_node (from_node l) t with
  | Some n => option_map sock_name (nth_error (outputs n) (from_socket l))
  | None => None
  end.

Definition to_socket_name (t : NodeTree) (l : NodeLink) : option string :=
  match find_node (to_node l) t with
  | Some n => option_map sock_name (nth_error (inputs n) (to_socket l))
  | None => None
  end.

(** *** Changing the tree *)

(** Writing an attribute of the node object with pointer [p]. *)
Definition update_node (p : nat) (f : Node -> Node) (t : NodeTree) : NodeTree :=
  {| nodes := map (fun n => if (as_pointer n =? p)%nat then f n else n) (nodes t);
     links := links t |}.

(** [nt.nodes.remove(node)]: the node goes, and every link at one of its
    sockets with it. *)
Definition nodes_remove (p : nat) (t : NodeTree) : NodeTree :=
  {| nodes := List.filter (fun n => negb (as_pointer n =? p)%nat) (nodes t);
     links := List.filter (fun l => negb (from_node l =? p)%nat && negb (to_node l =? p)%nat)
                     (links t) |}.

(** [nt.links.new(output, input)]: an input socket holds one link, so the
    links that entered [input] are dropped and the new link is added. *)
Definition links_new (o i : SocketRef) (t : NodeTree) : NodeTree :=
  {| nodes := nodes t;
     links := List.filter (fun l => negb ((to_node l =? sock_node i)%nat
                                     && (to_socket l =? sock_index i)%nat))
                     (links t)
              ++ [ {| from_node := sock_node o; from_socket := sock_index o;
                      to_node := sock_node i; to_socket := sock_index i |} ] |}.

(** A pointer no node of the tree has. *)
Definition fresh_pointer (t : NodeTree) : nat :=
  S (list_max (map as_pointer (nodes t))).

(** Pointers identify nodes, and links join sockets of nodes of the tree. *)
Definition wf_tree (t : NodeTree) : Prop :=
  NoDup (map as_pointer (nodes t)) /\
  Forall (fun l => from_node l ∈ map as_pointer (nodes t) /\
                   to_node l ∈ map as_pointer (nodes t)) (links t).

#[global] Instance wf_tree_dec (t : NodeTree) : Decision (wf_tree t).
Proof. unfold wf_tree. apply _. Defined.

(** *** Objects of the scene *)

Definition Vec : Type := float * float * float.

(** [obj.matrix_world], a 4x4 matrix by rows. *)
Definition Matrix : Type := list (list float).

(** A UV layer of a mesh. *)
Record UVLayer := { uv_layer_name : string; active_render : bool }.

(** A mesh: [mesh.uv_layers] and the position of [mesh.uv_layers.active]. *)
Record Mesh := { uv_layers : list UVLayer; uv_layers_active : option nat }.

(** A spline of a curve.  [points] hold (x, y, z, w); [bezier_points] hold
    the control point [co]. *)
Record Spline := {
  spline_type : string;
  points : list (float * float * float * float);
  bezier_points : list Vec;
  use_cyclic_u : bool }.

Inductive ObjectData :=
| MeshData (m : Mesh)
| CurveData (splines : list Spline)
| OtherData (type : string).

(** [bpy.types.Object]: [material_slots] holds each slot's material (its
    pointer) or None; [bound_box] the eight corners in object space. *)
Record Object := {
  obj_name : string;
  obj_data : ObjectData;
  material_slots : list (option nat);
  visible_get : bool;
  matrix_world : Matrix;
  bound_box : list Vec }.

(** [obj.type] *)
Definition obj_type (o : Object) : string :=
  match obj_data o with
  | MeshData _ => "MESH"
  | CurveData _ => "CURVE"
  | OtherData ty => ty
  end.

(** *** Node prototypes

    [nt.nodes.new(bl_idname)] makes a node of the registered kind, with the
    kind's default name and sockets.  The table lists the kinds the add-on
    makes, with the sockets Blender 3.x (the version [bl_info] asks for)
    gives them. *)

Definition sock (name : string) (ty : socket_type) : NodeSocket :=
  {| sock_name := name; sock_type := ty; default_value := Unset |}.

Definition mk_node (ty name : string) (ins outs : list NodeSocket) : Node :=
  {| as_pointer := 0; node_name := name; node_label := ""; node_type := ty;
     location := (0, 0)%Z; image := None; uv_map := ""; attribute_name := "";
     blend_type := "MIX"; inputs := ins; outputs := outs |}.

Definition principled_inputs : list NodeSocket :=
  [ sock "Base Color" RGBA; sock "Subsurface" VALUE; sock "Subsurface Radius" VECTOR;
    sock "Subsurface Color" RGBA; sock "Subsurface IOR" VALUE;
    sock "Subsurface Anisotropy" VALUE; sock "Metallic" VALUE; sock "Specular" VALUE;
    sock "Specular Tint" VALUE; sock "Roughness" VALUE; sock "Anisotropic" VALUE;
    sock "Anisotropic Rotation" VALUE; sock "Sheen" VALUE; sock "Sheen Tint" VALUE;
    sock "Clearcoat" VALUE; sock "Clearcoat Roughness" VALUE; sock "IOR" VALUE;
    sock "Transmission" VALUE; sock "Transmission Roughness" VALUE;
    sock "Emission" RGBA; sock "Emission Strength" VALUE; sock "Alpha" VALUE;
    sock "Normal" VECTOR; sock "Clearcoat Normal" VECTOR; sock "Tangent" VECTOR ].

Definition prototypes : list (string * Node) :=
  [ ("ShaderNodeOutputMaterial",
     mk_node "OUTPUT_MATERIAL" "Material Output"
       [sock "Surface" SHADER; sock "Volume" SHADER; sock "Displacement" VECTOR] []);
    ("ShaderNodeBsdfPrincipled",
     mk_node "BSDF_PRINCIPLED" "Principled BSDF" principled_inputs [sock "BSDF" SHADER]);
    ("ShaderNodeMixShader",
     mk_node "MIX_SHADER" "Mix Shader"
       [sock "Fac" VALUE; sock "Shader" SHADER; sock "Shader" SHADER] [sock "Shader" SHADER]);
    ("ShaderNodeEmission",
     mk_node "EMISSION" "Emission"
       [sock "Color" RGBA; sock "Strength" VALUE] [sock "Emission" SHADER]);
    ("ShaderNodeUVMap",
     mk_node "UVMAP" "UV Map" [] [sock "UV" VECTOR]);
    ("ShaderNodeTexImage",
     mk_node "TEX_IMAGE" "Image Texture"
       [sock "Vector" VECTOR] [sock "Color" RGBA; sock "Alpha" VALUE]);
    ("ShaderNodeNormalMap",
     mk_node "NORMAL_MAP" "Normal Map"
       [sock "Strength" VALUE; sock "Color" RGBA] [sock "Normal" VECTOR]);
    ("ShaderNodeSeparateRGB",
     mk_node "SEPRGB" "Separate RGB"
       [sock "Image" RGBA] [sock "R" VALUE; sock "G" VALUE; sock "B" VALUE]);
    ("ShaderNodeMapping",
     mk_node "MAPPING" "Mapping"
       [sock "Vector" VECTOR; sock "Location" VECTOR; sock "Rotation" VECTOR;
        sock "Scale" VECTOR] [sock "Vector" VECTOR]);
    ("ShaderNodeMixRGB",
     mk_node "MIX_RGB" "Mix"
       [sock "Fac" VALUE; sock "Color1" RGBA; sock "Color2" RGBA] [sock "Color" RGBA]) ].

Definition prototype (bl_idname : string) : option Node :=
  option_map snd (find (fun e => fst e =? bl_idname) prototypes).

Definition with_pointer (p : nat) (n : Node) : Node :=
  {| as_pointer := p; node_name := node_name n; node_label := node_label n;
     node_type := node_type n; location := location n; image := image n;
     uv_map := uv_map n; attribute_name := attribute_name n;
     blend_type := blend_type n; inputs := inputs n; outputs := outputs n |}.

(** *** Host calls as stateful, fallible computations on a node tree

    A raised exception leaves the tree as the statements before it made it. *)

Definition M (A : Type) : Type := NodeTree -> NodeTree * result A.

Definition ret {A : Type} (a : A) : M A := fun t => (t, Ok a).

Definition raise {A : Type} (e : exn) : M A := fun t => (t, Raised e).

Definition bind {A B : Type} (c : M A) (k : A -> M B) : M B :=
  fun t =>
    match c t with
    | (t', Ok a) => k a t'
    | (t', Raised e) => (t', Raised e)
    end.

(** What a statement on one node does: nothing, an assignment that leaves
    the node as [n'], or an exception. *)
Inductive effect :=
| Pass
| Assign (n' : Node)
| Raise (e : exn).

(** Storing [v] in [default_value] of a socket of type [ty]: a number for a
    VALUE socket, three numbers for a VECTOR socket. *)
Definition accepts (ty : socket_type) (v : socket_value) : result unit :=
  match ty, v with
  | VALUE, Float _ => Ok tt
  | VECTOR, Vector3 _ _ _ => Ok tt
  | SHADER, _ => Raised AttributeError
  | _, _ => Raised TypeError
  end.

(** [node.inputs[name].default_value = v] *)
Definition assign_input (name : string) (v : socket_value) (n : Node) : effect :=
  match socket_index name (inputs n) with
  | None => Raise KeyError
  | Some i =>
      match nth_error (inputs n) i with
      | None => Raise KeyError
      | Some s =>
          match accepts (sock_type s) v with
          | Ok _ => Assign (set_inputs (<[i := set_default v s]> (inputs n)) n)
          | Raised e => Raise e
          end
      end
  end.

(** A statement on the node object [p]. *)
Definition on_node (p : nat) (g : Node -> effect) : M unit :=
  fun t =>
    match find_node p t with
    | None => (t, Raised RuntimeError)
    | Some n =>
        match g n with
        | Pass => (t, Ok tt)
        | Assign n' => (update_node p (fun _ => n') t, Ok tt)
        | Raise e => (t, Raised e)
        end
    end.

(** [node = nt.nodes.get(name)] followed by [if node: body].  The body may
    look at the tree (for [is_linked]). *)
Definition with_node (name : string) (body : NodeTree -> Node -> effect) : M unit :=
  fun t =>
    match nodes_get name t with
    | None => (t, Ok tt)
    | Some n =>
        match body t n with
        | Pass => (t, Ok tt)
        | Assign n' => (update_node (as_pointer n) (fun _ => n') t, Ok tt)
        | Raise e => (t, Raised e)
        end
    end.

(** [node.attr = value] *)
Definition set_attr (p : nat) (f : Node -> Node) : M unit :=
  on_node p (fun n => Assign (f n)).

(** [nt.nodes.new(bl_idname)]; the result is the new node's pointer. *)
Definition nodes_new (bl_idname : string) : M nat :=
  fun t =>
    match prototype bl_idname with
    | None => (t, Raised RuntimeError)
    | Some proto =>
        let p := fresh_pointer t in
        ({| nodes := nodes t ++ [with_pointer p proto]; links := links t |}, Ok p)
    end.

(** [for node in list(nt.nodes): nt.nodes.remove(node)] *)
Definition nodes_clear : M unit :=
  fun t => (fold_left (fun t' n => nodes_remove (as_pointer n) t') (nodes t) t, Ok tt).

(** [node.outputs[name]], [node.inputs[name]], [node.inputs[i]],
    [name in node.inputs] *)
Definition outputs_item (p : nat) (name : string) : M SocketRef :=
  fun t =>
    match find_node p t with
    | None => (t, Raised RuntimeError)
    | Some n =>
        match socket_index name (outputs n) with
        | Some i => (t, Ok {| sock_node := p; sock_index := i |})
        | None => (t, Raised KeyError)
        end
    end.

Definition inputs_item (p : nat) (name : string) : M SocketRef :=
  fun t =>
    match find_node p t with
    | None => (t, Raised RuntimeError)
    | Some n =>
        match socket_index name (inputs n) with
        | Some i => (t, Ok {| sock_node := p; sock_index := i |})
        | None => (t, Raised KeyError)
        end
    end.

Definition inputs_at (p : nat) (i : nat) : M SocketRef :=
  fun t =>
    match find_node p t with
    | None => (t, Raised RuntimeError)
    | Some n =>
        if (i <? length (inputs n))%nat
        then (t, Ok {| sock_node := p; sock_index := i |})
        else (t, Raised IndexError)
    end.

Definition inputs_has (p : nat) (name : string) : M bool :=
  fun t =>
    match find_node p t with
    | None => (t, Raised RuntimeError)
    | Some n => (t, Ok (bool_decide (is_Some (socket_index name (inputs n)))))
    end.

(** [nt.links.new(o, i)] as a computation. *)
Definition new_link (o i : SocketRef) : M unit :=
  fun t => (links_new o i t, Ok tt).

End Host.
Import Host.

Notation "x <- c1 ;; c2" := (bind c1 (fun x => c2))
  (at level 100, c1 at next level, right associativity).
Notation "e1 ;; e2" := (bind e1 (fun _ => e2))
  (at level 100, right associativity).

(* ===================================================================== *)
(** ** The add-on: tables and settings *)
(* ===================================================================== *)

(** Material class / subclass tables, as hard-coded in the source. *)

Definition MATERIAL_CLASS_ITEMS : list (string * string * string) :=
  [ ("ADVERTISEMENT", "advertisement", ""); ("ANIMATED", "animated", "");
    ("BASIC", "basic", ""); ("BUILDING", "building", ""); ("CHARACTER", "character", "");
    ("CHARATTRIBUTES", "charattributes", "");
    ("DEFAULTENVIRONMENT", "defaultenvironment", "");
    ("DMOATTRIBUTES", "dmoattributes", ""); ("DYNAMICOBJECT", "dynamicobject", "");
    ("ENVATTRIBUTES", "envattributes", ""); ("ENVIRONMENT", "environment", "");
    ("ENVIRONMENTPARK", "environmentpark", "");
    ("ENVIRONMENTSIMPLE", "environmentsimple", ""); ("FOG", "fog", "");
    ("GLARE", "glare", ""); ("GODRAY", "godray", "");
    ("INCANDESCENT", "incandescent", ""); ("NAMEMAP", "namemap", "");
    ("OCEAN", "ocean", ""); ("PROXYWORLD", "proxyworld", ""); ("SKY", "sky", "");
    ("TERRAIN", "terrain", ""); ("TRAFFICLIGHT", "trafficlight", "");
    ("TREE", "tree", ""); ("VEHICLE", "vehicle", "");
    ("VISUALINDICATOR", "visualindicator", ""); ("WATER", "water", "") ].

Definition MATERIAL_SUBCLASSES : list (string * list (string * string * string)) :=
  [
    ("ADVERTISEMENT",
     [ ("DEFAULT", "default", "") ]);
    ("ANIMATED",
     [ ("DEFAULT", "default", ""); ("FLAG", "flag", ""); ("SHRUB", "shrub", "");
       ("TREE", "tree", "") ]);
    ("BASIC",
     [ ("DEFAULT", "default", "") ]);
    ("BUILDING",
     [ ("CEILINGLOCAL", "ceilinglocal", ""); ("DEFAULT", "default", "");
       ("INTERIORCUBE", "interiorcube", "") ]);
    ("CHARACTER",
     [ ("ALPHA", "alpha", ""); ("CAC", "cac", ""); ("CLOTH_ROPA", "cloth_ropa", "");
       ("CLOTH_STAMP_ROPA", "cloth_stamp_ropa", ""); ("CLOTH_STAMP", "cloth_stamp", "");
       ("CLOTH", "cloth", ""); ("DEFAULT_CLOTH_ROPA", "default_cloth_ropa", "");
       ("DEFAULT_CLOTH", "default_cloth", "");
       ("DEFAULT_HAIR_ROPA", "default_hair_ropa", "");
       ("DEFAULT_HAIR", "default_hair", ""); ("DEFAULT_HOM", "default_hom", "");
       ("DEFAULT_LIGHT", "default_light", "");
       ("DEFAULT_SKATEBOARD", "default_skateboard", "");
       ("DEFAULT_SKIN", "default_skin", ""); ("DEFAULT", "default", "");
       ("FACE", "face", ""); ("HAIR_ROPA", "hair_ropa", ""); ("HAIR", "hair", "");
       ("LEATHER", "leather", "");
       ("LIVINGWORLD_DYNAMICOBJ", "livingworld_dynamicobj", "");
       ("LIVINGWORLD_PEDESTRIANS_STAMP", "livingworld_pedestrians_stamp", "");
       ("LIVINGWORLD_PEDESTRIANS", "livingworld_pedestrians", "");
       ("LIVINGWORLD_VEHICLES_GLASS", "livingworld_vehicles_glass", "");
       ("LIVINGWORLD_VEHICLES", "livingworld_vehicles", "");
       ("LIVINGWORLD", "livingworld", ""); ("SHIFT", "shift", ""); ("SKIN", "skin", "") ]);
    ("CHARATTRIBUTES",
     [ ("DEFAULT", "default", "") ]);
    ("DEFAULTENVIRONMENT",
     [ ("DEFAULT", "default", ""); ("TRANSPARENT", "transparent", "") ]);
    ("DMOATTRIBUTES",
     [ ("DEFAULT", "default", "") ]);
    ("DYNAMICOBJECT",
     [ ("ALPHATEST", "alphatest", ""); ("DEFAULT", "default", "") ]);
    ("ENVATTRIBUTES",
     [ ("DEFAULT", "default", "") ]);
    ("ENVIRONMENT",
     [ ("DECAL_SIMPLE", "decal_simple", "");
       ("DECAL_TILEABLE_SIMPLE", "decal_tileable_simple", "");
       ("DECAL_TILEABLE", "decal_tileable", ""); ("DECAL", "decal", "");
       ("DECAL2", "decal2", ""); ("DEFAULT", "default", "");
       ("REFLECTIVE_SIMPLE", "reflective_simple", "");
       ("REFLECTIVE_TRANS", "reflective_trans", ""); ("REFLECTIVE", "reflective", "");
       ("TRANSPARENT", "transparent", "") ]);
    ("ENVIRONMENTPARK",
     [ ("ALPHATEST", "alphatest", ""); ("DECAL", "decal", "");
       ("DIFFUSE", "diffuse", "") ]);
    ("ENVIRONMENTSIMPLE",
     [ ("ALPHATEST", "alphatest", ""); ("BACKGROUND", "background", "");
       ("DEFAULT", "default", ""); ("DIFFUSE", "diffuse", "") ]);
    ("FOG",
     [ ("DEFAULT", "default", ""); ("FOG_BACKUP", "fog_backup", "");
       ("FOG_BIGEVENT", "fog_bigevent", ""); ("FOG_CAS", "fog_cas", "");
       ("FOG_COOL", "fog_cool", ""); ("FOG_DARK", "fog_dark", "");
       ("FOG_DEF_FAR", "fog_def_far", ""); ("FOG_DEFAULT", "fog_default", "");
       ("FOG_FEMAIN", "fog_femain", ""); ("FOG_FINANCIAL", "fog_financial", "");
       ("FOG_HAZE", "fog_haze", ""); ("FOG_INSIDE", "fog_inside", "");
       ("FOG_LIGHT", "fog_light", ""); ("FOG_OLDTOWN", "fog_oldtown", "");
       ("FOG_PROJECTS", "fog_projects", ""); ("FOG_REZ", "fog_rez", "");
       ("FOG_SLAPPY", "fog_slappy", "");
       ("FOG_SLAPPYWAREHOUSE", "fog_slappywarehouse", ""); ("FOG_SOHO", "fog_soho", "");
       ("FOG_TRICKGUIDE", "fog_trickguide", ""); ("FOG_WARM", "fog_warm", "");
       ("FOG_WATERFRONT", "fog_waterfront", "") ]);
    ("GLARE",
     [ ("DEFAULT", "default", "") ]);
    ("GODRAY",
     [ ("DEFAULT", "default", ""); ("SPOTLIGHT", "spotlight", "") ]);
    ("INCANDESCENT",
     [ ("BACKLIT", "backlit", ""); ("BACKLITUVSCROLL", "backlituvscroll", "");
       ("DEFAULT", "default", ""); ("TRANSPARENT", "transparent", "");
       ("VIDEOSCREEN", "videoscreen", "") ]);
    ("NAMEMAP",
     [ ("DEFAULT", "default", "") ]);
    ("OCEAN",
     [ ("DEFAULT", "default", ""); ("REFLECTION", "reflection", "") ]);
    ("PROXYWORLD",
     [ ("DEFAULT", "default", "") ]);
    ("SKY",
     [ ("DEFAULT", "default", ""); ("SKY_70S", "sky_70s", "");
       ("SKY_BKUP1", "sky_bkup1", ""); ("SKY_BKUP2", "sky_bkup2", "");
       ("SKY_BKUP3", "sky_bkup3", ""); ("SKY_CREATURE", "sky_creature", "");
       ("SKY_DANNY", "sky_danny", ""); ("SKY_DARK", "sky_dark", "");
       ("SKY_DEFAULT", "sky_default", ""); ("SKY_FE2", "sky_fe2", "");
       ("SKY_FEMAIN", "sky_femain", ""); ("SKY_FESHIP", "sky_feship", "");
       ("SKY_FESTART", "sky_festart", ""); ("SKY_FINANCIAL", "sky_financial", "");
       ("SKY_LIGHT", "sky_light", ""); ("SKY_OLDTOWN", "sky_oldtown", "");
       ("SKY_PROJECTS", "sky_projects", ""); ("SKY_PURE", "sky_pure", "");
       ("SKY_REZ", "sky_rez", ""); ("SKY_SLAPPY", "sky_slappy", "");
       ("SKY_SOHO", "sky_soho", ""); ("SKY_SVM", "sky_svm", "");
       ("SKY_WATERFRONT", "sky_waterfront", "") ]);
    ("TERRAIN",
     [ ("DECAL", "decal", ""); ("DEFAULT", "default", "") ]);
    ("TRAFFICLIGHT",
     [ ("DEFAULT", "default", ""); ("ONE", "one", ""); ("TWO", "two", "") ]);
    ("TREE",
     [ ("DEFAULT", "default", "") ]);
    ("VEHICLE",
     [ ("DEFAULT", "default", ""); ("LIGHT", "light", ""); ("LOD01", "lod01", "") ]);
    ("VISUALINDICATOR",
     [ ("DEFAULT", "default", "") ]);
    ("WATER",
     [ ("ALPHA", "alpha", ""); ("DEFAULT", "default", ""); ("FLOWING", "flowing", "");
       ("FLOWINGALPHA", "flowingalpha", ""); ("SKATEPARK_ALPHA", "skatepark_alpha", "");
       ("SKATEPARK", "skatepark", "") ]) ].

Definition MATERIAL_SUBCLASS_FALLBACK : list (string * string * string) :=
  [ ("DEFAULT", "default", "") ].

(** Looking a key up in a Python dict written as a list of pairs. *)
Definition dict_get {V : Type} (k : string) (d : list (string * V)) : option V :=
  option_map snd (find (fun e => fst e =? k) d).

(** The identifier of an enum item. *)
Definition identifier (item : string * string * string) : string := fst (fst item).

(** An EnumProperty whose items come from a callback is stored as a number,
    the position of the chosen item in the list the callback returned.
    Reading the property gives the identifier at that position of the list
    the callback returns now, and the empty string when there is none. *)
Definition enum_identifier (items : list (string * string * string)) (value : nat) : string :=
  match nth_error items value with
  | Some item => identifier item
  | None => ""
  end.

(** Position of the first item with identifier [ident]: what assigning
    [ident] to the property stores. *)
Fixpoint enum_value (items : list (string * string * string)) (ident : string) : option nat :=
  match items with
  | [] => None
  | item :: rest =>
      if identifier item =? ident then Some 0%nat
      else option_map S (enum_value rest ident)
  end.

(** [BlenroseMaterialSettings], the PropertyGroup of a material.  The ten
    texture pointers and the ten UV enums are held by property name, as
    [getattr] and [setattr] address them: a texture that is absent reads
    None, a UV enum that is absent has its declared default. *)
Record BlenroseMaterialSettings := {
  enabled : bool;
  material_class : string;
  material_subclass : nat;
  notes : string;
  textures : gmap string Image;
  uv_enums : gmap string nat;
  detail_normal_uv_scale : float;
  macro_overlay_opacity : float;
  macro_overlay_uv_scale : float;
  embedded_decal : float;
  physics_surface : string;
  audio_surface : string;
  surface_pattern : string }.

(** [bpy.types.Material] with its [blenrose_settings]. *)
Record Material := {
  material_name : string;
  use_nodes : bool;
  node_tree : option NodeTree;
  blenrose_settings : BlenroseMaterialSettings }.

(** The state the add-on works on: [bpy.data.objects], [bpy.data.materials]
    by pointer, and the module's set of materials whose updates are
    suppressed. *)
Record World := {
  objects : list Object;
  materials : gmap nat Material;
  _SUPPRESSED_UPDATE_MATERIALS : gset nat }.

(** Declared defaults of the UV enums: [default=1] for the lightmap,
    [default=0] for the others. *)
Definition uv_default (prop : string) : nat :=
  if prop =? "lightmap_uv" then 1%nat else 0%nat.

Definition set_textures (m : gmap string Image) (s : BlenroseMaterialSettings)
  : BlenroseMaterialSettings :=
  {| enabled := enabled s; material_class := material_class s;
     material_subclass := material_subclass s; notes := notes s;
     textures := m; uv_enums := uv_enums s;
     detail_normal_uv_scale := detail_normal_uv_scale s;
     macro_overlay_opacity := macro_overlay_opacity s;
     macro_overlay_uv_scale := macro_overlay_uv_scale s;
     embedded_decal := embedded_decal s; physics_surface := physics_surface s;
     audio_surface := audio_surface s; surface_pattern := surface_pattern s |}.

Definition set_uv_enums (m : gmap string nat) (s : BlenroseMaterialSettings)
  : BlenroseMaterialSettings :=
  {| enabled := enabled s; material_class := material_class s;
     material_subclass := material_subclass s; notes := notes s;
     textures := textures s; uv_enums := m;
     detail_normal_uv_scale := detail_normal_uv_scale s;
     macro_overlay_opacity := macro_overlay_opacity s;
     macro_overlay_uv_scale := macro_overlay_uv_scale s;
     embedded_decal := embedded_decal s; physics_surface := physics_surface s;
     audio_surface := audio_surface s; surface_pattern := surface_pattern s |}.

Definition set_enabled (b : bool) (s : BlenroseMaterialSettings)
  : BlenroseMaterialSettings :=
  {| enabled := b; material_class := material_class s;
     material_subclass := material_subclass s; notes := notes s;
     textures := textures s; uv_enums := uv_enums s;
     detail_normal_uv_scale := detail_normal_uv_scale s;
     macro_overlay_opacity := macro_overlay_opacity s;
     macro_overlay_uv_scale := macro_overlay_uv_scale s;
     embedded_decal := embedded_decal s; physics_surface := physics_surface s;
     audio_surface := audio_surface s; surface_pattern := surface_pattern s |}.

Definition set_material_class (c : string) (s : BlenroseMaterialSettings)
  : BlenroseMaterialSettings :=
  {| enabled := enabled s; material_class := c;
     material_subclass := material_subclass s; notes := notes s;
     textures := textures s; uv_enums := uv_enums s;
     detail_normal_uv_scale := detail_normal_uv_scale s;
     macro_overlay_opacity := macro_overlay_opacity s;
     macro_overlay_uv_scale := macro_overlay_uv_scale s;
     embedded_decal := embedded_decal s; physics_surface := physics_surface s;
     audio_surface := audio_surface s; surface_pattern := surface_pattern s |}.

Definition set_material_subclass (i : nat) (s : BlenroseMaterialSettings)
  : BlenroseMaterialSettings :=
  {| enabled := enabled s; material_class := material_class s;
     material_subclass := i; notes := notes s;
     textures := textures s; uv_enums := uv_enums s;
     detail_normal_uv_scale := detail_normal_uv_scale s;
     macro_overlay_opacity := macro_overlay_opacity s;
     macro_overlay_uv_scale := macro_overlay_uv_scale s;
     embedded_decal := embedded_decal s; physics_surface := physics_surface s;
     audio_surface := audio_surface s; surface_pattern := surface_pattern s |}.

Definition set_settings (s : BlenroseMaterialSettings) (m : Material) : Material :=
  {| material_name := material_name m; use_nodes := use_nodes m;
     node_tree := node_tree m; blenrose_settings := s |}.

Definition set_node_tree (t : option NodeTree) (m : Material) : Material :=
  {| material_name := material_name m; use_nodes := use_nodes m;
     node_tree := t; blenrose_settings := blenrose_settings m |}.

Definition set_materials (ms : gmap nat Material) (w : World) : World :=
  {| objects := objects w; materials := ms;
     _SUPPRESSED_UPDATE_MATERIALS := _SUPPRESSED_UPDATE_MATERIALS w |}.

Definition set_suppressed (sup : gset nat) (w : World) : World :=
  {| objects := objects w; materials := materials w;
     _SUPPRESSED_UPDATE_MATERIALS := sup |}.

(* ===================================================================== *)
(** ** The add-on: UV enum and channel auto-detection *)
(* ===================================================================== *)

(** [sorted(set(l))] for strings. *)
Fixpoint insert_sorted (x : string) (l : list string) : list string :=
  match l with
  | [] => [x]
  | y :: rest =>
      match String.compare x y with
      | Lt => x :: l
      | Eq => l
      | Gt => y :: insert_sorted x rest
      end
  end.

Definition sorted_set (l : list string) : list string :=
  fold_right insert_sorted [] l.

(** Names of the UV layers of the mesh objects, the empty names left out. *)
Definition scene_uv_names (objs : list Object) : list string :=
  flat_map (fun obj =>
              match obj_data obj with
              | MeshData mesh =>
                  List.filter (fun name => truthy name) (map uv_layer_name (uv_layers mesh))
              | _ => []
              end) objs.

(** [uv_channel_items(self, context)] *)
Definition uv_channel_items (objs : list Object) : list (string * string * string) :=
  let uv_names := sorted_set (scene_uv_names objs) in
  match uv_names with
  | [] => [ ("UV0", "UV0", "UV0"); ("UV1", "UV1", "UV1") ]
  | _ => map (fun name => (name, name, "")) uv_names
  end.

(** [getattr(settings, tex_prop, None)] and [getattr(settings, uv_prop, None)] *)
Definition getattr_tex (settings : BlenroseMaterialSettings) (prop : string) : option Image :=
  textures settings !! prop.

Definition uv_value (settings : BlenroseMaterialSettings) (prop : string) : nat :=
  default (uv_default prop) (uv_enums settings !! prop).

Definition getattr_uv (objs : list Object) (settings : BlenroseMaterialSettings)
    (prop : string) : string :=
  enum_identifier (uv_channel_items objs) (uv_value settings prop).

(** [counts[k] = counts.get(k, 0) + 1] on a dict kept in insertion order. *)
Fixpoint dict_incr (k : string) (counts : list (string * nat)) : list (string * nat) :=
  match counts with
  | [] => [(k, 1%nat)]
  | (k', c) :: rest =>
      if k' =? k then (k', S c) :: rest else (k', c) :: dict_incr k rest
  end.

(** [max(counts.items(), key=lambda kv: kv[1])[0]]: the first key with the
    greatest count. *)
Fixpoint max_by_count (best : string * nat) (rest : list (string * nat)) : string :=
  match rest with
  | [] => fst best
  | kv :: rest' =>
      if (snd best <? snd kv)%nat then max_by_count kv rest' else max_by_count best rest'
  end.

(** The UV layer an object prefers: the render-active one, else the active
    one, else the first, each only when it has a name. *)
Definition preferred_uv (mesh : Mesh) : option string :=
  match find (fun layer => active_render layer && truthy (uv_layer_name layer))
             (uv_layers mesh) with
  | Some layer => Some (uv_layer_name layer)
  | None =>
      match uv_layers_active mesh ≫= (fun i => nth_error (uv_layers mesh) i) with
      | Some layer =>
          if truthy (uv_layer_name layer) then Some (uv_layer_name layer)
          else match uv_layers mesh with
               | first :: _ =>
                   if truthy (uv_layer_name first) then Some (uv_layer_name first) else None
               | [] => None
               end
      | None =>
          match uv_layers mesh with
          | first :: _ =>
              if truthy (uv_layer_name first) then Some (uv_layer_name first) else None
          | [] => None
          end
      end
  end.

(** [_guess_active_uv_for_material(mat)] *)
Definition _guess_active_uv_for_material (objs : list Object) (mat : nat) : option string :=
  let uv_name_counts :=
    fold_left
      (fun counts obj =>
         match obj_data obj with
         | MeshData mesh =>
             if negb (existsb (fun slot => bool_decide (slot = Some mat)) (material_slots obj))
             then counts
             else match uv_layers mesh with
                  | [] => counts
                  | _ => match preferred_uv mesh with
                         | Some preferred => dict_incr preferred counts
                         | None => counts
                         end
                  end
         | _ => counts
         end)
      objs [] in
  match uv_name_counts with
  | [] => None
  | kv :: rest => Some (max_by_count kv rest)
  end.

(** Truth value of a result that is None or a string. *)
Definition resolved_ok (r : option string) : bool :=
  match r with
  | Some s => truthy s
  | None => false
  end.

(** [_trace_uv_map_name_from_socket(nt, socket, mat, visited_nodes, depth)].
    The source gives up when [depth > 8]; [budget] is [9 - depth], so the
    first call has budget 9.  [visited_nodes] is one set shared by all the
    calls: it is passed in and handed back. *)
Fixpoint _trace_uv_map_name_from_socket (budget : nat) (objs : list Object)
    (nt : NodeTree) (socket : option SocketRef) (mat : nat)
    (visited_nodes : gset nat) : option string * gset nat :=
  match budget, socket with
  | O, _ => (None, visited_nodes)
  | _, None => (None, visited_nodes)
  | S budget', Some socket =>
      (fix over_links (ls : list NodeLink) (visited : gset nat) {struct ls}
         : option string * gset nat :=
         match ls with
         | [] => (None, visited)
         | link :: rest =>
             if negb ((to_node link =? sock_node socket)%nat
                      && (to_socket link =? sock_index socket)%nat)
             then over_links rest visited
             else
               match find_node (from_node link) nt with
               | None => over_links rest visited
               | Some from_node =>
                   let node_ptr := as_pointer from_node in
                   if bool_decide (node_ptr ∈ visited) then over_links rest visited
                   else
                     let visited := {[ node_ptr ]} ∪ visited in
                     if (node_type from_node =? "UVMAP") && truthy (uv_map from_node)
                     then (Some (uv_map from_node), visited)
                     else if (node_type from_node =? "TEX_COORD")
                             && bool_decide (from_socket_name nt link = Some "UV")
                     then (_guess_active_uv_for_material objs mat, visited)
                     else if (node_type from_node =? "ATTRIBUTE")
                             && truthy (attribute_name from_node)
                     then (Some (attribute_name from_node), visited)
                     else
                       let '(resolved, visited) :=
                         fold_left
                           (fun acc i =>
                              if resolved_ok (fst acc) then acc
                              else _trace_uv_map_name_from_socket budget' objs nt
                                     (Some {| sock_node := node_ptr; sock_index := i |})
                                     mat (snd acc))
                           (seq 0 (length (inputs from_node))) (None, visited) in
                       if resolved_ok resolved then (resolved, visited)
                       else over_links rest visited
               end
         end) (links nt) visited_nodes
  end.

(** [_resolve_uv_map_for_image_node(nt, img_node, mat)] *)
Definition _resolve_uv_map_for_image_node (objs : list Object) (nt : NodeTree)
    (img_node : Node) (mat : nat) : option string :=
  if negb (node_type img_node =? "TEX_IMAGE") then None
  else
    let vector_input :=
      option_map (fun i => {| sock_node := as_pointer img_node; sock_index := i |})
                 (socket_index "Vector" (inputs img_node)) in
    let resolved :=
      fst (_trace_uv_map_name_from_socket 9 objs nt vector_input mat ∅) in
    if resolved_ok resolved then resolved
    else _guess_active_uv_for_material objs mat.

(** One entry of [detected_textures]. *)
Record texture_info := {
  info_image : Image;
  uv_map_name : option string;
  image_node : nat }.

(** [channel_detection]: channel, keywords, connection targets. *)
Definition channel_detection : list (string * list string * list string) :=
  [ ("diffuse", ["diffuse"; "base"; "color"; "albedo"], ["Base Color"; "Color"]);
    ("specular", ["specular"; "spec"], ["Specular"; "Specular IOR Level"; "Specular Tint"]);
    ("normal", ["normal"; "norm"; "nrm"], ["Normal"]);
    ("lightmap", ["lightmap"; "light"; "lm"; "emission"], ["Emission"; "Color"]);
    ("detail", ["detail"; "det"], []);
    ("macro_overlay", ["macro"; "overlay"], []);
    ("environment", ["environment"; "env"; "reflection"], []);
    ("decal", ["decal"], []);
    ("transparent", ["transparent"; "alpha"], ["Alpha"]);
    ("noise", ["noise"], []) ].

(** Number of elements of [l] on which [f] holds. *)
Definition count_if {A : Type} (f : A -> bool) (l : list A) : nat :=
  length (List.filter f l).

(** The links leaving [img_node]. *)
Definition links_from (nt : NodeTree) (img_node : Node) : list NodeLink :=
  List.filter (fun link => (from_node link =? as_pointer img_node)%nat) (links nt).

(** [connected_targets]: for each link leaving the node, the name of the
    socket it enters and the type of that socket's node. *)
Definition connected_targets (nt : NodeTree) (img_node : Node) : list string :=
  flat_map (fun link =>
              match find_node (to_node link) nt with
              | Some to_node =>
                  match nth_error (inputs to_node) (to_socket link) with
                  | Some to_socket => [sock_name to_socket; node_type to_node]
                  | None => []
                  end
              | None => []
              end) (links_from nt img_node).

(** The score of one channel for one image node. *)
Definition channel_score (nt : NodeTree) (img_node : Node) (node_name_lower : string)
    (channel_name : string) (keywords targets : list string) : nat :=
  let targets_hit := connected_targets nt img_node in
  let out := links_from nt img_node in
  (10 * count_if (fun keyword => contains keyword node_name_lower) keywords
   + 20 * count_if (fun target => str_in target targets_hit) targets
   + (if (channel_name =? "lightmap")%string
      then 30 * count_if (fun link =>
                  match find_node (to_node link) nt with
                  | Some to_node => (node_type to_node =? "EMISSION")%string
                  | None => false
                  end) out
      else 0)
   + (if (channel_name =? "normal")%string
      then 30 * count_if (fun link =>
                  match find_node (to_node link) nt with
                  | Some to_node =>
                      (node_type to_node =? "NORMAL_MAP")%string
                      || str_in "Normal" (map sock_name (inputs to_node))
                  | None => false
                  end) out
      else 0)
   + (if (channel_name =? "diffuse")%string
      then 30 * count_if (fun link =>
                  match find_node (to_node link) nt with
                  | Some to_node =>
                      match nth_error (inputs to_node) (to_socket link) with
                      | Some to_socket =>
                          (contains "Base Color" (sock_name to_socket)
                           || contains "Color" (sock_name to_socket))
                          && str_in (node_type to_node) ["BSDF_PRINCIPLED"; "BSDF_DIFFUSE"]
                      | None => false
                      end
                  | None => false
                  end) out
      else 0)
   + (if (channel_name =? "specular")%string
      then 30 * count_if (fun link =>
                  match find_node (to_node link) nt with
                  | Some to_node =>
                      match nth_error (inputs to_node) (to_socket link) with
                      | Some to_socket => contains "Specular" (sock_name to_socket)
                      | None => false
                      end
                  | None => false
                  end) out
      else 0))%nat.

(** The channel with the greatest score, the first one on a tie, with its
    score: [best_match] and [best_score]. *)
Definition best_channel (nt : NodeTree) (img_node : Node) : option string * nat :=
  let node_name_lower := lower (node_name img_node ++ " " ++ node_label img_node) in
  fold_left
    (fun best entry =>
       let '(channel_name, keywords, targets) := entry in
       let score := channel_score nt img_node node_name_lower channel_name keywords targets in
       if (snd best <? score)%nat then (Some channel_name, score) else best)
    channel_detection (None, 0%nat).

(** [_detect_textures_from_node_tree(mat)]: the dict of detected channels,
    in insertion order. *)
Definition _detect_textures_from_node_tree (objs : list Object) (mat_ptr : nat)
    (mat : Material) : list (string * texture_info) :=
  if negb (use_nodes mat) then []
  else
    match node_tree mat with
    | None => []
    | Some nt =>
        let image_nodes :=
          List.filter (fun node => (node_type node =? "TEX_IMAGE")
                              && bool_decide (is_Some (image node))) (nodes nt) in
        fold_left
          (fun detected_textures img_node =>
             match image img_node with
             | None => detected_textures
             | Some img =>
                 match best_channel nt img_node with
                 | (Some best_match, best_score) =>
                     if (0 <? best_score)%nat
                        && negb (bool_decide (is_Some (dict_get best_match detected_textures)))
                     then (detected_textures ++
                          [ (best_match,
                             {| info_image := img;
                                uv_map_name :=
                                  _resolve_uv_map_for_image_node objs nt img_node mat_ptr;
                                image_node := as_pointer img_node |}) ])%list
                     else detected_textures
                 | (None, _) => detected_textures
                 end
             end)
          image_nodes []
    end.

(* ===================================================================== *)
(** ** The add-on: building and updating the node tree *)
(* ===================================================================== *)

Definition empty_tree : NodeTree := {| nodes := []; links := [] |}.

(** The tree the host gives a material when [use_nodes] is switched on and
    the material has none: a Principled BSDF wired to a Material Output. *)
Definition default_node_tree : NodeTree :=
  fst ((bsdf <- nodes_new "ShaderNodeBsdfPrincipled" ;;
        out <- nodes_new "ShaderNodeOutputMaterial" ;;
        o <- outputs_item bsdf "BSDF" ;;
        i <- inputs_item out "Surface" ;;
        new_link o i) empty_tree).

(** [mat.use_nodes = True] *)
Definition set_use_nodes_true (mat : Material) : Material :=
  {| material_name := material_name mat;
     use_nodes := true;
     node_tree := match node_tree mat with
                  | Some nt => Some nt
                  | None => Some default_node_tree
                  end;
     blenrose_settings := blenrose_settings mat |}.

(** [for x in l: f(x)] *)
Fixpoint for_each {A : Type} (l : list A) (f : A -> M unit) : M unit :=
  match l with
  | [] => ret tt
  | x :: rest => f x ;; for_each rest f
  end.

(** [if cond: body] *)
Definition when (cond : bool) (body : M unit) : M unit :=
  if cond then body else ret tt.

(** A UV Map node and an Image Texture node wired to it, as the source
    makes them for the diffuse, normal, specular and lightmap channels:
    [uv = nt.nodes.new("ShaderNodeUVMap")], its name and location, its
    [uv_map] when the setting has a name; [tex = nt.nodes.new(
    "ShaderNodeTexImage")], its name, label, location and image; and the
    link from [uv.outputs["UV"]] to [tex.inputs["Vector"]]. *)
Definition uv_and_texture (uv_node_name : string) (uv_location : Z * Z) (uv_name : string)
    (tex_node_name tex_label : string) (tex_location : Z * Z) (tex_image : option Image)
    : M (nat * nat) :=
  uv <- nodes_new "ShaderNodeUVMap" ;;
  set_attr uv (set_name uv_node_name) ;;
  set_attr uv (set_location uv_location) ;;
  when (truthy uv_name) (set_attr uv (set_uv_map uv_name)) ;;
  tex <- nodes_new "ShaderNodeTexImage" ;;
  set_attr tex (set_name tex_node_name) ;;
  set_attr tex (set_label tex_label) ;;
  set_attr tex (set_location tex_location) ;;
  set_attr tex (set_image tex_image) ;;
  o <- outputs_item uv "UV" ;;
  i <- inputs_item tex "Vector" ;;
  new_link o i ;;
  ret (uv, tex).

(** The statements of [_build_blenrose_node_tree] that make the nodes and
    the links, from "Create output node" to the end. *)
Definition create_nodes (objs : list Object) (settings : BlenroseMaterialSettings) : M unit :=
  (* Create output node *)
  out <- nodes_new "ShaderNodeOutputMaterial" ;;
  set_attr out (set_location (600, 0)%Z) ;;
  (* Create BSDF *)
  bsdf <- nodes_new "ShaderNodeBsdfPrincipled" ;;
  set_attr bsdf (set_name "BR_BSDF") ;;
  set_attr bsdf (set_location (200, 0)%Z) ;;
  (* Mix Shader blends BSDF with lightmap emission *)
  mix_shader <- nodes_new "ShaderNodeMixShader" ;;
  set_attr mix_shader (set_name "BR_MixShader") ;;
  set_attr mix_shader (set_location (400, 100)%Z) ;;
  (* Emission shader for lightmap *)
  emit <- nodes_new "ShaderNodeEmission" ;;
  set_attr emit (set_name "BR_Emission") ;;
  set_attr emit (set_location (200, 200)%Z) ;;
  (* Diffuse *)
  diff <- uv_and_texture "BR_DiffuseUV" (-800, 200)%Z (getattr_uv objs settings "diffuse_uv")
            "BR_DiffuseTex" "DiffuseTexture" (-600, 200)%Z (getattr_tex settings "diffuse_tex") ;;
  base_color_result <- outputs_item (snd diff) "Color" ;;
  (* Normal *)
  norm <- uv_and_texture "BR_NormalUV" (-800, 0)%Z (getattr_uv objs settings "normal_uv")
            "BR_NormalTex" "NormalTexture" (-600, 0)%Z (getattr_tex settings "normal_tex") ;;
  normal_map <- nodes_new "ShaderNodeNormalMap" ;;
  set_attr normal_map (set_location (-400, 0)%Z) ;;
  set_attr normal_map (set_name "BR_NormalMap") ;;
  o <- outputs_item (snd norm) "Color" ;;
  i <- inputs_item normal_map "Color" ;;
  new_link o i ;;
  base_normal_result <- outputs_item normal_map "Normal" ;;
  (* Specular *)
  spec <- uv_and_texture "BR_SpecularUV" (-800, -200)%Z (getattr_uv objs settings "specular_uv")
            "BR_SpecularTex" "SpecularTexture" (-600, -200)%Z
            (getattr_tex settings "specular_tex") ;;
  has_specular <- inputs_has bsdf "Specular" ;;
  has_ior_level <- inputs_has bsdf "Specular IOR Level" ;;
  has_tint <- inputs_has bsdf "Specular Tint" ;;
  specular_input <-
    (if has_specular : bool then s <- inputs_item bsdf "Specular" ;; ret (Some s)
     else if has_ior_level : bool then s <- inputs_item bsdf "Specular IOR Level" ;; ret (Some s)
     else if has_tint : bool then s <- inputs_item bsdf "Specular Tint" ;; ret (Some s)
     else ret None) ;;
  match specular_input with
  | Some specular_input =>
      separate_rgb <- nodes_new "ShaderNodeSeparateRGB" ;;
      set_attr separate_rgb (set_location (-400, -200)%Z) ;;
      set_attr separate_rgb (set_label "Specular Extract") ;;
      o <- outputs_item (snd spec) "Color" ;;
      i <- inputs_item separate_rgb "Image" ;;
      new_link o i ;;
      o <- outputs_item separate_rgb "R" ;;
      new_link o specular_input
  | None => ret tt
  end ;;
  (* Lightmap as emission contribution *)
  light <- uv_and_texture "BR_LightmapUV" (-800, 400)%Z (getattr_uv objs settings "lightmap_uv")
             "BR_LightmapTex" "LightMapTexture" (-600, 400)%Z
             (getattr_tex settings "lightmap_tex") ;;
  (* Always connect lightmap texture Color output to Emission Color input *)
  o <- outputs_item (snd light) "Color" ;;
  i <- inputs_item emit "Color" ;;
  new_link o i ;;
  (* Always connect Emission to Mix Shader input 2 *)
  o <- outputs_item emit "Emission" ;;
  i <- inputs_at mix_shader 2 ;;
  new_link o i ;;
  (* Set Mix Shader Fac to 0.02 *)
  on_node mix_shader (assign_input "Fac" (Float 0.02)) ;;
  (* Detail Normal with UV Scale *)
  base_normal_result <-
    (if bool_decide (is_Some (getattr_tex settings "detail_tex")) then
       uv_detail <- nodes_new "ShaderNodeUVMap" ;;
       set_attr uv_detail (set_name "BR_DetailUV") ;;
       set_attr uv_detail (set_location (-1000, -100)%Z) ;;
       when (truthy (getattr_uv objs settings "detail_uv"))
            (set_attr uv_detail (set_uv_map (getattr_uv objs settings "detail_uv"))) ;;
       detail_mapping <- nodes_new "ShaderNodeMapping" ;;
       set_attr detail_mapping (set_name "BR_DetailMapping") ;;
       set_attr detail_mapping (set_location (-800, -100)%Z) ;;
       on_node detail_mapping
         (assign_input "Scale" (Vector3 (detail_normal_uv_scale settings)
                                        (detail_normal_uv_scale settings) 1.0)) ;;
       o <- outputs_item uv_detail "UV" ;;
       i <- inputs_item detail_mapping "Vector" ;;
       new_link o i ;;
       tex_detail <- nodes_new "ShaderNodeTexImage" ;;
       set_attr tex_detail (set_name "BR_DetailTex") ;;
       set_attr tex_detail (set_label "DetailTexture") ;;
       set_attr tex_detail (set_location (-600, -100)%Z) ;;
       set_attr tex_detail (set_image (getattr_tex settings "detail_tex")) ;;
       o <- outputs_item detail_mapping "Vector" ;;
       i <- inputs_item tex_detail "Vector" ;;
       new_link o i ;;
       detail_normal_map <- nodes_new "ShaderNodeNormalMap" ;;
       set_attr detail_normal_map (set_location (-400, -100)%Z) ;;
       set_attr detail_normal_map (set_label "Detail Normal Map") ;;
       o <- outputs_item tex_detail "Color" ;;
       i <- inputs_item detail_normal_map "Color" ;;
       new_link o i ;;
       normal_mix <- nodes_new "ShaderNodeMixRGB" ;;
       set_attr normal_mix (set_location (-200, 0)%Z) ;;
       set_attr normal_mix (set_name "BR_NormalMix") ;;
       set_attr normal_mix (set_blend_type "MIX") ;;
       on_node normal_mix (assign_input "Fac" (Float 0.5)) ;;
       i <- inputs_item normal_mix "Color1" ;;
       new_link base_normal_result i ;;
       o <- outputs_item detail_normal_map "Normal" ;;
       i <- inputs_item normal_mix "Color2" ;;
       new_link o i ;;
       outputs_item normal_mix "Color"
     else ret base_normal_result) ;;
  (* Connect final normal *)
  i <- inputs_item bsdf "Normal" ;;
  new_link base_normal_result i ;;
  (* Macro Overlay with UV Scale and Opacity *)
  base_color_result <-
    (if bool_decide (is_Some (getattr_tex settings "macro_overlay_tex")) then
       uv_macro <- nodes_new "ShaderNodeUVMap" ;;
       set_attr uv_macro (set_name "BR_MacroOverlayUV") ;;
       set_attr uv_macro (set_location (-1000, 300)%Z) ;;
       when (truthy (getattr_uv objs settings "macro_overlay_uv"))
            (set_attr uv_macro (set_uv_map (getattr_uv objs settings "macro_overlay_uv"))) ;;
       macro_mapping <- nodes_new "ShaderNodeMapping" ;;
       set_attr macro_mapping (set_name "BR_MacroMapping") ;;
       set_attr macro_mapping (set_location (-800, 300)%Z) ;;
       on_node macro_mapping
         (assign_input "Scale" (Vector3 (macro_overlay_uv_scale settings)
                                        (macro_overlay_uv_scale settings) 1.0)) ;;
       o <- outputs_item uv_macro "UV" ;;
       i <- inputs_item macro_mapping "Vector" ;;
       new_link o i ;;
       tex_macro <- nodes_new "ShaderNodeTexImage" ;;
       set_attr tex_macro (set_name "BR_MacroOverlayTex") ;;
       set_attr tex_macro (set_label "MacroOverlayTexture") ;;
       set_attr tex_macro (set_location (-600, 300)%Z) ;;
       set_attr tex_macro (set_image (getattr_tex settings "macro_overlay_tex")) ;;
       o <- outputs_item macro_mapping "Vector" ;;
       i <- inputs_item tex_macro "Vector" ;;
       new_link o i ;;
       macro_mix <- nodes_new "ShaderNodeMixRGB" ;;
       set_attr macro_mix (set_name "BR_MacroMix") ;;
       set_attr macro_mix (set_location (-400, 250)%Z) ;;
       set_attr macro_mix (set_blend_type "MIX") ;;
       on_node macro_mix (assign_input "Fac" (Float (macro_overlay_opacity settings))) ;;
       i <- inputs_item macro_mix "Color1" ;;
       new_link base_color_result i ;;
       o <- outputs_item tex_macro "Color" ;;
       i <- inputs_item macro_mix "Color2" ;;
       new_link o i ;;
       outputs_item macro_mix "Color"
     else ret base_color_result) ;;
  (* Connect final base color *)
  i <- inputs_item bsdf "Base Color" ;;
  new_link base_color_result i ;;
  (* Principled BSDF to Mix Shader input 1, Mix Shader to Material Output *)
  o <- outputs_item bsdf "BSDF" ;;
  i <- inputs_at mix_shader 1 ;;
  new_link o i ;;
  o <- outputs_item mix_shader "Shader" ;;
  i <- inputs_item out "Surface" ;;
  new_link o i.

(** The statements of [_build_blenrose_node_tree] on the tree [nt]: clear
    all existing nodes, then make the Blenrose setup. *)
Definition build_nodes (objs : list Object) (settings : BlenroseMaterialSettings) : M unit :=
  nodes_clear ;;
  create_nodes objs settings.

(** [_build_blenrose_node_tree(mat)] *)
Definition _build_blenrose_node_tree (objs : list Object) (mat : Material)
    : Material * result unit :=
  let mat := if use_nodes mat then mat else set_use_nodes_true mat in
  match node_tree mat with
  | None => (mat, Raised AttributeError)
  | Some nt =>
      let '(nt', r) := build_nodes objs (blenrose_settings mat) nt in
      (set_node_tree (Some nt') mat, r)
  end.

Definition critical_nodes : list string := ["BR_BSDF"; "BR_MixShader"; "BR_Emission"].

Definition texture_mappings : list (string * string) :=
  [ ("BR_DiffuseTex", "diffuse_tex"); ("BR_LightmapTex", "lightmap_tex");
    ("BR_SpecularTex", "specular_tex"); ("BR_NormalTex", "normal_tex");
    ("BR_DetailTex", "detail_tex"); ("BR_MacroOverlayTex", "macro_overlay_tex");
    ("BR_EnvironmentTex", "environment_tex"); ("BR_DecalTex", "decal_tex");
    ("BR_TransparentTex", "transparent_tex"); ("BR_NoiseTex", "noise_tex") ].

Definition uv_mappings : list (string * string) :=
  [ ("BR_DiffuseUV", "diffuse_uv"); ("BR_LightmapUV", "lightmap_uv");
    ("BR_SpecularUV", "specular_uv"); ("BR_NormalUV", "normal_uv");
    ("BR_DetailUV", "detail_uv"); ("BR_MacroOverlayUV", "macro_overlay_uv");
    ("BR_EnvironmentUV", "environment_uv"); ("BR_DecalUV", "decal_uv");
    ("BR_TransparentUV", "transparent_uv"); ("BR_NoiseUV", "noise_uv") ].

(** [tex_node.image = getattr(self, prop_name, None)] on an Image Texture
    node. *)
Definition update_texture (settings : BlenroseMaterialSettings) (prop_name : string)
    (nt : NodeTree) (tex_node : Node) : effect :=
  if node_type tex_node =? "TEX_IMAGE"
  then Assign (set_image (getattr_tex settings prop_name) tex_node)
  else Pass.

(** [uv_node.uv_map = uv_name] on a UV Map node, when the name is not
    empty. *)
Definition update_uv (objs : list Object) (settings : BlenroseMaterialSettings)
    (prop_name : string) (nt : NodeTree) (uv_node : Node) : effect :=
  if node_type uv_node =? "UVMAP"
  then let uv_name := getattr_uv objs settings prop_name in
       if truthy uv_name then Assign (set_uv_map uv_name uv_node) else Pass
  else Pass.

(** [if mix_shader_node.inputs["Fac"].is_linked == False:
       mix_shader_node.inputs["Fac"].default_value = 0.02] *)
Definition update_mix_fac (nt : NodeTree) (mix_shader_node : Node) : effect :=
  match socket_index "Fac" (inputs mix_shader_node) with
  | None => Raise KeyError
  | Some i =>
      if negb (is_linked {| sock_node := as_pointer mix_shader_node; sock_index := i |} nt)
      then assign_input "Fac" (Float 0.02) mix_shader_node
      else Pass
  end.

(** The link from the lightmap texture's Color to the emission's Color is
    there. *)
Definition connection_exists (nt : NodeTree) (lightmap_tex_node emit_node : Node) : bool :=
  existsb (fun link =>
             (from_node link =? as_pointer lightmap_tex_node)%nat
             && (to_node link =? as_pointer emit_node)%nat
             && bool_decide (from_socket_name nt link = Some "Color")
             && bool_decide (to_socket_name nt link = Some "Color"))
          (links nt).

(** Update lightmap-to-emission connection. *)
Definition connect_lightmap : M unit :=
  fun nt =>
    match nodes_get "BR_Emission" nt, nodes_get "BR_LightmapTex" nt with
    | Some emit_node, Some lightmap_tex_node =>
        if connection_exists nt lightmap_tex_node emit_node then (nt, Ok tt)
        else (o <- outputs_item (as_pointer lightmap_tex_node) "Color" ;;
              i <- inputs_item (as_pointer emit_node) "Color" ;;
              new_link o i) nt
    | _, _ => (nt, Ok tt)
    end.

(** The updates of [_update_all_blenrose_nodes] when no critical node is
    missing. *)
Definition update_nodes (objs : list Object) (settings : BlenroseMaterialSettings) : M unit :=
  (* Update all texture nodes *)
  for_each texture_mappings
    (fun m => with_node (fst m) (update_texture settings (snd m))) ;;
  (* Update all UV map nodes *)
  for_each uv_mappings
    (fun m => with_node (fst m) (update_uv objs settings (snd m))) ;;
  (* Detail Normal UV Scale *)
  with_node "BR_DetailMapping"
    (fun _ detail_mapping =>
       assign_input "Scale" (Vector3 (detail_normal_uv_scale settings)
                                     (detail_normal_uv_scale settings) 1.0) detail_mapping) ;;
  (* Macro Overlay UV Scale *)
  with_node "BR_MacroMapping"
    (fun _ macro_mapping =>
       assign_input "Scale" (Vector3 (macro_overlay_uv_scale settings)
                                     (macro_overlay_uv_scale settings) 1.0) macro_mapping) ;;
  (* Macro Overlay Opacity *)
  with_node "BR_MacroMix"
    (fun _ macro_mix =>
       assign_input "Fac" (Float (macro_overlay_opacity settings)) macro_mix) ;;
  (* Update Mix Shader Fac to 0.02 *)
  with_node "BR_MixShader" update_mix_fac ;;
  (* Update lightmap-to-emission connection *)
  connect_lightmap.

(** Some critical node is missing. *)
Definition missing_critical (nt : NodeTree) : bool :=
  existsb (fun node_name => negb (bool_decide (is_Some (nodes_get node_name nt))))
          critical_nodes.

(** [bpy.data.materials[self] = mat] *)
Definition store_material (self : nat) (mat : Material) (w : World) : World :=
  set_materials (<[ self := mat ]> (materials w)) w.

(** [_update_all_blenrose_nodes(self, context)].  [self] is given by the
    pointer of the material that owns the settings. *)
Definition _update_all_blenrose_nodes (self : nat) (w : World) : World * result unit :=
  match materials w !! self with
  | None => (w, Ok tt)
  | Some mat =>
      if bool_decide (self ∈ _SUPPRESSED_UPDATE_MATERIALS w) then (w, Ok tt)
      else
        (* Ensure nodes are enabled *)
        let mat := if use_nodes mat then mat else set_use_nodes_true mat in
        match node_tree mat with
        | None => (store_material self mat w, Ok tt)
        | Some nt =>
            if missing_critical nt then
              (* If critical nodes are missing, rebuild the entire tree *)
              let '(mat', r) := _build_blenrose_node_tree (objects w) mat in
              (store_material self mat' w, r)
            else
              let '(nt', r) := update_nodes (objects w) (blenrose_settings mat) nt in
              (store_material self (set_node_tree (Some nt') mat) w, r)
        end
  end.

(** Assigning a property of the settings runs the property's update
    callback; what the callback raises is reported by the host and goes no
    further.  Every texture and UV property has
    [_update_all_blenrose_nodes] for its callback. *)
Definition setattr_tex (self : nat) (tex_prop : string) (img : Image) (w : World) : World :=
  match materials w !! self with
  | None => w
  | Some mat =>
      let settings := blenrose_settings mat in
      let w := store_material self
                 (set_settings (set_textures (<[ tex_prop := img ]> (textures settings))
                                             settings) mat) w in
      fst (_update_all_blenrose_nodes self w)
  end.

Definition setattr_uv (self : nat) (uv_prop : string) (ident : string) (w : World) : World :=
  match materials w !! self with
  | None => w
  | Some mat =>
      let settings := blenrose_settings mat in
      match enum_value (uv_channel_items (objects w)) ident with
      | None => w
      | Some value =>
          let w := store_material self
                     (set_settings (set_uv_enums (<[ uv_prop := value ]> (uv_enums settings))
                                                 settings) mat) w in
          fst (_update_all_blenrose_nodes self w)
      end
  end.

Definition texture_prop_map : list (string * string) :=
  [ ("diffuse", "diffuse_tex"); ("lightmap", "lightmap_tex"); ("specular", "specular_tex");
    ("normal", "normal_tex"); ("detail", "detail_tex");
    ("macro_overlay", "macro_overlay_tex"); ("environment", "environment_tex");
    ("decal", "decal_tex"); ("transparent", "transparent_tex"); ("noise", "noise_tex") ].

Definition uv_prop_map : list (string * string) :=
  [ ("diffuse", "diffuse_uv"); ("lightmap", "lightmap_uv"); ("specular", "specular_uv");
    ("normal", "normal_uv"); ("detail", "detail_uv");
    ("macro_overlay", "macro_overlay_uv"); ("environment", "environment_uv");
    ("decal", "decal_uv"); ("transparent", "transparent_uv"); ("noise", "noise_uv") ].

(** The settings of the material [self], as the loop reads them. *)
Definition settings_of (self : nat) (w : World) : option BlenroseMaterialSettings :=
  option_map blenrose_settings (materials w !! self).

(** One round of the loop over [detected.items()]. *)
Definition auto_fill_channel (self : nat) (update_existing : bool) (w : World)
    (entry : string * texture_info) : World :=
  let '(channel_name, info) := entry in
  let w :=
    match dict_get channel_name texture_prop_map with
    | Some tex_prop =>
        (* Update texture (respecting update_existing flag) *)
        let current_image := settings_of self w ≫= (fun s => getattr_tex s tex_prop) in
        if update_existing || negb (bool_decide (is_Some current_image))
        then setattr_tex self tex_prop (info_image info) w
        else w
    | None => w
    end in
  match dict_get channel_name uv_prop_map with
  | Some uv_prop =>
      match uv_map_name info with
      | Some name =>
          if truthy name then
            match find (fun item => (identifier item =? name) || (snd (fst item) =? name))
                       (uv_channel_items (objects w)) with
            | Some item => setattr_uv self uv_prop (identifier item) w
            | None => w
            end
          else w
      | None => w
      end
  | None => w
  end.

(** [_auto_fill_textures_from_node_tree(settings, update_existing=False)] *)
Definition _auto_fill_textures_from_node_tree (self : nat) (update_existing : bool)
    (w : World) : World :=
  match materials w !! self with
  | None => w
  | Some mat =>
      let mat_ptr := self in
      let detected := _detect_textures_from_node_tree (objects w) mat_ptr mat in
      let w := set_suppressed ({[ mat_ptr ]} ∪ _SUPPRESSED_UPDATE_MATERIALS w) w in
      let w := fold_left (auto_fill_channel self update_existing) detected w in
      set_suppressed (_SUPPRESSED_UPDATE_MATERIALS w ∖ {[ mat_ptr ]}) w
  end.

(** [nodes_to_remove = [node for node in nt.nodes if node.name.startswith("BR_")]]
    and [for node in nodes_to_remove: nt.nodes.remove(node)] *)
Definition remove_blenrose_nodes (nt : NodeTree) : NodeTree :=
  let nodes_to_remove := List.filter (fun node => startswith (node_name node) "BR_") (nodes nt) in
  fold_left (fun nt' node => nodes_remove (as_pointer node) nt') nodes_to_remove nt.

(** [_update_enabled(self, context)], the update callback of [enabled]. *)
Definition _update_enabled (self : nat) (w : World) : World * result unit :=
  match materials w !! self with
  | None => (w, Ok tt)
  | Some mat =>
      if enabled (blenrose_settings mat) then
        (* Before building, try to auto-detect textures from existing node tree *)
        let w := if use_nodes mat && bool_decide (is_Some (node_tree mat))
                 then _auto_fill_textures_from_node_tree self false w
                 else w in
        (* Build the node tree *)
        match materials w !! self with
        | None => (w, Ok tt)
        | Some mat =>
            let '(mat', r) := _build_blenrose_node_tree (objects w) mat in
            (store_material self mat' w, r)
        end
      else
        (* Remove Blenrose nodes if material uses nodes *)
        if use_nodes mat then
          match node_tree mat with
          | Some nt =>
              (store_material self (set_node_tree (Some (remove_blenrose_nodes nt)) mat) w,
               Ok tt)
          | None => (w, Ok tt)
          end
        else (w, Ok tt)
  end.

(** [settings.enabled = b]: the assignment and the property's update
    callback. *)
Definition setattr_enabled (self : nat) (b : bool) (w : World) : World :=
  match materials w !! self with
  | None => w
  | Some mat =>
      let w := store_material self
                 (set_settings (set_enabled b (blenrose_settings mat)) mat) w in
      fst (_update_enabled self w)
  end.

(* ===================================================================== *)
(** ** The add-on: material class and subclass *)
(* ===================================================================== *)

(** [material_subclass_items(self, context)], the items callback of
    [material_subclass]. *)
Definition material_subclass_items (self : BlenroseMaterialSettings)
    : list (string * string * string) :=
  let material_class := material_class self in
  if truthy material_class then
    match dict_get material_class MATERIAL_SUBCLASSES with
    | Some items => items
    | None => MATERIAL_SUBCLASS_FALLBACK
    end
  else MATERIAL_SUBCLASS_FALLBACK.

(** [settings.material_subclass], read. *)
Definition getattr_material_subclass (settings : BlenroseMaterialSettings) : string :=
  enum_identifier (material_subclass_items settings) (material_subclass settings).

(** [settings.material_class = c].  The property is declared with the
    items [MATERIAL_CLASS_ITEMS] and no update callback: the assignment
    stores the class and nothing else. *)
Definition setattr_material_class (c : string) (settings : BlenroseMaterialSettings)
    : result BlenroseMaterialSettings :=
  if str_in c (map identifier MATERIAL_CLASS_ITEMS)
  then Ok (set_material_class c settings)
  else Raised TypeError.

(** [settings.material_subclass = ident] *)
Definition setattr_material_subclass (ident : string) (settings : BlenroseMaterialSettings)
    : result BlenroseMaterialSettings :=
  match enum_value (material_subclass_items settings) ident with
  | Some value => Ok (set_material_subclass value settings)
  | None => Raised TypeError
  end.

(* ===================================================================== *)
(** ** The add-on: bulk export *)
(* ===================================================================== *)

(** [min(a, b)] and [max(a, b)] on floats: the first argument unless the
    second is strictly smaller (greater). *)
Definition py_min (a b : float) : float := if PrimFloat.ltb b a then b else a.
Definition py_max (a b : float) : float := if PrimFloat.ltb a b then b else a.

(** [min(f(p) for p in points)] over a non-empty list. *)
Definition min_of (f : Vec -> float) (first : Vec) (rest : list Vec) : float :=
  fold_left (fun m p => py_min m (f p)) rest (f first).

Definition max_of (f : Vec -> float) (first : Vec) (rest : list Vec) : float :=
  fold_left (fun m p => py_max m (f p)) rest (f first).

Definition vx (p : Vec) : float := fst (fst p).
Definition vy (p : Vec) : float := snd (fst p).
Definition vz (p : Vec) : float := snd p.

(** A bounding box [{"min": [x, y, z], "max": [x, y, z]}]. *)
Record BBox := { bbox_min : Vec; bbox_max : Vec }.

(** [_calculate_bbox_from_points(points)] *)
Definition _calculate_bbox_from_points (points : list Vec) : option BBox :=
  match points with
  | [] => None
  | first :: rest =>
      let min_x := min_of vx first rest in
      let max_x := max_of vx first rest in
      let min_y := min_of vy first rest in
      let max_y := max_of vy first rest in
      let min_z := min_of vz first rest in
      let max_z := max_of vz first rest in
      Some {| bbox_min := (min_x, min_y, min_z); bbox_max := (max_x, max_y, max_z) |}
  end.

(** [_bbox_intersects(bbox1, bbox2)] *)
Definition _bbox_intersects (bbox1 bbox2 : option BBox) : bool :=
  match bbox1, bbox2 with
  | Some bbox1, Some bbox2 =>
      PrimFloat.leb (vx (bbox_min bbox1)) (vx (bbox_max bbox2))
      && PrimFloat.leb (vx (bbox_min bbox2)) (vx (bbox_max bbox1))
      && PrimFloat.leb (vy (bbox_min bbox1)) (vy (bbox_max bbox2))
      && PrimFloat.leb (vy (bbox_min bbox2)) (vy (bbox_max bbox1))
      && PrimFloat.leb (vz (bbox_min bbox1)) (vz (bbox_max bbox2))
      && PrimFloat.leb (vz (bbox_min bbox2)) (vz (bbox_max bbox1))
  | _, _ => false
  end.

(** One entry of the list [_extract_splines_from_scene] returns. *)
Record SplineRecord := {
  spline_name : string;
  spline_points : list Vec;
  is_closed : bool;
  spline_kind : string;
  spline_bbox : option BBox }.

(** One value of the material document. *)
Record MaterialData := {
  data_material_name : string;
  data_enabled : bool;
  data_material_class : string;
  data_material_subclass : string;
  data_notes : string;
  data_textures : list (string * (option string * string));
  data_scalars : float * float * float * float;
  data_collision : string * string * string;
  data_splines : list SplineRecord }.

Definition set_splines (l : list SplineRecord) (d : MaterialData) : MaterialData :=
  {| data_material_name := data_material_name d; data_enabled := data_enabled d;
     data_material_class := data_material_class d;
     data_material_subclass := data_material_subclass d; data_notes := data_notes d;
     data_textures := data_textures d; data_scalars := data_scalars d;
     data_collision := data_collision d; data_splines := l |}.

(** [d[k] = v] on a dict kept in insertion order. *)
Fixpoint dict_set {V : Type} (k : string) (v : V) (d : list (string * V)) : list (string * V) :=
  match d with
  | [] => [(k, v)]
  | (k', v') :: rest => if k' =? k then (k', v) :: rest else (k', v') :: dict_set k v rest
  end.

Section BulkExport.

(** Two host functions: [matrix @ vector] of mathutils, and
    [bpy.path.abspath]. *)
Variable matmul : Matrix -> Vec -> Vec.
Variable abspath : string -> string.

(** The accumulator of [_calculate_bbox_for_objects]:
    min_x, min_y, min_z, max_x, max_y, max_z. *)
Definition bbox_acc : Type := float * float * float * (float * float * float).

(** The body of the loop over the corners of one object. *)
Definition bbox_add_corner (acc : bbox_acc) (corner : Vec) : bbox_acc :=
  let '(min_x, min_y, min_z, (max_x, max_y, max_z)) := acc in
  (* COORDINATE TRANSFORM: Blender -> PSG Game Space *)
  let psg_x := vx corner in
  let psg_y := vz corner in
  let psg_z := PrimFloat.opp (vy corner) in
  (py_min min_x psg_x, py_min min_y psg_y, py_min min_z psg_z,
   (py_max max_x psg_x, py_max max_y psg_y, py_max max_z psg_z)).

(** [bbox_corners]: the eight corners of [obj.bound_box] in world space. *)
Definition bbox_corners (obj : Object) : list Vec :=
  map (fun corner => matmul (matrix_world obj) corner) (firstn 8 (bound_box obj)).

(** [_calculate_bbox_for_objects(objects)] *)
Definition _calculate_bbox_for_objects (objs : list Object) : option BBox :=
  match objs with
  | [] => None
  | _ =>
      let '(min_x, min_y, min_z, (max_x, max_y, max_z)) :=
        fold_left
          (fun acc obj =>
             if negb (obj_type obj =? "MESH") then acc
             else fold_left bbox_add_corner (bbox_corners obj) acc)
          objs
          (infinity, infinity, infinity, (neg_infinity, neg_infinity, neg_infinity)) in
      if PrimFloat.eqb min_x infinity then None
      else Some {| bbox_min := (min_x, min_y, min_z); bbox_max := (max_x, max_y, max_z) |}
  end.

(** The point list of one spline: the loop of the branch its type picks. *)
Definition sample_spline (m : Matrix) (spline : Spline) : list Vec :=
  if (spline_type spline =? "POLY") && negb (bool_decide (points spline = [])) then
    map (fun point =>
           let co_world := matmul m (fst point) in
           let '(blender_x, blender_y, blender_z) := co_world in
           let psg_x := blender_x in
           let psg_y := blender_z in
           let psg_z := PrimFloat.opp blender_y in
           (psg_x, psg_y, psg_z)) (points spline)
  else if (spline_type spline =? "BEZIER")
          && negb (bool_decide (bezier_points spline = [])) then
    map (fun bezier_point =>
           let co_world := matmul m bezier_point in
           let '(blender_x, blender_y, blender_z) := co_world in
           let psg_x := blender_x in
           let psg_y := blender_z in
           let psg_z := PrimFloat.opp blender_y in
           (psg_x, psg_y, psg_z)) (bezier_points spline)
  else if (spline_type spline =? "NURBS") && negb (bool_decide (points spline = [])) then
    map (fun point =>
           let co_world := matmul m (fst point) in
           let '(blender_x, blender_y, blender_z) := co_world in
           let psg_x := blender_x in
           let psg_y := blender_z in
           let psg_z := PrimFloat.opp blender_y in
           (psg_x, psg_y, psg_z)) (points spline)
  else [].

(** The splines of a curve object. *)
Definition curve_splines (obj : Object) : list Spline :=
  match obj_data obj with
  | CurveData splines => splines
  | _ => []
  end.

(** [_extract_splines_from_scene(context)] *)
Definition _extract_splines_from_scene (scene_objects : list Object) : list SplineRecord :=
  let curve_objects :=
    List.filter (fun obj => (obj_type obj =? "CURVE") && visible_get obj) scene_objects in
  fold_left
    (fun splines obj =>
       fold_left
         (fun splines spline =>
            let points := sample_spline (matrix_world obj) spline in
            (* Only add splines with at least 2 points *)
            if (2 <=? length points)%nat then
              (splines ++ [ {| spline_name := obj_name obj;
                               spline_points := points;
                               is_closed := use_cyclic_u spline;
                               spline_kind := spline_type spline;
                               spline_bbox := _calculate_bbox_from_points points |} ])%list
            else splines)
         (curve_splines obj) splines)
    curve_objects [].

(** [get_image_path(image)] *)
Definition get_image_path (img : option Image) : option string :=
  match img with
  | Some image => if truthy (filepath image) then Some (abspath (filepath image)) else None
  | None => None
  end.

(** The position an enum property's value stands for: the source reads the
    property (a string), looks its position up among the items and takes 0
    when it is not there. *)
Definition resolve_index (items : list (string * string * string)) (value : string) : nat :=
  match enum_value items value with
  | Some idx => idx
  | None => 0%nat
  end.

(** [get_uv_name(settings, prop_name)] *)
Definition get_uv_name (objs : list Object) (settings : BlenroseMaterialSettings)
    (prop_name : string) : string :=
  let uv_enum_items := uv_channel_items objs in
  let uv_index := resolve_index uv_enum_items (getattr_uv objs settings prop_name) in
  match nth_error uv_enum_items uv_index with
  | Some item => identifier item
  | None => "UVMap"
  end.

Definition channel_configs : list (string * string * string) :=
  [ ("diffuse", "diffuse_tex", "diffuse_uv"); ("lightmap", "lightmap_tex", "lightmap_uv");
    ("specular", "specular_tex", "specular_uv"); ("normal", "normal_tex", "normal_uv");
    ("detail", "detail_tex", "detail_uv");
    ("macro_overlay", "macro_overlay_tex", "macro_overlay_uv");
    ("environment", "environment_tex", "environment_uv"); ("decal", "decal_tex", "decal_uv");
    ("transparent", "transparent_tex", "transparent_uv"); ("noise", "noise_tex", "noise_uv") ].

(** [_build_textures_dict(settings, get_image_path, get_uv_name)] *)
Definition _build_textures_dict (objs : list Object) (settings : BlenroseMaterialSettings)
    : list (string * (option string * string)) :=
  fold_left
    (fun textures config =>
       let '(channel_name, tex_prop, uv_prop) := config in
       let tex := getattr_tex settings tex_prop in
       let path := get_image_path tex in
       if resolved_ok path || bool_decide (is_Some tex)
       then dict_set channel_name (path, get_uv_name objs settings uv_prop) textures
       else textures)
    channel_configs [].

(** The subclass name [_extract_blenrose_material_data] resolves. *)
Definition material_subclass_name (settings : BlenroseMaterialSettings) : string :=
  let material_class := material_class settings in
  match dict_get material_class MATERIAL_SUBCLASSES with
  | Some subclass_items =>
      let subclass_index :=
        resolve_index subclass_items (getattr_material_subclass settings) in
      match nth_error subclass_items subclass_index with
      | Some item => identifier item
      | None => "default"
      end
  | None => "default"
  end.

(** [_extract_blenrose_material_data(mat)] *)
Definition _extract_blenrose_material_data (objs : list Object) (mat : Material)
    : MaterialData :=
  let settings := blenrose_settings mat in
  let material_class := material_class settings in
  let material_subclass_name := material_subclass_name settings in
  let material_name_export :=
    lower material_class ++ "." ++ lower material_subclass_name in
  {| data_material_name := material_name_export;
     data_enabled := enabled settings;
     data_material_class := material_class;
     data_material_subclass := material_subclass_name;
     data_notes := notes settings;
     data_textures := _build_textures_dict objs settings;
     data_scalars := (detail_normal_uv_scale settings, macro_overlay_opacity settings,
                      macro_overlay_uv_scale settings, embedded_decal settings);
     data_collision := (physics_surface settings, audio_surface settings,
                        surface_pattern settings);
     data_splines := [] |}.

(** The material document of [BLENROSE_OT_bulk_export.execute]: the loop
    over [material_groups] (a dict from a material, or None, to its
    objects), which enters the data of every group whose material has
    Blenrose enabled under the material's name.  [material_splines] gives
    the splines assigned to each material. *)
Definition exported_materials (w : World)
    (material_groups : list (option nat * list Object))
    (material_splines : option nat -> list SplineRecord)
    : list (string * MaterialData) :=
  fold_left
    (fun exported group =>
       match fst group with
       | Some material =>
           match materials w !! material with
           | Some mat =>
               if enabled (blenrose_settings mat) then
                 let mat_data := _extract_blenrose_material_data (objects w) mat in
                 let assigned_splines := material_splines (Some material) in
                 dict_set (material_name mat) (set_splines assigned_splines mat_data) exported
               else exported
           | None => exported
           end
       | None => exported
       end)
    material_groups [].

End BulkExport.

(* ===================================================================== *)
(** ** Example data *)
(* ===================================================================== *)

(** The settings a material starts with: the declared defaults. *)
Definition default_settings : BlenroseMaterialSettings :=
  {| enabled := false; material_class := "ENVIRONMENT"; material_subclass := 0;
     notes := ""; textures := ∅; uv_enums := ∅;
     detail_normal_uv_scale := 8.0; macro_overlay_opacity := 1.0;
     macro_overlay_uv_scale := 0.3; embedded_decal := 1.0;
     physics_surface := "0"; audio_surface := "0"; surface_pattern := "0" |}.

Definition wall_png : Image := {| image_name := "wall.png"; filepath := "//wall.png" |}.
Definition moss_png : Image := {| image_name := "moss.png"; filepath := "//moss.png" |}.

(** A node a user made: an Image Texture called "MyTexture". *)
Definition user_texture_node : Node :=
  set_image (Some wall_png) (set_name "MyTexture" (with_pointer 1 (mk_node "TEX_IMAGE"
    "Image Texture" [sock "Vector" VECTOR] [sock "Color" RGBA; sock "Alpha" VALUE]))).

(** A tree with that node alone. *)
Definition user_tree : NodeTree := {| nodes := [user_texture_node]; links := [] |}.

(** An enabled material on [user_tree]. *)
Definition user_material : Material :=
  {| material_name := "Wall"; use_nodes := true; node_tree := Some user_tree;
     blenrose_settings := set_enabled true default_settings |}.

(** A world with that material at pointer 7, no object, nothing suppressed. *)
Definition user_world : World :=
  {| objects := []; materials := {[ 7%nat := user_material ]};
     _SUPPRESSED_UPDATE_MATERIALS := ∅ |}.

(** The same world while material 7 is in the suppression set. *)
Definition suppressed_world : World := set_suppressed {[ 7%nat ]} user_world.

(** *** Reference definitions for the export *)

(** The axis remap as the specification words it: target_x = source_x,
    target_y = source_z, target_z = -source_y. *)
Definition spec_remap (p : Vec) : Vec := (vx p, vz p, PrimFloat.opp (vy p)).

(** The control points of a spline in object space, by representation:
    [point.co.xyz] of a POLY or NURBS spline, [bezier_point.co] of a BEZIER
    spline, none for any other type. *)
Definition control_points (spline : Spline) : list Vec :=
  if spline_type spline =? "POLY" then map fst (points spline)
  else if spline_type spline =? "BEZIER" then bezier_points spline
  else if spline_type spline =? "NURBS" then map fst (points spline)
  else [].

(** Growing a box by a point given in target space. *)
Definition bbox_extend (acc : bbox_acc) (p : Vec) : bbox_acc :=
  let '(min_x, min_y, min_z, (max_x, max_y, max_z)) := acc in
  (py_min min_x (vx p), py_min min_y (vy p), py_min min_z (vz p),
   (py_max max_x (vx p), py_max max_y (vy p), py_max max_z (vz p))).

(** The box that has swallowed no point yet, and the box an accumulator
    stands for. *)
Definition bbox_nothing : bbox_acc :=
  (infinity, infinity, infinity, (neg_infinity, neg_infinity, neg_infinity)).

Definition bbox_of_acc (acc : bbox_acc) : option BBox :=
  let '(min_x, min_y, min_z, (max_x, max_y, max_z)) := acc in
  if PrimFloat.eqb min_x infinity then None
  else Some {| bbox_min := (min_x, min_y, min_z); bbox_max := (max_x, max_y, max_z) |}.

(** The world-space bounding-box corners of the mesh objects. *)
Definition mesh_corners (matmul : Matrix -> Vec -> Vec) (objs : list Object) : list Vec :=
  flat_map (fun obj => if obj_type obj =? "MESH" then bbox_corners matmul obj else []) objs.

(** The record a spline of a curve object gives, or none when it samples
    to fewer than two points. *)
Definition spline_entry (matmul : Matrix -> Vec -> Vec) (obj : Object) (spline : Spline)
    : list SplineRecord :=
  let points := sample_spline matmul (matrix_world obj) spline in
  if (2 <=? length points)%nat then
    [ {| spline_name := obj_name obj; spline_points := points;
         is_closed := use_cyclic_u spline; spline_kind := spline_type spline;
         spline_bbox := _calculate_bbox_from_points points |} ]
  else [].

(** *** Example objects *)

(** An object whose world matrix is the identity is not moved by it. *)
Definition identity_matmul (m : Matrix) (v : Vec) : Vec := v.

Definition identity_matrix : Matrix :=
  [ [1; 0; 0; 0]; [0; 1; 0; 0]; [0; 0; 1; 0]; [0; 0; 0; 1] ]%float.

(** A poly line through (1, 2, 3) and (4, 5, 6), a bezier spline with one
    control point, and a spline of a type the add-on does not know. *)
Definition poly_segment : Spline :=
  {| spline_type := "POLY"; points := [ (1, 2, 3, 1); (4, 5, 6, 1) ]%float;
     bezier_points := []; use_cyclic_u := false |}.

Definition lone_bezier : Spline :=
  {| spline_type := "BEZIER"; points := [];
     bezier_points := [ (0, 0, 0) ]%float; use_cyclic_u := false |}.

Definition odd_spline : Spline :=
  {| spline_type := "CARDINAL"; points := [ (1, 2, 3, 1); (4, 5, 6, 1) ]%float;
     bezier_points := []; use_cyclic_u := true |}.

Definition path_object : Object :=
  {| obj_name := "Path"; obj_data := CurveData [poly_segment; lone_bezier; odd_spline];
     material_slots := []; visible_get := true; matrix_world := identity_matrix;
     bound_box := [] |}.

(** A mesh whose bounding box runs from (1, 2, 3) to (4, 5, 6). *)
Definition box_object : Object :=
  {| obj_name := "Box";
     obj_data := MeshData {| uv_layers := [ {| uv_layer_name := "UVMap"; active_render := true |} ];
                             uv_layers_active := Some 0%nat |};
     material_slots := [Some 7%nat]; visible_get := true; matrix_world := identity_matrix;
     bound_box := [ (1, 2, 3); (1, 2, 6); (1, 5, 6); (1, 5, 3);
                    (4, 2, 3); (4, 2, 6); (4, 5, 6); (4, 5, 3) ]%float |}.

(** *** Example settings *)

(** Class ENVIRONMENT with its tenth subclass, TRANSPARENT, chosen. *)
Definition transparent_settings : BlenroseMaterialSettings :=
  set_material_subclass 9 default_settings.

(** The document value of [user_material], with paths taken as they are. *)
Definition wall_data : MaterialData :=
  _extract_blenrose_material_data (fun path => path) [] user_material.

(** *** Example materials for enabling and disabling *)

(** The tree [create_nodes] makes for the default settings. *)
Definition built_tree : NodeTree := fst (create_nodes [] default_settings empty_tree).

(** [built_tree] with the user's Image Texture node beside the managed
    nodes, its Color wired into the emission's Color. *)
Definition mixed_tree : NodeTree :=
  {| nodes := (nodes built_tree ++ [with_pointer 40 user_texture_node])%list;
     links := (links built_tree
               ++ [ {| from_node := 40; from_socket := 0; to_node := 4; to_socket := 1 |} ])%list |}.

(** An enabled material on [mixed_tree]. *)
Definition mixed_material : Material :=
  {| material_name := "Wall"; use_nodes := true; node_tree := Some mixed_tree;
     blenrose_settings := set_enabled true default_settings |}.

Definition mixed_world : World :=
  {| objects := []; materials := {[ 7%nat := mixed_material ]};
     _SUPPRESSED_UPDATE_MATERIALS := ∅ |}.

(** The same material after the user switched "Use Nodes" off: the tree is
    kept, [use_nodes] is False. *)
Definition unplugged_material : Material :=
  {| material_name := "Wall"; use_nodes := false; node_tree := Some mixed_tree;
     blenrose_settings := set_enabled true default_settings |}.

Definition unplugged_world : World :=
  {| objects := []; materials := {[ 7%nat := unplugged_material ]};
     _SUPPRESSED_UPDATE_MATERIALS := ∅ |}.

(** A node is reserved when its name starts with "BR_". *)
Definition reserved (n : Node) : bool := startswith (node_name n) "BR_".

(** *** Notions used to state and prove the properties of node trees *)

(** [p] is one of the pointers [ps]. *)
Definition mem_ptr (p : nat) (ps : list nat) : bool := existsb (Nat.eqb p) ps.

(** The tree without the nodes whose pointers are [ps], and without the
    links at those nodes. *)
Definition without (ps : list nat) (t : NodeTree) : NodeTree :=
  {| nodes := List.filter (fun n => negb (mem_ptr (as_pointer n) ps)) (nodes t);
     links := List.filter (fun l => negb (mem_ptr (from_node l) ps)
                                    && negb (mem_ptr (to_node l) ps)) (links t) |}.

(** One update of [update_nodes]: the name of the node it looks up and the
    statement it runs on that node. *)
Record step := { target : string; body : NodeTree -> Node -> effect }.

Definition run_step (s : step) : M unit := with_node (target s) (body s).

(** Running steps in order, up to the first that raises. *)
Fixpoint exec (steps : list step) (t : NodeTree) : NodeTree * result unit :=
  match steps with
  | [] => (t, Ok tt)
  | s :: rest =>
      match run_step s t with
      | (t', Ok _) => exec rest t'
      | (t', Raised e) => (t', Raised e)
      end
  end.

(** The steps of [update_nodes] before the lightmap connection. *)
Definition node_steps (objs : list Object) (settings : BlenroseMaterialSettings) : list step :=
  (map (fun m => {| target := fst m; body := update_texture settings (snd m) |}) texture_mappings
   ++ map (fun m => {| target := fst m; body := update_uv objs settings (snd m) |}) uv_mappings
   ++ [ {| target := "BR_DetailMapping";
           body := fun _ detail_mapping =>
                     assign_input "Scale" (Vector3 (detail_normal_uv_scale settings)
                                                   (detail_normal_uv_scale settings) 1.0)
                                  detail_mapping |};
        {| target := "BR_MacroMapping";
           body := fun _ macro_mapping =>
                     assign_input "Scale" (Vector3 (macro_overlay_uv_scale settings)
                                                   (macro_overlay_uv_scale settings) 1.0)
                                  macro_mapping |};
        {| target := "BR_MacroMix";
           body := fun _ macro_mix =>
                     assign_input "Fac" (Float (macro_overlay_opacity settings)) macro_mix |};
        {| target := "BR_MixShader"; body := update_mix_fac |} ])%list.

(** A statement reads the tree only to ask whether sockets of its own node
    are linked. *)
Definition links_local (b : NodeTree -> Node -> effect) : Prop :=
  forall (t t' : NodeTree) (n : Node),
    (forall i, is_linked {| sock_node := as_pointer n; sock_index := i |} t
               = is_linked {| sock_node := as_pointer n; sock_index := i |} t') ->
    b t n = b t' n.

(** An assignment keeps the node's pointer and name, and assigns the same
    again when the statement is run on its result. *)
Definition keeps_identity (b : NodeTree -> Node -> effect) : Prop :=
  forall (t : NodeTree) (n n' : Node),
    b t n = Assign n' ->
    as_pointer n' = as_pointer n /\ node_name n' = node_name n /\ b t n' = Assign n'.

Definition good_step (s : step) : Prop := links_local (body s) /\ keeps_identity (body s).

(** Running the step on [t] changes nothing and ends in [r]. *)
Definition quiet (s : step) (t : NodeTree) (r : result unit) : Prop :=
  match nodes_get (target s) t with
  | None => r = Ok tt
  | Some n =>
      match body s t n with
      | Pass => r = Ok tt
      | Assign n' => n' = n /\ r = Ok tt
      | Raise e => r = Raised e
      end
  end.

(** The lightmap texture's Color is linked to the emission's Color. *)
Definition lightmap_connected (nt : NodeTree) (lightmap_tex_node emit_node : Node) : Prop :=
  exists link : NodeLink,
    In link (links nt) /\
    from_node link = as_pointer lightmap_tex_node /\
    to_node link = as_pointer emit_node /\
    from_socket_name nt link = Some "Color" /\
    to_socket_name nt link = Some "Color".

(** The material as [_update_all_blenrose_nodes] works on it, once
    [use_nodes] is ensured. *)
Definition with_nodes_on (mat : Material) : Material :=
  if use_nodes mat then mat else set_use_nodes_true mat.

(** *** Example worlds for the update *)

(** The state [user_world] is in after one update of material 7. *)
Definition user_world_after : World := fst (_update_all_blenrose_nodes 7 user_world).

(** The tree of material 7 in a world, the empty tree when it has none. *)
Definition tree_of (w : World) : NodeTree :=
  default empty_tree (materials w !! 7%nat ≫= node_tree).

(** [built_tree] with the link from the lightmap texture to the emission
    cut. *)
Definition cut_tree : NodeTree :=
  {| nodes := nodes built_tree;
     links := List.filter (fun l => negb ((from_node l =? 14)%nat && (to_node l =? 4)%nat))
                          (links built_tree) |}.

Definition cut_world : World :=
  {| objects := [];
     materials := {[ 7%nat := {| material_name := "Wall"; use_nodes := true;
                                 node_tree := Some cut_tree;
                                 blenrose_settings := set_enabled true default_settings |} ]};
     _SUPPRESSED_UPDATE_MATERIALS := ∅ |}.

Definition cut_world_after : World := fst (_update_all_blenrose_nodes 7 cut_world).

(** The nodes "BR_Emission" and "BR_LightmapTex" of [built_tree]. *)
Definition emission_node : Node := default user_texture_node (nodes_get "BR_Emission" built_tree).
Definition lightmap_node : Node :=
  default user_texture_node (nodes_get "BR_LightmapTex" built_tree).

(** *** A scene for the auto-detection *)

(** A node of a registered kind, as [nt.nodes.new] makes it. *)
Definition new_node (bl_idname : string) (p : nat) : Node :=
  with_pointer p (default (mk_node "" "" [] []) (prototype bl_idname)).

(** A tree a user wired by hand: a UV Map node on the layer "Lightmap"
    feeds an Image Texture called "Diffuse_Color", which holds moss.png and
    feeds the Base Color of a Principled BSDF. *)
Definition authored_tree : NodeTree :=
  {| nodes := [ set_uv_map "Lightmap" (new_node "ShaderNodeUVMap" 1);
                set_image (Some moss_png)
                          (set_name "Diffuse_Color" (new_node "ShaderNodeTexImage" 2));
                new_node "ShaderNodeBsdfPrincipled" 3;
                new_node "ShaderNodeOutputMaterial" 4 ];
     links := [ {| from_node := 1; from_socket := 0; to_node := 2; to_socket := 0 |};
                {| from_node := 2; from_socket := 0; to_node := 3; to_socket := 0 |};
                {| from_node := 3; from_socket := 0; to_node := 4; to_socket := 0 |} ] |}.

(** A mesh with the UV layers "UVMap" and "Lightmap" that uses material 7. *)
Definition floor_object : Object :=
  {| obj_name := "Floor";
     obj_data := MeshData {| uv_layers := [ {| uv_layer_name := "UVMap"; active_render := true |};
                                            {| uv_layer_name := "Lightmap"; active_render := false |} ];
                             uv_layers_active := Some 0%nat |};
     material_slots := [Some 7%nat]; visible_get := true; matrix_world := identity_matrix;
     bound_box := [] |}.

(** Settings whose diffuse channel is populated: the texture is wall.png
    and the UV source is the second item of the enum, "UVMap". *)
Definition populated_settings : BlenroseMaterialSettings :=
  set_uv_enums {[ "diffuse_uv" := 1%nat ]}
    (set_textures {[ "diffuse_tex" := wall_png ]} default_settings).

Definition authored_material : Material :=
  {| material_name := "Floor"; use_nodes := true; node_tree := Some authored_tree;
     blenrose_settings := populated_settings |}.

Definition authored_world : World :=
  {| objects := [floor_object]; materials := {[ 7%nat := authored_material ]};
     _SUPPRESSED_UPDATE_MATERIALS := ∅ |}.

(** The settings of material 7 in a world, the defaults when it is not
    there. *)
Definition settings_in (w : World) : BlenroseMaterialSettings :=
  default default_settings (settings_of 7 w).

(** *** Boxes of the specification's examples *)


(* ===================================================================== *)
(** ** The add-on: operators and the depsgraph handler *)
(* ===================================================================== *)

From Stdlib Require OrderedTypeEx.
From Stdlib Require Import Sorted.
From stdpp Require Import pretty.
Open Scope string_scope.

(** What an operator's [execute] returns. *)
Inductive status := FINISHED | CANCELLED.

(** [bpy.data.materials] is a collection: the operators index it and run
    over it.  It is given to them as the list of the materials' pointers,
    in the collection's order; the materials themselves are in the world.
    [scene.blenrose_mat_index] is an IntProperty without bounds. *)

(** [max(0, min(idx, len(mats) - 1))] *)
Definition clamp_index (idx : Z) (mats : list nat) : Z :=
  Z.max 0 (Z.min idx (Z.of_nat (length mats) - 1)).

(** [bpy.data.materials.remove(mat)]: the material leaves the data, and
    the slots that held it hold None. *)
Definition materials_remove (p : nat) (w : World) : World :=
  {| objects :=
       map (fun obj =>
              {| obj_name := obj_name obj; obj_data := obj_data obj;
                 material_slots :=
                   map (fun slot => if bool_decide (slot = Some p) then None else slot)
                       (material_slots obj);
                 visible_get := visible_get obj; matrix_world := matrix_world obj;
                 bound_box := bound_box obj |}) (objects w);
     materials := delete p (materials w);
     _SUPPRESSED_UPDATE_MATERIALS := _SUPPRESSED_UPDATE_MATERIALS w |}.

(** [BLENROSE_OT_delete_material.execute]: the status, the collection and
    the scene's index it leaves, and the world.  [mats[idx]] is read with
    the clamped index, which is inside the collection. *)
Definition delete_material_execute (mats : list nat) (blenrose_mat_index : Z) (w : World)
    : status * list nat * Z * World :=
  match mats with
  | [] => (CANCELLED, mats, blenrose_mat_index, w)
  | first :: _ =>
      let idx := blenrose_mat_index in
      let idx := clamp_index idx mats in
      let mat := nth (Z.to_nat idx) mats first in
      (* Delete the material *)
      let mats' := delete (Z.to_nat idx) mats in
      let w' := materials_remove mat w in
      (* Adjust index if necessary *)
      if (0 <? length mats')%nat
      then (FINISHED, mats', Z.min idx (Z.of_nat (length mats') - 1), w')
      else (FINISHED, mats', 0%Z, w')
  end.

(** One round of the loop of [BLENROSE_OT_auto_detect_textures.execute]
    over [detected.items()]: the texture is assigned whatever the property
    holds, and counted. *)
Definition detect_channel (self : nat) (state : World * nat)
    (entry : string * texture_info) : World * nat :=
  let '(w, detected_count) := state in
  let '(channel_name, info) := entry in
  let '(w, detected_count) :=
    match dict_get channel_name texture_prop_map with
    | Some tex_prop =>
        (* Update texture (always sync with node tree when manually triggered) *)
        (setattr_tex self tex_prop (info_image info) w, S detected_count)
    | None => (w, detected_count)
    end in
  match dict_get channel_name uv_prop_map with
  | Some uv_prop =>
      match uv_map_name info with
      | Some name =>
          if truthy name then
            match find (fun item => (identifier item =? name) || (snd (fst item) =? name))
                       (uv_channel_items (objects w)) with
            | Some item => (setattr_uv self uv_prop (identifier item) w, detected_count)
            | None => (w, detected_count)
            end
          else (w, detected_count)
      | None => (w, detected_count)
      end
  | None => (w, detected_count)
  end.

(** [BLENROSE_OT_auto_detect_textures.execute]: the status, the number of
    textures it reports, and the world.  A pointer of the collection names
    a material of the world; for one that does not, nothing is done. *)
Definition auto_detect_textures_execute (mats : list nat) (blenrose_mat_index : Z)
    (w : World) : status * nat * World :=
  match mats with
  | [] => (CANCELLED, 0%nat, w)
  | first :: _ =>
      let idx := clamp_index blenrose_mat_index mats in
      let self := nth (Z.to_nat idx) mats first in
      match materials w !! self with
      | None => (CANCELLED, 0%nat, w)
      | Some mat =>
          let settings := blenrose_settings mat in
          if negb (enabled settings) then (CANCELLED, 0%nat, w)
          else
            let detected := _detect_textures_from_node_tree (objects w) self mat in
            let '(w', detected_count) := fold_left (detect_channel self) detected (w, 0%nat) in
            (FINISHED, detected_count, w')
      end
  end.

(** Assigning a property of the settings that has no update callback:
    what the assignment raises leaves the settings as they were. *)
Definition assign_settings (self : nat)
    (assign : BlenroseMaterialSettings -> result BlenroseMaterialSettings) (w : World)
    : World * result unit :=
  match materials w !! self with
  | None => (w, Ok tt)
  | Some mat =>
      match assign (blenrose_settings mat) with
      | Ok settings => (store_material self (set_settings settings mat) w, Ok tt)
      | Raised e => (w, Raised e)
      end
  end.

(** The body of the loop of
    [BLENROSE_OT_enable_all_and_prepare_export.execute] for one material;
    the result is what the round adds to [enabled_count]. *)
Definition enable_and_prepare (self : nat) (w : World) : World * result nat :=
  match materials w !! self with
  | None => (w, Ok 0%nat)
  | Some mat =>
      if enabled (blenrose_settings mat) then (w, Ok 0%nat)
      else
        (* Auto-detect textures from existing node tree before enabling *)
        let w := if use_nodes mat && bool_decide (is_Some (node_tree mat))
                 then _auto_fill_textures_from_node_tree self false w
                 else w in
        (* Set sensible defaults for level export *)
        match assign_settings self (setattr_material_class "ENVIRONMENT") w with
        | (w, Raised e) => (w, Raised e)
        | (w, Ok _) =>
            match (if bool_decide (is_Some (dict_get "ENVIRONMENT" MATERIAL_SUBCLASSES))
                   then assign_settings self (setattr_material_subclass "DEFAULT") w
                   else (w, Ok tt)) with
            | (w, Raised e) => (w, Raised e)
            | (w, Ok _) =>
                (* Enable Blenrose (builds node tree) *)
                (setattr_enabled self true w, Ok 1%nat)
            end
        end
  end.

(** The loop over [mats]. *)
Fixpoint enable_each (mats : list nat) (enabled_count : nat) (w : World)
    : World * result nat :=
  match mats with
  | [] => (w, Ok enabled_count)
  | self :: rest =>
      match enable_and_prepare self w with
      | (w', Ok n) => enable_each rest (enabled_count + n) w'
      | (w', Raised e) => (w', Raised e)
      end
  end.

(** [BLENROSE_OT_enable_all_and_prepare_export.execute] *)
Definition enable_all_execute (mats : list nat) (w : World)
    : World * result (status * nat) :=
  match mats with
  | [] => (w, Ok (CANCELLED, 0%nat))
  | _ =>
      match enable_each mats 0 w with
      | (w', Ok enabled_count) => (w', Ok (FINISHED, enabled_count))
      | (w', Raised e) => (w', Raised e)
      end
  end.

#[global] Instance Image_eq_dec : EqDecision Image.
Proof. solve_decision. Defined.




(* ===================================================================== *)
(** ** The add-on: groups, splines and file names of the bulk export *)
(* ===================================================================== *)

(** [material_groups.setdefault(k, []).append(obj)] on a dict kept in
    insertion order, keyed by a material or None. *)
Fixpoint group_append {A : Type} (k : option nat) (x : A)
    (groups : list (option nat * list A)) : list (option nat * list A) :=
  match groups with
  | [] => [(k, [x])]
  | (k', xs) :: rest =>
      if bool_decide (k' = k) then (k', (xs ++ [x])%list) :: rest
      else (k', xs) :: group_append k x rest
  end.

(** [d.get(k, [])] on such a dict. *)
Definition group_get {A : Type} (k : option nat) (groups : list (option nat * list A))
    : list A :=
  match find (fun g => bool_decide (fst g = k)) groups with
  | Some g => snd g
  | None => []
  end.

(** [[slot.material for slot in obj.material_slots if slot.material]] *)
Definition slot_materials (obj : Object) : list nat :=
  omap id (material_slots obj).

Section BulkExportGroups.

(** Host functions: [matrix @ vector]; and the mesh objects selected after
    [bpy.ops.mesh.separate(type='MATERIAL')] on an object, the pieces it
    was split into. *)
Variable matmul : Matrix -> Vec -> Vec.
Variable separate : Object -> list Object.

(** The body of the loop over [mesh_objects]. *)
Definition group_object (material_groups : list (option nat * list Object)) (obj : Object)
    : list (option nat * list Object) :=
  if negb (visible_get obj) then material_groups
  else
    match slot_materials obj with
    | [] =>
        (* Object with no material - add directly *)
        group_append None obj material_groups
    | [material] =>
        (* Single material - add directly to that material group *)
        group_append (Some material) obj material_groups
    | _ =>
        (* Multiple materials - split by material *)
        let separated_objects :=
          List.filter (fun o => obj_type o =? "MESH") (separate obj) in
        fold_left
          (fun groups sep_obj =>
             match slot_materials sep_obj with
             | material :: _ => group_append (Some material) sep_obj groups
             | [] => group_append None sep_obj groups
             end)
          separated_objects material_groups
    end.

(** [material_groups] of [BLENROSE_OT_bulk_export.execute] *)
Definition material_groups_of (scene_objects : list Object)
    : list (option nat * list Object) :=
  let mesh_objects := List.filter (fun obj => obj_type obj =? "MESH") scene_objects in
  fold_left group_object mesh_objects [].

(** [material_group_bboxes]: the groups that have a bounding box. *)
Definition material_group_bboxes_of (material_groups : list (option nat * list Object))
    : list (option nat * BBox) :=
  omap (fun group =>
          match _calculate_bbox_for_objects matmul (snd group) with
          | Some bbox => Some (fst group, bbox)
          | None => None
          end) material_groups.

(** The body of the loop over [all_splines]: the spline goes to the first
    group whose box it intersects.  The keys of the boxes are keys of
    [material_splines], so the append finds the group's list. *)
Definition assign_spline (material_group_bboxes : list (option nat * BBox))
    (material_splines : list (option nat * list SplineRecord)) (spline : SplineRecord)
    : list (option nat * list SplineRecord) :=
  match spline_bbox spline with
  | None => material_splines
  | Some spline_bbox =>
      match find (fun entry => _bbox_intersects (Some spline_bbox) (Some (snd entry)))
                 material_group_bboxes with
      | Some (material_key, _) => group_append material_key spline material_splines
      | None => material_splines
      end
  end.

(** [material_splines] of [BLENROSE_OT_bulk_export.execute] *)
Definition material_splines_of (material_groups : list (option nat * list Object))
    (all_splines : list SplineRecord) : list (option nat * list SplineRecord) :=
  fold_left (assign_spline (material_group_bboxes_of material_groups)) all_splines
            (map (fun group => (fst group, [])) material_groups).

End BulkExportGroups.

Section GlbPath.

(** Host functions: [os.path.join] and the files [os.path.exists] finds. *)
Variable path_join : string -> string -> string.
Variable existing : gset string.




End GlbPath.

(* ===================================================================== *)
(** ** Reference definitions for the operators *)
(* ===================================================================== *)

(** Two settings records that differ in their texture and UV fields at
    most. *)
Definition same_but_channels (s s' : BlenroseMaterialSettings) : Prop :=
  s' = set_uv_enums (uv_enums s') (set_textures (textures s') s).

(** Two materials that differ in their settings' texture and UV fields at
    most: same name, same graph. *)
Definition same_graph (mat mat' : Material) : Prop :=
  material_name mat' = material_name mat /\ use_nodes mat' = use_nodes mat /\
  node_tree mat' = node_tree mat /\
  same_but_channels (blenrose_settings mat) (blenrose_settings mat').

(** *** Reference definitions for the detection *)

(** Whether an Image Texture node with an image scores best, and above 0,
    for the channel. *)
Definition claims_channel (nt : NodeTree) (channel_name : string) (node : Node) : bool :=
  (node_type node =? "TEX_IMAGE") && bool_decide (is_Some (image node))
  && bool_decide (fst (best_channel nt node) = Some channel_name)
  && (0 <? snd (best_channel nt node))%nat.

(** The entry detection makes for an image node. *)
Definition detected_entry (objs : list Object) (nt : NodeTree) (mat_ptr : nat) (node : Node)
    : option texture_info :=
  match image node with
  | Some img =>
      Some {| info_image := img;
              uv_map_name := _resolve_uv_map_for_image_node objs nt node mat_ptr;
              image_node := as_pointer node |}
  | None => None
  end.

(** Two worlds that differ in the material [self] at most. *)
Definition only_material_changed (self : nat) (w w' : World) : Prop :=
  objects w' = objects w /\
  _SUPPRESSED_UPDATE_MATERIALS w' = _SUPPRESSED_UPDATE_MATERIALS w /\
  forall q, q <> self -> materials w' !! q = materials w !! q.

(** The texture assignments a list of detected entries stands for:
    property name and image, for the channels that have a property. *)
Definition texture_updates (detected : list (string * texture_info))
    : list (string * Image) :=
  omap (fun entry =>
          option_map (fun tex_prop => (tex_prop, info_image (snd entry)))
                     (dict_get (fst entry) texture_prop_map)) detected.

(** *** Reference definitions for the groups of the bulk export *)

(** The key an object is grouped under: its first material, or None when
    no slot holds one. *)
Definition material_key (obj : Object) : option nat :=
  match slot_materials obj with
  | material :: _ => Some material
  | [] => None
  end.

(** What an object contributes to the export: nothing when it is hidden,
    itself when it has at most one material, and otherwise the mesh
    objects it is split into. *)
Definition export_pieces (separate : Object -> list Object) (obj : Object) : list Object :=
  if negb (visible_get obj) then []
  else match slot_materials obj with
       | [] => [obj]
       | [_] => [obj]
       | _ => List.filter (fun o => obj_type o =? "MESH") (separate obj)
       end.

(** The group a spline is assigned to: the first one, in the order of the
    groups, whose box the spline's box intersects. *)
Definition spline_target (material_group_bboxes : list (option nat * BBox))
    (spline : SplineRecord) : option (option nat) :=
  match spline_bbox spline with
  | Some spline_bbox =>
      option_map fst
        (find (fun entry => _bbox_intersects (Some spline_bbox) (Some (snd entry)))
              material_group_bboxes)
  | None => None
  end.

(** *** Reference definitions for the UV fallback *)

(** The UV layers preferred by the mesh objects that use the material, one
    for each such object that has a preferred layer, in the order of the
    objects. *)
Definition preferred_names (objs : list Object) (mat : nat) : list string :=
  omap (fun obj =>
          match obj_data obj with
          | MeshData mesh =>
              if existsb (fun slot => bool_decide (slot = Some mat)) (material_slots obj)
              then preferred_uv mesh
              else None
          | _ => None
          end) objs.

(** Whether a link enters the socket. *)
Definition enters (socket : SocketRef) (link : NodeLink) : bool :=
  (to_node link =? sock_node socket)%nat && (to_socket link =? sock_index socket)%nat.

(** *** Example data for the operators *)

(** The record extracted for the poly line of [path_object]. *)
Definition path_record : SplineRecord :=
  {| spline_name := "Path"; spline_points := [ (1, 3, -2); (4, 6, -5) ]%float;
     is_closed := false; spline_kind := "POLY";
     spline_bbox := Some {| bbox_min := (1, 3, -5)%float; bbox_max := (4, 6, -2)%float |} |}.


(** [authored_world] with Blenrose enabled for material 7. *)
Definition authored_enabled_material : Material :=
  set_settings (set_enabled true populated_settings) authored_material.

Definition authored_enabled_world : World :=
  store_material 7 authored_enabled_material authored_world.

(** What detection finds in [authored_tree]. *)
Definition moss_entry : texture_info :=
  {| info_image := moss_png; uv_map_name := Some "Lightmap"; image_node := 2 |}.

(** *** The operator that makes a material *)

(** [bpy.data.materials.new(name)]: the host makes a material with no node
    tree and the declared default settings, under a name and a pointer of
    its choosing. *)
Definition materials_new (name : string) : Material :=
  {| material_name := name; use_nodes := false; node_tree := None;
     blenrose_settings := default_settings |}.

(** [list(bpy.data.materials).index(mat)] *)
Fixpoint list_index (x : nat) (l : list nat) : option nat :=
  match l with
  | [] => None
  | y :: rest => if (y =? x)%nat then Some 0%nat else option_map S (list_index x rest)
  end.

(** [BLENROSE_OT_new_material.execute].  The host's part is given: the
    pointer [p] and the name [name] of the new material, and the place
    [pos] at which the collection, kept in the order of the names, puts
    it.  The result is the collection, the scene's index, the world, and
    the status or what the build raised. *)
Definition new_material_execute (p : nat) (name : string) (pos : nat) (mats : list nat)
    (blenrose_mat_index : Z) (w : World) : list nat * Z * World * result status :=
  let mats := (take pos mats ++ p :: drop pos mats)%list in
  let mat := materials_new name in
  let mat := set_use_nodes_true mat in
  (* Build the node tree using the shared function *)
  let '(mat, r) := _build_blenrose_node_tree (objects w) mat in
  let w := store_material p mat w in
  match r with
  | Raised e => (mats, blenrose_mat_index, w, Raised e)
  | Ok _ =>
      (* Enable Blenrose settings *)
      let w := setattr_enabled p true w in
      (* Make it the active material in our editor *)
      let idx := match list_index p mats with
                 | Some idx => Z.of_nat idx
                 | None => blenrose_mat_index
                 end in
      (mats, idx, w, Ok FINISHED)
  end.

(** [node.inputs[name].default_value], read. *)
Definition input_value (name : string) (n : Node) : option socket_value :=
  match socket_index name (inputs n) with
  | None => None
  | Some i => option_map default_value (nth_error (inputs n) i)
  end.

(** [mixed_material] with a diffuse texture chosen, while its tree still
    shows the default settings. *)
Definition retextured_settings : BlenroseMaterialSettings :=
  set_textures (<["diffuse_tex" := moss_png]> (textures default_settings))
               (set_enabled true default_settings).

Definition retextured_material : Material :=
  {| material_name := "Wall"; use_nodes := true; node_tree := Some mixed_tree;
     blenrose_settings := retextured_settings |}.

Definition retextured_world : World :=
  {| objects := []; materials := {[ 7%nat := retextured_material ]};
     _SUPPRESSED_UPDATE_MATERIALS := ∅ |}.

(* ===================================================================== *)
(** ** Node trees: pointers, removal, frames *)
(* ===================================================================== *)

Lemma filter_twice {A : Type} (f g : A -> bool) (l : list A) :
  List.filter f (List.filter g l) = List.filter (fun x => g x && f x) l.
Proof.
  induction l as [|x l IH]; simpl; [reflexivity|].
  destruct (g x); simpl; [destruct (f x)|]; rewrite ?IH; reflexivity.
Qed.

Lemma NoDup_map_filter {A B : Type} (f : A -> B) (g : A -> bool) (l : list A) :
  NoDup (map f l) -> NoDup (map f (List.filter g l)).
Proof.
  induction l as [|x l IH]; simpl; intros H; [constructor|].
  apply NoDup_cons in H as [Hx Hl].
  destruct (g x); simpl; [|auto].
  apply NoDup_cons. split; [|auto].
  intros Hin. apply Hx.
  apply list_elem_of_In in Hin. apply list_elem_of_In.
  apply in_map_iff in Hin as (y & Hy & Hin). apply filter_In in Hin as [Hin _].
  apply in_map_iff. eauto.
Qed.

(** Two nodes of a well-formed tree with the same pointer are one node. *)
Lemma same_pointer_same_node (l : list Node) (a b : Node) :
  NoDup (map as_pointer l) -> In a l -> In b l -> as_pointer a = as_pointer b -> a = b.
Proof.
  induction l as [|x l IH]; simpl; intros H Ha Hb E; [contradiction|].
  apply NoDup_cons in H as [Hx Hl].
  assert (Hnot : forall c, In c l -> as_pointer c <> as_pointer x).
  { intros c Hc Ec. apply Hx. apply list_elem_of_In. rewrite <- Ec. apply in_map. exact Hc. }
  destruct Ha as [<-|Ha], Hb as [<-|Hb]; auto.
  - exfalso. apply (Hnot b Hb). auto.
  - exfalso. apply (Hnot a Ha). auto.
Qed.

Lemma mem_ptr_In (p : nat) (ps : list nat) : mem_ptr p ps = true <-> In p ps.
Proof.
  unfold mem_ptr. rewrite existsb_exists. split.
  - intros (x & Hx & E). apply Nat.eqb_eq in E. subst. exact Hx.
  - intros H. exists p. split; [exact H|apply Nat.eqb_refl].
Qed.

Lemma remove_each (l : list Node) (t : NodeTree) :
  fold_left (fun t' n => nodes_remove (as_pointer n) t') l t = without (map as_pointer l) t.
Proof.
  revert t. induction l as [|x l IH]; intros t; simpl.
  - unfold without. simpl. destruct t as [ns ls]. simpl. f_equal.
    + induction ns as [|n ns IHn]; simpl; [reflexivity|]. f_equal. exact IHn.
    + induction ls as [|k ls IHl]; simpl; [reflexivity|]. f_equal. exact IHl.
  - rewrite IH. unfold without, nodes_remove. simpl. f_equal.
    + rewrite filter_twice. apply filter_ext. intros n.
      rewrite negb_orb. reflexivity.
    + rewrite filter_twice. apply filter_ext. intros k.
      rewrite !negb_orb.
      destruct (from_node k =? as_pointer x)%nat, (to_node k =? as_pointer x)%nat,
        (mem_ptr (from_node k) (map as_pointer l)), (mem_ptr (to_node k) (map as_pointer l));
        reflexivity.
Qed.

Lemma wf_tree_links (t : NodeTree) (k : NodeLink) :
  wf_tree t -> In k (links t) ->
  In (from_node k) (map as_pointer (nodes t)) /\ In (to_node k) (map as_pointer (nodes t)).
Proof.
  intros [_ H] Hk. rewrite Forall_forall in H.
  destruct (H k) as [H1 H2]; [apply list_elem_of_In; exact Hk|].
  split; apply list_elem_of_In; assumption.
Qed.

Lemma wf_tree_intro (t : NodeTree) :
  NoDup (map as_pointer (nodes t)) ->
  (forall k, In k (links t) ->
     In (from_node k) (map as_pointer (nodes t)) /\ In (to_node k) (map as_pointer (nodes t))) ->
  wf_tree t.
Proof.
  intros H1 H2. split; [exact H1|]. apply Forall_forall. intros k Hk.
  apply list_elem_of_In in Hk. destruct (H2 k Hk). split; apply list_elem_of_In; assumption.
Qed.

Lemma without_wf (ps : list nat) (t : NodeTree) : wf_tree t -> wf_tree (without ps t).
Proof.
  intros Hwf. apply wf_tree_intro.
  - apply NoDup_map_filter. apply Hwf.
  - simpl. intros k Hk. apply filter_In in Hk as [Hk Hkeep].
    apply andb_true_iff in Hkeep as [Hf Ht].
    destruct (wf_tree_links t k Hwf Hk) as [H1 H2].
    apply in_map_iff in H1 as (a & Ea & Ha). apply in_map_iff in H2 as (b & Eb & Hb).
    split; apply in_map_iff.
    + exists a. split; [exact Ea|]. apply filter_In. split; [exact Ha|]. rewrite Ea. exact Hf.
    + exists b. split; [exact Eb|]. apply filter_In. split; [exact Hb|]. rewrite Eb. exact Ht.
Qed.

(** Clearing a well-formed tree leaves the empty tree. *)
Lemma nodes_clear_empty (t : NodeTree) : wf_tree t -> nodes_clear t = (empty_tree, Ok tt).
Proof.
  intros Hwf. unfold nodes_clear. rewrite remove_each. f_equal.
  unfold without, empty_tree. f_equal.
  - assert (H : forall n, In n (nodes t) ->
                negb (mem_ptr (as_pointer n) (map as_pointer (nodes t))) = false).
    { intros n Hn. apply negb_false_iff, mem_ptr_In, in_map. exact Hn. }
    revert H. generalize (map as_pointer (nodes t)). intros ps.
    induction (nodes t) as [|n ns IH]; simpl; intros H; [reflexivity|].
    rewrite H by (left; reflexivity). apply IH. intros m Hm. apply H. right. exact Hm.
  - assert (H : forall k, In k (links t) ->
                negb (mem_ptr (from_node k) (map as_pointer (nodes t)))
                && negb (mem_ptr (to_node k) (map as_pointer (nodes t))) = false).
    { intros k Hk. destruct (wf_tree_links t k Hwf Hk) as [H1 _].
      apply mem_ptr_In in H1. rewrite H1. reflexivity. }
    revert H. generalize (map as_pointer (nodes t)). intros ps.
    induction (links t) as [|k ks IH]; simpl; intros H; [reflexivity|].
    rewrite H by (left; reflexivity). apply IH. intros m Hm. apply H. right. exact Hm.
Qed.

(* ===================================================================== *)
(** ** Disabling a material *)
(* ===================================================================== *)

Lemma remove_blenrose_nodes_spec (nt : NodeTree) :
  wf_tree nt ->
  nodes (remove_blenrose_nodes nt) = List.filter (fun n => negb (reserved n)) (nodes nt) /\
  links (remove_blenrose_nodes nt)
  = List.filter
      (fun l => negb (mem_ptr (from_node l) (map as_pointer (List.filter reserved (nodes nt))))
                && negb (mem_ptr (to_node l) (map as_pointer (List.filter reserved (nodes nt)))))
      (links nt) /\
  wf_tree (remove_blenrose_nodes nt).
Proof.
  intros Hwf. unfold remove_blenrose_nodes. rewrite remove_each.
  fold reserved. change (fun node => reserved node) with reserved.
  split; [|split; [reflexivity|apply without_wf; exact Hwf]].
  simpl. apply filter_ext_in. intros n Hn. f_equal.
  destruct (reserved n) eqn:E.
  - apply mem_ptr_In. apply in_map. apply filter_In. auto.
  - destruct (mem_ptr _ _) eqn:M; [|reflexivity].
    apply mem_ptr_In in M. apply in_map_iff in M as (m & Em & Hm).
    apply filter_In in Hm as [Hm Rm].
    assert (m = n) by (eapply same_pointer_same_node; [apply Hwf| | |]; eauto).
    subst. congruence.
Qed.

(** C5, as amended.  When a material that uses nodes and has a node tree is
    disabled, every node whose name starts with "BR_" is removed from the
    tree and every other node stays as it was, in the same order; the links
    that stay are those at no removed node.  The settings change in
    [enabled] only, and the tree stays well formed. *)
Theorem disable_removes_reserved_nodes (self : nat) (w : World) (mat : Material)
    (nt : NodeTree) :
  materials w !! self = Some mat ->
  use_nodes mat = true ->
  node_tree mat = Some nt ->
  wf_tree nt ->
  exists nt' : NodeTree,
    materials (setattr_enabled self false w) !! self
    = Some (set_node_tree (Some nt')
              (set_settings (set_enabled false (blenrose_settings mat)) mat)) /\
    nodes nt' = List.filter (fun n => negb (reserved n)) (nodes nt) /\
    (forall n, In n (nodes nt') -> reserved n = false) /\
    (forall n, In n (nodes nt) -> reserved n = false -> In n (nodes nt')) /\
    links nt'
    = List.filter
        (fun l => negb (mem_ptr (from_node l) (map as_pointer (List.filter reserved (nodes nt))))
                  && negb (mem_ptr (to_node l) (map as_pointer (List.filter reserved (nodes nt)))))
        (links nt) /\
    wf_tree nt'.
Proof.
  intros Hm Hu Ht Hwf.
  destruct (remove_blenrose_nodes_spec nt Hwf) as (Hnodes & Hlinks & Hwf').
  exists (remove_blenrose_nodes nt).
  split.
  { unfold setattr_enabled. rewrite Hm. unfold _update_enabled, store_material. simpl.
    rewrite lookup_insert_eq. simpl. rewrite Hu, Ht. simpl.
    rewrite lookup_insert_eq. reflexivity. }
  split; [exact Hnodes|].
  split.
  { intros n Hn. rewrite Hnodes in Hn. apply filter_In in Hn as [_ Hn].
    apply negb_true_iff in Hn. exact Hn. }
  split.
  { intros n Hn Hr. rewrite Hnodes. apply filter_In. rewrite Hr. auto. }
  split; [exact Hlinks|exact Hwf'].
Qed.

(* ===================================================================== *)
(** ** Updating nodes in place *)
(* ===================================================================== *)

Lemma nodes_get_In (name : string) (t : NodeTree) (n : Node) :
  nodes_get name t = Some n -> In n (nodes t) /\ node_name n = name.
Proof.
  unfold nodes_get. intros H. apply find_some in H as [H1 H2].
  apply String.eqb_eq in H2. auto.
Qed.

Lemma find_node_unique (t : NodeTree) (n : Node) :
  NoDup (map as_pointer (nodes t)) -> In n (nodes t) -> find_node (as_pointer n) t = Some n.
Proof.
  intros Hnd Hin. unfold find_node.
  destruct (find _ _) as [m|] eqn:E.
  - apply find_some in E as [Hm Em]. apply Nat.eqb_eq in Em.
    f_equal. eapply same_pointer_same_node; eauto.
  - exfalso. apply (find_none _ _ E) in Hin. rewrite Nat.eqb_refl in Hin. discriminate.
Qed.

Lemma update_node_pointers (p : nat) (n' : Node) (t : NodeTree) :
  as_pointer n' = p ->
  map as_pointer (nodes (update_node p (fun _ => n') t)) = map as_pointer (nodes t).
Proof.
  intros E. unfold update_node. simpl. rewrite map_map. apply map_ext. intros m.
  destruct (Nat.eqb_spec (as_pointer m) p); congruence.
Qed.

Lemma update_node_names (n n' : Node) (t : NodeTree) :
  NoDup (map as_pointer (nodes t)) -> In n (nodes t) -> node_name n' = node_name n ->
  map node_name (nodes (update_node (as_pointer n) (fun _ => n') t)) = map node_name (nodes t).
Proof.
  intros Hnd Hin E. unfold update_node. simpl. rewrite map_map. apply map_ext_in. intros m Hm.
  destruct (Nat.eqb_spec (as_pointer m) (as_pointer n)) as [Ep|Ep]; [|reflexivity].
  assert (m = n) by (eapply same_pointer_same_node; eauto). congruence.
Qed.

Lemma update_node_same (t : NodeTree) (n : Node) :
  NoDup (map as_pointer (nodes t)) -> In n (nodes t) ->
  update_node (as_pointer n) (fun _ => n) t = t.
Proof.
  intros Hnd Hin. unfold update_node. destruct t as [ns ls]. simpl in *. f_equal.
  rewrite <- (map_id ns) at 2. apply map_ext_in. intros m Hm.
  destruct (Nat.eqb_spec (as_pointer m) (as_pointer n)) as [E|E]; [|reflexivity].
  symmetry. eapply same_pointer_same_node; eauto.
Qed.

(** Looking a name up after a node with another name was assigned to. *)
Lemma nodes_get_update_other (x : string) (n n' : Node) (t : NodeTree) :
  NoDup (map as_pointer (nodes t)) -> In n (nodes t) ->
  node_name n <> x -> node_name n' <> x ->
  nodes_get x (update_node (as_pointer n) (fun _ => n') t) = nodes_get x t.
Proof.
  intros Hnd Hin Hn Hn'. unfold nodes_get, update_node. simpl.
  assert (H : forall m, In m (nodes t) -> as_pointer m = as_pointer n -> node_name m <> x).
  { intros m Hm E. assert (m = n) by (eapply same_pointer_same_node; eauto). congruence. }
  clear Hnd Hin. induction (nodes t) as [|m ms IH]; simpl; [reflexivity|].
  destruct (Nat.eqb_spec (as_pointer m) (as_pointer n)) as [E|E].
  - apply String.eqb_neq in Hn'. rewrite Hn'.
    assert (Hm : node_name m <> x) by (apply H; [left; reflexivity|exact E]).
    apply String.eqb_neq in Hm. rewrite Hm. apply IH. intros k Hk. apply H. right. exact Hk.
  - destruct (node_name m =? x); [reflexivity|].
    apply IH. intros k Hk. apply H. right. exact Hk.
Qed.

(** Looking a name up after the node of that name was assigned to. *)
Lemma nodes_get_update_same (x : string) (n n' : Node) (t : NodeTree) :
  NoDup (map as_pointer (nodes t)) -> nodes_get x t = Some n ->
  node_name n' = x ->
  nodes_get x (update_node (as_pointer n) (fun _ => n') t) = Some n'.
Proof.
  intros Hnd Hget Hn'. unfold nodes_get, update_node in *. simpl.
  induction (nodes t) as [|m ms IH]; simpl in *; [discriminate|].
  apply NoDup_cons in Hnd as [Hm Hms].
  destruct (String.eqb_spec (node_name m) x) as [E|E].
  - injection Hget as ->. rewrite Nat.eqb_refl.
    apply String.eqb_eq in Hn'. rewrite Hn'. reflexivity.
  - assert (Hin : In n ms) by (apply find_some in Hget as [Hin _]; exact Hin).
    destruct (Nat.eqb_spec (as_pointer m) (as_pointer n)) as [E2|E2].
    + exfalso. apply Hm. apply list_elem_of_In. rewrite E2. apply in_map. exact Hin.
    + apply String.eqb_neq in E. rewrite E. apply IH; assumption.
Qed.

Lemma is_linked_same_links (s : SocketRef) (t t' : NodeTree) :
  links t = links t' -> is_linked s t = is_linked s t'.
Proof. unfold is_linked. intros ->. reflexivity. Qed.

(** A quiet step runs without effect. *)
Lemma quiet_run (s : step) (t : NodeTree) (r : result unit) :
  NoDup (map as_pointer (nodes t)) -> quiet s t r -> run_step s t = (t, r).
Proof.
  intros Hnd. unfold quiet, run_step, with_node.
  destruct (nodes_get (target s) t) as [n|] eqn:Hget; [|intros ->; reflexivity].
  destruct (body s t n) as [|n'|e].
  - intros ->. reflexivity.
  - intros [-> ->]. rewrite update_node_same; [reflexivity|exact Hnd|].
    apply nodes_get_In in Hget. apply Hget.
  - intros ->. reflexivity.
Qed.

(** What one step leaves: the same links, pointers and names, and a tree on
    which the step is quiet. *)
Lemma run_step_quiet (s : step) (t t' : NodeTree) (r : result unit) :
  NoDup (map as_pointer (nodes t)) -> good_step s ->
  run_step s t = (t', r) ->
  quiet s t' r /\ links t' = links t /\
  map as_pointer (nodes t') = map as_pointer (nodes t) /\
  map node_name (nodes t') = map node_name (nodes t).
Proof.
  intros Hnd [Hloc Hid]. unfold run_step, with_node, quiet.
  destruct (nodes_get (target s) t) as [n|] eqn:Hget.
  2:{ intros [= <- <-]. rewrite Hget. auto. }
  destruct (body s t n) as [|n'|e] eqn:Hb.
  - intros [= <- <-]. rewrite Hget, Hb. auto.
  - intros [= <- <-].
    destruct (Hid _ _ _ Hb) as (Hp & Hname & Hagain).
    destruct (nodes_get_In _ _ _ Hget) as [Hin Hn].
    rewrite (nodes_get_update_same (target s) n n' t Hnd Hget) by congruence.
    rewrite (Hloc _ t n') by (intros i; apply is_linked_same_links; reflexivity).
    rewrite Hagain. split; [auto|]. split; [reflexivity|].
    split; [apply update_node_pointers; exact Hp|].
    apply update_node_names; auto.
  - intros [= <- <-]. rewrite Hget, Hb. auto.
Qed.

(** A step that is quiet stays quiet when a step on another name runs. *)
Lemma quiet_stable (s1 s2 : step) (t t' : NodeTree) (r1 r2 : result unit) :
  NoDup (map as_pointer (nodes t)) -> good_step s1 -> good_step s2 ->
  target s1 <> target s2 ->
  quiet s1 t r1 -> run_step s2 t = (t', r2) -> quiet s1 t' r1.
Proof.
  intros Hnd [Hloc1 _] [_ Hid2] Hne Hq. unfold run_step, with_node.
  destruct (nodes_get (target s2) t) as [n2|] eqn:Hget2; [|intros [= <- <-]; exact Hq].
  destruct (body s2 t n2) as [|n2'|e] eqn:Hb; try (intros [= <- <-]; exact Hq).
  intros [= <- <-].
  destruct (Hid2 _ _ _ Hb) as (Hp & Hname & _).
  destruct (nodes_get_In _ _ _ Hget2) as [Hin2 Hn2].
  unfold quiet in *.
  rewrite (nodes_get_update_other (target s1) n2 n2' t Hnd Hin2) by congruence.
  destruct (nodes_get (target s1) t) as [n1|]; [|exact Hq].
  rewrite (Hloc1 _ t n1) by (intros i; apply is_linked_same_links; reflexivity).
  exact Hq.
Qed.

Lemma exec_quiet (steps : list step) (t : NodeTree) :
  NoDup (map as_pointer (nodes t)) ->
  (forall s, In s steps -> quiet s t (Ok tt)) -> exec steps t = (t, Ok tt).
Proof.
  intros Hnd. induction steps as [|s rest IH]; intros H; simpl; [reflexivity|].
  rewrite (quiet_run s t (Ok tt) Hnd) by (apply H; left; reflexivity).
  apply IH. intros s' Hs'. apply H. right. exact Hs'.
Qed.

(** Running the steps leaves a tree on which running them again changes
    nothing and ends the same way; the steps that ran are quiet on it. *)
Lemma exec_settles (steps done : list step) (t t1 : NodeTree) (r : result unit) :
  NoDup (map as_pointer (nodes t)) ->
  (forall s, In s (done ++ steps) -> good_step s) ->
  NoDup (map target (done ++ steps)) ->
  (forall s, In s done -> quiet s t (Ok tt)) ->
  exec steps t = (t1, r) ->
  (forall s, In s done -> quiet s t1 (Ok tt)) /\
  (r = Ok tt -> forall s, In s steps -> quiet s t1 (Ok tt)) /\
  exec steps t1 = (t1, r) /\
  links t1 = links t /\
  map as_pointer (nodes t1) = map as_pointer (nodes t) /\
  map node_name (nodes t1) = map node_name (nodes t).
Proof.
  revert done t. induction steps as [|s rest IH]; intros done t Hnd Hgood Hnames Hdone; simpl.
  - intros [= <- <-]. split; [exact Hdone|]. split; [intros _ s []|]. auto.
  - destruct (run_step s t) as [t' rs] eqn:Hrun.
    assert (Hgs : good_step s) by (apply Hgood, in_or_app; right; left; reflexivity).
    destruct (run_step_quiet s t t' rs Hnd Hgs Hrun) as (Hqs & Hl & Hp & Hnm).
    assert (Hnd' : NoDup (map as_pointer (nodes t'))) by (rewrite Hp; exact Hnd).
    assert (Hdone' : forall s0, In s0 done -> quiet s0 t' (Ok tt)).
    { intros s0 Hs0. eapply quiet_stable; [exact Hnd| |exact Hgs| |apply Hdone; exact Hs0|exact Hrun].
      - apply Hgood, in_or_app. left. exact Hs0.
      - rewrite map_app in Hnames. apply NoDup_app in Hnames as (_ & Hdisj & _).
        intros E. apply (Hdisj (target s0)).
        + apply list_elem_of_In, in_map. exact Hs0.
        + apply list_elem_of_In. simpl. left. symmetry. exact E. }
    destruct rs as [[]|e].
    + intros Hrest.
      assert (Hgood' : forall s0, In s0 ((done ++ [s]) ++ rest)%list -> good_step s0)
        by (rewrite <- app_assoc; exact Hgood).
      assert (Hnames' : NoDup (map target ((done ++ [s]) ++ rest)%list))
        by (rewrite <- app_assoc; exact Hnames).
      assert (Hdone2 : forall s0, In s0 (done ++ [s])%list -> quiet s0 t' (Ok tt)).
      { intros s0 Hs0. apply in_app_or in Hs0 as [Hs0|[<-|[]]];
          [apply Hdone'; exact Hs0|exact Hqs]. }
      destruct (IH (done ++ [s])%list t' Hnd' Hgood' Hnames' Hdone2 Hrest)
        as (H1 & H2 & H3 & H4 & H5 & H6).
      split; [intros s0 Hs0; apply H1, in_or_app; left; exact Hs0|].
        assert (Hs1 : quiet s t1 (Ok tt)) by (apply H1, in_or_app; right; left; reflexivity).
        assert (Hnd1 : NoDup (map as_pointer (nodes t1))) by (rewrite H5; exact Hnd').
        split.
        { intros Hr s0 [<-|Hs0]; [exact Hs1|apply H2; assumption]. }
        split.
        { rewrite (quiet_run s t1 (Ok tt) Hnd1 Hs1). exact H3. }
        split; [congruence|]. split; congruence.
    + intros [= <- <-]. split; [exact Hdone'|]. split; [discriminate|].
      split; [|auto].
      rewrite (quiet_run s t' (Raised e) Hnd' Hqs). reflexivity.
Qed.

(** *** The steps of [update_nodes] are good steps *)

Lemma socket_index_nth (name : string) (l : list NodeSocket) (i : nat) :
  socket_index name l = Some i ->
  exists s, nth_error l i = Some s /\ sock_name s = name.
Proof.
  revert i. induction l as [|s l IH]; intros i; simpl; [discriminate|].
  destruct (String.eqb_spec (sock_name s) name) as [E|E].
  - intros [= <-]. exists s. auto.
  - destruct (socket_index name l) as [j|]; simpl; [|discriminate].
    intros [= <-]. apply (IH j). reflexivity.
Qed.

Lemma socket_index_insert (name : string) (l : list NodeSocket) (i : nat) (s s' : NodeSocket) :
  socket_index name l = Some i -> nth_error l i = Some s -> sock_name s' = sock_name s ->
  socket_index name (<[i := s']> l) = Some i.
Proof.
  revert i. induction l as [|x l IH]; intros i; simpl; [discriminate|].
  destruct (String.eqb_spec (sock_name x) name) as [E|E].
  - intros [= <-]. simpl. intros [= ->] Hs. rewrite Hs, E, String.eqb_refl. reflexivity.
  - destruct (socket_index name l) as [j|] eqn:Hj; simpl; [|discriminate].
    intros [= <-]. simpl. intros Hn Hs.
    apply String.eqb_neq in E. rewrite E.
    rewrite (IH j eq_refl Hn Hs). reflexivity.
Qed.

Lemma nth_error_insert (l : list NodeSocket) (i : nat) (s s' : NodeSocket) :
  nth_error l i = Some s -> nth_error (<[i := s']> l) i = Some s'.
Proof.
  revert i. induction l as [|x l IH]; intros [|i]; simpl; try discriminate; auto.
Qed.

Lemma insert_twice (l : list NodeSocket) (i : nat) (s' : NodeSocket) :
  <[i := s']> (<[i := s']> l) = <[i := s']> l.
Proof.
  revert i. induction l as [|x l IH]; intros [|i]; simpl; try reflexivity.
  rewrite IH. reflexivity.
Qed.

(** What an assignment to an input's [default_value] amounts to. *)
Lemma assign_input_Assign (name : string) (v : socket_value) (n n' : Node) :
  assign_input name v n = Assign n' ->
  exists i s,
    socket_index name (inputs n) = Some i /\ nth_error (inputs n) i = Some s /\
    accepts (sock_type s) v = Ok tt /\
    n' = set_inputs (<[i := set_default v s]> (inputs n)) n.
Proof.
  unfold assign_input.
  destruct (socket_index name (inputs n)) as [i|] eqn:Hi; [|discriminate].
  destruct (nth_error (inputs n) i) as [s|] eqn:Hs; [|discriminate].
  destruct (accepts (sock_type s) v) as [[]|e] eqn:Ha; [|discriminate].
  intros [= <-]. exists i, s. auto.
Qed.

Lemma assign_input_again (name : string) (v : socket_value) (n n' : Node) :
  assign_input name v n = Assign n' ->
  as_pointer n' = as_pointer n /\ node_name n' = node_name n /\
  socket_index name (inputs n') = socket_index name (inputs n) /\
  assign_input name v n' = Assign n'.
Proof.
  intros H. destruct (assign_input_Assign _ _ _ _ H) as (i & s & Hi & Hs & Ha & ->).
  split; [reflexivity|]. split; [reflexivity|].
  assert (Hi' : socket_index name (inputs (set_inputs (<[i := set_default v s]> (inputs n)) n))
                = Some i).
  { simpl. apply (socket_index_insert name (inputs n) i s); auto. }
  split; [rewrite Hi', Hi; reflexivity|].
  unfold assign_input. rewrite Hi'. simpl.
  rewrite (nth_error_insert _ _ s _ Hs). simpl. rewrite Ha.
  rewrite insert_twice. reflexivity.
Qed.

Lemma update_texture_good (settings : BlenroseMaterialSettings) (m : string * string) :
  good_step {| target := fst m; body := update_texture settings (snd m) |}.
Proof.
  split.
  - intros t t' n _. reflexivity.
  - intros t n n'. simpl. unfold update_texture.
    destruct (node_type n =? "TEX_IMAGE") eqn:E; [|discriminate].
    intros [= <-]. simpl. rewrite E. auto.
Qed.

Lemma update_uv_good (objs : list Object) (settings : BlenroseMaterialSettings)
    (m : string * string) :
  good_step {| target := fst m; body := update_uv objs settings (snd m) |}.
Proof.
  split.
  - intros t t' n _. reflexivity.
  - intros t n n'. simpl. unfold update_uv.
    destruct (node_type n =? "UVMAP") eqn:E; [|discriminate].
    destruct (truthy (getattr_uv objs settings (snd m))) eqn:E2; [|discriminate].
    intros [= <-]. simpl. rewrite E. auto.
Qed.

Lemma assign_input_good (x name : string) (v : socket_value) :
  good_step {| target := x; body := fun _ n => assign_input name v n |}.
Proof.
  split.
  - intros t t' n _. reflexivity.
  - intros t n n' H. simpl in *.
    destruct (assign_input_again _ _ _ _ H) as (H1 & H2 & _ & H4). auto.
Qed.

Lemma update_mix_fac_good : good_step {| target := "BR_MixShader"; body := update_mix_fac |}.
Proof.
  split.
  - intros t t' n H. simpl. unfold update_mix_fac.
    destruct (socket_index "Fac" (inputs n)) as [i|]; [|reflexivity].
    rewrite (H i). reflexivity.
  - intros t n n'. simpl. unfold update_mix_fac.
    destruct (socket_index "Fac" (inputs n)) as [i|] eqn:Hi; [|discriminate].
    destruct (is_linked {| sock_node := as_pointer n; sock_index := i |} t) eqn:Hl;
      simpl; [discriminate|].
    intros H. destruct (assign_input_again _ _ _ _ H) as (H1 & H2 & H3 & H4).
    split; [exact H1|]. split; [exact H2|].
    rewrite H3, Hi, H1, Hl. simpl. exact H4.
Qed.

Lemma node_steps_good (objs : list Object) (settings : BlenroseMaterialSettings) (s : step) :
  In s (node_steps objs settings) -> good_step s.
Proof.
  unfold node_steps. intros H.
  apply in_app_or in H as [H|H].
  { apply in_map_iff in H as (m & <- & _). apply update_texture_good. }
  apply in_app_or in H as [H|H].
  { apply in_map_iff in H as (m & <- & _). apply update_uv_good. }
  destruct H as [<-|[<-|[<-|[<-|[]]]]].
  - apply (assign_input_good "BR_DetailMapping").
  - apply (assign_input_good "BR_MacroMapping").
  - apply (assign_input_good "BR_MacroMix").
  - apply update_mix_fac_good.
Qed.

Lemma node_steps_targets (objs : list Object) (settings : BlenroseMaterialSettings) :
  map target (node_steps objs settings)
  = (map fst texture_mappings ++ map fst uv_mappings
     ++ ["BR_DetailMapping"; "BR_MacroMapping"; "BR_MacroMix"; "BR_MixShader"])%list.
Proof. reflexivity. Qed.

Lemma node_steps_distinct (objs : list Object) (settings : BlenroseMaterialSettings) :
  NoDup (map target (node_steps objs settings)).
Proof.
  rewrite node_steps_targets. apply (bool_decide_unpack _). vm_compute. exact I.
Qed.

Lemma node_steps_reserved (objs : list Object) (settings : BlenroseMaterialSettings)
    (s : step) :
  In s (node_steps objs settings) ->
  startswith (target s) "BR_" = true /\ target s <> "BR_Emission".
Proof.
  intros H. apply (in_map target) in H. rewrite node_steps_targets in H.
  simpl in H.
  repeat (destruct H as [<-|H]; [split; [reflexivity|discriminate]|]).
  destruct H.
Qed.

(** [update_nodes] runs the steps and then connects the lightmap. *)
Lemma for_each_exec {A : Type} (l : list A) (f : A -> M unit) (mk : A -> step) (t : NodeTree) :
  (forall x, f x = run_step (mk x)) ->
  for_each l f t = exec (map mk l) t.
Proof.
  intros Hf. revert t. induction l as [|x l IH]; intros t; simpl; [reflexivity|].
  unfold bind. rewrite Hf. destruct (run_step (mk x) t) as [t' [[]|e]]; [apply IH|reflexivity].
Qed.

Lemma exec_app (a b : list step) (t : NodeTree) :
  exec (a ++ b) t
  = match exec a t with
    | (t', Ok _) => exec b t'
    | (t', Raised e) => (t', Raised e)
    end.
Proof.
  revert t. induction a as [|s a IH]; intros t; simpl; [reflexivity|].
  destruct (run_step s t) as [t' [[]|e]]; [apply IH|reflexivity].
Qed.

Lemma update_nodes_exec (objs : list Object) (settings : BlenroseMaterialSettings)
    (t : NodeTree) :
  update_nodes objs settings t
  = match exec (node_steps objs settings) t with
    | (t', Ok _) => connect_lightmap t'
    | (t', Raised e) => (t', Raised e)
    end.
Proof.
  unfold update_nodes, node_steps.
  rewrite exec_app. unfold bind at 1.
  rewrite (for_each_exec texture_mappings _
             (fun m => {| target := fst m; body := update_texture settings (snd m) |}))
    by reflexivity.
  destruct (exec (map _ texture_mappings) t) as [t1 [[]|e]]; [|reflexivity].
  rewrite exec_app. unfold bind at 1.
  rewrite (for_each_exec uv_mappings _
             (fun m => {| target := fst m; body := update_uv objs settings (snd m) |}))
    by reflexivity.
  destruct (exec (map _ uv_mappings) t1) as [t2 [[]|e]]; [|reflexivity].
  simpl. unfold bind, run_step. simpl.
  destruct (with_node "BR_DetailMapping" _ t2) as [t3 [[]|e]]; [|reflexivity].
  destruct (with_node "BR_MacroMapping" _ t3) as [t4 [[]|e]]; [|reflexivity].
  destruct (with_node "BR_MacroMix" _ t4) as [t5 [[]|e]]; [|reflexivity].
  destruct (with_node "BR_MixShader" _ t5) as [t6 [[]|e]]; reflexivity.
Qed.

(** *** The lightmap connection *)

Lemma existsb_filter_app {A : Type} (p q : A -> bool) (l : list A) (x : A) :
  (forall k, p k = true -> q k = true) -> p x = false ->
  existsb p (List.filter q l ++ [x]) = existsb p l.
Proof.
  intros Hpq Hx. rewrite existsb_app. simpl. rewrite Hx, !orb_false_r.
  induction l as [|k l IH]; simpl; [reflexivity|].
  destruct (q k) eqn:Q; simpl.
  - rewrite IH. reflexivity.
  - destruct (p k) eqn:P; [rewrite (Hpq k P) in Q; discriminate|]. exact IH.
Qed.

(** A new link into a socket of another node leaves [is_linked] alone. *)
Lemma is_linked_links_new (o i s : SocketRef) (t : NodeTree) :
  sock_node s <> sock_node i ->
  is_linked s (links_new o i t) = is_linked s t.
Proof.
  intros Hne. unfold is_linked, links_new. simpl.
  apply existsb_filter_app.
  - intros k Hk. apply andb_true_iff in Hk as [Hk _]. apply Nat.eqb_eq in Hk.
    apply negb_true_iff, andb_false_iff. left. apply Nat.eqb_neq. congruence.
  - simpl. apply andb_false_iff. left. apply Nat.eqb_neq. congruence.
Qed.

Lemma connection_exists_connected (nt : NodeTree) (l e : Node) :
  connection_exists nt l e = true -> lightmap_connected nt l e.
Proof.
  unfold connection_exists, lightmap_connected. rewrite existsb_exists.
  intros (k & Hk & H). repeat (apply andb_true_iff in H as [H ?]).
  exists k. split; [exact Hk|].
  apply Nat.eqb_eq in H.
  repeat match goal with
         | X : (_ =? _)%nat = true |- _ => apply Nat.eqb_eq in X
         | X : bool_decide _ = true |- _ => apply bool_decide_eq_true_1 in X
         end.
  auto.
Qed.

(** What [connect_lightmap] leaves: the same nodes, the connection when
    both nodes are there and nothing was raised, and a tree on which
    connecting again changes nothing. *)
Lemma connect_lightmap_spec (t t' : NodeTree) (r : result unit) :
  wf_tree t -> connect_lightmap t = (t', r) ->
  nodes t' = nodes t /\
  wf_tree t' /\
  connect_lightmap t' = (t', r) /\
  (r = Ok tt ->
   forall e l, nodes_get "BR_Emission" t' = Some e -> nodes_get "BR_LightmapTex" t' = Some l ->
               lightmap_connected t' l e) /\
  (forall s, sock_node s ∉ map as_pointer
                             (List.filter (fun n => node_name n =? "BR_Emission") (nodes t)) ->
             is_linked s t' = is_linked s t).
Proof.
  intros Hwf. unfold connect_lightmap.
  destruct (nodes_get "BR_Emission" t) as [e|] eqn:He.
  2:{ cbv beta iota. intros [= <- <-]. rewrite He.
      split; [reflexivity|]. split; [exact Hwf|]. split; [reflexivity|].
      split; [|intros; reflexivity]. intros; congruence. }
  destruct (nodes_get "BR_LightmapTex" t) as [l|] eqn:Hl.
  2:{ cbv beta iota. intros [= <- <-]. rewrite He, Hl.
      split; [reflexivity|]. split; [exact Hwf|]. split; [reflexivity|].
      split; [|intros; reflexivity]. intros; congruence. }
  destruct (nodes_get_In _ _ _ He) as [Hein Hename].
  destruct (nodes_get_In _ _ _ Hl) as [Hlin Hlname].
  destruct (connection_exists t l e) eqn:Hc.
  { intros [= <- <-]. rewrite He, Hl, Hc.
    split; [reflexivity|]. split; [exact Hwf|]. split; [reflexivity|].
    split; [|intros; reflexivity].
    intros _ e' l' [= <-] [= <-]. apply connection_exists_connected. exact Hc. }
  unfold bind, outputs_item, inputs_item, new_link.
  rewrite (find_node_unique t l (proj1 Hwf) Hlin).
  destruct (socket_index "Color" (outputs l)) as [o|] eqn:Ho.
  2:{ intros [= <- <-]. rewrite He, Hl, Hc. unfold bind, outputs_item.
      rewrite (find_node_unique t l (proj1 Hwf) Hlin), Ho.
      split; [reflexivity|]. split; [exact Hwf|]. split; [reflexivity|].
      split; [|intros; reflexivity]. discriminate. }
  rewrite (find_node_unique t e (proj1 Hwf) Hein).
  destruct (socket_index "Color" (inputs e)) as [i|] eqn:Hi.
  2:{ intros [= <- <-]. rewrite He, Hl, Hc. unfold bind, outputs_item, inputs_item.
      rewrite (find_node_unique t l (proj1 Hwf) Hlin), Ho.
      rewrite (find_node_unique t e (proj1 Hwf) Hein), Hi.
      split; [reflexivity|]. split; [exact Hwf|]. split; [reflexivity|].
      split; [|intros; reflexivity]. discriminate. }
  intros [= <- <-].
  set (t' := links_new {| sock_node := as_pointer l; sock_index := o |}
                       {| sock_node := as_pointer e; sock_index := i |} t).
  assert (Hnodes : nodes t' = nodes t) by reflexivity.
  assert (Hnd' : NoDup (map as_pointer (nodes t'))) by (rewrite Hnodes; apply Hwf).
  assert (Hwf' : wf_tree t').
  { apply wf_tree_intro; [exact Hnd'|].
    rewrite Hnodes. unfold t', links_new. simpl. intros k Hk.
    apply in_app_or in Hk as [Hk|[<-|[]]].
    - apply filter_In in Hk as [Hk _]. apply (wf_tree_links t k Hwf Hk).
    - simpl. split; apply in_map; assumption. }
  assert (Hfrom : from_socket_name t' {| from_node := as_pointer l; from_socket := o;
                                        to_node := as_pointer e; to_socket := i |}
                  = Some "Color").
  { unfold from_socket_name. simpl.
    rewrite (find_node_unique t' l Hnd') by (rewrite Hnodes; exact Hlin).
    destruct (socket_index_nth _ _ _ Ho) as (s & Hs & Hname).
    rewrite Hs. simpl. rewrite Hname. reflexivity. }
  assert (Hto : to_socket_name t' {| from_node := as_pointer l; from_socket := o;
                                    to_node := as_pointer e; to_socket := i |}
                = Some "Color").
  { unfold to_socket_name. simpl.
    rewrite (find_node_unique t' e Hnd') by (rewrite Hnodes; exact Hein).
    destruct (socket_index_nth _ _ _ Hi) as (s & Hs & Hname).
    rewrite Hs. simpl. rewrite Hname. reflexivity. }
  assert (Hconn : lightmap_connected t' l e).
  { exists {| from_node := as_pointer l; from_socket := o;
              to_node := as_pointer e; to_socket := i |}.
    split; [|auto]. unfold t', links_new. simpl. apply in_or_app. right. left. reflexivity. }
  assert (Hget_e : nodes_get "BR_Emission" t' = Some e) by exact He.
  assert (Hget_l : nodes_get "BR_LightmapTex" t' = Some l) by exact Hl.
  split; [exact Hnodes|]. split; [exact Hwf'|].
  split.
  { rewrite Hget_e, Hget_l.
    assert (Hc' : connection_exists t' l e = true).
    { unfold connection_exists. apply existsb_exists.
      destruct Hconn as (k & Hk & H1 & H2 & H3 & H4). exists k. split; [exact Hk|].
      rewrite H1, H2, !Nat.eqb_refl. simpl.
      rewrite !bool_decide_eq_true_2 by assumption. reflexivity. }
    rewrite Hc'. reflexivity. }
  split.
  { intros _ e' l'. rewrite Hget_e, Hget_l. intros [= <-] [= <-]. exact Hconn. }
  intros s Hs. apply is_linked_links_new. simpl. intros E. apply Hs.
  apply list_elem_of_In. rewrite E. apply in_map. apply filter_In. split; [exact Hein|].
  apply String.eqb_eq. exact Hename.
Qed.

(** *** Updating twice *)

Lemma update_node_filter (p : Node -> bool) (n n' : Node) (t : NodeTree) :
  NoDup (map as_pointer (nodes t)) -> In n (nodes t) ->
  p n = false -> p n' = false ->
  List.filter p (nodes (update_node (as_pointer n) (fun _ => n') t)) = List.filter p (nodes t).
Proof.
  intros Hnd Hin Hn Hn'. unfold update_node. simpl.
  assert (H : forall m, In m (nodes t) -> as_pointer m = as_pointer n -> m = n).
  { intros m Hm E. eapply same_pointer_same_node; eauto. }
  clear Hnd Hin. induction (nodes t) as [|m ms IH]; simpl; [reflexivity|].
  assert (IH' := IH (fun k Hk => H k (or_intror Hk))).
  destruct (Nat.eqb_spec (as_pointer m) (as_pointer n)) as [E|E].
  - rewrite (H m (or_introl eq_refl) E), Hn, Hn'. exact IH'.
  - rewrite IH'. reflexivity.
Qed.

(** A step changes no node whose name does not start with "BR_". *)
Lemma run_step_frame (s : step) (t t' : NodeTree) (r : result unit) :
  NoDup (map as_pointer (nodes t)) -> good_step s ->
  startswith (target s) "BR_" = true ->
  run_step s t = (t', r) ->
  List.filter (fun n => negb (reserved n)) (nodes t')
  = List.filter (fun n => negb (reserved n)) (nodes t).
Proof.
  intros Hnd [_ Hid] Hres. unfold run_step, with_node.
  destruct (nodes_get (target s) t) as [n|] eqn:Hget; [|intros [= <- <-]; reflexivity].
  destruct (body s t n) as [|n'|e] eqn:Hb; try (intros [= <- <-]; reflexivity).
  intros [= <- <-].
  destruct (Hid _ _ _ Hb) as (Hp & Hname & _).
  destruct (nodes_get_In _ _ _ Hget) as [Hin Hn].
  apply update_node_filter; auto; unfold reserved.
  - rewrite Hn, Hres. reflexivity.
  - rewrite Hname, Hn, Hres. reflexivity.
Qed.

Lemma exec_frame (steps : list step) (t t' : NodeTree) (r : result unit) :
  NoDup (map as_pointer (nodes t)) ->
  (forall s, In s steps -> good_step s /\ startswith (target s) "BR_" = true) ->
  exec steps t = (t', r) ->
  List.filter (fun n => negb (reserved n)) (nodes t')
  = List.filter (fun n => negb (reserved n)) (nodes t).
Proof.
  revert t. induction steps as [|s rest IH]; intros t Hnd Hs; simpl.
  - intros [= <- <-]. reflexivity.
  - destruct (run_step s t) as [t1 rs] eqn:Hrun.
    destruct (Hs s (or_introl eq_refl)) as [Hg Hr].
    assert (Hf := run_step_frame s t t1 rs Hnd Hg Hr Hrun).
    destruct (run_step_quiet s t t1 rs Hnd Hg Hrun) as (_ & _ & Hp & _).
    destruct rs as [[]|e].
    + intros Hrest. rewrite <- Hf. apply IH; [rewrite Hp; exact Hnd| |exact Hrest].
      intros s' Hs'. apply Hs. right. exact Hs'.
    + intros [= <- <-]. exact Hf.
Qed.

(** A step that is quiet stays quiet when links change at other nodes. *)
Lemma quiet_relinked (s : step) (t t' : NodeTree) (r : result unit) :
  good_step s -> nodes t' = nodes t ->
  (forall n i, nodes_get (target s) t = Some n ->
               is_linked {| sock_node := as_pointer n; sock_index := i |} t'
               = is_linked {| sock_node := as_pointer n; sock_index := i |} t) ->
  quiet s t r -> quiet s t' r.
Proof.
  intros [Hloc _] Hnodes Hlinked. unfold quiet, nodes_get in *. rewrite Hnodes.
  destruct (find _ (nodes t)) as [n|] eqn:Hget; [|auto].
  rewrite (Hloc t' t n) by (intros i; apply Hlinked; reflexivity). auto.
Qed.

(** The in-place update, run on the tree it left, changes nothing and ends
    the same way.  It keeps the tree well formed, keeps every node's
    pointer, leaves the nodes outside the reserved namespace as they were,
    and, when nothing was raised, leaves the lightmap connected. *)
Lemma update_nodes_settles (objs : list Object) (settings : BlenroseMaterialSettings)
    (t t2 : NodeTree) (r : result unit) :
  wf_tree t ->
  update_nodes objs settings t = (t2, r) ->
  update_nodes objs settings t2 = (t2, r) /\
  wf_tree t2 /\
  map as_pointer (nodes t2) = map as_pointer (nodes t) /\
  map node_name (nodes t2) = map node_name (nodes t) /\
  List.filter (fun n => negb (reserved n)) (nodes t2)
  = List.filter (fun n => negb (reserved n)) (nodes t) /\
  (r = Ok tt ->
   forall e l, nodes_get "BR_Emission" t2 = Some e -> nodes_get "BR_LightmapTex" t2 = Some l ->
               lightmap_connected t2 l e).
Proof.
  intros Hwf. rewrite update_nodes_exec.
  destruct (exec (node_steps objs settings) t) as [t1 r1] eqn:Hexec.
  assert (Hgood : forall s, In s ([] ++ node_steps objs settings) -> good_step s)
    by (intros s Hs; apply (node_steps_good objs settings); exact Hs).
  destruct (exec_settles (node_steps objs settings) [] t t1 r1 (proj1 Hwf) Hgood
              (node_steps_distinct objs settings) (fun _ H => match H with end) Hexec)
    as (_ & Hquiet & Hagain & Hlinks & Hptrs & Hnames).
  assert (Hframe : List.filter (fun n => negb (reserved n)) (nodes t1)
                   = List.filter (fun n => negb (reserved n)) (nodes t)).
  { apply (exec_frame (node_steps objs settings) t t1 r1 (proj1 Hwf)); [|exact Hexec].
    intros s Hs. split; [apply (node_steps_good objs settings); exact Hs|].
    apply (node_steps_reserved objs settings). exact Hs. }
  assert (Hwf1 : wf_tree t1).
  { apply wf_tree_intro; [rewrite Hptrs; apply Hwf|].
    rewrite Hlinks, Hptrs. intros k Hk. apply (wf_tree_links t k Hwf Hk). }
  destruct r1 as [[]|e].
  2:{ intros [= <- <-]. rewrite update_nodes_exec, Hagain.
      split; [reflexivity|]. split; [exact Hwf1|]. split; [exact Hptrs|].
      split; [exact Hnames|]. split; [exact Hframe|]. discriminate. }
  intros Hconn.
  destruct (connect_lightmap_spec t1 t2 r Hwf1 Hconn) as (Hn & Hwf2 & Hc2 & Hlc & Hlinked).
  assert (Hq2 : forall s, In s (node_steps objs settings) -> quiet s t2 (Ok tt)).
  { intros s Hs. apply (quiet_relinked s t1 t2); [|exact Hn| |apply Hquiet; auto].
    - apply (node_steps_good objs settings). exact Hs.
    - intros n i Hget. apply Hlinked. simpl. intros Hin.
      apply list_elem_of_In in Hin. apply in_map_iff in Hin as (m & Em & Hm).
      apply filter_In in Hm as [Hm Hname]. apply String.eqb_eq in Hname.
      destruct (nodes_get_In _ _ _ Hget) as [Hnin Hnname].
      assert (m = n) by (eapply same_pointer_same_node; [apply Hwf1| | |]; eauto).
      subst m. destruct (node_steps_reserved objs settings s Hs) as [_ Hne].
      congruence. }
  split.
  { rewrite update_nodes_exec.
    rewrite (exec_quiet _ t2 (proj1 Hwf2) Hq2). exact Hc2. }
  split; [exact Hwf2|]. split; [rewrite Hn; exact Hptrs|].
  split; [rewrite Hn; exact Hnames|].
  split; [rewrite Hn; exact Hframe|]. exact Hlc.
Qed.

(* ===================================================================== *)
(** ** Rebuilding the tree *)
(* ===================================================================== *)

(** On the empty tree [create_nodes] never raises, whatever the settings.
    The tree it makes is well formed, has the three critical nodes and the
    lightmap connection, and is left as it is by the in-place update. *)
Lemma create_nodes_facts (objs : list Object) (settings : BlenroseMaterialSettings) :
  exists nt : NodeTree,
    create_nodes objs settings empty_tree = (nt, Ok tt) /\
    wf_tree nt /\
    missing_critical nt = false /\
    update_nodes objs settings nt = (nt, Ok tt) /\
    exists e l, nodes_get "BR_Emission" nt = Some e /\
                nodes_get "BR_LightmapTex" nt = Some l /\
                connection_exists nt l e = true.
Proof.
  unfold create_nodes, update_nodes.
  cbn [for_each texture_mappings uv_mappings fst snd].
  unfold update_texture, update_uv.
  generalize (getattr_uv objs settings "diffuse_uv") (getattr_uv objs settings "normal_uv")
             (getattr_uv objs settings "specular_uv") (getattr_uv objs settings "lightmap_uv")
             (getattr_uv objs settings "detail_uv") (getattr_uv objs settings "macro_overlay_uv")
             (getattr_uv objs settings "environment_uv") (getattr_uv objs settings "decal_uv")
             (getattr_uv objs settings "transparent_uv") (getattr_uv objs settings "noise_uv").
  intros u1 u2 u3 u4 u5 u6 u7 u8 u9 u10.
  generalize (getattr_tex settings "diffuse_tex") (getattr_tex settings "normal_tex")
             (getattr_tex settings "specular_tex") (getattr_tex settings "lightmap_tex")
             (getattr_tex settings "detail_tex") (getattr_tex settings "macro_overlay_tex")
             (getattr_tex settings "environment_tex") (getattr_tex settings "decal_tex")
             (getattr_tex settings "transparent_tex") (getattr_tex settings "noise_tex").
  intros t1 t2 t3 t4 t5 t6 t7 t8 t9 t10.
  generalize (detail_normal_uv_scale settings) (macro_overlay_uv_scale settings)
             (macro_overlay_opacity settings).
  intros f1 f2 f3.
  destruct t5 as [i5|]; [destruct u5 as [|a5 r5]|];
    (destruct t6 as [i6|]; [destruct u6 as [|a6 r6]|]);
    destruct u1 as [|a1 r1], u2 as [|a2 r2], u3 as [|a3 r3], u4 as [|a4 r4];
    (eexists; split; [vm_compute; reflexivity|];
     split; [apply (bool_decide_unpack _); vm_compute; exact I|];
     split; [vm_compute; reflexivity|];
     split; [vm_compute; reflexivity|];
     eexists; eexists; split; [vm_compute; reflexivity|];
     split; vm_compute; reflexivity).
Qed.

(** Building on a well-formed tree is building on the empty tree: every
    node the tree had is removed first, whatever its name. *)
Lemma build_nodes_clears (objs : list Object) (settings : BlenroseMaterialSettings)
    (nt : NodeTree) :
  wf_tree nt ->
  build_nodes objs settings nt = create_nodes objs settings empty_tree.
Proof.
  intros Hwf. unfold build_nodes, bind. rewrite (nodes_clear_empty nt Hwf). reflexivity.
Qed.

Lemma default_node_tree_wf : wf_tree default_node_tree.
Proof. apply (bool_decide_unpack _). vm_compute. exact I. Qed.

Lemma nodes_get_names (x : string) (t t' : NodeTree) :
  map node_name (nodes t) = map node_name (nodes t') ->
  bool_decide (is_Some (nodes_get x t)) = bool_decide (is_Some (nodes_get x t')).
Proof.
  unfold nodes_get. generalize (nodes t) (nodes t'). intros l.
  induction l as [|n l IH]; intros [|n' l']; simpl; try discriminate; [reflexivity|].
  intros [= E1 E2]. rewrite E1.
  destruct (node_name n' =? x); [reflexivity|]. apply IH. exact E2.
Qed.

Lemma missing_critical_names (t t' : NodeTree) :
  map node_name (nodes t) = map node_name (nodes t') ->
  missing_critical t = missing_critical t'.
Proof.
  intros H. unfold missing_critical, critical_nodes. simpl.
  rewrite !(nodes_get_names _ t t' H). reflexivity.
Qed.

(** *** The update on the world *)

Lemma store_material_twice (self : nat) (m m' : Material) (w : World) :
  store_material self m (store_material self m' w) = store_material self m w.
Proof.
  unfold store_material, set_materials. simpl. rewrite insert_insert_eq. reflexivity.
Qed.

Lemma store_material_lookup (self : nat) (m : Material) (w : World) :
  materials (store_material self m w) !! self = Some m.
Proof. unfold store_material. simpl. apply lookup_insert_eq. Qed.

Lemma store_material_other (self q : nat) (m : Material) (w : World) :
  q <> self -> materials (store_material self m w) !! q = materials w !! q.
Proof. intros H. unfold store_material. simpl. apply lookup_insert_ne. congruence. Qed.

Lemma with_nodes_on_facts (mat : Material) :
  blenrose_settings (with_nodes_on mat) = blenrose_settings mat /\
  material_name (with_nodes_on mat) = material_name mat /\
  (forall nt, node_tree mat = Some nt -> node_tree (with_nodes_on mat) = Some nt) /\
  (forall nt, node_tree (with_nodes_on mat) = Some nt ->
              node_tree mat = Some nt \/ nt = default_node_tree) /\
  (node_tree (with_nodes_on mat) <> None -> use_nodes (with_nodes_on mat) = true).
Proof.
  unfold with_nodes_on. destruct (use_nodes mat) eqn:E.
  - split; [reflexivity|]. split; [reflexivity|]. split; [auto|]. split; [auto|].
    intros _. exact E.
  - split; [reflexivity|]. split; [reflexivity|].
    split; [intros nt H; simpl; rewrite H; reflexivity|].
    split; [|intros _; reflexivity].
    intros nt. simpl. destruct (node_tree mat); intros [= <-]; auto.
Qed.

(** What [_update_all_blenrose_nodes] does to a material that is there and
    not suppressed, by the state of its tree. *)
Lemma update_all_cases (self : nat) (w : World) (mat : Material) :
  materials w !! self = Some mat ->
  self ∉ _SUPPRESSED_UPDATE_MATERIALS w ->
  (forall nt, node_tree mat = Some nt -> wf_tree nt) ->
  (node_tree (with_nodes_on mat) = None /\
   _update_all_blenrose_nodes self w = (store_material self (with_nodes_on mat) w, Ok tt)) \/
  (exists nt nt',
      node_tree (with_nodes_on mat) = Some nt /\ wf_tree nt /\ missing_critical nt = true /\
      create_nodes (objects w) (blenrose_settings mat) empty_tree = (nt', Ok tt) /\
      _update_all_blenrose_nodes self w
      = (store_material self (set_node_tree (Some nt') (with_nodes_on mat)) w, Ok tt)) \/
  (exists nt nt' r,
      node_tree (with_nodes_on mat) = Some nt /\ wf_tree nt /\ missing_critical nt = false /\
      update_nodes (objects w) (blenrose_settings mat) nt = (nt', r) /\
      _update_all_blenrose_nodes self w
      = (store_material self (set_node_tree (Some nt') (with_nodes_on mat)) w, r)).
Proof.
  intros Hm Hsup Hwf.
  destruct (with_nodes_on_facts mat) as (Hset & _ & _ & Horigin & Huse).
  unfold _update_all_blenrose_nodes. rewrite Hm.
  rewrite bool_decide_eq_false_2 by exact Hsup.
  fold (with_nodes_on mat).
  destruct (node_tree (with_nodes_on mat)) as [nt|] eqn:Ht; [|left; auto].
  right.
  assert (Hwfnt : wf_tree nt).
  { destruct (Horigin nt eq_refl) as [H| ->]; [apply Hwf; exact H|apply default_node_tree_wf]. }
  destruct (missing_critical nt) eqn:Hmiss.
  - left. destruct (create_nodes_facts (objects w) (blenrose_settings mat)) as (nt' & Hc & _).
    exists nt, nt'. repeat (split; [first [assumption|reflexivity]|]).
    unfold _build_blenrose_node_tree.
    rewrite (Huse ltac:(discriminate)), Ht, Hset.
    rewrite (build_nodes_clears _ _ nt Hwfnt), Hc. reflexivity.
  - right. rewrite Hset.
    destruct (update_nodes (objects w) (blenrose_settings mat) nt) as [nt' r] eqn:Hu.
    exists nt, nt', r. repeat (split; [first [assumption|reflexivity]|]). reflexivity.
Qed.

Lemma with_nodes_on_use (mat : Material) : use_nodes (with_nodes_on mat) = true.
Proof. unfold with_nodes_on. destruct (use_nodes mat) eqn:E; [exact E|reflexivity]. Qed.

Lemma set_node_tree_same (mat : Material) (nt : option NodeTree) :
  node_tree mat = nt -> set_node_tree nt mat = mat.
Proof. intros <-. destruct mat. reflexivity. Qed.

Lemma store_material_same (self : nat) (mat : Material) (w : World) :
  materials w !! self = Some mat -> store_material self mat w = w.
Proof.
  intros H. unfold store_material, set_materials. rewrite (insert_id _ _ _ H).
  destruct w. reflexivity.
Qed.

(** The update returns at once for a suppressed material. *)
Lemma update_suppressed (self : nat) (w : World) :
  self ∈ _SUPPRESSED_UPDATE_MATERIALS w ->
  _update_all_blenrose_nodes self w = (w, Ok tt).
Proof.
  intros Hsup. unfold _update_all_blenrose_nodes.
  destruct (materials w !! self) as [mat|]; [|reflexivity].
  rewrite bool_decide_eq_true_2 by exact Hsup. reflexivity.
Qed.

(** The update on a material whose tree the in-place update leaves as it
    is: the world is left as it is. *)
Lemma update_all_fixed (self : nat) (w : World) (mat : Material) (nt : NodeTree)
    (r : result unit) :
  materials w !! self = Some mat ->
  self ∉ _SUPPRESSED_UPDATE_MATERIALS w ->
  use_nodes mat = true ->
  node_tree mat = Some nt ->
  missing_critical nt = false ->
  update_nodes (objects w) (blenrose_settings mat) nt = (nt, r) ->
  _update_all_blenrose_nodes self w = (w, r).
Proof.
  intros Hm Hsup Hu Ht Hmiss Hup. unfold _update_all_blenrose_nodes.
  rewrite Hm, (bool_decide_eq_false_2 _ Hsup), Hu, Ht, Hmiss, Hup.
  rewrite (set_node_tree_same mat (Some nt) Ht), (store_material_same _ _ _ Hm). reflexivity.
Qed.

(* ===================================================================== *)
(** ** Synchronisation: idempotence, lightmap connection, frame *)
(* ===================================================================== *)

(** C2.  Calling the update twice with the same settings: the second call
    leaves the world the first call left, the material's nodes and links
    among it, so it adds no node and no link; and it ends as the first call
    did.  The material's tree is taken well formed: pointers identify its
    nodes and its links join nodes of the tree. *)
Theorem synchronize_twice (self : nat) (w w1 : World) (r1 : result unit) :
  (forall mat nt, materials w !! self = Some mat -> node_tree mat = Some nt -> wf_tree nt) ->
  _update_all_blenrose_nodes self w = (w1, r1) ->
  _update_all_blenrose_nodes self w1 = (w1, r1).
Proof.
  intros Hwf Hfirst.
  destruct (materials w !! self) as [mat|] eqn:Hm.
  2:{ unfold _update_all_blenrose_nodes in Hfirst. rewrite Hm in Hfirst.
      injection Hfirst as <- <-. unfold _update_all_blenrose_nodes. rewrite Hm. reflexivity. }
  destruct (decide (self ∈ _SUPPRESSED_UPDATE_MATERIALS w)) as [Hsup|Hsup].
  { rewrite (update_suppressed self w Hsup) in Hfirst. injection Hfirst as <- <-.
    apply update_suppressed. exact Hsup. }
  destruct (with_nodes_on_facts mat) as (Hset & _ & _ & _ & _).
  destruct (update_all_cases self w mat Hm Hsup (fun nt H => Hwf mat nt eq_refl H))
    as [[Hnone Hrun]|[(nt & nt' & Ht & Hwfnt & Hmiss & Hc & Hrun)
                     |(nt & nt' & r & Ht & Hwfnt & Hmiss & Hu & Hrun)]];
    rewrite Hrun in Hfirst; injection Hfirst as <- <-.
  - unfold _update_all_blenrose_nodes.
    rewrite store_material_lookup. simpl _SUPPRESSED_UPDATE_MATERIALS.
    rewrite (bool_decide_eq_false_2 _ Hsup), with_nodes_on_use, Hnone.
    rewrite store_material_twice. reflexivity.
  - destruct (create_nodes_facts (objects w) (blenrose_settings mat))
      as (nt2 & Hc2 & _ & Hmiss2 & Hup2 & _).
    rewrite Hc in Hc2. injection Hc2 as <-.
    eapply update_all_fixed.
    + apply store_material_lookup.
    + exact Hsup.
    + apply with_nodes_on_use.
    + reflexivity.
    + exact Hmiss2.
    + simpl. rewrite Hset. exact Hup2.
  - destruct (update_nodes_settles _ _ nt nt' r Hwfnt Hu) as (Hagain & _ & _ & Hnames & _).
    eapply update_all_fixed.
    + apply store_material_lookup.
    + exact Hsup.
    + apply with_nodes_on_use.
    + reflexivity.
    + rewrite (missing_critical_names nt' nt Hnames). exact Hmiss.
    + simpl. rewrite Hset. exact Hagain.
Qed.

(** C7.  After an update that ran (the material is not suppressed) and
    raised nothing, if the tree has the nodes "BR_Emission" and
    "BR_LightmapTex", a link joins the Color output of the lightmap
    texture to the Color input of the emission, whatever the settings
    hold for the lightmap image. *)
Theorem lightmap_feeds_emission (self : nat) (w w' : World) (mat' : Material)
    (nt' : NodeTree) (e l : Node) :
  (forall mat nt, materials w !! self = Some mat -> node_tree mat = Some nt -> wf_tree nt) ->
  self ∉ _SUPPRESSED_UPDATE_MATERIALS w ->
  _update_all_blenrose_nodes self w = (w', Ok tt) ->
  materials w' !! self = Some mat' ->
  node_tree mat' = Some nt' ->
  nodes_get "BR_Emission" nt' = Some e ->
  nodes_get "BR_LightmapTex" nt' = Some l ->
  lightmap_connected nt' l e.
Proof.
  intros Hwf Hsup Hrun Hm' Ht' He Hl.
  destruct (materials w !! self) as [mat|] eqn:Hm.
  2:{ unfold _update_all_blenrose_nodes in Hrun. rewrite Hm in Hrun.
      injection Hrun as <-. congruence. }
  destruct (update_all_cases self w mat Hm Hsup (fun nt H => Hwf mat nt eq_refl H))
    as [[Hnone Hrun']|[(nt & nt2 & Ht & Hwfnt & Hmiss & Hc & Hrun')
                      |(nt & nt2 & r & Ht & Hwfnt & Hmiss & Hu & Hrun')]];
    rewrite Hrun' in Hrun.
  - injection Hrun as <-. rewrite store_material_lookup in Hm'. injection Hm' as <-.
    congruence.
  - injection Hrun as <-. rewrite store_material_lookup in Hm'. injection Hm' as <-.
    simpl in Ht'. injection Ht' as <-.
    destruct (create_nodes_facts (objects w) (blenrose_settings mat))
      as (nt3 & Hc3 & _ & _ & _ & e3 & l3 & He3 & Hl3 & Hconn).
    rewrite Hc in Hc3. injection Hc3 as <-.
    apply connection_exists_connected. congruence.
  - injection Hrun as <- ->. rewrite store_material_lookup in Hm'. injection Hm' as <-.
    simpl in Ht'. injection Ht' as <-.
    destruct (update_nodes_settles _ _ nt nt2 (Ok tt) Hwfnt Hu) as (_ & _ & _ & _ & _ & Hconn).
    apply Hconn; auto.
Qed.

(** C1, as amended.  The update of a material that is there, not
    suppressed and has a well-formed tree stores a new tree in that
    material, switches its [use_nodes] on, and leaves its settings, the
    other materials, the objects and the suppression set as they were.
    When the three critical nodes are there, the new tree has the nodes of
    the old one, pointer by pointer, and every node whose name does not
    start with "BR_" is as it was.  When a critical node is missing, the
    new tree is the one [create_nodes] makes on the empty tree from the
    settings: every node the tree had is removed, whatever its name. *)
Theorem synchronize_frame (self : nat) (w : World) (mat : Material) (nt : NodeTree) :
  materials w !! self = Some mat ->
  self ∉ _SUPPRESSED_UPDATE_MATERIALS w ->
  node_tree mat = Some nt ->
  wf_tree nt ->
  exists (nt' : NodeTree) (r : result unit) (mat' : Material),
    _update_all_blenrose_nodes self w = (store_material self mat' w, r) /\
    node_tree mat' = Some nt' /\
    use_nodes mat' = true /\
    blenrose_settings mat' = blenrose_settings mat /\
    material_name mat' = material_name mat /\
    (forall q, q <> self -> materials (store_material self mat' w) !! q = materials w !! q) /\
    objects (store_material self mat' w) = objects w /\
    _SUPPRESSED_UPDATE_MATERIALS (store_material self mat' w) = _SUPPRESSED_UPDATE_MATERIALS w /\
    (missing_critical nt = false ->
     map as_pointer (nodes nt') = map as_pointer (nodes nt) /\
     List.filter (fun n => negb (reserved n)) (nodes nt')
     = List.filter (fun n => negb (reserved n)) (nodes nt)) /\
    (missing_critical nt = true ->
     create_nodes (objects w) (blenrose_settings mat) empty_tree = (nt', Ok tt) /\ r = Ok tt).
Proof.
  intros Hm Hsup Ht Hwf.
  destruct (with_nodes_on_facts mat) as (Hset & Hname & Hkeep & _ & _).
  assert (Hwf' : forall nt0, node_tree mat = Some nt0 -> wf_tree nt0) by congruence.
  destruct (update_all_cases self w mat Hm Hsup Hwf')
    as [[Hnone _]|[(nt0 & nt' & Ht0 & _ & Hmiss & Hc & Hrun)
                  |(nt0 & nt' & r & Ht0 & Hwf0 & Hmiss & Hu & Hrun)]].
  - rewrite (Hkeep nt Ht) in Hnone. discriminate.
  - rewrite (Hkeep nt Ht) in Ht0. injection Ht0 as <-.
    exists nt', (Ok tt), (set_node_tree (Some nt') (with_nodes_on mat)).
    split; [exact Hrun|]. split; [reflexivity|]. split; [apply with_nodes_on_use|].
    split; [exact Hset|]. split; [exact Hname|].
    split; [intros q Hq; apply store_material_other; exact Hq|].
    split; [reflexivity|]. split; [reflexivity|].
    split; [congruence|]. auto.
  - rewrite (Hkeep nt Ht) in Ht0. injection Ht0 as <-.
    exists nt', r, (set_node_tree (Some nt') (with_nodes_on mat)).
    split; [exact Hrun|]. split; [reflexivity|]. split; [apply with_nodes_on_use|].
    split; [exact Hset|]. split; [exact Hname|].
    split; [intros q Hq; apply store_material_other; exact Hq|].
    split; [reflexivity|]. split; [reflexivity|].
    split; [|congruence].
    intros _. destruct (update_nodes_settles _ _ nt nt' r Hwf Hu) as (_ & _ & Hp & _ & Hf & _).
    auto.
Qed.

(* ===================================================================== *)
(** ** Auto-fill in fill-only mode *)
(* ===================================================================== *)

Lemma settings_of_store (self : nat) (mat : Material) (w : World) :
  settings_of self (store_material self mat w) = Some (blenrose_settings mat).
Proof. unfold settings_of. rewrite store_material_lookup. reflexivity. Qed.

(** While the material is suppressed, assigning a texture stores it and
    does nothing else. *)
Lemma setattr_tex_suppressed (self : nat) (tex_prop : string) (img : Image) (w : World)
    (s : BlenroseMaterialSettings) :
  self ∈ _SUPPRESSED_UPDATE_MATERIALS w ->
  settings_of self w = Some s ->
  self ∈ _SUPPRESSED_UPDATE_MATERIALS (setattr_tex self tex_prop img w) /\
  settings_of self (setattr_tex self tex_prop img w)
  = Some (set_textures (<[ tex_prop := img ]> (textures s)) s).
Proof.
  intros Hsup Hs. unfold settings_of in Hs. unfold setattr_tex.
  destruct (materials w !! self) as [mat|] eqn:Hm; [|discriminate].
  injection Hs as <-.
  rewrite update_suppressed by exact Hsup. simpl.
  split; [exact Hsup|]. apply settings_of_store.
Qed.

(** While the material is suppressed, assigning a UV source changes the UV
    enums at most. *)
Lemma setattr_uv_suppressed (self : nat) (uv_prop ident : string) (w : World)
    (s : BlenroseMaterialSettings) :
  self ∈ _SUPPRESSED_UPDATE_MATERIALS w ->
  settings_of self w = Some s ->
  self ∈ _SUPPRESSED_UPDATE_MATERIALS (setattr_uv self uv_prop ident w) /\
  exists s', settings_of self (setattr_uv self uv_prop ident w) = Some s' /\
             textures s' = textures s.
Proof.
  intros Hsup Hs. unfold setattr_uv. pose proof Hs as Hs'. unfold settings_of in Hs.
  destruct (materials w !! self) as [mat|] eqn:Hm; [|discriminate].
  injection Hs as <-.
  destruct (enum_value (uv_channel_items (objects w)) ident) as [value|].
  - rewrite update_suppressed by exact Hsup. simpl.
    split; [exact Hsup|]. eexists. split; [apply settings_of_store|]. reflexivity.
  - split; [exact Hsup|]. exists (blenrose_settings mat). auto.
Qed.

(** One round of the fill-only loop keeps a texture that is set. *)
Lemma auto_fill_channel_keeps (self : nat) (w : World) (entry : string * texture_info)
    (s : BlenroseMaterialSettings) (tex_prop : string) (img : Image) :
  self ∈ _SUPPRESSED_UPDATE_MATERIALS w ->
  settings_of self w = Some s ->
  getattr_tex s tex_prop = Some img ->
  self ∈ _SUPPRESSED_UPDATE_MATERIALS (auto_fill_channel self false w entry) /\
  exists s', settings_of self (auto_fill_channel self false w entry) = Some s' /\
             getattr_tex s' tex_prop = Some img.
Proof.
  intros Hsup Hs Hget. destruct entry as [channel_name info]. unfold auto_fill_channel.
  set (w1 := match dict_get channel_name texture_prop_map with
             | Some p =>
                 if false || negb (bool_decide (is_Some (settings_of self w
                                                         ≫= (fun s0 => getattr_tex s0 p))))
                 then setattr_tex self p (info_image info) w
                 else w
             | None => w
             end).
  assert (H1 : self ∈ _SUPPRESSED_UPDATE_MATERIALS w1 /\
               exists s1, settings_of self w1 = Some s1 /\ getattr_tex s1 tex_prop = Some img).
  { unfold w1. destruct (dict_get channel_name texture_prop_map) as [p|]; [|eauto].
    rewrite Hs.
    destruct (false || negb (bool_decide (is_Some (Some s ≫= (fun s0 => getattr_tex s0 p)))))
      eqn:Hb; [|eauto].
    assert (Hne : p <> tex_prop).
    { intros ->. change (Some s ≫= (fun s0 => getattr_tex s0 tex_prop))
                   with (getattr_tex s tex_prop) in Hb.
      rewrite Hget in Hb. rewrite bool_decide_eq_true_2 in Hb by eauto. discriminate. }
    destruct (setattr_tex_suppressed self p (info_image info) w s Hsup Hs) as [Hs1 Hs2].
    split; [exact Hs1|]. eexists. split; [exact Hs2|].
    unfold getattr_tex in *. simpl.
    rewrite lookup_insert_ne; [exact Hget|]. exact Hne. }
  destruct H1 as (Hsup1 & s1 & Hs1 & Hget1).
  fold w1.
  destruct (dict_get channel_name uv_prop_map) as [uv_prop|]; [|eauto].
  destruct (uv_map_name info) as [name|]; [|eauto].
  destruct (truthy name); [|eauto].
  destruct (find _ (uv_channel_items (objects w1))) as [item|]; [|eauto].
  destruct (setattr_uv_suppressed self uv_prop (identifier item) w1 s1 Hsup1 Hs1)
    as (Hsup2 & s2 & Hs2 & Htex).
  split; [exact Hsup2|]. exists s2. split; [exact Hs2|].
  unfold getattr_tex in *. rewrite Htex. exact Hget1.
Qed.

(** X1.  The part of C3 that holds.  In fill-only mode the auto-fill never
    overwrites a texture field that holds an image. *)
Theorem fill_only_keeps_textures (self : nat) (w : World) (s : BlenroseMaterialSettings)
    (tex_prop : string) (img : Image) :
  settings_of self w = Some s ->
  getattr_tex s tex_prop = Some img ->
  exists s', settings_of self (_auto_fill_textures_from_node_tree self false w) = Some s' /\
             getattr_tex s' tex_prop = Some img.
Proof.
  intros Hs Hget. unfold _auto_fill_textures_from_node_tree.
  pose proof Hs as Hs0. unfold settings_of in Hs0.
  destruct (materials w !! self) as [mat|] eqn:Hm; [|discriminate].
  set (w0 := set_suppressed ({[self]} ∪ _SUPPRESSED_UPDATE_MATERIALS w) w).
  assert (H0 : self ∈ _SUPPRESSED_UPDATE_MATERIALS w0 /\
               exists s0, settings_of self w0 = Some s0 /\ getattr_tex s0 tex_prop = Some img).
  { split; [simpl; set_solver|]. exists s. split; [|exact Hget].
    unfold settings_of, w0. simpl. rewrite Hm. exact Hs0. }
  generalize (_detect_textures_from_node_tree (objects w) self mat). intros detected.
  revert H0. generalize w0. clear w0.
  induction detected as [|entry rest IH]; intros w0 (Hsup & s0 & Hs1 & Hget1); simpl.
  - exists s0. split; [|exact Hget1]. unfold settings_of in *. simpl. exact Hs1.
  - apply IH. apply (auto_fill_channel_keeps self w0 entry s0 tex_prop img Hsup Hs1 Hget1).
Qed.

(** In [authored_world] the diffuse texture of material 7 is wall.png
    before and after the fill-only pass. *)
Lemma fill_only_keeps_textures_witness :
  (settings_of 7 authored_world = Some populated_settings /\
   getattr_tex populated_settings "diffuse_tex" = Some wall_png) /\
  exists s', settings_of 7 (_auto_fill_textures_from_node_tree 7 false authored_world) = Some s' /\
             getattr_tex s' "diffuse_tex" = Some wall_png.
Proof.
  assert (H1 : settings_of 7 authored_world = Some populated_settings)
    by (vm_compute; reflexivity).
  assert (H2 : getattr_tex populated_settings "diffuse_tex" = Some wall_png)
    by (vm_compute; reflexivity).
  split; [auto|].
  exact (fill_only_keeps_textures 7 authored_world populated_settings "diffuse_tex" wall_png
           H1 H2).
Defined.

(** C3 fails on the UV sources.  In [authored_world] the diffuse channel of
    material 7 is populated: its texture is wall.png and its UV source is
    "UVMap".  Detection matches the node "Diffuse_Color" (moss.png, fed by
    the UV layer "Lightmap") to the diffuse channel.  Fill-only auto-fill
    keeps the texture and overwrites the UV source with "Lightmap"; so does
    enabling the material, which runs it. *)
Lemma fill_only_overwrites_uv_source :
  getattr_tex (settings_in authored_world) "diffuse_tex" = Some wall_png /\
  getattr_uv (objects authored_world) (settings_in authored_world) "diffuse_uv" = "UVMap" /\
  map (fun e => (fst e, info_image (snd e), uv_map_name (snd e)))
      (_detect_textures_from_node_tree (objects authored_world) 7 authored_material)
  = [("diffuse", moss_png, Some "Lightmap")] /\
  getattr_tex (settings_in (_auto_fill_textures_from_node_tree 7 false authored_world))
              "diffuse_tex" = Some wall_png /\
  getattr_uv (objects authored_world)
             (settings_in (_auto_fill_textures_from_node_tree 7 false authored_world))
             "diffuse_uv" = "Lightmap" /\
  getattr_uv (objects authored_world) (settings_in (setattr_enabled 7 true authored_world))
             "diffuse_uv" = "Lightmap".
Proof.
  repeat (split; [vm_compute; reflexivity|]). vm_compute. reflexivity.
Qed.

(* ===================================================================== *)
(** ** Feedback suppression *)
(* ===================================================================== *)

(** C6.  When the material's pointer is in [_SUPPRESSED_UPDATE_MATERIALS],
    [_update_all_blenrose_nodes] returns at once: the world it leaves is
    the world it was given (the material's nodes, links and socket values,
    and everything else), and nothing is raised. *)
Theorem suppressed_update_is_noop (self : nat) (w : World) :
  self ∈ _SUPPRESSED_UPDATE_MATERIALS w ->
  _update_all_blenrose_nodes self w = (w, Ok tt).
Proof.
  intros Hsup. unfold _update_all_blenrose_nodes.
  destruct (materials w !! self) as [mat|]; [|reflexivity].
  rewrite bool_decide_eq_true_2 by exact Hsup. reflexivity.
Qed.

(** The suppressed world's material 7 lacks every critical node, so an
    update that ran would rebuild its tree; it does not run. *)
Lemma suppressed_update_is_noop_witness :
  7%nat ∈ _SUPPRESSED_UPDATE_MATERIALS suppressed_world /\
  _update_all_blenrose_nodes 7 suppressed_world = (suppressed_world, Ok tt).
Proof.
  assert (H : 7%nat ∈ _SUPPRESSED_UPDATE_MATERIALS suppressed_world)
    by (vm_compute; reflexivity).
  split; [exact H | exact (suppressed_update_is_noop 7 suppressed_world H)].
Defined.

(* ===================================================================== *)
(** ** Export: coordinate remap and spline extraction *)
(* ===================================================================== *)

Lemma sample_spline_remap (matmul : Matrix -> Vec -> Vec) (m : Matrix) (spline : Spline) :
  sample_spline matmul m spline
  = map (fun p => spec_remap (matmul m p)) (control_points spline).
Proof.
  assert (Hremap : forall q : Vec,
             (let '(blender_x, blender_y, blender_z) := matmul m q in
              (blender_x, blender_z, PrimFloat.opp blender_y)) = spec_remap (matmul m q)).
  { intros q. unfold spec_remap, vx, vy, vz. destruct (matmul m q) as [[x y] z]. reflexivity. }
  unfold sample_spline, control_points.
  destruct (String.eqb_spec (spline_type spline) "POLY") as [E|E].
  - rewrite E. simpl.
    destruct (points spline) as [|p ps]; [reflexivity|]. simpl.
    f_equal; [apply Hremap|]. rewrite map_map. apply map_ext. intros q. apply Hremap.
  - simpl. destruct (String.eqb_spec (spline_type spline) "BEZIER") as [E2|E2].
    + simpl. destruct (bezier_points spline) as [|p ps].
      * simpl. rewrite E2. reflexivity.
      * simpl. f_equal; [apply Hremap|]. apply map_ext. intros q. apply Hremap.
    + simpl. destruct (String.eqb_spec (spline_type spline) "NURBS") as [E3|E3];
        [|reflexivity].
      simpl. destruct (points spline) as [|p ps]; [reflexivity|]. simpl.
      f_equal; [apply Hremap|]. rewrite map_map. apply map_ext. intros q. apply Hremap.
Qed.

Lemma bbox_add_corner_remap (acc : bbox_acc) (corners : list Vec) :
  fold_left bbox_add_corner corners acc
  = fold_left bbox_extend (map spec_remap corners) acc.
Proof.
  revert acc. induction corners as [|c cs IH]; intros acc; [reflexivity|].
  simpl. rewrite IH.
  replace (bbox_add_corner acc c) with (bbox_extend acc (spec_remap c)); [reflexivity|].
  destruct acc as [[[a b] c0] [[d e] f]]. reflexivity.
Qed.

Lemma bbox_fold_objects (matmul : Matrix -> Vec -> Vec) (objs : list Object) (acc : bbox_acc) :
  fold_left (fun acc obj =>
               if negb (obj_type obj =? "MESH") then acc
               else fold_left bbox_add_corner (bbox_corners matmul obj) acc) objs acc
  = fold_left bbox_extend (map spec_remap (mesh_corners matmul objs)) acc.
Proof.
  revert acc. induction objs as [|o os IH]; intros acc; [reflexivity|].
  simpl. rewrite IH. destruct (obj_type o =? "MESH"); simpl; [|reflexivity].
  rewrite map_app, fold_left_app, bbox_add_corner_remap. reflexivity.
Qed.

(** C8.  The export remaps every world-space point (x, y, z) to
    (x, z, -y): the points of an extracted spline are the remapped
    world-space control points, the box of a group of objects is the box of
    the remapped world-space corners of its meshes, and (1, 2, 3) goes to
    (1, 3, -2), both as a point and through the two functions. *)
Theorem export_remaps_axes (matmul : Matrix -> Vec -> Vec) :
  (forall (m : Matrix) (spline : Spline),
      sample_spline matmul m spline
      = map (fun p => spec_remap (matmul m p)) (control_points spline)) /\
  (forall objs : list Object,
      _calculate_bbox_for_objects matmul objs
      = match objs with
        | [] => None
        | _ => bbox_of_acc (fold_left bbox_extend
                              (map spec_remap (mesh_corners matmul objs)) bbox_nothing)
        end) /\
  (forall x y z : float, spec_remap (x, y, z) = (x, z, PrimFloat.opp y)) /\
  spec_remap (1, 2, 3)%float = (1, 3, -2)%float /\
  sample_spline identity_matmul identity_matrix poly_segment
  = [ (1, 3, -2); (4, 6, -5) ]%float /\
  _calculate_bbox_for_objects identity_matmul [box_object]
  = Some {| bbox_min := (1, 3, -5)%float; bbox_max := (4, 6, -2)%float |}.
Proof.
  split; [apply sample_spline_remap|].
  split.
  { intros [|o os]; [reflexivity|].
    unfold _calculate_bbox_for_objects. rewrite bbox_fold_objects.
    unfold bbox_of_acc, bbox_nothing.
    destruct (fold_left _ _ _) as [[[a b] c] [[d e] f]]. reflexivity. }
  split; [reflexivity|].
  split; [reflexivity|].
  split; reflexivity.
Qed.

Lemma extract_fold_splines (matmul : Matrix -> Vec -> Vec) (obj : Object)
    (l : list Spline) (acc : list SplineRecord) :
  fold_left
    (fun splines spline =>
       let points := sample_spline matmul (matrix_world obj) spline in
       if (2 <=? length points)%nat then
         (splines ++ [ {| spline_name := obj_name obj; spline_points := points;
                          is_closed := use_cyclic_u spline;
                          spline_kind := spline_type spline;
                          spline_bbox := _calculate_bbox_from_points points |} ])%list
       else splines) l acc
  = (acc ++ flat_map (spline_entry matmul obj) l)%list.
Proof.
  revert acc. induction l as [|s l IH]; intros acc; cbn [fold_left flat_map].
  - rewrite app_nil_r. reflexivity.
  - rewrite IH. unfold spline_entry at 2. cbv zeta.
    destruct (2 <=? length (sample_spline matmul (matrix_world obj) s))%nat;
      [rewrite <- app_assoc|]; reflexivity.
Qed.

Lemma extract_splines_flat_map (matmul : Matrix -> Vec -> Vec) (scene_objects : list Object) :
  _extract_splines_from_scene matmul scene_objects
  = flat_map (fun obj => flat_map (spline_entry matmul obj) (curve_splines obj))
             (List.filter (fun obj => (obj_type obj =? "CURVE") && visible_get obj) scene_objects).
Proof.
  unfold _extract_splines_from_scene.
  generalize (List.filter (fun obj => (obj_type obj =? "CURVE") && visible_get obj) scene_objects).
  intros l. change (@nil SplineRecord) with ([] ++ @nil SplineRecord)%list at 1.
  rewrite app_nil_r.
  assert (H : forall acc,
             fold_left
               (fun splines obj =>
                  fold_left
                    (fun splines spline =>
                       let points := sample_spline matmul (matrix_world obj) spline in
                       if (2 <=? length points)%nat then
                         (splines ++ [ {| spline_name := obj_name obj; spline_points := points;
                                          is_closed := use_cyclic_u spline;
                                          spline_kind := spline_type spline;
                                          spline_bbox := _calculate_bbox_from_points points |} ])%list
                       else splines) (curve_splines obj) splines) l acc
             = (acc ++ flat_map (fun obj => flat_map (spline_entry matmul obj) (curve_splines obj)) l)%list).
  { induction l as [|o l IH]; intros acc; cbn [fold_left flat_map].
    - rewrite app_nil_r. reflexivity.
    - rewrite extract_fold_splines, IH, <- app_assoc. reflexivity. }
  apply (H []).
Qed.

Lemma spline_entry_points (matmul : Matrix -> Vec -> Vec) (obj : Object) (spline : Spline)
    (r : SplineRecord) :
  In r (spline_entry matmul obj spline) ->
  (2 <= length (spline_points r))%nat /\
  spline_points r = sample_spline matmul (matrix_world obj) spline /\
  spline_name r = obj_name obj.
Proof.
  unfold spline_entry.
  destruct (2 <=? length (sample_spline matmul (matrix_world obj) spline))%nat eqn:E;
    simpl; [|tauto].
  intros [<-|[]]. simpl. apply Nat.leb_le in E. auto.
Qed.

(** C10.  A spline is in the list [_extract_splines_from_scene] returns
    only if it sampled to at least two points: every record of the list
    has two points or more and comes from a spline of a visible curve
    object, a spline gives one record when it samples to two points or
    more and none otherwise, and a spline whose type is not POLY, BEZIER or
    NURBS samples to no point, so it gives none. *)
Theorem splines_need_two_points (matmul : Matrix -> Vec -> Vec) (scene_objects : list Object) :
  (forall r : SplineRecord,
      In r (_extract_splines_from_scene matmul scene_objects) ->
      (2 <= length (spline_points r))%nat /\
      exists obj spline,
        In obj scene_objects /\ obj_type obj = "CURVE" /\ visible_get obj = true /\
        In spline (curve_splines obj) /\
        spline_points r = sample_spline matmul (matrix_world obj) spline) /\
  _extract_splines_from_scene matmul scene_objects
  = flat_map (fun obj => flat_map (spline_entry matmul obj) (curve_splines obj))
             (List.filter (fun obj => (obj_type obj =? "CURVE") && visible_get obj) scene_objects) /\
  (forall (obj : Object) (spline : Spline),
      (length (sample_spline matmul (matrix_world obj) spline) < 2)%nat ->
      spline_entry matmul obj spline = []) /\
  (forall (m : Matrix) (spline : Spline),
      spline_type spline <> "POLY" -> spline_type spline <> "BEZIER" ->
      spline_type spline <> "NURBS" ->
      sample_spline matmul m spline = []) /\
  map spline_points (_extract_splines_from_scene identity_matmul [path_object])
  = [ [ (1, 3, -2); (4, 6, -5) ]%float ].
Proof.
  split.
  { intros r Hr. rewrite extract_splines_flat_map in Hr.
    apply in_flat_map in Hr as [obj [Hobj Hr]].
    apply in_flat_map in Hr as [spline [Hs Hr]].
    apply filter_In in Hobj as [Hobj Hc].
    apply andb_true_iff in Hc as [Hc Hv]. apply String.eqb_eq in Hc.
    apply spline_entry_points in Hr as (Hlen & Hpts & _).
    split; [exact Hlen|]. exists obj, spline. auto 6. }
  split; [apply extract_splines_flat_map|].
  split.
  { intros obj spline Hlt. unfold spline_entry.
    destruct (2 <=? length (sample_spline matmul (matrix_world obj) spline))%nat eqn:E;
      [|reflexivity].
    apply Nat.leb_le in E. lia. }
  split.
  { intros m spline H1 H2 H3. unfold sample_spline.
    apply String.eqb_neq in H1, H2, H3. rewrite H1, H2, H3. reflexivity. }
  reflexivity.
Qed.

(* ===================================================================== *)
(** ** Material class and subclass *)
(* ===================================================================== *)

(** Every class of [MATERIAL_CLASS_ITEMS] has a table in
    [MATERIAL_SUBCLASSES]; the table is not empty and none of its
    identifiers is the empty string. *)
Lemma class_has_subclasses (c : string) :
  In c (map identifier MATERIAL_CLASS_ITEMS) ->
  exists items, dict_get c MATERIAL_SUBCLASSES = Some items /\
                items <> [] /\ enum_value items "" = None /\ truthy c = true.
Proof.
  intros H. simpl in H.
  repeat (destruct H as [<-|H];
          [eexists; split; [vm_compute; reflexivity|];
           split; [discriminate|]; split; reflexivity|]).
  destruct H.
Qed.

Lemma enum_value_nth (items : list (string * string * string)) (ident : string) (j : nat) :
  enum_value items ident = Some j ->
  exists item, nth_error items j = Some item /\ identifier item = ident.
Proof.
  revert j. induction items as [|item rest IH]; intros j; simpl; [discriminate|].
  destruct (String.eqb_spec (identifier item) ident) as [E|E].
  - intros [= <-]. exists item. auto.
  - destruct (enum_value rest ident) as [k|]; simpl; [|discriminate].
    intros [= <-]. apply (IH k). reflexivity.
Qed.

Lemma enum_value_found (items : list (string * string * string)) (i : nat)
    (item : string * string * string) :
  nth_error items i = Some item ->
  exists j, enum_value items (identifier item) = Some j.
Proof.
  revert i. induction items as [|first rest IH]; intros [|i]; simpl; try discriminate.
  - intros [= ->]. rewrite String.eqb_refl. eauto.
  - intros H. destruct (identifier first =? identifier item); [eauto|].
    destruct (IH _ H) as [j ->]. simpl. eauto.
Qed.

Lemma enum_identifier_in (items : list (string * string * string)) (i : nat) :
  (i < length items)%nat ->
  In (enum_identifier items i) (map identifier items).
Proof.
  intros Hi. unfold enum_identifier.
  destruct (nth_error items i) as [item|] eqn:E.
  - apply in_map. eapply nth_error_In. exact E.
  - apply nth_error_None in E. lia.
Qed.

Lemma enum_identifier_out (items : list (string * string * string)) (i : nat) :
  (length items <= i)%nat -> enum_identifier items i = "".
Proof.
  intros Hi. unfold enum_identifier.
  apply nth_error_None in Hi. rewrite Hi. reflexivity.
Qed.

(** What [material_subclass_name] resolves, by whether the stored choice
    falls inside the table. *)
Lemma subclass_name_resolved (s : BlenroseMaterialSettings)
    (items : list (string * string * string)) :
  dict_get (material_class s) MATERIAL_SUBCLASSES = Some items ->
  truthy (material_class s) = true ->
  items <> [] -> enum_value items "" = None ->
  material_subclass_items s = items /\
  In (material_subclass_name s) (map identifier items) /\
  ((material_subclass s < length items)%nat ->
   material_subclass_name s = getattr_material_subclass s) /\
  ((length items <= material_subclass s)%nat ->
   getattr_material_subclass s = "" /\
   material_subclass_name s = enum_identifier items 0).
Proof.
  intros Hget Htruthy Hne Hnoempty.
  assert (Hitems : material_subclass_items s = items).
  { unfold material_subclass_items. rewrite Htruthy, Hget. reflexivity. }
  split; [exact Hitems|].
  unfold material_subclass_name, getattr_material_subclass.
  rewrite Hget, Hitems. unfold resolve_index.
  destruct (Nat.lt_ge_cases (material_subclass s) (length items)) as [Hlt|Hge].
  - unfold enum_identifier at 1 2.
    destruct (nth_error items (material_subclass s)) as [item|] eqn:E;
      [|apply nth_error_None in E; lia].
    destruct (enum_value_found _ _ _ E) as [j Hj]. rewrite Hj.
    destruct (enum_value_nth _ _ _ Hj) as [item' [Hn Hid]]. rewrite Hn.
    split; [|split].
    + apply in_map. eapply nth_error_In. exact Hn.
    + intros _. unfold enum_identifier. rewrite E. exact Hid.
    + intros Hge. lia.
  - rewrite (enum_identifier_out items _ Hge). rewrite Hnoempty.
    destruct items as [|first rest]; [contradiction|]. simpl.
    split; [left; reflexivity|]. split; [intros Hlt; simpl in Hge; lia|].
    intros _. split; reflexivity.
Qed.

(** C4, as amended.  The choices of [material_subclass] are the fixed,
    non-empty table of the current class, and the subclass the export
    resolves is always a member of that table: it is the stored choice when
    that choice falls inside the table, and the table's first subclass when
    it does not (the property then reads as the empty string).  Assigning
    [material_class] stores the class and leaves the stored subclass choice
    as it is: nothing resets it. *)
Theorem exported_subclass_is_valid (s : BlenroseMaterialSettings) :
  In (material_class s) (map identifier MATERIAL_CLASS_ITEMS) ->
  material_subclass_items s <> [] /\
  dict_get (material_class s) MATERIAL_SUBCLASSES = Some (material_subclass_items s) /\
  In (material_subclass_name s) (map identifier (material_subclass_items s)) /\
  ((material_subclass s < length (material_subclass_items s))%nat ->
   In (getattr_material_subclass s) (map identifier (material_subclass_items s)) /\
   material_subclass_name s = getattr_material_subclass s) /\
  ((length (material_subclass_items s) <= material_subclass s)%nat ->
   getattr_material_subclass s = "" /\
   material_subclass_name s = enum_identifier (material_subclass_items s) 0) /\
  (forall (c : string) (s' : BlenroseMaterialSettings),
      setattr_material_class c s = Ok s' ->
      material_class s' = c /\ material_subclass s' = material_subclass s).
Proof.
  intros Hclass.
  destruct (class_has_subclasses _ Hclass) as (items & Hget & Hne & Hnoempty & Htruthy).
  destruct (subclass_name_resolved s items Hget Htruthy Hne Hnoempty)
    as (Hitems & Hin & Hvalid & Hstale).
  rewrite Hitems.
  split; [exact Hne|]. split; [exact Hget|]. split; [exact Hin|].
  split.
  { intros Hlt. split; [|apply Hvalid; exact Hlt].
    unfold getattr_material_subclass. rewrite Hitems.
    apply enum_identifier_in. exact Hlt. }
  split; [exact Hstale|].
  intros c s'. unfold setattr_material_class.
  destruct (str_in c (map identifier MATERIAL_CLASS_ITEMS)); [|discriminate].
  intros [= <-]. split; reflexivity.
Qed.

Lemma exported_subclass_is_valid_witness :
  In (material_class transparent_settings) (map identifier MATERIAL_CLASS_ITEMS) /\
  In (material_subclass_name transparent_settings)
     (map identifier (material_subclass_items transparent_settings)).
Proof.
  assert (H : In (material_class transparent_settings) (map identifier MATERIAL_CLASS_ITEMS))
    by (vm_compute; tauto).
  split; [exact H|].
  exact (proj1 (proj2 (proj2 (exported_subclass_is_valid transparent_settings H)))).
Defined.

(** C4 as stated fails.  With class ENVIRONMENT and subclass TRANSPARENT
    chosen, assigning the class BASIC (whose table holds DEFAULT alone)
    leaves the stored subclass choice at its tenth position: the subclass
    then reads as the empty string, which is no member of BASIC's table. *)
Lemma class_change_keeps_stale_subclass :
  getattr_material_subclass transparent_settings = "TRANSPARENT" /\
  setattr_material_class "BASIC" transparent_settings
  = Ok (set_material_class "BASIC" transparent_settings) /\
  map identifier (material_subclass_items (set_material_class "BASIC" transparent_settings))
  = ["DEFAULT"] /\
  material_subclass (set_material_class "BASIC" transparent_settings) = 9%nat /\
  getattr_material_subclass (set_material_class "BASIC" transparent_settings) = "" /\
  ~ In (getattr_material_subclass (set_material_class "BASIC" transparent_settings))
       (map identifier
            (material_subclass_items (set_material_class "BASIC" transparent_settings))).
Proof.
  repeat (split; [reflexivity|]).
  vm_compute. intros [H|[]]. discriminate H.
Qed.

(* ===================================================================== *)
(** ** The material document *)
(* ===================================================================== *)

Lemma dict_set_in {V : Type} (k k' : string) (v v' : V) (d : list (string * V)) :
  In (k', v') (dict_set k v d) -> (k', v') = (k, v) \/ In (k', v') d.
Proof.
  induction d as [|[k0 v0] rest IH]; simpl.
  - intros [H|[]]; auto.
  - destruct (String.eqb_spec k0 k) as [->|E]; simpl.
    + intros [H|H]; auto.
    + intros [H|H]; auto. destruct (IH H); auto.
Qed.

(** C9.  Every entry of the material document belongs to a material with
    Blenrose enabled, is entered under that material's name, and has for
    [material_name] the material's class in lowercase, a dot, and the
    entry's subclass in lowercase; the entry's class is the material's
    class, and its subclass is the subclass chosen in the settings
    whenever that choice is one of the class's subclasses. *)
Theorem material_name_is_class_dot_subclass (abspath : string -> string) (w : World)
    (material_groups : list (option nat * list Object))
    (material_splines : option nat -> list SplineRecord)
    (name : string) (d : MaterialData) :
  In (name, d) (exported_materials abspath w material_groups material_splines) ->
  exists (p : nat) (mat : Material),
    materials w !! p = Some mat /\
    name = material_name mat /\
    enabled (blenrose_settings mat) = true /\
    data_material_class d = material_class (blenrose_settings mat) /\
    data_material_name d
    = lower (material_class (blenrose_settings mat)) ++ "." ++ lower (data_material_subclass d) /\
    (In (material_class (blenrose_settings mat)) (map identifier MATERIAL_CLASS_ITEMS) ->
     In (data_material_subclass d)
        (map identifier (material_subclass_items (blenrose_settings mat))) /\
     ((material_subclass (blenrose_settings mat)
       < length (material_subclass_items (blenrose_settings mat)))%nat ->
      data_material_subclass d = getattr_material_subclass (blenrose_settings mat))).
Proof.
  unfold exported_materials.
  match goal with |- In _ (fold_left ?F _ _) -> _ => set (step := F) end.
  pose (origin := fun (name : string) (d : MaterialData) =>
          exists (p : nat) (mat : Material),
            materials w !! p = Some mat /\ name = material_name mat /\
            enabled (blenrose_settings mat) = true /\
            d = set_splines (data_splines d)
                  (_extract_blenrose_material_data abspath (objects w) mat)).
  assert (Hinv : forall groups acc,
             (forall name d, In (name, d) acc -> origin name d) ->
             forall name d, In (name, d) (fold_left step groups acc) -> origin name d).
  { induction groups as [|[[material|] objs] groups IH]; intros acc Hacc name' d'; simpl.
    - apply Hacc.
    - apply IH. intros n0 d0 Hin. unfold step in Hin. simpl in Hin.
      destruct (materials w !! material) as [mat|] eqn:Hm; [|apply Hacc; exact Hin].
      destruct (enabled (blenrose_settings mat)) eqn:He; [|apply Hacc; exact Hin].
      apply dict_set_in in Hin as [[= -> ->]|Hin]; [|apply Hacc; exact Hin].
      exists material, mat. auto.
    - apply IH. exact Hacc. }
  intros Hin.
  destruct (Hinv material_groups [] (fun _ _ H => match H with end) name d Hin)
    as (p & mat & Hm & Hname & He & Hd).
  exists p, mat. split; [exact Hm|]. split; [exact Hname|]. split; [exact He|].
  rewrite Hd. simpl. split; [reflexivity|]. split; [reflexivity|].
  intros Hclass.
  destruct (class_has_subclasses _ Hclass) as (items & Hget & Hne & Hnoempty & Htruthy).
  destruct (subclass_name_resolved (blenrose_settings mat) items Hget Htruthy Hne Hnoempty)
    as (Hitems & Hin' & Hvalid & _).
  rewrite Hitems.
  split; [exact Hin'|]. intros Hlt. apply Hvalid. exact Hlt.
Qed.

(** The document of a scene whose one group is the material "Wall"
    (class ENVIRONMENT, first subclass) has the entry [wall_data], and its
    [material_name] is "environment.decal_simple". *)
Lemma material_name_is_class_dot_subclass_witness :
  In ("Wall", wall_data)
     (exported_materials (fun path => path) user_world [(Some 7%nat, [])] (fun _ => [])) /\
  data_material_name wall_data = "environment.decal_simple" /\
  exists (p : nat) (mat : Material),
    materials user_world !! p = Some mat /\
    "Wall" = material_name mat /\
    enabled (blenrose_settings mat) = true /\
    data_material_class wall_data = material_class (blenrose_settings mat) /\
    data_material_name wall_data
    = lower (material_class (blenrose_settings mat)) ++ "."
      ++ lower (data_material_subclass wall_data) /\
    (In (material_class (blenrose_settings mat)) (map identifier MATERIAL_CLASS_ITEMS) ->
     In (data_material_subclass wall_data)
        (map identifier (material_subclass_items (blenrose_settings mat))) /\
     ((material_subclass (blenrose_settings mat)
       < length (material_subclass_items (blenrose_settings mat)))%nat ->
      data_material_subclass wall_data = getattr_material_subclass (blenrose_settings mat))).
Proof.
  assert (H : In ("Wall", wall_data)
                 (exported_materials (fun path => path) user_world
                    [(Some 7%nat, [])] (fun _ => [])))
    by (left; reflexivity).
  split; [exact H|]. split; [reflexivity|].
  exact (material_name_is_class_dot_subclass _ _ _ _ _ _ H).
Defined.

(* ===================================================================== *)
(** ** The properties on the example worlds *)
(* ===================================================================== *)

Lemma mixed_tree_wf : wf_tree mixed_tree.
Proof. apply (bool_decide_unpack _). vm_compute. exact I. Defined.

Lemma cut_tree_wf : wf_tree cut_tree.
Proof. apply (bool_decide_unpack _). vm_compute. exact I. Defined.

Lemma user_tree_wf : wf_tree user_tree.
Proof. apply (bool_decide_unpack _). vm_compute. exact I. Defined.

Lemma nothing_suppressed (p : nat) : p ∉ (∅ : gset nat).
Proof. apply not_elem_of_empty. Defined.

(** [user_world]: the first update rebuilds the tree of material 7, and the
    second leaves the world the first one left. *)
Lemma synchronize_twice_witness :
  (forall mat nt, materials user_world !! 7%nat = Some mat -> node_tree mat = Some nt ->
                  wf_tree nt) /\
  _update_all_blenrose_nodes 7 user_world = (user_world_after, Ok tt) /\
  _update_all_blenrose_nodes 7 user_world_after = (user_world_after, Ok tt).
Proof.
  assert (H1 : forall mat nt, materials user_world !! 7%nat = Some mat ->
                              node_tree mat = Some nt -> wf_tree nt).
  { intros mat nt Hm Ht. vm_compute in Hm. injection Hm as <-.
    simpl in Ht. injection Ht as <-. exact user_tree_wf. }
  assert (H2 : _update_all_blenrose_nodes 7 user_world = (user_world_after, Ok tt))
    by (vm_compute; reflexivity).
  split; [exact H1|]. split; [exact H2|].
  exact (synchronize_twice 7 user_world user_world_after (Ok tt) H1 H2).
Defined.

(** [cut_world]: the lightmap link is missing before the update and there
    after it. *)
Lemma lightmap_feeds_emission_witness :
  connection_exists cut_tree lightmap_node emission_node = false /\
  lightmap_connected (tree_of cut_world_after) lightmap_node emission_node.
Proof.
  split; [vm_compute; reflexivity|].
  refine (lightmap_feeds_emission 7 cut_world cut_world_after
            {| material_name := "Wall"; use_nodes := true;
               node_tree := Some (tree_of cut_world_after);
               blenrose_settings := set_enabled true default_settings |}
            (tree_of cut_world_after) emission_node lightmap_node _ _ _ _ _ _ _).
  - intros mat nt Hm Ht. vm_compute in Hm. injection Hm as <-.
    simpl in Ht. injection Ht as <-. exact cut_tree_wf.
  - apply nothing_suppressed.
  - vm_compute. reflexivity.
  - vm_compute. reflexivity.
  - reflexivity.
  - vm_compute. reflexivity.
  - vm_compute. reflexivity.
Defined.

(** [mixed_world]: the critical nodes are there, and the user's node
    "MyTexture" is among the nodes of the tree after the update as it was
    before. *)
Lemma synchronize_frame_witness :
  (materials mixed_world !! 7%nat = Some mixed_material /\
   (7%nat ∉ _SUPPRESSED_UPDATE_MATERIALS mixed_world) /\
   node_tree mixed_material = Some mixed_tree /\
   wf_tree mixed_tree) /\
  exists (nt' : NodeTree) (r : result unit) (mat' : Material),
    _update_all_blenrose_nodes 7 mixed_world = (store_material 7 mat' mixed_world, r) /\
    node_tree mat' = Some nt' /\
    use_nodes mat' = true /\
    blenrose_settings mat' = blenrose_settings mixed_material /\
    material_name mat' = material_name mixed_material /\
    (forall q, q <> 7%nat ->
               materials (store_material 7 mat' mixed_world) !! q = materials mixed_world !! q) /\
    objects (store_material 7 mat' mixed_world) = objects mixed_world /\
    _SUPPRESSED_UPDATE_MATERIALS (store_material 7 mat' mixed_world)
    = _SUPPRESSED_UPDATE_MATERIALS mixed_world /\
    (missing_critical mixed_tree = false ->
     map as_pointer (nodes nt') = map as_pointer (nodes mixed_tree) /\
     List.filter (fun n => negb (reserved n)) (nodes nt')
     = List.filter (fun n => negb (reserved n)) (nodes mixed_tree)) /\
    (missing_critical mixed_tree = true ->
     create_nodes (objects mixed_world) (blenrose_settings mixed_material) empty_tree
     = (nt', Ok tt) /\ r = Ok tt).
Proof.
  assert (H1 : materials mixed_world !! 7%nat = Some mixed_material)
    by (vm_compute; reflexivity).
  assert (H2 : 7%nat ∉ _SUPPRESSED_UPDATE_MATERIALS mixed_world)
    by apply nothing_suppressed.
  assert (H3 : node_tree mixed_material = Some mixed_tree) by reflexivity.
  split; [auto using mixed_tree_wf|].
  exact (synchronize_frame 7 mixed_world mixed_material mixed_tree H1 H2 H3 mixed_tree_wf).
Defined.

(** C1 as stated fails.  Material 7 of [user_world] is enabled and not
    suppressed, and its tree holds the user's node "MyTexture" alone, a
    node outside the reserved namespace.  The update finds no critical
    node and rebuilds: the user's node is gone from the tree, and the
    nodes made include "Material Output" and "Separate RGB", which are
    outside the reserved namespace too. *)
Lemma rebuild_removes_user_nodes :
  materials user_world !! 7%nat = Some user_material /\
  node_tree user_material = Some user_tree /\
  nodes user_tree = [user_texture_node] /\
  reserved user_texture_node = false /\
  _update_all_blenrose_nodes 7 user_world = (user_world_after, Ok tt) /\
  nodes_get "MyTexture" (tree_of user_world) = Some user_texture_node /\
  nodes_get "MyTexture" (tree_of user_world_after) = None /\
  map node_name (List.filter (fun n => negb (reserved n)) (nodes (tree_of user_world_after)))
  = ["Material Output"; "Separate RGB"].
Proof.
  repeat (split; [vm_compute; reflexivity|]). vm_compute. reflexivity.
Qed.

(** [mixed_world], disabled: the reserved nodes go, and "Material Output",
    "Separate RGB" and "MyTexture" stay as they were. *)
Lemma disable_removes_reserved_nodes_witness :
  (materials mixed_world !! 7%nat = Some mixed_material /\
   use_nodes mixed_material = true /\
   node_tree mixed_material = Some mixed_tree /\
   wf_tree mixed_tree) /\
  map node_name (nodes (tree_of (setattr_enabled 7 false mixed_world)))
  = ["Material Output"; "Separate RGB"; "MyTexture"] /\
  exists nt' : NodeTree,
    materials (setattr_enabled 7 false mixed_world) !! 7%nat
    = Some (set_node_tree (Some nt')
              (set_settings (set_enabled false (blenrose_settings mixed_material))
                            mixed_material)) /\
    nodes nt' = List.filter (fun n => negb (reserved n)) (nodes mixed_tree) /\
    (forall n, In n (nodes nt') -> reserved n = false) /\
    (forall n, In n (nodes mixed_tree) -> reserved n = false -> In n (nodes nt')) /\
    links nt'
    = List.filter
        (fun l => negb (mem_ptr (from_node l)
                                (map as_pointer (List.filter reserved (nodes mixed_tree))))
                  && negb (mem_ptr (to_node l)
                                   (map as_pointer (List.filter reserved (nodes mixed_tree)))))
        (links mixed_tree) /\
    wf_tree nt'.
Proof.
  assert (H1 : materials mixed_world !! 7%nat = Some mixed_material)
    by (vm_compute; reflexivity).
  split; [auto using mixed_tree_wf|].
  split; [vm_compute; reflexivity|].
  exact (disable_removes_reserved_nodes 7 mixed_world mixed_material mixed_tree
           H1 eq_refl eq_refl mixed_tree_wf).
Defined.

(** C5 as stated fails.  Material 7 of [unplugged_world] is enabled, its
    tree holds reserved nodes, and its [use_nodes] is off.  Disabling it
    changes [enabled] and nothing else: the tree keeps every reserved
    node. *)
Lemma disable_skips_material_without_nodes :
  option_map (fun m => (enabled (blenrose_settings m), use_nodes m, node_tree m))
             (materials unplugged_world !! 7%nat)
  = Some (true, false, Some mixed_tree) /\
  option_map (fun m => (enabled (blenrose_settings m), use_nodes m, node_tree m))
             (materials (setattr_enabled 7 false unplugged_world) !! 7%nat)
  = Some (false, false, Some mixed_tree) /\
  map node_name (List.filter reserved (nodes mixed_tree))
  = ["BR_BSDF"; "BR_MixShader"; "BR_Emission"; "BR_DiffuseUV"; "BR_DiffuseTex";
     "BR_NormalUV"; "BR_NormalTex"; "BR_NormalMap"; "BR_SpecularUV"; "BR_SpecularTex";
     "BR_LightmapUV"; "BR_LightmapTex"].
Proof.
  repeat (split; [vm_compute; reflexivity|]). vm_compute. reflexivity.
Qed.

(* ===================================================================== *)
(** ** The UV enum *)
(* ===================================================================== *)

Lemma insert_sorted_In (x y : string) (l : list string) :
  In y (insert_sorted x l) <-> y = x \/ In y l.
Proof.
  induction l as [|z l IH]; simpl; [intuition congruence|].
  destruct (String.compare x z) eqn:E; simpl.
  - apply String.compare_eq_iff in E. subst. intuition congruence.
  - intuition congruence.
  - rewrite IH. intuition congruence.
Qed.

Lemma sorted_set_In (y : string) (l : list string) :
  In y (sorted_set l) <-> In y l.
Proof.
  unfold sorted_set. induction l as [|x l IH]; simpl; [tauto|].
  rewrite insert_sorted_In, IH. intuition congruence.
Qed.

Lemma insert_sorted_sorted (x : string) (l : list string) :
  StronglySorted (fun a b => String.compare a b = Lt) l ->
  StronglySorted (fun a b => String.compare a b = Lt) (insert_sorted x l).
Proof.
  induction l as [|z l IH]; intros Hs; simpl.
  - repeat constructor.
  - inversion Hs as [|? ? Hl Hz]; subst.
    destruct (String.compare x z) eqn:E.
    + exact Hs.
    + constructor; [exact Hs|]. constructor; [exact E|].
      apply List.Forall_forall. intros y Hy.
      rewrite List.Forall_forall in Hz. specialize (Hz y Hy).
      apply OrderedTypeEx.String_as_OT.cmp_lt.
      eapply OrderedTypeEx.String_as_OT.lt_trans;
        apply OrderedTypeEx.String_as_OT.cmp_lt; eassumption.
    + constructor; [apply IH; exact Hl|].
      apply List.Forall_forall. intros y Hy. apply insert_sorted_In in Hy as [->|Hy].
      * rewrite String.compare_antisym, E. reflexivity.
      * rewrite List.Forall_forall in Hz. apply Hz. exact Hy.
Qed.

Lemma sorted_set_sorted (l : list string) :
  StronglySorted (fun a b => String.compare a b = Lt) (sorted_set l).
Proof.
  unfold sorted_set. induction l as [|x l IH]; simpl; [constructor|].
  apply insert_sorted_sorted. exact IH.
Qed.

Lemma compare_refl_Eq (a : string) : String.compare a a = Eq.
Proof.
  destruct (String.compare a a) eqn:E; [reflexivity| |];
    pose proof (String.compare_antisym a a) as H; rewrite E in H; discriminate.
Qed.

Lemma sorted_NoDup (l : list string) :
  StronglySorted (fun a b => String.compare a b = Lt) l -> List.NoDup l.
Proof.
  induction 1 as [|a l Hl IH Ha]; constructor; [|exact IH].
  intros Hin. rewrite List.Forall_forall in Ha. specialize (Ha a Hin).
  rewrite compare_refl_Eq in Ha. discriminate.
Qed.

Lemma scene_uv_names_In (objs : list Object) (name : string) :
  In name (scene_uv_names objs) <->
  exists obj mesh layer,
    In obj objs /\ obj_data obj = MeshData mesh /\ In layer (uv_layers mesh) /\
    uv_layer_name layer = name /\ name <> "".
Proof.
  unfold scene_uv_names. rewrite in_flat_map. split.
  - intros (obj & Hobj & Hin). destruct (obj_data obj) as [mesh| |] eqn:Hd; try contradiction.
    apply filter_In in Hin as [Hin Ht]. apply in_map_iff in Hin as (layer & Hl & Hin).
    exists obj, mesh, layer. repeat (split; [assumption|]).
    unfold truthy in Ht. intros ->. discriminate.
  - intros (obj & mesh & layer & Hobj & Hd & Hl & Hn & Hne).
    exists obj. split; [exact Hobj|]. rewrite Hd. apply filter_In. split.
    + apply in_map_iff. eauto.
    + unfold truthy. destruct (String.eqb_spec name ""); [contradiction|reflexivity].
Qed.

Lemma uv_channel_items_identifiers (objs : list Object) :
  map identifier (uv_channel_items objs)
  = match sorted_set (scene_uv_names objs) with
    | [] => ["UV0"; "UV1"]
    | names => names
    end.
Proof.
  unfold uv_channel_items. destruct (sorted_set (scene_uv_names objs)) as [|n l]; [reflexivity|].
  rewrite map_map. simpl. f_equal. unfold identifier. simpl.
  rewrite map_id. reflexivity.
Qed.

Lemma uv_channel_items_NoDup (objs : list Object) :
  List.NoDup (map identifier (uv_channel_items objs)).
Proof.
  rewrite uv_channel_items_identifiers.
  pose proof (sorted_NoDup _ (sorted_set_sorted (scene_uv_names objs))) as H.
  destruct (sorted_set (scene_uv_names objs)); [|exact H].
  repeat constructor; simpl; intuition discriminate.
Qed.

Lemma uv_channel_items_nonempty (objs : list Object) : uv_channel_items objs <> [].
Proof.
  unfold uv_channel_items. destruct (sorted_set (scene_uv_names objs)); discriminate.
Qed.

(** X4.  The items of the UV enum are never empty and their identifiers
    are in strictly ascending order, so pairwise distinct.  When some mesh
    object of the scene has a UV layer with a name, the identifiers are
    exactly those names, and each item has its identifier for label; when
    none has, the items are UV0 and UV1. *)
Theorem uv_channel_items_are_scene_layers (objs : list Object) :
  uv_channel_items objs <> [] /\
  StronglySorted (fun a b => String.compare a b = Lt) (map identifier (uv_channel_items objs)) /\
  List.NoDup (map identifier (uv_channel_items objs)) /\
  ((exists name, In name (scene_uv_names objs)) ->
   (forall name,
       In name (map identifier (uv_channel_items objs)) <->
       exists obj mesh layer,
         In obj objs /\ obj_data obj = MeshData mesh /\ In layer (uv_layers mesh) /\
         uv_layer_name layer = name /\ name <> "") /\
   (forall item, In item (uv_channel_items objs) -> item = (identifier item, identifier item, ""))) /\
  ((forall name, ~ In name (scene_uv_names objs)) ->
   uv_channel_items objs = [ ("UV0", "UV0", "UV0"); ("UV1", "UV1", "UV1") ]).
Proof.
  split; [apply uv_channel_items_nonempty|].
  split.
  { rewrite uv_channel_items_identifiers.
    pose proof (sorted_set_sorted (scene_uv_names objs)) as H.
    destruct (sorted_set (scene_uv_names objs)); [|exact H].
    repeat constructor. }
  split; [apply uv_channel_items_NoDup|].
  split.
  - intros (n & Hn). apply sorted_set_In in Hn.
    split.
    + intros name. rewrite uv_channel_items_identifiers.
      destruct (sorted_set (scene_uv_names objs)) as [|n0 l] eqn:E; [destruct Hn|].
      rewrite <- E, sorted_set_In. apply scene_uv_names_In.
    + intros item. unfold uv_channel_items.
      destruct (sorted_set (scene_uv_names objs)) as [|n0 l] eqn:E; [destruct Hn|].
      intros Hin. apply in_map_iff in Hin as (x & <- & _). reflexivity.
  - intros Hnone. unfold uv_channel_items.
    destruct (sorted_set (scene_uv_names objs)) as [|n0 l] eqn:E; [reflexivity|].
    exfalso. apply (Hnone n0). apply sorted_set_In. rewrite E. left. reflexivity.
Qed.

(* ===================================================================== *)
(** ** What the update callback leaves alone *)
(* ===================================================================== *)

Lemma build_tree_keeps (objs : list Object) (mat : Material) :
  blenrose_settings (fst (_build_blenrose_node_tree objs mat)) = blenrose_settings mat /\
  material_name (fst (_build_blenrose_node_tree objs mat)) = material_name mat.
Proof.
  unfold _build_blenrose_node_tree.
  destruct (use_nodes mat); simpl.
  - destruct (node_tree mat) as [nt|]; [|auto].
    destruct (build_nodes objs (blenrose_settings mat) nt). auto.
  - destruct (node_tree mat) as [nt|].
    + destruct (build_nodes objs (blenrose_settings mat) nt). auto.
    + destruct (build_nodes objs (blenrose_settings mat) default_node_tree). auto.
Qed.

(** Whatever it does to the tree, and whether it raises or not,
    [_update_all_blenrose_nodes] leaves the objects, the suppression set,
    every other material, and the settings and name of its own material as
    they were. *)
Lemma update_all_frame (self : nat) (w : World) :
  objects (fst (_update_all_blenrose_nodes self w)) = objects w /\
  _SUPPRESSED_UPDATE_MATERIALS (fst (_update_all_blenrose_nodes self w))
  = _SUPPRESSED_UPDATE_MATERIALS w /\
  (forall q, q <> self ->
             materials (fst (_update_all_blenrose_nodes self w)) !! q = materials w !! q) /\
  settings_of self (fst (_update_all_blenrose_nodes self w)) = settings_of self w /\
  option_map material_name (materials (fst (_update_all_blenrose_nodes self w)) !! self)
  = option_map material_name (materials w !! self).
Proof.
  unfold _update_all_blenrose_nodes, settings_of.
  destruct (materials w !! self) as [mat|] eqn:Hm; [|simpl; rewrite Hm; auto 10].
  destruct (bool_decide _); [simpl; rewrite Hm; auto 10|].
  fold (with_nodes_on mat).
  destruct (with_nodes_on_facts mat) as (Hset & Hname & _).
  destruct (node_tree (with_nodes_on mat)) as [nt|] eqn:Ht.
  - destruct (missing_critical nt).
    + destruct (build_tree_keeps (objects w) (with_nodes_on mat)) as (Hs & Hn).
      destruct (_build_blenrose_node_tree (objects w) (with_nodes_on mat)) as [mat' r].
      simpl in *. rewrite lookup_insert_eq. simpl.
      repeat (split; [first [reflexivity|congruence|idtac]|]); try congruence.
      intros q Hq. apply lookup_insert_ne. congruence.
    + destruct (update_nodes _ _ nt) as [nt' r]. simpl. rewrite lookup_insert_eq. simpl.
      repeat (split; [first [reflexivity|congruence|idtac]|]); try congruence.
      intros q Hq. apply lookup_insert_ne. congruence.
  - simpl. rewrite lookup_insert_eq. simpl.
    repeat (split; [first [reflexivity|congruence|idtac]|]); try congruence.
    intros q Hq. apply lookup_insert_ne. congruence.
Qed.

Lemma setattr_tex_frame (self : nat) (tex_prop : string) (img : Image) (w : World) :
  objects (setattr_tex self tex_prop img w) = objects w /\
  _SUPPRESSED_UPDATE_MATERIALS (setattr_tex self tex_prop img w)
  = _SUPPRESSED_UPDATE_MATERIALS w /\
  (forall q, q <> self -> materials (setattr_tex self tex_prop img w) !! q = materials w !! q) /\
  settings_of self (setattr_tex self tex_prop img w)
  = option_map (fun s => set_textures (<[ tex_prop := img ]> (textures s)) s)
               (settings_of self w) /\
  option_map material_name (materials (setattr_tex self tex_prop img w) !! self)
  = option_map material_name (materials w !! self).
Proof.
  unfold setattr_tex. unfold settings_of at 2.
  destruct (materials w !! self) as [mat|] eqn:Hm.
  - match goal with |- context [_update_all_blenrose_nodes self ?W] =>
      destruct (update_all_frame self W) as (Ho & Hs & Hq & Hset & Hname) end.
    rewrite Ho, Hs, Hset, Hname, settings_of_store, store_material_lookup.
    repeat (split; [reflexivity|]). split; [|split; reflexivity].
    intros q Hne. rewrite (Hq q Hne). apply store_material_other. exact Hne.
  - unfold settings_of. rewrite Hm. auto.
Qed.

Lemma setattr_uv_frame (self : nat) (uv_prop ident : string) (w : World) :
  objects (setattr_uv self uv_prop ident w) = objects w /\
  _SUPPRESSED_UPDATE_MATERIALS (setattr_uv self uv_prop ident w)
  = _SUPPRESSED_UPDATE_MATERIALS w /\
  (forall q, q <> self -> materials (setattr_uv self uv_prop ident w) !! q = materials w !! q) /\
  settings_of self (setattr_uv self uv_prop ident w)
  = option_map (fun s => match enum_value (uv_channel_items (objects w)) ident with
                         | Some value => set_uv_enums (<[ uv_prop := value ]> (uv_enums s)) s
                         | None => s
                         end)
               (settings_of self w) /\
  option_map material_name (materials (setattr_uv self uv_prop ident w) !! self)
  = option_map material_name (materials w !! self).
Proof.
  unfold setattr_uv. unfold settings_of at 2.
  destruct (materials w !! self) as [mat|] eqn:Hm.
  - destruct (enum_value (uv_channel_items (objects w)) ident) as [value|].
    + match goal with |- context [_update_all_blenrose_nodes self ?W] =>
        destruct (update_all_frame self W) as (Ho & Hs & Hq & Hset & Hname) end.
      rewrite Ho, Hs, Hset, Hname, settings_of_store, store_material_lookup.
      repeat (split; [reflexivity|]). split; [|split; reflexivity].
      intros q Hne. rewrite (Hq q Hne). apply store_material_other. exact Hne.
    + unfold settings_of. rewrite Hm. auto.
  - unfold settings_of. rewrite Hm. auto.
Qed.

Lemma enum_value_NoDup (items : list (string * string * string)) (i : nat)
    (item : string * string * string) :
  List.NoDup (map identifier items) ->
  nth_error items i = Some item ->
  enum_value items (identifier item) = Some i.
Proof.
  revert i. induction items as [|first rest IH]; intros [|i] Hnd; simpl; try discriminate.
  - intros [= ->]. rewrite String.eqb_refl. reflexivity.
  - intros Hn. inversion Hnd as [|? ? Hnotin Hnd']; subst.
    destruct (String.eqb_spec (identifier first) (identifier item)) as [E|E].
    + exfalso. apply Hnotin. rewrite E. apply in_map. eapply nth_error_In. exact Hn.
    + rewrite (IH i Hnd' Hn). reflexivity.
Qed.

Lemma enum_value_In (items : list (string * string * string)) (ident : string) :
  In ident (map identifier items) -> exists i, enum_value items ident = Some i.
Proof.
  induction items as [|first rest IH]; simpl; [intros []|].
  intros [H|H].
  - rewrite H, String.eqb_refl. eauto.
  - destruct (String.eqb (identifier first) ident); [eauto|].
    destruct (IH H) as [i ->]. simpl. eauto.
Qed.

Lemma enum_value_not_In (items : list (string * string * string)) (ident : string) :
  ~ In ident (map identifier items) -> enum_value items ident = None.
Proof.
  intros H. destruct (enum_value items ident) as [i|] eqn:E; [|reflexivity].
  destruct (enum_value_nth _ _ _ E) as (item & Hn & Hid).
  exfalso. apply H. rewrite <- Hid. apply in_map. eapply nth_error_In. exact Hn.
Qed.

Lemma enum_round_trip (items : list (string * string * string)) (ident : string) (i : nat) :
  enum_value items ident = Some i -> enum_identifier items i = ident.
Proof.
  intros H. destruct (enum_value_nth _ _ _ H) as (item & Hn & Hid).
  unfold enum_identifier. rewrite Hn. exact Hid.
Qed.

(** X5.  Assigning a texture property and reading it back gives the image
    assigned, whatever the update callback did to the node tree and
    whether it raised or not; every other texture property, the UV
    choices and the other settings of the material read as before, and
    the other materials, the objects and the suppression set are as they
    were. *)
Theorem texture_assignment_round_trip (self : nat) (tex_prop : string) (img : Image)
    (w : World) (s : BlenroseMaterialSettings) :
  settings_of self w = Some s ->
  exists s',
    settings_of self (setattr_tex self tex_prop img w) = Some s' /\
    getattr_tex s' tex_prop = Some img /\
    (forall p, p <> tex_prop -> getattr_tex s' p = getattr_tex s p) /\
    s' = set_textures (textures s') s /\
    objects (setattr_tex self tex_prop img w) = objects w /\
    _SUPPRESSED_UPDATE_MATERIALS (setattr_tex self tex_prop img w)
    = _SUPPRESSED_UPDATE_MATERIALS w /\
    (forall q, q <> self ->
               materials (setattr_tex self tex_prop img w) !! q = materials w !! q).
Proof.
  intros Hs.
  destruct (setattr_tex_frame self tex_prop img w) as (Ho & Hsup & Hq & Hset & _).
  rewrite Hs in Hset. simpl in Hset.
  eexists. split; [exact Hset|].
  unfold getattr_tex. simpl.
  split; [apply lookup_insert_eq|].
  split; [intros p Hp; apply lookup_insert_ne; congruence|].
  split; [reflexivity|]. auto.
Qed.

(** X6.  Assigning a UV property an identifier of the current UV enum and
    reading it back gives that identifier; assigning a name that is not
    among the identifiers changes no setting. *)
Theorem uv_assignment_round_trip (self : nat) (uv_prop ident : string) (w : World)
    (s : BlenroseMaterialSettings) :
  settings_of self w = Some s ->
  exists s',
    settings_of self (setattr_uv self uv_prop ident w) = Some s' /\
    (In ident (map identifier (uv_channel_items (objects w))) ->
     getattr_uv (objects (setattr_uv self uv_prop ident w)) s' uv_prop = ident /\
     (forall p, p <> uv_prop -> uv_value s' p = uv_value s p) /\
     textures s' = textures s) /\
    (~ In ident (map identifier (uv_channel_items (objects w))) -> s' = s).
Proof.
  intros Hs.
  destruct (setattr_uv_frame self uv_prop ident w) as (Ho & _ & _ & Hset & _).
  rewrite Hs in Hset. simpl in Hset.
  eexists. split; [exact Hset|]. rewrite Ho. split.
  - intros Hin. destruct (enum_value_In _ _ Hin) as [i Hi]. rewrite Hi.
    unfold getattr_uv, uv_value. simpl.
    split; [rewrite lookup_insert_eq; simpl; apply enum_round_trip; exact Hi|].
    split; [|reflexivity].
    intros p Hp. rewrite lookup_insert_ne by congruence. reflexivity.
  - intros Hnot. rewrite (enum_value_not_In _ _ Hnot). reflexivity.
Qed.

(* ===================================================================== *)
(** ** The export of one material *)
(* ===================================================================== *)

Lemma uv_channel_items_no_empty_identifier (objs : list Object) :
  enum_value (uv_channel_items objs) "" = None.
Proof.
  apply enum_value_not_In. rewrite uv_channel_items_identifiers.
  destruct (sorted_set (scene_uv_names objs)) as [|n l] eqn:E.
  - simpl. intuition discriminate.
  - intros H.
    assert (H' : In "" (sorted_set (scene_uv_names objs))) by (rewrite E; exact H).
    apply (proj1 (sorted_set_In _ _)) in H'.
    apply (proj1 (scene_uv_names_In _ _)) in H' as (_ & _ & _ & _ & _ & _ & _ & H'). congruence.
Qed.

(** X7.  The UV name the export writes for a channel is always an
    identifier of the current UV enum, never the literal "UVMap" the
    source falls back to: it is the stored choice when that choice falls
    inside the enum, and the first item of the enum when it does not (the
    property then reads as the empty string). *)
Theorem exported_uv_is_enum_item (objs : list Object) (settings : BlenroseMaterialSettings)
    (prop_name : string) :
  In (get_uv_name objs settings prop_name) (map identifier (uv_channel_items objs)) /\
  ((uv_value settings prop_name < length (uv_channel_items objs))%nat ->
   get_uv_name objs settings prop_name = getattr_uv objs settings prop_name) /\
  ((length (uv_channel_items objs) <= uv_value settings prop_name)%nat ->
   getattr_uv objs settings prop_name = "" /\
   get_uv_name objs settings prop_name = enum_identifier (uv_channel_items objs) 0).
Proof.
  unfold get_uv_name, getattr_uv, resolve_index.
  pose proof (uv_channel_items_nonempty objs) as Hne.
  pose proof (uv_channel_items_no_empty_identifier objs) as Hempty.
  generalize dependent (uv_channel_items objs). intros items Hne Hempty.
  generalize (uv_value settings prop_name). intros i.
  destruct (Nat.lt_ge_cases i (length items)) as [Hlt|Hge].
  - destruct (nth_error items i) as [item|] eqn:E; [|apply nth_error_None in E; lia].
    assert (Hi : enum_identifier items i = identifier item)
      by (unfold enum_identifier; rewrite E; reflexivity).
    destruct (enum_value_found _ _ _ E) as [j Hj].
    destruct (enum_value_nth _ _ _ Hj) as (item' & Hn & Hid).
    rewrite Hi, Hj, Hn.
    split; [apply in_map; eapply nth_error_In; exact Hn|].
    split; [intros _; exact Hid|]. intros Hge. lia.
  - rewrite (enum_identifier_out items i Hge), Hempty.
    destruct items as [|first rest]; [contradiction|]. simpl.
    split; [left; reflexivity|]. split; [intros Hlt; simpl in Hge; lia|].
    intros _. split; reflexivity.
Qed.

Lemma dict_get_set_same {V : Type} (k : string) (v : V) (d : list (string * V)) :
  dict_get k (dict_set k v d) = Some v.
Proof.
  unfold dict_get. induction d as [|[k0 v0] rest IH]; simpl.
  - rewrite String.eqb_refl. reflexivity.
  - destruct (String.eqb_spec k0 k) as [->|E]; simpl.
    + rewrite String.eqb_refl. reflexivity.
    + destruct (String.eqb_spec k0 k); [contradiction|]. exact IH.
Qed.

Lemma dict_get_set_other {V : Type} (k k' : string) (v : V) (d : list (string * V)) :
  k' <> k -> dict_get k' (dict_set k v d) = dict_get k' d.
Proof.
  intros Hne. unfold dict_get. induction d as [|[k0 v0] rest IH]; simpl.
  - destruct (String.eqb_spec k k'); [congruence|reflexivity].
  - destruct (String.eqb_spec k0 k) as [->|E]; simpl.
    + destruct (String.eqb_spec k k'); [congruence|reflexivity].
    + destruct (String.eqb_spec k0 k'); [reflexivity|exact IH].
Qed.

Lemma dict_set_keys {V : Type} (k : string) (v : V) (d : list (string * V)) :
  map fst (dict_set k v d)
  = if existsb (String.eqb k) (map fst d) then map fst d else (map fst d ++ [k])%list.
Proof.
  induction d as [|[k0 v0] rest IH]; simpl; [reflexivity|].
  rewrite (String.eqb_sym k k0).
  destruct (String.eqb_spec k0 k) as [->|E]; simpl; [reflexivity|].
  rewrite IH. destruct (existsb _ _); reflexivity.
Qed.

Lemma dict_set_NoDup {V : Type} (k : string) (v : V) (d : list (string * V)) :
  List.NoDup (map fst d) -> List.NoDup (map fst (dict_set k v d)).
Proof.
  intros H. rewrite dict_set_keys.
  destruct (existsb (String.eqb k) (map fst d)) eqn:E; [exact H|].
  apply List.NoDup_app; [exact H|repeat constructor; intros []|].
  intros x Hx [Hk|[]]. subst x.
  assert (existsb (String.eqb k) (map fst d) = true); [|congruence].
  apply existsb_exists. exists k. split; [exact Hx|apply String.eqb_refl].
Qed.

(** The value the textures dict gets for one channel. *)
Lemma textures_dict_fold (abspath : string -> string) (objs : list Object)
    (settings : BlenroseMaterialSettings) (configs : list (string * string * string))
    (acc : list (string * (option string * string))) :
  List.NoDup (map (fun c => fst (fst c)) configs) ->
  let result :=
    fold_left
      (fun textures config =>
         let '(channel_name, tex_prop, uv_prop) := config in
         let tex := getattr_tex settings tex_prop in
         let path := get_image_path abspath tex in
         if resolved_ok path || bool_decide (is_Some tex)
         then dict_set channel_name (path, get_uv_name objs settings uv_prop) textures
         else textures)
      configs acc in
  (forall channel_name tex_prop uv_prop,
      In (channel_name, tex_prop, uv_prop) configs ->
      dict_get channel_name result
      = match getattr_tex settings tex_prop with
        | Some image =>
            Some (if truthy (filepath image) then Some (abspath (filepath image)) else None,
                  get_uv_name objs settings uv_prop)
        | None => dict_get channel_name acc
        end) /\
  (forall k, ~ In k (map (fun c => fst (fst c)) configs) ->
             dict_get k result = dict_get k acc).
Proof.
  revert acc. induction configs as [|[[ch tp] up] rest IH]; intros acc Hnd; cbv zeta; simpl.
  - split; [intros ? ? ? []|auto].
  - inversion Hnd as [|? ? Hnotin Hnd']; subst. simpl in Hnotin.
    match goal with |- context [fold_left ?F rest ?A] =>
      pose proof (IH A Hnd') as IH'; cbv zeta in IH'; destruct IH' as (IH1 & IH2) end.
    split.
    + intros channel_name tex_prop uv_prop [[= <- <- <-]|Hin].
      * rewrite (IH2 ch Hnotin).
        destruct (getattr_tex settings tp) as [image|]; simpl.
        -- rewrite orb_true_r. rewrite dict_get_set_same. reflexivity.
        -- reflexivity.
      * assert (channel_name <> ch).
        { intros ->. apply Hnotin. apply in_map_iff.
          exists (ch, tex_prop, uv_prop). auto. }
        rewrite (IH1 _ _ _ Hin).
        destruct (getattr_tex settings tex_prop); [reflexivity|].
        destruct (_ || _); [apply dict_get_set_other; assumption|reflexivity].
    + intros k Hk. simpl in Hk.
      assert (Hk1 : k <> ch) by (intros ->; apply Hk; left; reflexivity).
      assert (Hk2 : ~ In k (map (fun c : string * string * string => fst (fst c)) rest))
        by (intros H; apply Hk; right; exact H).
      rewrite (IH2 k Hk2).
      destruct (_ || _); [apply dict_get_set_other; exact Hk1|reflexivity].
Qed.

(** X8.  The textures dict of the export has an entry for a channel
    exactly when the channel's texture property holds an image.  The entry
    holds the absolute path of the image file, or no path when the image
    has none (an embedded image), and the UV name [get_uv_name] resolves
    for the channel.  No other key is in the dict. *)
Theorem textures_dict_has_set_channels (abspath : string -> string) (objs : list Object)
    (settings : BlenroseMaterialSettings) :
  (forall channel_name tex_prop uv_prop,
      In (channel_name, tex_prop, uv_prop) channel_configs ->
      dict_get channel_name (_build_textures_dict abspath objs settings)
      = match getattr_tex settings tex_prop with
        | Some image =>
            Some (if truthy (filepath image) then Some (abspath (filepath image)) else None,
                  get_uv_name objs settings uv_prop)
        | None => None
        end) /\
  (forall k, ~ In k (map (fun c => fst (fst c)) channel_configs) ->
             dict_get k (_build_textures_dict abspath objs settings) = None).
Proof.
  assert (Hnd : List.NoDup (map (fun c : string * string * string => fst (fst c))
                                channel_configs)).
  { apply NoDup_ListNoDup. apply (bool_decide_unpack _). vm_compute. exact I. }
  pose proof (textures_dict_fold abspath objs settings channel_configs [] Hnd) as H.
  cbv zeta in H. destruct H as (H1 & H2).
  split.
  - intros channel_name tex_prop uv_prop Hin. exact (H1 _ _ _ Hin).
  - intros k Hk. exact (H2 k Hk).
Qed.

(** X9.  The material document has an entry under the name of every
    material that has a group and has Blenrose enabled, and no name is
    entered twice. *)
Theorem enabled_materials_are_exported (abspath : string -> string) (w : World)
    (material_groups : list (option nat * list Object))
    (material_splines : option nat -> list SplineRecord) :
  List.NoDup (map fst (exported_materials abspath w material_groups material_splines)) /\
  forall (p : nat) (objs : list Object) (mat : Material),
    In (Some p, objs) material_groups ->
    materials w !! p = Some mat ->
    enabled (blenrose_settings mat) = true ->
    exists d, dict_get (material_name mat)
                       (exported_materials abspath w material_groups material_splines)
              = Some d.
Proof.
  unfold exported_materials.
  match goal with |- context [fold_left ?F _ _] => set (step := F) end.
  assert (Hkeep : forall groups acc k,
             is_Some (dict_get k acc) -> is_Some (dict_get k (fold_left step groups acc))).
  { induction groups as [|g groups IH]; intros acc k Hk; simpl; [exact Hk|].
    apply IH. unfold step. destruct (fst g) as [material|]; [|exact Hk].
    destruct (materials w !! material) as [mat|]; [|exact Hk].
    destruct (enabled (blenrose_settings mat)); [|exact Hk].
    destruct (String.eqb_spec k (material_name mat)) as [->|E].
    - rewrite dict_get_set_same. eauto.
    - rewrite dict_get_set_other by exact E. exact Hk. }
  assert (Hnd : forall groups acc,
             List.NoDup (map fst acc) -> List.NoDup (map fst (fold_left step groups acc))).
  { induction groups as [|g groups IH]; intros acc Hacc; simpl; [exact Hacc|].
    apply IH. unfold step. destruct (fst g) as [material|]; [|exact Hacc].
    destruct (materials w !! material) as [mat|]; [|exact Hacc].
    destruct (enabled (blenrose_settings mat)); [|exact Hacc].
    apply dict_set_NoDup. exact Hacc. }
  split; [apply Hnd; constructor|].
  intros p objs mat Hin Hm He.
  assert (H : is_Some (dict_get (material_name mat) (fold_left step material_groups [])));
    [|destruct H as [d Hd]; eauto].
  generalize (@nil (string * MaterialData)).
  induction material_groups as [|g groups IH]; intros acc; simpl; [destruct Hin|].
  destruct Hin as [->|Hin]; [|apply IH; exact Hin].
  apply Hkeep. unfold step. simpl. rewrite Hm, He. rewrite dict_get_set_same. eauto.
Qed.

(* ===================================================================== *)
(** ** The subclass enum *)
(* ===================================================================== *)

Lemma subclass_tables_distinct :
  Forall (fun entry => snd entry <> [] /\ NoDup (map identifier (snd entry)))
         MATERIAL_SUBCLASSES.
Proof. apply (bool_decide_unpack _). vm_compute. exact I. Qed.

Lemma dict_get_In {V : Type} (k : string) (v : V) (d : list (string * V)) :
  dict_get k d = Some v -> In (k, v) d.
Proof.
  unfold dict_get. destruct (find _ d) as [[k' v']|] eqn:E; [|discriminate].
  intros [= <-]. apply find_some in E as [Hin Hk]. simpl in *.
  apply String.eqb_eq in Hk. subst. exact Hin.
Qed.

(** X10.  The items of the subclass enum are never empty and their
    identifiers are pairwise distinct, whatever the class: the table of the
    class when the class has one, and the single item DEFAULT when the
    class is empty or has no table. *)
Theorem subclass_items_never_empty (self : BlenroseMaterialSettings) :
  material_subclass_items self <> [] /\
  List.NoDup (map identifier (material_subclass_items self)) /\
  (forall items, material_class self <> "" ->
                 dict_get (material_class self) MATERIAL_SUBCLASSES = Some items ->
                 material_subclass_items self = items) /\
  (material_class self = "" \/ dict_get (material_class self) MATERIAL_SUBCLASSES = None ->
   material_subclass_items self = [ ("DEFAULT", "default", "") ]).
Proof.
  unfold material_subclass_items, truthy.
  destruct (String.eqb_spec (material_class self) "") as [E|E]; simpl.
  - split; [discriminate|]. split; [repeat constructor; intros []|].
    split; [intros items H; contradiction|reflexivity].
  - destruct (dict_get (material_class self) MATERIAL_SUBCLASSES) as [items|] eqn:Hget.
    + apply dict_get_In in Hget.
      pose proof subclass_tables_distinct as H. rewrite Forall_forall in H.
      apply list_elem_of_In in Hget. destruct (H _ Hget) as (Hne & Hnd). simpl in *.
      split; [exact Hne|]. split; [apply NoDup_ListNoDup; exact Hnd|].
      split; [intros items' _ [= <-]; reflexivity|].
      intros [H'|H']; [contradiction|discriminate].
    + split; [discriminate|]. split; [repeat constructor; intros []|].
      split; [intros items _ H; discriminate|reflexivity].
Qed.

(** X11.  Assigning [material_subclass] an identifier of the current
    class's table stores it: the property reads back as that identifier,
    the class is as it was, and the export resolves that identifier as the
    material's subclass.  Assigning any other string raises TypeError. *)
Theorem subclass_assignment_round_trip (ident : string) (settings : BlenroseMaterialSettings) :
  In (material_class settings) (map identifier MATERIAL_CLASS_ITEMS) ->
  (In ident (map identifier (material_subclass_items settings)) ->
   exists settings',
     setattr_material_subclass ident settings = Ok settings' /\
     getattr_material_subclass settings' = ident /\
     material_class settings' = material_class settings /\
     material_subclass_name settings' = ident) /\
  (~ In ident (map identifier (material_subclass_items settings)) ->
   setattr_material_subclass ident settings = Raised TypeError).
Proof.
  intros Hclass. unfold setattr_material_subclass. split.
  - intros Hin. destruct (enum_value_In _ _ Hin) as [i Hi]. rewrite Hi.
    eexists. split; [reflexivity|].
    assert (Hitems : material_subclass_items (set_material_subclass i settings)
                     = material_subclass_items settings) by reflexivity.
    assert (Hread : getattr_material_subclass (set_material_subclass i settings) = ident).
    { unfold getattr_material_subclass. rewrite Hitems. simpl.
      apply enum_round_trip. exact Hi. }
    split; [exact Hread|]. split; [reflexivity|].
    destruct (class_has_subclasses _ Hclass) as (items & Hget & Hne & Hnoempty & Htruthy).
    destruct (subclass_name_resolved (set_material_subclass i settings) items
                Hget Htruthy Hne Hnoempty) as (Hitems' & _ & Hvalid & _).
    rewrite Hvalid; [exact Hread|]. simpl. rewrite <- Hitems', Hitems.
    destruct (enum_value_nth _ _ _ Hi) as (item & Hn & _).
    apply nth_error_Some. congruence.
  - intros Hnot. rewrite (enum_value_not_In _ _ Hnot). reflexivity.
Qed.

(* ===================================================================== *)
(** ** Auto-fill and the node graph *)
(* ===================================================================== *)

Lemma same_but_channels_refl (s : BlenroseMaterialSettings) : same_but_channels s s.
Proof. unfold same_but_channels. destruct s. reflexivity. Qed.

Lemma same_but_channels_trans (s1 s2 s3 : BlenroseMaterialSettings) :
  same_but_channels s1 s2 -> same_but_channels s2 s3 -> same_but_channels s1 s3.
Proof.
  unfold same_but_channels. intros H1 H2. rewrite H2. rewrite H1. reflexivity.
Qed.

Lemma same_graph_refl (mat : Material) : same_graph mat mat.
Proof.
  split; [reflexivity|]. split; [reflexivity|]. split; [reflexivity|].
  apply same_but_channels_refl.
Qed.

Lemma same_graph_trans (m1 m2 m3 : Material) :
  same_graph m1 m2 -> same_graph m2 m3 -> same_graph m1 m3.
Proof.
  intros (A1 & A2 & A3 & A4) (B1 & B2 & B3 & B4).
  split; [congruence|]. split; [congruence|]. split; [congruence|].
  eapply same_but_channels_trans; eassumption.
Qed.

(** While the material is suppressed, assigning a texture or a UV source
    changes the material's settings at most, in the texture and UV
    fields. *)
Lemma setattr_tex_quiet (self : nat) (tex_prop : string) (img : Image) (w : World)
    (mat : Material) :
  self ∈ _SUPPRESSED_UPDATE_MATERIALS w ->
  materials w !! self = Some mat ->
  exists mat',
    setattr_tex self tex_prop img w = store_material self mat' w /\ same_graph mat mat'.
Proof.
  intros Hsup Hm. unfold setattr_tex. rewrite Hm.
  rewrite update_suppressed by exact Hsup. simpl.
  eexists. split; [reflexivity|].
  split; [reflexivity|]. split; [reflexivity|]. split; reflexivity.
Qed.

Lemma setattr_uv_quiet (self : nat) (uv_prop ident : string) (w : World) (mat : Material) :
  self ∈ _SUPPRESSED_UPDATE_MATERIALS w ->
  materials w !! self = Some mat ->
  exists mat',
    setattr_uv self uv_prop ident w = store_material self mat' w /\ same_graph mat mat'.
Proof.
  intros Hsup Hm. unfold setattr_uv. rewrite Hm.
  destruct (enum_value (uv_channel_items (objects w)) ident) as [value|].
  - rewrite update_suppressed by exact Hsup. simpl.
    eexists. split; [reflexivity|].
    split; [reflexivity|]. split; [reflexivity|]. split; reflexivity.
  - exists mat. split; [symmetry; apply store_material_same; exact Hm|apply same_graph_refl].
Qed.

Lemma auto_fill_channel_quiet (self : nat) (update_existing : bool) (w : World)
    (entry : string * texture_info) (mat : Material) :
  self ∈ _SUPPRESSED_UPDATE_MATERIALS w ->
  materials w !! self = Some mat ->
  exists mat',
    auto_fill_channel self update_existing w entry = store_material self mat' w /\
    same_graph mat mat'.
Proof.
  intros Hsup Hm. destruct entry as [channel_name info]. unfold auto_fill_channel.
  match goal with |- context [find _ (uv_channel_items (objects ?W))] => set (w1 := W) end.
  assert (H1 : exists mat1, w1 = store_material self mat1 w /\ same_graph mat mat1).
  { unfold w1. destruct (dict_get channel_name texture_prop_map) as [tex_prop|].
    - destruct (_ || _).
      + apply setattr_tex_quiet; assumption.
      + exists mat. split; [symmetry; apply store_material_same; exact Hm|apply same_graph_refl].
    - exists mat. split; [symmetry; apply store_material_same; exact Hm|apply same_graph_refl]. }
  destruct H1 as (mat1 & Hw1 & Hg1).
  assert (Hkeep : exists mat', w1 = store_material self mat' w /\ same_graph mat mat')
    by eauto.
  destruct (dict_get channel_name uv_prop_map) as [uv_prop|]; [|exact Hkeep].
  destruct (uv_map_name info) as [name|]; [|exact Hkeep].
  destruct (truthy name); [|exact Hkeep].
  destruct (find _ _) as [item|]; [|exact Hkeep].
  assert (Hsup1 : self ∈ _SUPPRESSED_UPDATE_MATERIALS w1) by (rewrite Hw1; exact Hsup).
  assert (Hm1 : materials w1 !! self = Some mat1)
    by (rewrite Hw1; apply store_material_lookup).
  destruct (setattr_uv_quiet self uv_prop (identifier item) w1 mat1 Hsup1 Hm1)
    as (mat2 & Hw2 & Hg2).
  exists mat2. split; [|eapply same_graph_trans; eassumption].
  rewrite Hw2, Hw1. apply store_material_twice.
Qed.

Lemma auto_fill_loop_quiet (self : nat) (update_existing : bool)
    (detected : list (string * texture_info)) (w : World) (mat : Material) :
  self ∈ _SUPPRESSED_UPDATE_MATERIALS w ->
  materials w !! self = Some mat ->
  exists mat',
    fold_left (auto_fill_channel self update_existing) detected w
    = store_material self mat' w /\
    same_graph mat mat'.
Proof.
  revert w mat. induction detected as [|entry rest IH]; intros w mat Hsup Hm; simpl.
  - exists mat. split; [symmetry; apply store_material_same; exact Hm|apply same_graph_refl].
  - destruct (auto_fill_channel_quiet self update_existing w entry mat Hsup Hm)
      as (mat1 & Hw1 & Hg1).
    rewrite Hw1.
    destruct (IH (store_material self mat1 w) mat1 Hsup (store_material_lookup _ _ _))
      as (mat2 & Hw2 & Hg2).
    exists mat2. split; [|eapply same_graph_trans; eassumption].
    rewrite Hw2. apply store_material_twice.
Qed.

(** What [_auto_fill_textures_from_node_tree] does to the world. *)
Lemma auto_fill_spec (self : nat) (update_existing : bool) (w : World) (mat : Material) :
  materials w !! self = Some mat ->
  exists mat',
    _auto_fill_textures_from_node_tree self update_existing w
    = set_suppressed (_SUPPRESSED_UPDATE_MATERIALS w ∖ {[ self ]}) (store_material self mat' w) /\
    same_graph mat mat'.
Proof.
  intros Hm. unfold _auto_fill_textures_from_node_tree. rewrite Hm.
  set (w0 := set_suppressed ({[self]} ∪ _SUPPRESSED_UPDATE_MATERIALS w) w).
  assert (Hsup : self ∈ _SUPPRESSED_UPDATE_MATERIALS w0)     by (simpl; apply elem_of_union_l, elem_of_singleton; reflexivity).
  assert (Hm0 : materials w0 !! self = Some mat) by exact Hm.
  destruct (auto_fill_loop_quiet self update_existing
              (_detect_textures_from_node_tree (objects w) self mat) w0 mat Hsup Hm0)
    as (mat' & Hw & Hg).
  exists mat'. split; [|exact Hg]. rewrite Hw.
  unfold set_suppressed, store_material, set_materials, w0. simpl. f_equal.
  apply set_eq. intros x.
  rewrite !elem_of_difference, elem_of_union, elem_of_singleton. tauto.
Qed.

(** X12.  The auto-fill never touches the node graph.  It changes the
    texture and UV fields of the material's settings at most: the
    material's name, its [use_nodes], its node tree and its other settings
    are as they were, and so are the objects and the other materials.  It
    leaves the material out of the suppression set, also when the material
    was in the set before the call. *)
Theorem auto_fill_keeps_graph (self : nat) (update_existing : bool) (w : World)
    (mat : Material) :
  materials w !! self = Some mat ->
  exists mat',
    materials (_auto_fill_textures_from_node_tree self update_existing w) !! self
    = Some mat' /\
    material_name mat' = material_name mat /\
    use_nodes mat' = use_nodes mat /\
    node_tree mat' = node_tree mat /\
    same_but_channels (blenrose_settings mat) (blenrose_settings mat') /\
    objects (_auto_fill_textures_from_node_tree self update_existing w) = objects w /\
    (forall q, q <> self ->
       materials (_auto_fill_textures_from_node_tree self update_existing w) !! q
       = materials w !! q) /\
    _SUPPRESSED_UPDATE_MATERIALS (_auto_fill_textures_from_node_tree self update_existing w)
    = _SUPPRESSED_UPDATE_MATERIALS w ∖ {[ self ]}.
Proof.
  intros Hm. destruct (auto_fill_spec self update_existing w mat Hm) as (mat' & -> & Hg).
  destruct Hg as (H1 & H2 & H3 & H4).
  exists mat'. simpl. split; [apply lookup_insert_eq|].
  repeat (split; [assumption|]). split; [reflexivity|]. split; [|reflexivity].
  intros q Hq. apply lookup_insert_ne. congruence.
Qed.

(* ===================================================================== *)
(** ** Enabling a material *)
(* ===================================================================== *)

(** Building on a material whose tree, if it has one, is well formed, and
    which has a tree if it uses nodes. *)
Lemma build_tree_spec (objs : list Object) (mat : Material) :
  (forall nt, node_tree mat = Some nt -> wf_tree nt) ->
  (use_nodes mat = true -> node_tree mat <> None) ->
  exists nt',
    _build_blenrose_node_tree objs mat
    = (set_node_tree (Some nt') (with_nodes_on mat), Ok tt) /\
    create_nodes objs (blenrose_settings mat) empty_tree = (nt', Ok tt) /\
    wf_tree nt' /\ missing_critical nt' = false /\
    update_nodes objs (blenrose_settings mat) nt' = (nt', Ok tt).
Proof.
  intros Hwf Htree.
  destruct (with_nodes_on_facts mat) as (Hset & _ & _ & Horigin & _).
  destruct (create_nodes_facts objs (blenrose_settings mat))
    as (nt' & Hc & Hwf' & Hmiss & Hu & _).
  exists nt'. split; [|auto].
  unfold _build_blenrose_node_tree. fold (with_nodes_on mat).
  destruct (node_tree (with_nodes_on mat)) as [nt|] eqn:Ht.
  - assert (Hwfnt : wf_tree nt).
    { destruct (Horigin nt eq_refl) as [H| ->]; [apply Hwf; exact H|apply default_node_tree_wf]. }
    rewrite Hset, (build_nodes_clears _ _ nt Hwfnt), Hc. reflexivity.
  - exfalso. unfold with_nodes_on in Ht.
    destruct (use_nodes mat) eqn:Hu'.
    + apply Htree; [reflexivity|exact Ht].
    + unfold set_use_nodes_true in Ht. cbn [node_tree] in Ht.
      destruct (node_tree mat); exact (Some_ne_None _ Ht).
Qed.

(** What assigning [enabled = True] does, for a material whose tree, if it
    has one, is well formed. *)
Lemma enable_spec (self : nat) (w : World) (mat : Material) :
  materials w !! self = Some mat ->
  (forall nt, node_tree mat = Some nt -> wf_tree nt) ->
  (use_nodes mat = true -> node_tree mat <> None) ->
  exists (mat2 : Material) (nt' : NodeTree) (sup : gset nat),
    setattr_enabled self true w
    = set_suppressed sup (store_material self (set_node_tree (Some nt') (with_nodes_on mat2)) w) /\
    same_graph (set_settings (set_enabled true (blenrose_settings mat)) mat) mat2 /\
    create_nodes (objects w) (blenrose_settings mat2) empty_tree = (nt', Ok tt) /\
    wf_tree nt' /\ missing_critical nt' = false /\
    update_nodes (objects w) (blenrose_settings mat2) nt' = (nt', Ok tt) /\
    (sup = _SUPPRESSED_UPDATE_MATERIALS w \/ sup = _SUPPRESSED_UPDATE_MATERIALS w ∖ {[ self ]}).
Proof.
  intros Hm Hwf Htree. unfold setattr_enabled. rewrite Hm.
  set (mat1 := set_settings (set_enabled true (blenrose_settings mat)) mat).
  set (w1 := store_material self mat1 w).
  assert (Hm1 : materials w1 !! self = Some mat1) by apply store_material_lookup.
  unfold _update_enabled. rewrite Hm1.
  change (enabled (blenrose_settings mat1)) with true. cbv iota.
  change (use_nodes mat1) with (use_nodes mat).
  change (node_tree mat1) with (node_tree mat).
  destruct (use_nodes mat && bool_decide (is_Some (node_tree mat))) eqn:Hfill.
  - destruct (auto_fill_spec self false w1 mat1 Hm1) as (mat2 & Hw2 & Hg).
    rewrite Hw2.
    change (materials (set_suppressed _ (store_material self mat2 w1)) !! self)
      with (materials (store_material self mat2 w1) !! self).
    rewrite store_material_lookup.
    destruct Hg as (G1 & G2 & G3 & G4).
    destruct (build_tree_spec (objects w) mat2) as (nt' & Hb & Hc & Hwf' & Hmiss & Hu).
    { intros nt Hnt. apply Hwf. rewrite <- Hnt, G3. reflexivity. }
    { intros Hu. rewrite G3. apply Htree. rewrite <- Hu, G2. reflexivity. }
    change (objects (set_suppressed _ (store_material self mat2 w1))) with (objects w).
    rewrite Hb. simpl.
    exists mat2, nt', (_SUPPRESSED_UPDATE_MATERIALS w ∖ {[ self ]}).
    split.
    { unfold set_suppressed, store_material, set_materials, w1. simpl.
      rewrite !insert_insert_eq. reflexivity. }
    split; [repeat split; assumption|]. auto 10.
  - rewrite Hm1.
    destruct (build_tree_spec (objects w) mat1) as (nt' & Hb & Hc & Hwf' & Hmiss & Hu);
      [exact Hwf|exact Htree|].
    change (objects w1) with (objects w). rewrite Hb. simpl.
    exists mat1, nt', (_SUPPRESSED_UPDATE_MATERIALS w).
    split.
    { unfold set_suppressed, store_material, set_materials, w1. simpl.
      rewrite !insert_insert_eq. reflexivity. }
    split; [apply same_graph_refl|]. auto 10.
Qed.

(** X13.  Enabling a material always rebuilds its graph: afterwards the
    material is enabled and uses nodes, and its tree is the one
    [create_nodes] makes on the empty tree from the settings as the
    auto-fill left them; the tree is well formed and has the three critical
    nodes.  The settings differ from the ones before in [enabled] and in
    texture and UV fields at most, and the objects and the other materials
    are as they were.  A synchronisation that follows changes nothing. *)
Theorem enable_builds_managed_graph (self : nat) (w : World) (mat : Material) :
  materials w !! self = Some mat ->
  (forall nt, node_tree mat = Some nt -> wf_tree nt) ->
  (use_nodes mat = true -> node_tree mat <> None) ->
  exists (mat' : Material) (nt' : NodeTree),
    materials (setattr_enabled self true w) !! self = Some mat' /\
    enabled (blenrose_settings mat') = true /\
    use_nodes mat' = true /\
    node_tree mat' = Some nt' /\
    material_name mat' = material_name mat /\
    same_but_channels (set_enabled true (blenrose_settings mat)) (blenrose_settings mat') /\
    create_nodes (objects w) (blenrose_settings mat') empty_tree = (nt', Ok tt) /\
    wf_tree nt' /\
    missing_critical nt' = false /\
    objects (setattr_enabled self true w) = objects w /\
    (forall q, q <> self ->
               materials (setattr_enabled self true w) !! q = materials w !! q) /\
    _update_all_blenrose_nodes self (setattr_enabled self true w)
    = (setattr_enabled self true w, Ok tt).
Proof.
  intros Hm Hwf Htree.
  destruct (enable_spec self w mat Hm Hwf Htree)
    as (mat2 & nt' & sup & -> & Hg & Hc & Hwf' & Hmiss & Hu & _).
  destruct Hg as (G1 & G2 & G3 & G4).
  destruct (with_nodes_on_facts mat2) as (Hset & Hname & _).
  exists (set_node_tree (Some nt') (with_nodes_on mat2)), nt'.
  simpl. split; [apply lookup_insert_eq|].
  split; [rewrite Hset; unfold same_but_channels in G4; rewrite G4; reflexivity|].
  split; [apply with_nodes_on_use|]. split; [reflexivity|].
  split; [rewrite Hname; exact G1|].
  split; [rewrite Hset; exact G4|].
  split; [rewrite Hset; exact Hc|].
  split; [exact Hwf'|]. split; [exact Hmiss|]. split; [reflexivity|].
  split; [intros q Hq; apply lookup_insert_ne; congruence|].
  unfold _update_all_blenrose_nodes. simpl. rewrite lookup_insert_eq.
  destruct (bool_decide (self ∈ sup)); [reflexivity|].
  simpl. rewrite with_nodes_on_use. simpl. rewrite Hmiss, Hset, Hu.
  unfold store_material, set_materials, set_suppressed. simpl.
  rewrite insert_insert_eq. reflexivity.
Qed.

(* ===================================================================== *)
(** ** Detection *)
(* ===================================================================== *)

Lemma dict_get_None {V : Type} (k : string) (d : list (string * V)) :
  dict_get k d = None -> ~ In k (map fst d).
Proof.
  unfold dict_get. destruct (find _ d) as [e|] eqn:E; [discriminate|].
  intros _ Hin. apply in_map_iff in Hin as ([k' v] & <- & Hin).
  apply (find_none _ _ E) in Hin. simpl in Hin. rewrite String.eqb_refl in Hin. discriminate.
Qed.

Lemma dict_get_app {V : Type} (k k' : string) (v : V) (d : list (string * V)) :
  dict_get k (d ++ [(k', v)])
  = match dict_get k d with
    | Some x => Some x
    | None => if String.eqb k' k then Some v else None
    end.
Proof.
  unfold dict_get. induction d as [|[k0 v0] rest IH]; simpl.
  - destruct (String.eqb k' k); reflexivity.
  - destruct (String.eqb k0 k); [reflexivity|exact IH].
Qed.

Lemma find_filter {A : Type} (f g : A -> bool) (l : list A) :
  find f (List.filter g l) = find (fun x => g x && f x) l.
Proof.
  induction l as [|x l IH]; simpl; [reflexivity|].
  destruct (g x); simpl; [|exact IH]. destruct (f x); [reflexivity|exact IH].
Qed.

Lemma find_ext {A : Type} (f g : A -> bool) (l : list A) :
  (forall x, f x = g x) -> find f l = find g l.
Proof.
  intros H. induction l as [|x l IH]; simpl; [reflexivity|].
  rewrite H, IH. reflexivity.
Qed.

Lemma best_channel_listed(nt : NodeTree) (node : Node) (channel_name : string) :
  fst (best_channel nt node) = Some channel_name ->
  In channel_name (map (fun entry => fst (fst entry)) channel_detection).
Proof.
  unfold best_channel.
  assert (H : forall l best,
             (forall c, fst best = Some c ->
                        In c (map (fun e : string * list string * list string => fst (fst e))
                                  channel_detection)) ->
             incl l channel_detection ->
             fst (fold_left
                    (fun best entry =>
                       let '(channel_name, keywords, targets) := entry in
                       let score := channel_score nt node
                                      (lower (node_name node ++ " " ++ node_label node))
                                      channel_name keywords targets in
                       if (snd best <? score)%nat then (Some channel_name, score) else best)
                    l best) = Some channel_name ->
             In channel_name (map (fun e : string * list string * list string => fst (fst e))
                                  channel_detection)).
  { induction l as [|[[c k] t] l IH]; intros best Hbest Hincl; simpl.
    - apply Hbest.
    - apply IH.
      + destruct (_ <? _)%nat; [|exact Hbest]. cbn [fst]. intros c' [= <-].
        apply (in_map (fun e : string * list string * list string => fst (fst e))
                      channel_detection (c, k, t)).
        apply Hincl. left. reflexivity.
      + intros x Hx. apply Hincl. right. exact Hx. }
  apply H; [simpl; discriminate|apply incl_refl].
Qed.

(** What the loop over the image nodes leaves in [detected_textures]. *)
Lemma detect_fold (objs : list Object) (nt : NodeTree) (mat_ptr : nat)
    (image_nodes : list Node) (acc : list (string * texture_info)) :
  let result :=
    fold_left
      (fun detected_textures img_node =>
         match image img_node with
         | None => detected_textures
         | Some img =>
             match best_channel nt img_node with
             | (Some best_match, best_score) =>
                 if (0 <? best_score)%nat
                    && negb (bool_decide (is_Some (dict_get best_match detected_textures)))
                 then (detected_textures ++
                      [ (best_match,
                         {| info_image := img;
                            uv_map_name :=
                              _resolve_uv_map_for_image_node objs nt img_node mat_ptr;
                            image_node := as_pointer img_node |}) ])%list
                 else detected_textures
             | (None, _) => detected_textures
             end
         end)
      image_nodes acc in
  List.NoDup (map fst acc) ->
  List.NoDup (map fst result) /\
  forall channel_name,
    dict_get channel_name result
    = match dict_get channel_name acc with
      | Some info => Some info
      | None =>
          find (fun node => bool_decide (is_Some (image node))
                            && bool_decide (fst (best_channel nt node) = Some channel_name)
                            && (0 <? snd (best_channel nt node))%nat) image_nodes
          ≫= detected_entry objs nt mat_ptr
      end.
Proof.
  cbv zeta. revert acc. induction image_nodes as [|n rest IH]; intros acc Hacc; simpl.
  - split; [exact Hacc|]. intros c. destruct (dict_get c acc); reflexivity.
  - match goal with |- context [fold_left ?F rest ?A] => set (acc' := A) end.
    assert (Hstep : List.NoDup (map fst acc') /\
                    forall c, dict_get c acc'
                              = match dict_get c acc with
                                | Some info => Some info
                                | None =>
                                    if bool_decide (is_Some (image n))
                                       && bool_decide (fst (best_channel nt n) = Some c)
                                       && (0 <? snd (best_channel nt n))%nat
                                    then detected_entry objs nt mat_ptr n
                                    else None
                                end).
    { unfold acc', detected_entry.
      destruct (image n) as [img|]; simpl;
        [|split; [exact Hacc|intros c; destruct (dict_get c acc); reflexivity]].
      destruct (best_channel nt n) as [[b|] s]; simpl;
        [|split; [exact Hacc|intros c; destruct (dict_get c acc); reflexivity]].
      destruct (0 <? s)%nat; simpl.
      - destruct (dict_get b acc) as [found|] eqn:Hb.
        + rewrite bool_decide_eq_true_2 by eauto. simpl.
          split; [exact Hacc|]. intros c.
          destruct (dict_get c acc) eqn:Hc; [reflexivity|].
          rewrite bool_decide_eq_false_2; [reflexivity|]. intros [= ->]. congruence.
        + rewrite bool_decide_eq_false_2 by (intros [x Hx]; discriminate). simpl.
          split.
          * rewrite map_app. simpl.
            apply List.NoDup_app; [exact Hacc|repeat constructor; intros []|].
            intros k Hk [<-|[]]. exact (dict_get_None _ _ Hb Hk).
          * intros c. rewrite dict_get_app. destruct (dict_get c acc); [reflexivity|].
            destruct (String.eqb_spec b c) as [->|E].
            -- rewrite bool_decide_eq_true_2 by reflexivity. reflexivity.
            -- rewrite bool_decide_eq_false_2 by congruence. reflexivity.
      - split; [exact Hacc|].
        intros c. rewrite andb_false_r. destruct (dict_get c acc); reflexivity. }
    destruct Hstep as (Hnd & Hget).
    destruct (IH acc' Hnd) as (IH1 & IH2).
    split; [exact IH1|]. intros c. rewrite IH2, Hget.
    destruct (dict_get c acc); [reflexivity|].
    destruct (_ && _ && _) eqn:Hc; simpl; [|reflexivity].
    apply andb_true_iff in Hc as [Hc _]. apply andb_true_iff in Hc as [Hc _].
    apply bool_decide_eq_true in Hc as [img Himg].
    unfold detected_entry. rewrite Himg. reflexivity.
Qed.

Lemma detect_spec (objs : list Object) (mat_ptr : nat) (mat : Material) :
  List.NoDup (map fst (_detect_textures_from_node_tree objs mat_ptr mat)) /\
  forall channel_name,
    dict_get channel_name (_detect_textures_from_node_tree objs mat_ptr mat)
    = if use_nodes mat then
        node_tree mat ≫= (fun nt =>
          find (claims_channel nt channel_name) (nodes nt) ≫= detected_entry objs nt mat_ptr)
      else None.
Proof.
  unfold _detect_textures_from_node_tree.
  destruct (use_nodes mat); simpl; [|split; [constructor|reflexivity]].
  destruct (node_tree mat) as [nt|]; simpl; [|split; [constructor|reflexivity]].
  pose proof (detect_fold objs nt mat_ptr
                (List.filter (fun node => (node_type node =? "TEX_IMAGE")
                                          && bool_decide (is_Some (image node))) (nodes nt))
                []) as H.
  cbv zeta in H. destruct (H ltac:(constructor)) as (H1 & H2).
  split; [exact H1|]. intros c. rewrite H2. simpl. rewrite find_filter.
  f_equal. apply find_ext. intros n. unfold claims_channel.
  destruct (node_type n =? "TEX_IMAGE"), (bool_decide (is_Some (image n))); reflexivity.
Qed.

(** X2.  Detection gives each channel at most one texture, the one of the
    first node of the tree that claims the channel: an Image Texture node
    that holds an image and scores best, and above 0, for that channel.
    The entry holds that node's image, its pointer and the UV name
    resolved for it.  Every channel detected is one of the ten of
    [channel_detection], and nothing is detected for a material that does
    not use nodes or has no tree. *)
Theorem detection_one_match_per_channel (objs : list Object) (mat_ptr : nat) (mat : Material) :
  List.NoDup (map fst (_detect_textures_from_node_tree objs mat_ptr mat)) /\
  (forall channel_name,
      dict_get channel_name (_detect_textures_from_node_tree objs mat_ptr mat)
      = if use_nodes mat then
          node_tree mat ≫= (fun nt =>
            find (claims_channel nt channel_name) (nodes nt)
            ≫= detected_entry objs nt mat_ptr)
        else None) /\
  (forall channel_name info,
      In (channel_name, info) (_detect_textures_from_node_tree objs mat_ptr mat) ->
      In channel_name (map (fun entry => fst (fst entry)) channel_detection)) /\
  (use_nodes mat = false \/ node_tree mat = None ->
   _detect_textures_from_node_tree objs mat_ptr mat = []).
Proof.
  destruct (detect_spec objs mat_ptr mat) as (Hnd & Hget).
  split; [exact Hnd|]. split; [exact Hget|]. split.
  - intros c info Hin.
    assert (Hc : dict_get c (_detect_textures_from_node_tree objs mat_ptr mat) <> None).
    { intros Hnone. apply (dict_get_None _ _ Hnone). apply in_map_iff.
      exists (c, info). auto. }
    rewrite Hget in Hc. destruct (use_nodes mat); [|congruence].
    destruct (node_tree mat) as [nt|]; [|simpl in Hc; congruence]. simpl in Hc.
    destruct (find (claims_channel nt c) (nodes nt)) as [n|] eqn:Hf; [|simpl in Hc; congruence].
    apply find_some in Hf as [_ Hf]. unfold claims_channel in Hf.
    apply andb_true_iff in Hf as [Hf _]. apply andb_true_iff in Hf as [_ Hf].
    apply bool_decide_eq_true in Hf. eapply best_channel_listed. exact Hf.
  - unfold _detect_textures_from_node_tree. intros [-> | ->]; [reflexivity|].
    destruct (negb (use_nodes mat)); reflexivity.
Qed.

(* ===================================================================== *)
(** ** The operators *)
(* ===================================================================== *)

Lemma clamp_index_bounds (idx : Z) (mats : list nat) :
  mats <> [] ->
  (0 <= clamp_index idx mats < Z.of_nat (length mats))%Z /\
  ((0 <= idx < Z.of_nat (length mats))%Z -> clamp_index idx mats = idx) /\
  ((idx < 0)%Z -> clamp_index idx mats = 0%Z) /\
  ((Z.of_nat (length mats) <= idx)%Z -> clamp_index idx mats = (Z.of_nat (length mats) - 1)%Z).
Proof.
  intros Hne. unfold clamp_index.
  assert (0 < length mats)%nat by (destruct mats; [contradiction|simpl; lia]).
  lia.
Qed.

(** X14.  Deleting the active material: with no material the operator is
    cancelled and changes nothing.  Otherwise the index is clamped into
    the collection first, whatever it was, so a material is always found;
    exactly that material leaves the collection and the data, the others
    keep their order; and the index the operator leaves is again inside
    the collection, or 0 when the collection is empty. *)
Theorem delete_material_keeps_index_valid (mats : list nat) (blenrose_mat_index : Z)
    (w : World) :
  (mats = [] ->
   delete_material_execute mats blenrose_mat_index w = (CANCELLED, mats, blenrose_mat_index, w)) /\
  (mats <> [] ->
   exists (k : nat) (mat : nat) (idx' : Z),
     Z.of_nat k = clamp_index blenrose_mat_index mats /\
     nth_error mats k = Some mat /\
     delete_material_execute mats blenrose_mat_index w
     = (FINISHED, (firstn k mats ++ skipn (S k) mats)%list, idx', materials_remove mat w) /\
     length (firstn k mats ++ skipn (S k) mats)%list = (length mats - 1)%nat /\
     materials (materials_remove mat w) !! mat = None /\
     (forall q, q <> mat -> materials (materials_remove mat w) !! q = materials w !! q) /\
     (0 <= idx')%Z /\
     ((firstn k mats ++ skipn (S k) mats)%list <> [] ->
      (idx' < Z.of_nat (length (firstn k mats ++ skipn (S k) mats)%list))%Z) /\
     ((firstn k mats ++ skipn (S k) mats)%list = [] -> idx' = 0%Z)).
Proof.
  split; [intros ->; reflexivity|].
  intros Hne. destruct (clamp_index_bounds blenrose_mat_index mats Hne) as (Hb & _).
  set (idx := clamp_index blenrose_mat_index mats) in *.
  assert (Hk : (Z.to_nat idx < length mats)%nat) by lia.
  destruct (nth_error mats (Z.to_nat idx)) as [mat|] eqn:Hn;
    [|apply nth_error_None in Hn; lia].
  assert (Hlen : length (firstn (Z.to_nat idx) mats ++ skipn (S (Z.to_nat idx)) mats)%list
                 = (length mats - 1)%nat).
  { rewrite length_app, length_firstn, length_skipn. lia. }
  exists (Z.to_nat idx), mat.
  unfold delete_material_execute. fold idx.
  destruct mats as [|m0 mats0] eqn:Hmats; [contradiction|]. rewrite <- Hmats in *.
  rewrite (nth_error_nth _ _ m0 Hn).
  rewrite delete_take_drop.
  change (take (Z.to_nat idx) mats) with (firstn (Z.to_nat idx) mats).
  change (drop (S (Z.to_nat idx)) mats) with (skipn (S (Z.to_nat idx)) mats).
  destruct (0 <? length ((firstn (Z.to_nat idx) mats ++ skipn (S (Z.to_nat idx)) mats)%list))%nat
    eqn:Hpos.
  - apply Nat.ltb_lt in Hpos.
    eexists. split; [lia|]. split; [exact Hn|]. split; [reflexivity|].
    split; [exact Hlen|]. split; [apply lookup_delete_eq|].
    split; [intros q Hq; apply lookup_delete_ne; congruence|].
    split; [lia|]. split; [intros _; lia|].
    intros E. rewrite E in Hpos. simpl in Hpos. lia.
  - apply Nat.ltb_ge in Hpos.
    eexists. split; [lia|]. split; [exact Hn|]. split; [reflexivity|].
    split; [exact Hlen|]. split; [apply lookup_delete_eq|].
    split; [intros q Hq; apply lookup_delete_ne; congruence|].
    split; [lia|]. split; [|reflexivity].
    intros Hne'. destruct (firstn _ _ ++ skipn _ _)%list; [contradiction|simpl in Hpos; lia].
Qed.

(* ===================================================================== *)
(** ** Synchronising the settings with the graph *)
(* ===================================================================== *)

Lemma only_material_changed_refl (self : nat) (w : World) : only_material_changed self w w.
Proof. repeat split. Qed.

Lemma only_material_changed_trans (self : nat) (w1 w2 w3 : World) :
  only_material_changed self w1 w2 -> only_material_changed self w2 w3 ->
  only_material_changed self w1 w3.
Proof.
  intros (A1 & A2 & A3) (B1 & B2 & B3).
  split; [congruence|]. split; [congruence|].
  intros q Hq. rewrite (B3 q Hq). apply A3. exact Hq.
Qed.

(** The textures a list of assignments leaves. *)
Lemma insert_chain_lookup (updates : list (string * Image)) (m : gmap string Image) :
  List.NoDup (map fst updates) ->
  (forall p img, In (p, img) updates ->
                 fold_left (fun m e => <[ fst e := snd e ]> m) updates m !! p = Some img) /\
  (forall p, ~ In p (map fst updates) ->
             fold_left (fun m e => <[ fst e := snd e ]> m) updates m !! p = m !! p).
Proof.
  revert m. induction updates as [|[p0 img0] rest IH]; intros m Hnd; simpl.
  - split; [intros ? ? []|auto].
  - inversion Hnd as [|? ? Hnotin Hnd']; subst.
    destruct (IH (<[ p0 := img0 ]> m) Hnd') as (IH1 & IH2). split.
    + intros p img [[= <- <-]|Hin]; [|apply IH1; exact Hin].
      rewrite (IH2 p0 Hnotin). apply lookup_insert_eq.
    + intros p Hp. rewrite IH2 by tauto. apply lookup_insert_ne. tauto.
Qed.

Lemma texture_props_distinct : List.NoDup (map snd texture_prop_map).
Proof. apply NoDup_ListNoDup. apply (bool_decide_unpack _). vm_compute. exact I. Qed.

Lemma NoDup_map_In_inj {A B : Type} (f : A -> B) (l : list A) (x y : A) :
  List.NoDup (map f l) -> In x l -> In y l -> f x = f y -> x = y.
Proof.
  induction l as [|a l IH]; simpl; intros Hnd Hx Hy Hf; [destruct Hx|].
  inversion Hnd as [|? ? Hnotin Hnd']; subst.
  destruct Hx as [->|Hx], Hy as [->|Hy]; [reflexivity| | |apply IH; assumption].
  - exfalso. apply Hnotin. rewrite Hf. apply in_map. exact Hy.
  - exfalso. apply Hnotin. rewrite <- Hf. apply in_map. exact Hx.
Qed.

Lemma dict_get_inj (c c' p : string) :
  dict_get c texture_prop_map = Some p -> dict_get c' texture_prop_map = Some p -> c = c'.
Proof.
  intros H H'. apply dict_get_In in H. apply dict_get_In in H'.
  assert (E : (c, p) = (c', p)); [|congruence].
  apply (NoDup_map_In_inj snd texture_prop_map); auto using texture_props_distinct.
Qed.

Lemma texture_updates_NoDup (detected : list (string * texture_info)) :
  List.NoDup (map fst detected) -> List.NoDup (map fst (texture_updates detected)).
Proof.
  unfold texture_updates. induction detected as [|[c info] rest IH]; simpl; intros Hnd.
  - constructor.
  - inversion Hnd as [|? ? Hnotin Hnd']; subst.
    destruct (dict_get c texture_prop_map) as [p|] eqn:Hc; simpl; [|apply IH; exact Hnd'].
    constructor; [|apply IH; exact Hnd'].
    intros Hin. apply in_map_iff in Hin as ([p' img] & Hp & Hin). simpl in Hp. subst p'.
    apply list_elem_of_In, list_elem_of_omap in Hin as ([c' info'] & Hin & Hsome).
    simpl in Hsome. destruct (dict_get c' texture_prop_map) as [p'|] eqn:Hc'; [|discriminate].
    simpl in Hsome. injection Hsome as -> _.
    apply Hnotin. rewrite (dict_get_inj _ _ _ Hc Hc').
    apply in_map_iff. exists (c', info'). split; [reflexivity|].
    apply list_elem_of_In. exact Hin.
Qed.

Lemma texture_updates_In (detected : list (string * texture_info)) (c p : string)
    (info : texture_info) :
  In (c, info) detected -> dict_get c texture_prop_map = Some p ->
  In (p, info_image info) (texture_updates detected).
Proof.
  intros Hin Hp. unfold texture_updates. apply list_elem_of_In, list_elem_of_omap.
  exists (c, info). split; [apply list_elem_of_In; exact Hin|]. simpl. rewrite Hp. reflexivity.
Qed.

(** One round of the operator's loop. *)
Lemma detect_channel_spec (self : nat) (w : World) (n : nat) (entry : string * texture_info)
    (s : BlenroseMaterialSettings) :
  settings_of self w = Some s ->
  exists s',
    settings_of self (fst (detect_channel self (w, n) entry)) = Some s' /\
    textures s' = fold_left (fun m e => <[ fst e := snd e ]> m) (texture_updates [entry])
                            (textures s) /\
    same_but_channels s s' /\
    only_material_changed self w (fst (detect_channel self (w, n) entry)) /\
    snd (detect_channel self (w, n) entry) = (n + length (texture_updates [entry]))%nat.
Proof.
  intros Hs. destruct entry as [c info]. unfold detect_channel, texture_updates. simpl.
  set (st1 := match dict_get c texture_prop_map with
              | Some tex_prop => (setattr_tex self tex_prop (info_image info) w, S n)
              | None => (w, n)
              end).
  assert (H1 : exists s1,
             settings_of self (fst st1) = Some s1 /\
             textures s1 = fold_left (fun m e => <[ fst e := snd e ]> m)
                             (from_option (fun x => [x]) []
                                (option_map (fun tex_prop => (tex_prop, info_image info))
                                            (dict_get c texture_prop_map)))
                             (textures s) /\
             same_but_channels s s1 /\ only_material_changed self w (fst st1) /\
             snd st1 = (n + length (from_option (fun x => [x]) []
                                (option_map (fun tex_prop => (tex_prop, info_image info))
                                            (dict_get c texture_prop_map))))%nat).
  { unfold st1. destruct (dict_get c texture_prop_map) as [tp|]; simpl.
    - destruct (setattr_tex_frame self tp (info_image info) w) as (Ho & Hsup & Hq & Hset & _).
      rewrite Hs in Hset. simpl in Hset.
      eexists. split; [exact Hset|]. simpl. split; [reflexivity|].
      split; [unfold same_but_channels; simpl; destruct s; reflexivity|].
      split; [repeat split; assumption|lia].
    - exists s. split; [exact Hs|]. split; [reflexivity|].
      split; [apply same_but_channels_refl|].
      split; [apply only_material_changed_refl|lia]. }
  destruct H1 as (s1 & Hs1 & Ht1 & Hc1 & Hf1 & Hn1).
  destruct st1 as [w1 n1]. simpl in *.
  assert (Hupd : from_option (fun x => [x]) []
                   (option_map (fun tex_prop => (tex_prop, info_image info))
                               (dict_get c texture_prop_map))
                 = match option_map (fun tex_prop => (tex_prop, info_image info))
                                    (dict_get c texture_prop_map) with
                   | Some y => [y]
                   | None => []
                   end).
  { destruct (dict_get c texture_prop_map); reflexivity. }
  rewrite Hupd in Ht1, Hn1.
  assert (Hkeep : exists s',
             settings_of self w1 = Some s' /\
             textures s' = fold_left (fun m e => <[ fst e := snd e ]> m)
                             match option_map (fun tex_prop => (tex_prop, info_image info))
                                              (dict_get c texture_prop_map) with
                             | Some y => [y]
                             | None => []
                             end (textures s) /\
             same_but_channels s s' /\ only_material_changed self w w1 /\
             n1 = (n + length match option_map (fun tex_prop => (tex_prop, info_image info))
                                               (dict_get c texture_prop_map) with
                              | Some y => [y]
                              | None => []
                              end)%nat) by eauto 10.
  destruct (dict_get c uv_prop_map) as [uv_prop|]; [|exact Hkeep].
  destruct (uv_map_name info) as [name|]; [|exact Hkeep].
  destruct (truthy name); [|exact Hkeep].
  destruct (find _ _) as [item|]; [|exact Hkeep]. simpl.
  destruct (setattr_uv_frame self uv_prop (identifier item) w1) as (Ho & Hsup & Hq & Hset & _).
  rewrite Hs1 in Hset. simpl in Hset.
  eexists. split; [exact Hset|].
  split; [destruct (enum_value _ _); simpl; exact Ht1|].
  split.
  { eapply same_but_channels_trans; [exact Hc1|].
    destruct (enum_value _ _); [|apply same_but_channels_refl].
    unfold same_but_channels. simpl. destruct s1. reflexivity. }
  split; [|exact Hn1].
  eapply only_material_changed_trans; [exact Hf1|]. repeat split; assumption.
Qed.

Lemma texture_updates_cons (entry : string * texture_info)
    (rest : list (string * texture_info)) :
  texture_updates (entry :: rest) = (texture_updates [entry] ++ texture_updates rest)%list.
Proof.
  unfold texture_updates. simpl.
  destruct (option_map _ (dict_get (fst entry) texture_prop_map)); reflexivity.
Qed.

Lemma detect_loop_spec (self : nat) (detected : list (string * texture_info)) (w : World)
    (n : nat) (s : BlenroseMaterialSettings) :
  settings_of self w = Some s ->
  exists s',
    settings_of self (fst (fold_left (detect_channel self) detected (w, n))) = Some s' /\
    textures s' = fold_left (fun m e => <[ fst e := snd e ]> m) (texture_updates detected)
                            (textures s) /\
    same_but_channels s s' /\
    only_material_changed self w (fst (fold_left (detect_channel self) detected (w, n))) /\
    snd (fold_left (detect_channel self) detected (w, n))
    = (n + length (texture_updates detected))%nat.
Proof.
  revert w n s. induction detected as [|entry rest IH]; intros w n s Hs.
  - exists s. simpl. split; [exact Hs|]. split; [reflexivity|].
    split; [apply same_but_channels_refl|]. split; [apply only_material_changed_refl|lia].
  - cbn [fold_left].
    destruct (detect_channel_spec self w n entry s Hs) as (s1 & Hs1 & Ht1 & Hc1 & Hf1 & Hn1).
    destruct (detect_channel self (w, n) entry) as [w1 n1]. cbn [fst snd] in Hs1, Hf1, Hn1.
    destruct (IH w1 n1 s1 Hs1) as (s2 & Hs2 & Ht2 & Hc2 & Hf2 & Hn2).
    exists s2. split; [exact Hs2|].
    rewrite texture_updates_cons, fold_left_app, <- Ht1, length_app.
    split; [exact Ht2|]. split; [eapply same_but_channels_trans; eassumption|].
    split; [eapply only_material_changed_trans; eassumption|lia].
Qed.

Lemma detected_have_props (objs : list Object) (self : nat) (mat : Material) :
  length (texture_updates (_detect_textures_from_node_tree objs self mat))
  = length (_detect_textures_from_node_tree objs self mat).
Proof.
  assert (H : forall c info, In (c, info) (_detect_textures_from_node_tree objs self mat) ->
                             is_Some (dict_get c texture_prop_map)).
  { intros c info Hin.
    assert (Hc : dict_get c (_detect_textures_from_node_tree objs self mat) <> None).
    { intros Hnone. apply (dict_get_None _ _ Hnone). apply in_map_iff.
      exists (c, info). auto. }
    destruct (detect_spec objs self mat) as (_ & Hget). rewrite Hget in Hc.
    destruct (use_nodes mat); [|congruence].
    destruct (node_tree mat) as [nt|]; [|simpl in Hc; congruence]. simpl in Hc.
    destruct (find (claims_channel nt c) (nodes nt)) as [nd|] eqn:Hf;
      [|simpl in Hc; congruence].
    apply find_some in Hf as [_ Hf]. unfold claims_channel in Hf.
    apply andb_true_iff in Hf as [Hf _]. apply andb_true_iff in Hf as [_ Hf].
    apply bool_decide_eq_true in Hf. apply best_channel_listed in Hf.
    simpl in Hf. repeat (destruct Hf as [<-|Hf]; [vm_compute; eauto|]). destruct Hf. }
  revert H. generalize (_detect_textures_from_node_tree objs self mat).
  induction l as [|[c info] rest IH]; intros H; [reflexivity|].
  rewrite texture_updates_cons, length_app, IH by (intros; eapply H; right; eassumption).
  destruct (H c info ltac:(left; reflexivity)) as [p Hp].
  unfold texture_updates. simpl. rewrite Hp. reflexivity.
Qed.

(** X15.  The explicit detect action works on the material the clamped
    index picks.  When that material is not enabled the operator is
    cancelled and changes nothing.  When it is enabled, every detected
    channel's texture property is overwritten with the detected image,
    whatever it held; the texture properties of the channels not detected
    and the settings other than textures and UV sources are as they were;
    the count reported is the number of channels detected; and the other
    materials, the objects and the suppression set are as they were. *)
Theorem detect_action_overwrites (mats : list nat) (blenrose_mat_index : Z) (w : World)
    (self : nat) (mat : Material) :
  nth_error mats (Z.to_nat (clamp_index blenrose_mat_index mats)) = Some self ->
  materials w !! self = Some mat ->
  (enabled (blenrose_settings mat) = false ->
   auto_detect_textures_execute mats blenrose_mat_index w = (CANCELLED, 0%nat, w)) /\
  (enabled (blenrose_settings mat) = true ->
   exists (w' : World) (s' : BlenroseMaterialSettings),
     auto_detect_textures_execute mats blenrose_mat_index w
     = (FINISHED, length (_detect_textures_from_node_tree (objects w) self mat), w') /\
     settings_of self w' = Some s' /\
     (forall channel_name info tex_prop,
         In (channel_name, info) (_detect_textures_from_node_tree (objects w) self mat) ->
         dict_get channel_name texture_prop_map = Some tex_prop ->
         getattr_tex s' tex_prop = Some (info_image info)) /\
     (forall tex_prop,
         (forall channel_name info,
             In (channel_name, info) (_detect_textures_from_node_tree (objects w) self mat) ->
             dict_get channel_name texture_prop_map <> Some tex_prop) ->
         getattr_tex s' tex_prop = getattr_tex (blenrose_settings mat) tex_prop) /\
     same_but_channels (blenrose_settings mat) s' /\
     only_material_changed self w w').
Proof.
  intros Hn Hm. unfold auto_detect_textures_execute.
  destruct mats as [|m0 mats0] eqn:Hmats; [destruct (Z.to_nat _); discriminate|].
  rewrite <- Hmats in *. rewrite (nth_error_nth _ _ m0 Hn). cbv zeta. rewrite Hm.
  split; [intros ->; reflexivity|].
  intros ->. simpl.
  set (detected := _detect_textures_from_node_tree (objects w) self mat).
  assert (Hs : settings_of self w = Some (blenrose_settings mat))
    by (unfold settings_of; rewrite Hm; reflexivity).
  destruct (detect_loop_spec self detected w 0 _ Hs) as (s' & Hs' & Ht & Hc & Hf & Hcount).
  destruct (fold_left (detect_channel self) detected (w, 0%nat)) as [w' n'].
  simpl in Hs', Hf, Hcount.
  exists w', s'. rewrite Hcount. unfold detected at 1. rewrite detected_have_props.
  split; [reflexivity|]. split; [exact Hs'|].
  destruct (detect_spec (objects w) self mat) as (Hnd & _).
  destruct (insert_chain_lookup (texture_updates detected) (textures (blenrose_settings mat))
              (texture_updates_NoDup detected Hnd)) as (H1 & H2).
  split.
  { intros c info p Hin Hp. unfold getattr_tex. rewrite Ht.
    apply H1. eapply texture_updates_In; eassumption. }
  split; [|auto].
  intros p Hp. unfold getattr_tex. rewrite Ht. apply H2.
  intros Hin. apply in_map_iff in Hin as ([p' img] & Hp' & Hin). simpl in Hp'. subst p'.
  apply list_elem_of_In, list_elem_of_omap in Hin as ([c info] & Hin & Hsome).
  simpl in Hsome. destruct (dict_get c texture_prop_map) as [p'|] eqn:Hc'; [|discriminate].
  simpl in Hsome. injection Hsome as -> _.
  apply (Hp c info); [apply list_elem_of_In; exact Hin|exact Hc'].
Qed.

(* ===================================================================== *)
(** ** The depsgraph handler *)
(* ===================================================================== *)






(* ===================================================================== *)
(** ** Enabling every material *)
(* ===================================================================== *)

(** Assigning [enabled = True], whatever the state of the tree: the
    settings change in [enabled] and in texture and UV fields at most. *)
Lemma setattr_enabled_settings (self : nat) (w : World) (mat : Material) :
  materials w !! self = Some mat ->
  exists mat',
    materials (setattr_enabled self true w) !! self = Some mat' /\
    material_name mat' = material_name mat /\
    same_but_channels (set_enabled true (blenrose_settings mat)) (blenrose_settings mat') /\
    objects (setattr_enabled self true w) = objects w /\
    (forall q, q <> self ->
               materials (setattr_enabled self true w) !! q = materials w !! q).
Proof.
  intros Hm. unfold setattr_enabled. rewrite Hm.
  set (mat1 := set_settings (set_enabled true (blenrose_settings mat)) mat).
  set (w1 := store_material self mat1 w).
  assert (Hm1 : materials w1 !! self = Some mat1) by apply store_material_lookup.
  unfold _update_enabled. rewrite Hm1.
  change (enabled (blenrose_settings mat1)) with true. cbv iota.
  set (w2 := if use_nodes mat1 && bool_decide (is_Some (node_tree mat1))
             then _auto_fill_textures_from_node_tree self false w1 else w1).
  assert (H2 : exists mat2, materials w2 !! self = Some mat2 /\ same_graph mat1 mat2 /\
                            objects w2 = objects w /\
                            forall q, q <> self -> materials w2 !! q = materials w !! q).
  { unfold w2. destruct (_ && _).
    - destruct (auto_fill_spec self false w1 mat1 Hm1) as (mat2 & -> & Hg).
      exists mat2. simpl. split; [apply lookup_insert_eq|]. split; [exact Hg|].
      split; [reflexivity|]. intros q Hq. rewrite !lookup_insert_ne by congruence. reflexivity.
    - exists mat1. split; [exact Hm1|]. split; [apply same_graph_refl|].
      split; [reflexivity|]. intros q Hq. apply store_material_other. exact Hq. }
  destruct H2 as (mat2 & Hm2 & (G1 & G2 & G3 & G4) & Ho & Hq).
  rewrite Hm2.
  destruct (build_tree_keeps (objects w2) mat2) as (Hs & Hn).
  destruct (_build_blenrose_node_tree (objects w2) mat2) as [mat' r]. simpl in *.
  exists mat'. split; [apply lookup_insert_eq|].
  split; [congruence|]. split; [rewrite Hs; exact G4|]. split; [exact Ho|].
  intros q Hne. rewrite lookup_insert_ne by congruence. apply Hq. exact Hne.
Qed.

Lemma assign_default_subclass (s : BlenroseMaterialSettings) :
  material_class s = "ENVIRONMENT" ->
  exists k, setattr_material_subclass "DEFAULT" s = Ok (set_material_subclass k s) /\
            getattr_material_subclass (set_material_subclass k s) = "DEFAULT" /\
            material_subclass_name (set_material_subclass k s) = "DEFAULT".
Proof.
  intros Hc.
  assert (Hin : In (material_class s) (map identifier MATERIAL_CLASS_ITEMS))
    by (rewrite Hc; vm_compute; tauto).
  assert (Hitems : In "DEFAULT" (map identifier (material_subclass_items s))).
  { unfold material_subclass_items. rewrite Hc. vm_compute. tauto. }
  destruct (enum_value_In _ _ Hitems) as [k Hk].
  exists k. unfold setattr_material_subclass. rewrite Hk. split; [reflexivity|].
  assert (Hread : getattr_material_subclass (set_material_subclass k s) = "DEFAULT").
  { unfold getattr_material_subclass.
    change (material_subclass_items (set_material_subclass k s))
      with (material_subclass_items s).
    simpl. apply enum_round_trip. exact Hk. }
  split; [exact Hread|].
  destruct (class_has_subclasses _ Hin) as (items & Hget & Hne & Hnoempty & Htruthy).
  destruct (subclass_name_resolved (set_material_subclass k s) items
              Hget Htruthy Hne Hnoempty) as (Hitems' & _ & Hvalid & _).
  rewrite Hvalid; [exact Hread|]. simpl. rewrite <- Hitems'.
  change (material_subclass_items (set_material_subclass k s))
    with (material_subclass_items s).
  destruct (enum_value_nth _ _ _ Hk) as (item & Hn & _).
  apply nth_error_Some. congruence.
Qed.

Lemma same_but_channels_fields (s s' : BlenroseMaterialSettings) :
  same_but_channels s s' ->
  enabled s' = enabled s /\ material_class s' = material_class s /\
  material_subclass s' = material_subclass s /\ notes s' = notes s.
Proof. unfold same_but_channels. intros ->. auto. Qed.

Lemma subclass_reads_same (s s' : BlenroseMaterialSettings) :
  material_class s' = material_class s -> material_subclass s' = material_subclass s ->
  getattr_material_subclass s' = getattr_material_subclass s /\
  material_subclass_name s' = material_subclass_name s.
Proof.
  intros Hc Hs.
  unfold material_subclass_name, getattr_material_subclass, material_subclass_items.
  rewrite Hc, Hs. auto.
Qed.

(** The round of the loop for one material. *)
Lemma enable_and_prepare_spec (self : nat) (w : World) :
  (materials w !! self = None -> enable_and_prepare self w = (w, Ok 0%nat)) /\
  (forall mat,
      materials w !! self = Some mat ->
      (enabled (blenrose_settings mat) = true -> enable_and_prepare self w = (w, Ok 0%nat)) /\
      (enabled (blenrose_settings mat) = false ->
       exists w1 mat',
         enable_and_prepare self w = (w1, Ok 1%nat) /\
         materials w1 !! self = Some mat' /\
         material_name mat' = material_name mat /\
         enabled (blenrose_settings mat') = true /\
         material_class (blenrose_settings mat') = "ENVIRONMENT" /\
         getattr_material_subclass (blenrose_settings mat') = "DEFAULT" /\
         material_subclass_name (blenrose_settings mat') = "DEFAULT" /\
         notes (blenrose_settings mat') = notes (blenrose_settings mat) /\
         objects w1 = objects w /\
         (forall q, q <> self -> materials w1 !! q = materials w !! q))).
Proof.
  unfold enable_and_prepare. split; [intros ->; reflexivity|].
  intros mat Hm. rewrite Hm. split; [intros ->; reflexivity|]. intros He. rewrite He.
  set (w0 := if use_nodes mat && bool_decide (is_Some (node_tree mat))
             then _auto_fill_textures_from_node_tree self false w else w).
  assert (H0 : exists mat0, materials w0 !! self = Some mat0 /\ same_graph mat mat0 /\
                            objects w0 = objects w /\
                            forall q, q <> self -> materials w0 !! q = materials w !! q).
  { unfold w0. destruct (_ && _).
    - destruct (auto_fill_spec self false w mat Hm) as (mat0 & -> & Hg).
      exists mat0. simpl. split; [apply lookup_insert_eq|]. split; [exact Hg|].
      split; [reflexivity|]. intros q Hq. apply lookup_insert_ne. congruence.
    - exists mat. split; [exact Hm|]. split; [apply same_graph_refl|]. auto. }
  destruct H0 as (mat0 & Hm0 & (G1 & G2 & G3 & G4) & Ho0 & Hq0).
  destruct (same_but_channels_fields _ _ G4) as (_ & _ & _ & Hnotes0).
  unfold assign_settings at 1. rewrite Hm0.
  change (setattr_material_class "ENVIRONMENT" (blenrose_settings mat0))
    with (Ok (set_material_class "ENVIRONMENT" (blenrose_settings mat0))).
  set (mat1 := set_settings (set_material_class "ENVIRONMENT" (blenrose_settings mat0)) mat0).
  change (bool_decide (is_Some (dict_get "ENVIRONMENT" MATERIAL_SUBCLASSES))) with true.
  cbv iota. unfold assign_settings. rewrite store_material_lookup. fold mat1.
  destruct (assign_default_subclass (blenrose_settings mat1) eq_refl) as (k & Hk & Hread & Hname).
  rewrite Hk. cbv iota.
  set (mat2 := set_settings (set_material_subclass k (blenrose_settings mat1)) mat1).
  set (w2 := store_material self mat2 (store_material self mat1 w0)).
  assert (Hm2 : materials w2 !! self = Some mat2) by apply store_material_lookup.
  destruct (setattr_enabled_settings self w2 mat2 Hm2) as (mat' & Hm' & Hn' & Hc' & Ho' & Hq').
  destruct (same_but_channels_fields _ _ Hc') as (E1 & E2 & E3 & E4).
  destruct (subclass_reads_same _ _ E2 E3) as (R1 & R2).
  exists (setattr_enabled self true w2), mat'.
  split; [reflexivity|]. split; [exact Hm'|].
  split; [rewrite Hn'; exact G1|]. split; [exact E1|]. split; [exact E2|].
  split; [rewrite R1; exact Hread|]. split; [rewrite R2; exact Hname|].
  split; [rewrite E4; exact Hnotes0|]. split; [rewrite Ho'; exact Ho0|].
  intros q Hq. rewrite (Hq' q Hq). unfold w2.
  rewrite !store_material_other by exact Hq. apply Hq0. exact Hq.
Qed.

Lemma filter_ext_In' {A : Type} (f g : A -> bool) (l : list A) :
  (forall x, In x l -> f x = g x) -> List.filter f l = List.filter g l.
Proof.
  induction l as [|x l IH]; intros H; simpl; [reflexivity|].
  rewrite (H x) by (left; reflexivity). rewrite IH by (intros; apply H; right; assumption).
  reflexivity.
Qed.

Lemma enable_each_spec (mats : list nat) (enabled_count : nat) (w : World) :
  List.NoDup mats ->
  exists w',
    enable_each mats enabled_count w
    = (w', Ok (enabled_count
               + length (List.filter
                           (fun p => match materials w !! p with
                                     | Some mat => negb (enabled (blenrose_settings mat))
                                     | None => false
                                     end) mats))%nat) /\
    objects w' = objects w /\
    (forall q, ~ In q mats -> materials w' !! q = materials w !! q) /\
    (forall p mat,
        In p mats -> materials w !! p = Some mat ->
        (enabled (blenrose_settings mat) = true -> materials w' !! p = Some mat) /\
        (enabled (blenrose_settings mat) = false ->
         exists mat',
           materials w' !! p = Some mat' /\
           material_name mat' = material_name mat /\
           enabled (blenrose_settings mat') = true /\
           material_class (blenrose_settings mat') = "ENVIRONMENT" /\
           getattr_material_subclass (blenrose_settings mat') = "DEFAULT" /\
           material_subclass_name (blenrose_settings mat') = "DEFAULT" /\
           notes (blenrose_settings mat') = notes (blenrose_settings mat))).
Proof.
  revert enabled_count w. induction mats as [|p0 rest IH]; intros c w Hnd.
  - exists w. simpl. split; [f_equal; f_equal; lia|]. split; [reflexivity|].
    split; [reflexivity|]. intros p mat [].
  - inversion Hnd as [|? ? Hnotin Hnd']; subst.
    destruct (enable_and_prepare_spec p0 w) as (Hnone & Hsome).
    assert (Hstep : exists w1 n,
               enable_and_prepare p0 w = (w1, Ok n) /\
               n = length (List.filter
                             (fun p => match materials w !! p with
                                       | Some mat => negb (enabled (blenrose_settings mat))
                                       | None => false
                                       end) [p0]) /\
               objects w1 = objects w /\
               (forall q, q <> p0 -> materials w1 !! q = materials w !! q) /\
               (forall mat, materials w !! p0 = Some mat ->
                  (enabled (blenrose_settings mat) = true -> materials w1 !! p0 = Some mat) /\
                  (enabled (blenrose_settings mat) = false ->
                   exists mat',
                     materials w1 !! p0 = Some mat' /\
                     material_name mat' = material_name mat /\
                     enabled (blenrose_settings mat') = true /\
                     material_class (blenrose_settings mat') = "ENVIRONMENT" /\
                     getattr_material_subclass (blenrose_settings mat') = "DEFAULT" /\
                     material_subclass_name (blenrose_settings mat') = "DEFAULT" /\
                     notes (blenrose_settings mat') = notes (blenrose_settings mat)))).
    { simpl. destruct (materials w !! p0) as [mat|] eqn:Hm.
      - destruct (Hsome mat eq_refl) as (Hen & Hdis).
        destruct (enabled (blenrose_settings mat)) eqn:He.
        + exists w, 0%nat. rewrite (Hen eq_refl).
          split; [reflexivity|]. split; [reflexivity|]. split; [reflexivity|].
          split; [reflexivity|]. intros mat' [= <-]. split; [intros _; exact Hm|congruence].
        + destruct (Hdis eq_refl) as (w1 & mat' & Hrun & Hm' & F).
          destruct F as (F1 & F2 & F3 & F4 & F5 & F6 & F7 & F8).
          exists w1, 1%nat. split; [exact Hrun|]. split; [reflexivity|].
          split; [exact F7|]. split; [exact F8|].
          intros mat0 [= <-]. split; [congruence|]. intros _. exists mat'. auto 10.
      - exists w, 0%nat. rewrite (Hnone eq_refl).
        split; [reflexivity|]. split; [reflexivity|]. split; [reflexivity|].
        split; [reflexivity|]. intros mat H. discriminate. }
    destruct Hstep as (w1 & n & Hrun & Hn & Ho1 & Hq1 & Hp0).
    destruct (IH (c + n)%nat w1 Hnd') as (w' & Hrest & Ho' & Hq' & Hp').
    exists w'. cbn [enable_each]. rewrite Hrun, Hrest.
    split.
    { f_equal. f_equal. rewrite Hn.
      change (p0 :: rest) with ([p0] ++ rest)%list. rewrite List.filter_app, length_app.
      rewrite (filter_ext_In'
                 (fun p => match materials w1 !! p with
                           | Some mat => negb (enabled (blenrose_settings mat))
                           | None => false
                           end)
                 (fun p => match materials w !! p with
                           | Some mat => negb (enabled (blenrose_settings mat))
                           | None => false
                           end) rest).
      - lia.
      - intros x Hx. rewrite Hq1; [reflexivity|]. intros ->. contradiction. }
    split; [congruence|].
    split.
    { intros q Hq. rewrite Hq' by (intros H; apply Hq; right; exact H).
      apply Hq1. intros ->. apply Hq. left. reflexivity. }
    intros p mat [<-|Hin] Hm.
    + destruct (Hp0 mat Hm) as (Hen & Hdis). split.
      * intros He. rewrite (Hq' p0 Hnotin). apply Hen. exact He.
      * intros He. destruct (Hdis He) as (mat' & Hm' & F). exists mat'.
        split; [rewrite (Hq' p0 Hnotin); exact Hm'|exact F].
    + assert (Hne : p <> p0) by (intros ->; contradiction).
      apply Hp'; [exact Hin|]. rewrite (Hq1 p Hne). exact Hm.
Qed.

(** X17.  Enable-all: with no material the operator is cancelled.
    Otherwise it never raises and finishes; afterwards every material of
    the collection is enabled.  A material that was enabled is exactly as
    it was.  A material that was not has class ENVIRONMENT and subclass
    DEFAULT, which is also the subclass the export resolves for it, and
    keeps its name and notes.  The count reported is the number of
    materials that were not enabled; the objects and the materials outside
    the collection are as they were. *)
Theorem enable_all_enables_every_material (mats : list nat) (w : World) :
  (mats = [] -> enable_all_execute mats w = (w, Ok (CANCELLED, 0%nat))) /\
  (mats <> [] -> List.NoDup mats ->
   exists w',
     enable_all_execute mats w
     = (w', Ok (FINISHED,
                length (List.filter
                          (fun p => match materials w !! p with
                                    | Some mat => negb (enabled (blenrose_settings mat))
                                    | None => false
                                    end) mats))) /\
     objects w' = objects w /\
     (forall q, ~ In q mats -> materials w' !! q = materials w !! q) /\
     (forall p mat,
         In p mats -> materials w !! p = Some mat ->
         (enabled (blenrose_settings mat) = true -> materials w' !! p = Some mat) /\
         (enabled (blenrose_settings mat) = false ->
          exists mat',
            materials w' !! p = Some mat' /\
            material_name mat' = material_name mat /\
            enabled (blenrose_settings mat') = true /\
            material_class (blenrose_settings mat') = "ENVIRONMENT" /\
            getattr_material_subclass (blenrose_settings mat') = "DEFAULT" /\
            material_subclass_name (blenrose_settings mat') = "DEFAULT" /\
            notes (blenrose_settings mat') = notes (blenrose_settings mat)))).
Proof.
  split; [intros ->; reflexivity|].
  intros Hne Hnd. destruct (enable_each_spec mats 0 w Hnd) as (w' & Hrun & H).
  exists w'. split; [|exact H].
  unfold enable_all_execute. destruct mats as [|m0 rest]; [contradiction|].
  rewrite Hrun. reflexivity.
Qed.

(* ===================================================================== *)
(** ** Groups and splines of the bulk export *)
(* ===================================================================== *)

Lemma group_get_append {A : Type} (k k' : option nat) (x : A)
    (groups : list (option nat * list A)) :
  group_get k' (group_append k x groups)
  = if bool_decide (k = k') then (group_get k groups ++ [x])%list else group_get k' groups.
Proof.
  unfold group_get. induction groups as [|[k0 xs] rest IH]; simpl.
  - destruct (bool_decide (k = k')); reflexivity.
  - destruct (decide (k0 = k)) as [->|E].
    + rewrite (bool_decide_eq_true_2 (k = k)) by reflexivity. simpl.
      destruct (decide (k = k')) as [->|E'].
      * rewrite !(bool_decide_eq_true_2 (k' = k')) by reflexivity. reflexivity.
      * rewrite !(bool_decide_eq_false_2 (k = k')) by exact E'. reflexivity.
    + rewrite (bool_decide_eq_false_2 (k0 = k)) by exact E. simpl.
      destruct (decide (k0 = k')) as [->|E'].
      * rewrite (bool_decide_eq_true_2 (k' = k')) by reflexivity.
        rewrite (bool_decide_eq_false_2 (k = k')) by congruence. reflexivity.
      * rewrite (bool_decide_eq_false_2 (k0 = k')) by exact E'. exact IH.
Qed.

Lemma group_append_keys {A : Type} (k : option nat) (x : A)
    (groups : list (option nat * list A)) :
  List.NoDup (map fst groups) ->
  List.NoDup (map fst (group_append k x groups)) /\
  (forall k', In k' (map fst (group_append k x groups)) <-> k' = k \/ In k' (map fst groups)).
Proof.
  induction groups as [|[k0 xs] rest IH]; simpl; intros Hnd.
  - split; [repeat constructor; intros []|]. intros k'. intuition congruence.
  - inversion Hnd as [|? ? Hnotin Hnd']; subst.
    destruct (decide (k0 = k)) as [->|E].
    + rewrite (bool_decide_eq_true_2 (k = k)) by reflexivity. simpl.
      split; [exact Hnd|]. intros k'. intuition congruence.
    + rewrite (bool_decide_eq_false_2 (k0 = k)) by exact E. simpl.
      destruct (IH Hnd') as (IH1 & IH2). split.
      * constructor; [|exact IH1]. intros Hin. apply IH2 in Hin as [->|Hin]; tauto.
      * intros k'. rewrite IH2. intuition congruence.
Qed.

Lemma group_append_nonempty {A : Type} (k : option nat) (x : A)
    (groups : list (option nat * list A)) :
  (forall g, In g groups -> snd g <> []) ->
  forall g, In g (group_append k x groups) -> snd g <> [].
Proof.
  induction groups as [|[k0 xs] rest IH]; simpl; intros H g.
  - intros [<-|[]]. discriminate.
  - destruct (bool_decide (k0 = k)); simpl.
    + intros [<-|Hin]; [simpl; destruct xs; discriminate|apply H; right; exact Hin].
    + intros [<-|Hin]; [apply (H (k0, xs)); left; reflexivity|].
      apply IH; [intros g' Hg'; apply H; right; exact Hg'|exact Hin].
Qed.

(** Appending a list of things, each under its key. *)
Lemma group_fold {A : Type} (key : A -> option (option nat)) (l : list A)
    (groups : list (option nat * list A)) :
  let result :=
    fold_left (fun g x => match key x with
                          | Some k => group_append k x g
                          | None => g
                          end) l groups in
  List.NoDup (map fst groups) ->
  List.NoDup (map fst result) /\
  (forall k, group_get k result
             = (group_get k groups ++ List.filter (fun x => bool_decide (key x = Some k)) l)%list) /\
  ((forall g, In g groups -> snd g <> []) -> forall g, In g result -> snd g <> []) /\
  (forall k, In k (map fst result) ->
             In k (map fst groups) \/ exists x, In x l /\ key x = Some k).
Proof.
  cbv zeta. revert groups. induction l as [|x l IH]; intros groups Hnd; simpl.
  - split; [exact Hnd|]. split; [intros k; rewrite app_nil_r; reflexivity|]. auto.
  - destruct (key x) as [k0|] eqn:Hk.
    + destruct (group_append_keys k0 x groups Hnd) as (Hnd1 & Hkeys1).
      destruct (IH _ Hnd1) as (I1 & I2 & I3 & I4).
      split; [exact I1|]. split.
      * intros k. rewrite I2, group_get_append.
        destruct (decide (k0 = k)) as [->|E].
        -- rewrite !(bool_decide_eq_true_2 (k = k)) by reflexivity.
           rewrite (bool_decide_eq_true_2 (Some k = Some k)) by reflexivity.
           rewrite <- app_assoc. reflexivity.
        -- rewrite (bool_decide_eq_false_2 (k0 = k)) by exact E.
           rewrite (bool_decide_eq_false_2 (Some k0 = Some k)) by congruence. reflexivity.
      * split.
        -- intros H. apply I3. apply group_append_nonempty. exact H.
        -- intros k Hin. apply I4 in Hin as [Hin|(y & Hy & Hky)]; [|eauto].
           apply Hkeys1 in Hin as [->|Hin]; eauto.
    + destruct (IH _ Hnd) as (I1 & I2 & I3 & I4).
      split; [exact I1|]. split.
      * intros k. rewrite I2.
        rewrite (bool_decide_eq_false_2 (None = Some k)) by discriminate. reflexivity.
      * split; [exact I3|]. intros k Hin. apply I4 in Hin as [Hin|(y & Hy & Hky)]; eauto.
Qed.

Lemma fold_left_ext {A B : Type} (f g : A -> B -> A) (l : list B) (acc : A) :
  (forall a x, f a x = g a x) -> fold_left f l acc = fold_left g l acc.
Proof.
  intros H. revert acc. induction l as [|x l IH]; intros acc; simpl; [reflexivity|].
  rewrite H. apply IH.
Qed.

Lemma fold_left_flat_map {A B C : Type} (f : C -> B -> C) (g : A -> list B) (l : list A)
    (acc : C) :
  fold_left (fun acc x => fold_left f (g x) acc) l acc = fold_left f (flat_map g l) acc.
Proof.
  revert acc. induction l as [|x l IH]; intros acc; simpl; [reflexivity|].
  rewrite fold_left_app. apply IH.
Qed.

Lemma group_object_pieces (separate : Object -> list Object)
    (groups : list (option nat * list Object)) (obj : Object) :
  group_object separate groups obj
  = fold_left (fun g x => match Some (material_key x) with
                          | Some k => group_append k x g
                          | None => g
                          end) (export_pieces separate obj) groups.
Proof.
  unfold group_object, export_pieces, material_key.
  destruct (visible_get obj); simpl; [|reflexivity].
  destruct (slot_materials obj) as [|m [|m' ms]] eqn:Hs; simpl; rewrite ?Hs;
    [reflexivity|reflexivity|].
  apply fold_left_ext. intros g x. destruct (slot_materials x); reflexivity.
Qed.

(** X18.  The groups of the bulk export: the export takes the visible mesh
    objects of the scene, each one as it is when it has at most one
    material and as the mesh objects it is split into otherwise, and
    groups them by their first material.  Each group holds exactly the
    pieces with its key, in the order of the scene; no key comes twice and
    no group is empty.  So a visible mesh object with one material is in
    the group of that material, one with none is in the group None, and a
    hidden object is in no group unless a split returns it. *)
Theorem material_groups_partition (separate : Object -> list Object)
    (scene_objects : list Object) :
  List.NoDup (map fst (material_groups_of separate scene_objects)) /\
  (forall k,
      group_get k (material_groups_of separate scene_objects)
      = List.filter (fun x => bool_decide (material_key x = k))
          (flat_map (export_pieces separate)
                    (List.filter (fun obj => obj_type obj =? "MESH") scene_objects))) /\
  (forall g, In g (material_groups_of separate scene_objects) -> snd g <> []) /\
  (forall obj,
      In obj scene_objects -> obj_type obj = "MESH" -> visible_get obj = true ->
      (length (slot_materials obj) <= 1)%nat ->
      In obj (group_get (material_key obj) (material_groups_of separate scene_objects))).
Proof.
  unfold material_groups_of.
  set (mesh_objects := List.filter (fun obj => obj_type obj =? "MESH") scene_objects).
  assert (Hfold : fold_left (group_object separate) mesh_objects []
                  = fold_left (fun g x => match Some (material_key x) with
                                          | Some k => group_append k x g
                                          | None => g
                                          end)
                              (flat_map (export_pieces separate) mesh_objects) []).
  { rewrite <- fold_left_flat_map. apply fold_left_ext. intros g x.
    apply group_object_pieces. }
  rewrite Hfold.
  pose proof (group_fold (fun x => Some (material_key x))
                (flat_map (export_pieces separate) mesh_objects) []) as H.
  cbv zeta in H. destruct (H ltac:(constructor)) as (H1 & H2 & H3 & _).
  assert (Hget : forall k,
             group_get k (fold_left (fun g x => match Some (material_key x) with
                                                | Some k => group_append k x g
                                                | None => g
                                                end)
                                    (flat_map (export_pieces separate) mesh_objects) [])
             = List.filter (fun x => bool_decide (material_key x = k))
                           (flat_map (export_pieces separate) mesh_objects)).
  { intros k. rewrite H2. simpl. apply filter_ext_In'. intros x _.
    destruct (decide (material_key x = k)) as [E|E].
    - rewrite !bool_decide_eq_true_2; [reflexivity|exact E|congruence].
    - rewrite !bool_decide_eq_false_2; [reflexivity|exact E|congruence]. }
  split; [exact H1|]. split; [exact Hget|].
  split; [apply H3; intros g []|].
  intros obj Hin Hmesh Hvis Hlen. rewrite Hget. apply filter_In.
  split; [|apply bool_decide_eq_true_2; reflexivity].
  apply in_flat_map. exists obj. split.
  - apply filter_In. split; [exact Hin|]. rewrite Hmesh. reflexivity.
  - unfold export_pieces. rewrite Hvis. simpl.
    destruct (slot_materials obj) as [|m [|m' ms]]; simpl in *; [auto|auto|lia].
Qed.

(** X19.  The splines of the bulk export: each group gets exactly the
    splines whose box intersects the group's box and no box of a group
    before it, in the order of the splines.  So no spline is assigned to
    two groups, a spline assigned to a group intersects that group's box,
    and a spline whose box intersects no group's box is assigned to
    none. *)
Theorem splines_go_to_first_intersecting_group (matmul : Matrix -> Vec -> Vec)
    (material_groups : list (option nat * list Object)) (all_splines : list SplineRecord) :
  (forall k,
      group_get k (material_splines_of matmul material_groups all_splines)
      = List.filter
          (fun s => bool_decide
                      (spline_target (material_group_bboxes_of matmul material_groups) s
                       = Some k))
          all_splines) /\
  (forall s k1 k2,
      In s (group_get k1 (material_splines_of matmul material_groups all_splines)) ->
      In s (group_get k2 (material_splines_of matmul material_groups all_splines)) ->
      k1 = k2) /\
  (forall s k,
      In s (group_get k (material_splines_of matmul material_groups all_splines)) ->
      In s all_splines /\
      exists objs bbox,
        In (k, objs) material_groups /\
        _calculate_bbox_for_objects matmul objs = Some bbox /\
        _bbox_intersects (spline_bbox s) (Some bbox) = true) /\
  (forall s,
      (forall k bbox, In (k, bbox) (material_group_bboxes_of matmul material_groups) ->
                      _bbox_intersects (spline_bbox s) (Some bbox) = false) ->
      forall k, ~ In s (group_get k (material_splines_of matmul material_groups all_splines))).
Proof.
  set (bboxes := material_group_bboxes_of matmul material_groups).
  assert (Hget : forall k,
             group_get k (material_splines_of matmul material_groups all_splines)
             = List.filter (fun s => bool_decide (spline_target bboxes s = Some k))
                           all_splines).
  { intros k. unfold material_splines_of. fold bboxes.
    assert (Hfold : fold_left (assign_spline bboxes) all_splines
                              (map (fun group : option nat * list Object => (fst group, []))
                                   material_groups)
                    = fold_left (fun g x => match spline_target bboxes x with
                                            | Some k => group_append k x g
                                            | None => g
                                            end) all_splines
                                (map (fun group : option nat * list Object => (fst group, []))
                                     material_groups)).
    { apply fold_left_ext. intros g s. unfold assign_spline, spline_target.
      destruct (spline_bbox s) as [sb|]; [|reflexivity].
      destruct (find _ bboxes) as [[k0 gb]|]; reflexivity. }
    rewrite Hfold.
    assert (Hinit : forall (groups : list (option nat * list Object)) k0,
               group_get k0 (map (fun group : option nat * list Object =>
                                    (fst group, @nil SplineRecord)) groups) = []).
    { intros groups k0. unfold group_get. induction groups as [|g rest IH]; simpl; [reflexivity|].
      destruct (bool_decide (fst g = k0)); [reflexivity|exact IH]. }
    (* the keys of the start may repeat; the lists are all empty *)
    assert (Hgen : forall (l : list SplineRecord) (start : list (option nat * list SplineRecord)),
               group_get k (fold_left (fun g x => match spline_target bboxes x with
                                                  | Some k => group_append k x g
                                                  | None => g
                                                  end) l start)
               = (group_get k start
                  ++ List.filter (fun s => bool_decide (spline_target bboxes s = Some k)) l)%list).
    { induction l as [|x l IH]; intros start; simpl; [rewrite app_nil_r; reflexivity|].
      rewrite IH. destruct (spline_target bboxes x) as [k0|].
      - rewrite group_get_append. destruct (decide (k0 = k)) as [->|E].
        + rewrite (bool_decide_eq_true_2 (k = k)) by reflexivity.
          rewrite (bool_decide_eq_true_2 (Some k = Some k)) by reflexivity.
          rewrite <- app_assoc. reflexivity.
        + rewrite (bool_decide_eq_false_2 (k0 = k)) by exact E.
          rewrite (bool_decide_eq_false_2 (Some k0 = Some k)) by congruence. reflexivity.
      - rewrite (bool_decide_eq_false_2 (None = Some k)) by discriminate. reflexivity. }
    rewrite Hgen, Hinit. reflexivity. }
  split; [exact Hget|]. split.
  { intros s k1 k2. rewrite !Hget. intros H1 H2.
    apply filter_In in H1 as [_ H1]. apply filter_In in H2 as [_ H2].
    apply bool_decide_eq_true in H1. apply bool_decide_eq_true in H2. congruence. }
  split.
  { intros s k. rewrite Hget. intros Hin. apply filter_In in Hin as [Hin Ht].
    split; [exact Hin|]. apply bool_decide_eq_true in Ht. unfold spline_target in Ht.
    destruct (spline_bbox s) as [sb|]; [|discriminate].
    destruct (find _ bboxes) as [[k0 gb]|] eqn:Hf; [|discriminate].
    simpl in Ht. injection Ht as ->.
    apply find_some in Hf as [Hf Hi]. cbn [snd] in Hi.
    unfold bboxes, material_group_bboxes_of in Hf.
    apply list_elem_of_In, list_elem_of_omap in Hf as ([k' objs] & Hg & Hsome).
    simpl in Hsome.
    destruct (_calculate_bbox_for_objects matmul objs) as [bbox|] eqn:Hb; [|discriminate].
    injection Hsome as -> ->.
    exists objs, gb. split; [apply list_elem_of_In; exact Hg|]. auto. }
  intros s Hnone k. rewrite Hget. intros Hin. apply filter_In in Hin as [_ Ht].
  apply bool_decide_eq_true in Ht. unfold spline_target in Ht.
  destruct (spline_bbox s) as [sb|]; [|discriminate].
  destruct (find _ bboxes) as [[k0 gb]|] eqn:Hf; [|discriminate].
  apply find_some in Hf as [Hf Hi]. cbn [snd] in Hi.
  rewrite (Hnone k0 gb Hf) in Hi. discriminate.
Qed.

(* ===================================================================== *)
(** ** File names of the bulk export *)
(* ===================================================================== *)





Section GlbPathFacts.

Variable path_join : string -> string -> string.
Variable existing : gset string.
Variable export_dir base_name : string.

Hypothesis path_join_inj :
  forall a b, path_join export_dir a = path_join export_dir b -> a = b.





End GlbPathFacts.


(* ===================================================================== *)
(** ** Resolving the UV layer of an image node *)
(* ===================================================================== *)

Lemma dict_incr_spec (k : string) (counts : list (string * nat)) :
  List.NoDup (map fst counts) ->
  List.NoDup (map fst (dict_incr k counts)) /\
  (forall k', In k' (map fst (dict_incr k counts)) <-> k' = k \/ In k' (map fst counts)) /\
  (forall k', default 0%nat (dict_get k' (dict_incr k counts))
              = ((if String.eqb k k' then 1 else 0) + default 0%nat (dict_get k' counts))%nat).
Proof.
  unfold dict_get. induction counts as [|[k0 c0] rest IH]; simpl; intros Hnd.
  - split; [repeat constructor; intros []|]. split; [intros k'; intuition congruence|].
    intros k'. destruct (String.eqb k k'); reflexivity.
  - inversion Hnd as [|? ? Hnotin Hnd']; subst.
    destruct (IH Hnd') as (I1 & I2 & I3).
    destruct (String.eqb_spec k0 k) as [->|E]; simpl.
    + split; [exact Hnd|]. split; [intros k'; intuition congruence|].
      intros k'. destruct (String.eqb_spec k k') as [->|E']; simpl; [reflexivity|].
      reflexivity.
    + split.
      { constructor; [|exact I1]. intros Hin. apply I2 in Hin as [->|Hin]; tauto. }
      split; [intros k'; rewrite I2; intuition congruence|].
      intros k'. destruct (String.eqb_spec k0 k') as [->|E'].
      * simpl. destruct (String.eqb_spec k k'); [congruence|reflexivity].
      * apply I3.
Qed.

(** The counts after a list of names. *)
Lemma counts_fold (names : list string) (counts : list (string * nat)) :
  List.NoDup (map fst counts) ->
  List.NoDup (map fst (fold_left (fun c n => dict_incr n c) names counts)) /\
  (forall k, In k (map fst (fold_left (fun c n => dict_incr n c) names counts))
             <-> In k names \/ In k (map fst counts)) /\
  (forall k, default 0%nat (dict_get k (fold_left (fun c n => dict_incr n c) names counts))
             = (count_occ string_dec names k + default 0%nat (dict_get k counts))%nat).
Proof.
  revert counts. induction names as [|n names IH]; intros counts Hnd; simpl.
  - split; [exact Hnd|]. split; [intros k; tauto|]. reflexivity.
  - destruct (dict_incr_spec n counts Hnd) as (D1 & D2 & D3).
    destruct (IH _ D1) as (I1 & I2 & I3).
    split; [exact I1|]. split.
    + intros k. rewrite I2, D2. intuition congruence.
    + intros k. rewrite I3, D3.
      destruct (string_dec n k) as [->|E].
      * rewrite String.eqb_refl. lia.
      * destruct (String.eqb_spec n k); [contradiction|lia].
Qed.

Lemma max_by_count_spec (best : string * nat) (rest : list (string * nat)) :
  In (max_by_count best rest) (map fst (best :: rest)) /\
  forall kv, In kv (best :: rest) ->
             exists c, In (max_by_count best rest, c) (best :: rest) /\ (snd kv <= c)%nat.
Proof.
  revert best. induction rest as [|kv rest IH]; intros best; simpl.
  - split; [left; reflexivity|]. intros kv [<-|[]]. exists (snd best).
    split; [left; destruct best; reflexivity|lia].
  - destruct (snd best <? snd kv)%nat eqn:E.
    + apply Nat.ltb_lt in E. destruct (IH kv) as (I1 & I2). split.
      * right. exact I1.
      * intros kv' [<-|Hin].
        -- destruct (I2 kv ltac:(left; reflexivity)) as (c & Hc & Hle).
           exists c. split; [right; exact Hc|lia].
        -- destruct (I2 kv' Hin) as (c & Hc & Hle). exists c. split; [right; exact Hc|lia].
    + apply Nat.ltb_ge in E. destruct (IH best) as (I1 & I2). split.
      * destruct I1 as [I1|I1]; [left; exact I1|right; right; exact I1].
      * intros kv' [<-|[<-|Hin]].
        -- destruct (I2 best ltac:(left; reflexivity)) as (c & [Hc|Hc] & Hle);
             exists c; (split; [|lia]); [left; exact Hc|right; right; exact Hc].
        -- destruct (I2 best ltac:(left; reflexivity)) as (c & [Hc|Hc] & Hle);
             exists c; (split; [|lia]); [left; exact Hc|right; right; exact Hc].
        -- destruct (I2 kv' ltac:(right; exact Hin)) as (c & [Hc|Hc] & Hle);
             exists c; (split; [|lia]); [left; exact Hc|right; right; exact Hc].
Qed.

Lemma guess_counts (objs : list Object) (mat : nat) (counts : list (string * nat)) :
  fold_left
    (fun counts obj =>
       match obj_data obj with
       | MeshData mesh =>
           if negb (existsb (fun slot => bool_decide (slot = Some mat)) (material_slots obj))
           then counts
           else match uv_layers mesh with
                | [] => counts
                | _ => match preferred_uv mesh with
                       | Some preferred => dict_incr preferred counts
                       | None => counts
                       end
                end
       | _ => counts
       end) objs counts
  = fold_left (fun c n => dict_incr n c) (preferred_names objs mat) counts.
Proof.
  revert counts. unfold preferred_names.
  induction objs as [|obj objs IH]; intros counts; simpl; [reflexivity|].
  rewrite IH. destruct (obj_data obj) as [mesh| |]; simpl; [|reflexivity|reflexivity].
  destruct (existsb _ (material_slots obj)); simpl; [|reflexivity].
  destruct (uv_layers mesh) as [|l ls] eqn:Hl.
  - assert (Hp : preferred_uv mesh = None).
    { unfold preferred_uv. rewrite Hl. simpl.
      destruct (uv_layers_active mesh) as [[|i]|]; reflexivity. }
    rewrite Hp. reflexivity.
  - destruct (preferred_uv mesh); reflexivity.
Qed.

Lemma dict_get_default_In (k : string) (c : nat) (counts : list (string * nat)) :
  List.NoDup (map fst counts) -> In (k, c) counts -> default 0%nat (dict_get k counts) = c.
Proof.
  unfold dict_get. induction counts as [|[k0 c0] rest IH]; simpl; intros Hnd; [intros []|].
  inversion Hnd as [|? ? Hnotin Hnd']; subst.
  intros [[= -> ->]|Hin].
  - rewrite String.eqb_refl. reflexivity.
  - destruct (String.eqb_spec k0 k) as [->|E].
    + exfalso. apply Hnotin. apply in_map_iff. exists (k, c). auto.
    + apply IH; assumption.
Qed.

Lemma preferred_uv_layer (mesh : Mesh) (name : string) :
  preferred_uv mesh = Some name ->
  name <> "" /\ exists layer, In layer (uv_layers mesh) /\ uv_layer_name layer = name.
Proof.
  unfold preferred_uv.
  assert (Hfirst : match uv_layers mesh with
                   | first :: _ =>
                       if truthy (uv_layer_name first) then Some (uv_layer_name first) else None
                   | [] => None
                   end = Some name ->
                   name <> "" /\
                   exists layer, In layer (uv_layers mesh) /\ uv_layer_name layer = name).
  { destruct (uv_layers mesh) as [|first rest]; [discriminate|].
    destruct (truthy (uv_layer_name first)) eqn:Ht; [|discriminate].
    intros [= <-]. split.
    - intros E. rewrite E in Ht. discriminate.
    - exists first. split; [left; reflexivity|reflexivity]. }
  destruct (find _ (uv_layers mesh)) as [layer|] eqn:Hf.
  - intros [= <-]. apply find_some in Hf as [Hin Hc].
    apply andb_true_iff in Hc as [_ Ht]. split; [|eauto].
    intros E. rewrite E in Ht. discriminate.
  - destruct (uv_layers_active mesh ≫= _) as [layer|] eqn:Ha; [|exact Hfirst].
    destruct (truthy (uv_layer_name layer)) eqn:Ht; [|exact Hfirst].
    intros [= <-]. split.
    + intros E. rewrite E in Ht. discriminate.
    + exists layer. split; [|reflexivity].
      destruct (uv_layers_active mesh) as [i|]; [|discriminate]. simpl in Ha.
      eapply nth_error_In. exact Ha.
Qed.

(** X21.  The fallback UV layer of a material is a majority vote: among
    the layers preferred by the mesh objects that use the material it is
    one preferred by the greatest number of objects.  It is the name, not
    empty, of a UV layer of a mesh object that has the material in a slot;
    and there is none exactly when no such object has a preferred layer. *)
Theorem guessed_uv_is_most_preferred (objs : list Object) (mat : nat) :
  (_guess_active_uv_for_material objs mat = None <-> preferred_names objs mat = []) /\
  (forall name,
      _guess_active_uv_for_material objs mat = Some name ->
      In name (preferred_names objs mat) /\
      (forall other, (count_occ string_dec (preferred_names objs mat) other
                      <= count_occ string_dec (preferred_names objs mat) name)%nat) /\
      name <> "" /\
      exists obj mesh layer,
        In obj objs /\ obj_data obj = MeshData mesh /\ In (Some mat) (material_slots obj) /\
        In layer (uv_layers mesh) /\ uv_layer_name layer = name).
Proof.
  unfold _guess_active_uv_for_material. rewrite guess_counts.
  destruct (counts_fold (preferred_names objs mat) [] ltac:(constructor)) as (Hnd & Hkeys & Hcount).
  set (counts := fold_left (fun c n => dict_incr n c) (preferred_names objs mat) []) in *.
  split.
  - destruct counts as [|kv rest] eqn:Hc.
    + split; [intros _|reflexivity].
      destruct (preferred_names objs mat) as [|n names]; [reflexivity|].
      exfalso. apply (proj2 (Hkeys n)). left. left. reflexivity.
    + split; [discriminate|]. intros Hnames. exfalso.
      assert (Hin : In (fst kv) (map fst (kv :: rest))) by (left; reflexivity).
      apply Hkeys in Hin as [Hin|[]]. rewrite Hnames in Hin. destruct Hin.
  - intros name. destruct counts as [|kv rest] eqn:Hc; [discriminate|].
    intros [= <-]. destruct (max_by_count_spec kv rest) as (Hin & Hmax).
    assert (Hname : In (max_by_count kv rest) (preferred_names objs mat)).
    { apply Hkeys in Hin as [Hin|[]]. exact Hin. }
    split; [exact Hname|]. split.
    + intros other.
      destruct (in_dec string_dec other (preferred_names objs mat)) as [Ho|Ho].
      * assert (Hok : In other (map fst (kv :: rest))) by (apply Hkeys; left; exact Ho).
        apply in_map_iff in Hok as ([k c] & Hk & Hkc). simpl in Hk. subst k.
        destruct (Hmax _ Hkc) as (c' & Hc' & Hle). simpl in Hle.
        pose proof (Hcount other) as H1. pose proof (Hcount (max_by_count kv rest)) as H2.
        rewrite (dict_get_default_In _ _ _ Hnd Hkc) in H1.
        rewrite (dict_get_default_In _ _ _ Hnd Hc') in H2.
        simpl in H1, H2. lia.
      * rewrite (proj1 (count_occ_not_In string_dec _ _) Ho). lia.
    + unfold preferred_names in Hname.
      apply list_elem_of_In, list_elem_of_omap in Hname as (obj & Hobj & Hsome).
      destruct (obj_data obj) as [mesh| |] eqn:Hd; try discriminate.
      destruct (existsb _ (material_slots obj)) eqn:Hslot; [|discriminate].
      destruct (preferred_uv_layer mesh _ Hsome) as (Hne & layer & Hl & Hn).
      split; [exact Hne|].
      exists obj, mesh, layer. split; [apply list_elem_of_In; exact Hobj|].
      split; [exact Hd|]. split; [|auto].
      apply existsb_exists in Hslot as (slot & Hs & Hb).
      apply bool_decide_eq_true in Hb. subst slot. exact Hs.
Qed.

(** Links that do not enter the socket are passed over. *)
Lemma trace_skips (b : nat) (objs : list Object) (nt : NodeTree) (socket : SocketRef)
    (mat : nat) (visited : gset nat) :
  (forall link, In link (links nt) -> enters socket link = false) ->
  _trace_uv_map_name_from_socket (S b) objs nt (Some socket) mat visited = (None, visited).
Proof.
  intros H. cbn [_trace_uv_map_name_from_socket].
  induction (links nt) as [|link rest IH]; [reflexivity|].
  pose proof (H link ltac:(left; reflexivity)) as Hl. unfold enters in Hl.
  rewrite Hl. cbn [negb]. apply IH. intros l Hin. apply H. right. exact Hin.
Qed.

(** The first link that enters the socket, when it comes from a UV Map
    node with a name, settles the trace. *)
Lemma trace_uv_map_node (b : nat) (objs : list Object) (nt : NodeTree) (socket : SocketRef)
    (mat : nat) (before after : list NodeLink) (link : NodeLink) (uv_node : Node) :
  links nt = (before ++ link :: after)%list ->
  (forall l, In l before -> enters socket l = false) ->
  enters socket link = true ->
  find_node (from_node link) nt = Some uv_node ->
  node_type uv_node = "UVMAP" ->
  uv_map uv_node <> "" ->
  fst (_trace_uv_map_name_from_socket (S b) objs nt (Some socket) mat ∅)
  = Some (uv_map uv_node).
Proof.
  intros Hlinks Hbefore Hlink Hfind Htype Hname.
  cbn [_trace_uv_map_name_from_socket]. rewrite Hlinks. clear Hlinks.
  induction before as [|l rest IH].
  - cbn [app]. unfold enters in Hlink. rewrite Hlink. cbn [negb]. rewrite Hfind.
    rewrite bool_decide_eq_false_2 by apply not_elem_of_empty.
    rewrite Htype. unfold truthy.
    destruct (String.eqb_spec (uv_map uv_node) ""); [contradiction|]. reflexivity.
  - cbn [app]. pose proof (Hbefore l ltac:(left; reflexivity)) as Hl. unfold enters in Hl.
    rewrite Hl. cbn [negb]. apply IH. intros l' Hin. apply Hbefore. right. exact Hin.
Qed.

(** X22.  Resolving the UV layer of an image node: a node that is not an
    Image Texture has none.  When the first link into the node's Vector
    input comes from a UV Map node with a name, the layer is that name.
    When no link enters the Vector input, or the node has no such input,
    the layer is the material's fallback. *)
Theorem resolved_uv_of_image_node (objs : list Object) (nt : NodeTree) (img_node : Node)
    (mat : nat) :
  (node_type img_node <> "TEX_IMAGE" ->
   _resolve_uv_map_for_image_node objs nt img_node mat = None) /\
  (node_type img_node = "TEX_IMAGE" ->
   (forall i, socket_index "Vector" (inputs img_node) = Some i ->
              forall link, In link (links nt) ->
                           enters {| sock_node := as_pointer img_node; sock_index := i |} link
                           = false) ->
   _resolve_uv_map_for_image_node objs nt img_node mat
   = _guess_active_uv_for_material objs mat) /\
  (forall (i : nat) (before after : list NodeLink) (link : NodeLink) (uv_node : Node),
      node_type img_node = "TEX_IMAGE" ->
      socket_index "Vector" (inputs img_node) = Some i ->
      links nt = (before ++ link :: after)%list ->
      (forall l, In l before ->
                 enters {| sock_node := as_pointer img_node; sock_index := i |} l = false) ->
      enters {| sock_node := as_pointer img_node; sock_index := i |} link = true ->
      find_node (from_node link) nt = Some uv_node ->
      node_type uv_node = "UVMAP" ->
      uv_map uv_node <> "" ->
      _resolve_uv_map_for_image_node objs nt img_node mat = Some (uv_map uv_node)).
Proof.
  unfold _resolve_uv_map_for_image_node. split; [|split].
  - intros Hne. destruct (String.eqb_spec (node_type img_node) "TEX_IMAGE");
      [contradiction|reflexivity].
  - intros Ht Hnone. rewrite Ht, String.eqb_refl. cbn [negb].
    destruct (socket_index "Vector" (inputs img_node)) as [i|]; cbn [option_map].
    + rewrite (trace_skips 8 objs nt _ mat ∅ (Hnone i eq_refl)). reflexivity.
    + reflexivity.
  - intros i before after link uv_node Ht Hi Hlinks Hbefore Hlink Hfind Htype Hname.
    rewrite Ht, String.eqb_refl. cbn [negb]. rewrite Hi. cbn [option_map].
    rewrite (trace_uv_map_node 8 objs nt _ mat before after link uv_node
               Hlinks Hbefore Hlink Hfind Htype Hname).
    unfold resolved_ok, truthy.
    destruct (String.eqb_spec (uv_map uv_node) ""); [contradiction|reflexivity].
Qed.

(* ===================================================================== *)
(** ** Disabling after enabling *)
(* ===================================================================== *)

(** What removing the reserved nodes leaves of the tree [create_nodes]
    makes on the empty tree, whatever the settings: the nodes the build
    names without the prefix, and no link. *)
Lemma create_nodes_leftovers (objs : list Object) (settings : BlenroseMaterialSettings) :
  map node_name (nodes (remove_blenrose_nodes (fst (create_nodes objs settings empty_tree))))
  = ("Material Output" :: "Separate RGB"
     :: (if bool_decide (is_Some (getattr_tex settings "detail_tex"))
         then ["Normal Map"] else []))%list /\
  links (remove_blenrose_nodes (fst (create_nodes objs settings empty_tree))) = [].
Proof.
  unfold create_nodes.
  generalize (getattr_uv objs settings "diffuse_uv") (getattr_uv objs settings "normal_uv")
             (getattr_uv objs settings "specular_uv") (getattr_uv objs settings "lightmap_uv")
             (getattr_uv objs settings "detail_uv") (getattr_uv objs settings "macro_overlay_uv")
             (getattr_uv objs settings "environment_uv") (getattr_uv objs settings "decal_uv")
             (getattr_uv objs settings "transparent_uv") (getattr_uv objs settings "noise_uv").
  intros u1 u2 u3 u4 u5 u6 u7 u8 u9 u10.
  generalize (getattr_tex settings "diffuse_tex") (getattr_tex settings "normal_tex")
             (getattr_tex settings "specular_tex") (getattr_tex settings "lightmap_tex")
             (getattr_tex settings "detail_tex") (getattr_tex settings "macro_overlay_tex")
             (getattr_tex settings "environment_tex") (getattr_tex settings "decal_tex")
             (getattr_tex settings "transparent_tex") (getattr_tex settings "noise_tex").
  intros t1 t2 t3 t4 t5 t6 t7 t8 t9 t10.
  generalize (detail_normal_uv_scale settings) (macro_overlay_uv_scale settings)
             (macro_overlay_opacity settings).
  intros f1 f2 f3.
  destruct t5 as [i5|]; [destruct u5 as [|a5 r5]|];
    (destruct t6 as [i6|]; [destruct u6 as [|a6 r6]|]);
    destruct u1 as [|a1 r1], u2 as [|a2 r2], u3 as [|a3 r3], u4 as [|a4 r4];
    (split; vm_compute; reflexivity).
Qed.

(** X23.  Disabling does not undo enabling.  After a material is enabled
    and then disabled, its tree holds the nodes the build names without
    the reserved prefix, "Material Output", "Separate RGB" and, when a
    detail texture is set, "Normal Map", and no link at all: no node the
    material had before it was enabled is there, and nothing feeds the
    output. *)
Theorem disable_does_not_undo_enable (self : nat) (w : World) (mat : Material) :
  materials w !! self = Some mat ->
  (forall nt, node_tree mat = Some nt -> wf_tree nt) ->
  (use_nodes mat = true -> node_tree mat <> None) ->
  exists (mat' : Material) (nt' : NodeTree),
    materials (setattr_enabled self false (setattr_enabled self true w)) !! self = Some mat' /\
    enabled (blenrose_settings mat') = false /\
    use_nodes mat' = true /\
    node_tree mat' = Some nt' /\
    map node_name (nodes nt')
    = ("Material Output" :: "Separate RGB"
       :: (if bool_decide (is_Some (getattr_tex (blenrose_settings mat') "detail_tex"))
           then ["Normal Map"] else []))%list /\
    links nt' = [].
Proof.
  intros Hm Hwf Htree.
  destruct (enable_spec self w mat Hm Hwf Htree)
    as (mat2 & nt1 & sup & -> & _ & Hc & _).
  set (m1 := set_node_tree (Some nt1) (with_nodes_on mat2)).
  unfold setattr_enabled.
  change (materials (set_suppressed sup (store_material self m1 w)) !! self)
    with (materials (store_material self m1 w) !! self).
  rewrite store_material_lookup.
  unfold _update_enabled. rewrite store_material_lookup.
  change (enabled (blenrose_settings
                     (set_settings (set_enabled false (blenrose_settings m1)) m1)))
    with false. cbv iota.
  change (use_nodes (set_settings (set_enabled false (blenrose_settings m1)) m1))
    with (use_nodes (with_nodes_on mat2)).
  rewrite with_nodes_on_use.
  change (node_tree (set_settings (set_enabled false (blenrose_settings m1)) m1))
    with (Some nt1).
  cbv iota. cbn [fst]. rewrite store_material_lookup.
  destruct (create_nodes_leftovers (objects w) (blenrose_settings mat2)) as (Hnames & Hlinks).
  rewrite Hc in Hnames, Hlinks. cbn [fst] in Hnames, Hlinks.
  destruct (with_nodes_on_facts mat2) as (Hset & _).
  eexists. exists (remove_blenrose_nodes nt1).
  split; [reflexivity|]. split; [reflexivity|].
  split; [apply with_nodes_on_use|]. split; [reflexivity|].
  split; [|exact Hlinks].
  rewrite Hnames. unfold getattr_tex. cbn [blenrose_settings set_node_tree set_settings
    textures set_enabled m1]. rewrite Hset. reflexivity.
Qed.

Lemma default_node_tree_missing : missing_critical default_node_tree = true.
Proof. vm_compute. reflexivity. Qed.

(** X24.  The update does not look at [enabled].  Assigning a texture to a
    material whose tree lacks a critical node, a material never enabled
    for one, rebuilds the graph all the same: afterwards the material uses
    nodes and its tree is the one [create_nodes] makes on the empty tree
    from the settings, with the three critical nodes, while [enabled] is
    as it was. *)
Theorem texture_assignment_builds_unmanaged_graph (self : nat) (tex_prop : string)
    (img : Image) (w : World) (mat : Material) :
  materials w !! self = Some mat ->
  self ∉ _SUPPRESSED_UPDATE_MATERIALS w ->
  (forall nt, node_tree mat = Some nt -> wf_tree nt /\ missing_critical nt = true) ->
  (use_nodes mat = true -> node_tree mat <> None) ->
  exists (mat' : Material) (nt' : NodeTree),
    materials (setattr_tex self tex_prop img w) !! self = Some mat' /\
    enabled (blenrose_settings mat') = enabled (blenrose_settings mat) /\
    getattr_tex (blenrose_settings mat') tex_prop = Some img /\
    use_nodes mat' = true /\
    node_tree mat' = Some nt' /\
    create_nodes (objects w) (blenrose_settings mat') empty_tree = (nt', Ok tt) /\
    missing_critical nt' = false.
Proof.
  intros Hm Hsup Hwf Htree. unfold setattr_tex. rewrite Hm.
  set (mat1 := set_settings
                 (set_textures (<[ tex_prop := img ]> (textures (blenrose_settings mat)))
                               (blenrose_settings mat)) mat).
  set (w1 := store_material self mat1 w).
  assert (Hm1 : materials w1 !! self = Some mat1) by apply store_material_lookup.
  assert (Hwf1 : forall nt, node_tree mat1 = Some nt -> wf_tree nt)
    by (intros nt Hnt; apply (Hwf nt Hnt)).
  destruct (with_nodes_on_facts mat1) as (Hset & _ & _ & Horigin & _).
  destruct (update_all_cases self w1 mat1 Hm1 Hsup Hwf1)
    as [[Hnone _]|[(nt & nt' & Ht & _ & Hmiss & Hc & Hrun)
                  |(nt & nt' & r & Ht & _ & Hmiss & _)]].
  - exfalso. unfold with_nodes_on in Hnone. destruct (use_nodes mat1) eqn:Hu.
    + apply (Htree Hu). exact Hnone.
    + unfold set_use_nodes_true in Hnone. cbn [node_tree] in Hnone.
      destruct (node_tree mat1); exact (Some_ne_None _ Hnone).
  - rewrite Hrun. cbn [fst]. rewrite store_material_lookup.
    destruct (create_nodes_facts (objects w) (blenrose_settings mat1))
      as (nt2 & Hc2 & _ & Hmiss2 & _).
    change (objects w1) with (objects w) in Hc. rewrite Hc in Hc2. injection Hc2 as <-.
    eexists. exists nt'. split; [reflexivity|].
    cbn [blenrose_settings set_node_tree node_tree use_nodes]. rewrite Hset.
    split; [reflexivity|].
    split; [unfold getattr_tex; simpl; apply lookup_insert_eq|].
    split; [apply with_nodes_on_use|]. split; [reflexivity|].
    split; [exact Hc|exact Hmiss2].
  - exfalso. destruct (Horigin nt Ht) as [H| ->].
    + destruct (Hwf nt H) as (_ & Hm'). congruence.
    + rewrite default_node_tree_missing in Hmiss. discriminate.
Qed.

(* ===================================================================== *)
(** ** Boxes of the export *)
(* ===================================================================== *)


(** X25.  Every record of an extracted spline carries the name of its
    curve object, the spline's type and cyclic flag, and a bounding box:
    the box of its points, which is never missing because the record has
    two points or more.  The type is POLY, BEZIER or NURBS. *)
Theorem extracted_splines_have_box (matmul : Matrix -> Vec -> Vec)
    (scene_objects : list Object) (r : SplineRecord) :
  In r (_extract_splines_from_scene matmul scene_objects) ->
  exists (obj : Object) (spline : Spline) (bbox : BBox),
    In obj scene_objects /\ In spline (curve_splines obj) /\
    spline_name r = obj_name obj /\
    is_closed r = use_cyclic_u spline /\
    spline_kind r = spline_type spline /\
    In (spline_kind r) ["POLY"; "BEZIER"; "NURBS"] /\
    spline_bbox r = Some bbox /\
    _calculate_bbox_from_points (spline_points r) = Some bbox.
Proof.
  rewrite extract_splines_flat_map. intros Hr.
  apply in_flat_map in Hr as (obj & Hobj & Hr).
  apply filter_In in Hobj as [Hobj _].
  apply in_flat_map in Hr as (spline & Hs & Hr).
  unfold spline_entry in Hr.
  destruct (2 <=? length (sample_spline matmul (matrix_world obj) spline))%nat eqn:E;
    [|destruct Hr].
  destruct Hr as [<-|[]]. cbn [spline_name is_closed spline_kind spline_bbox spline_points].
  apply Nat.leb_le in E.
  destruct (sample_spline matmul (matrix_world obj) spline) as [|p ps] eqn:Hp;
    [simpl in E; lia|].
  eexists obj, spline, _.
  split; [exact Hobj|]. split; [exact Hs|].
  split; [reflexivity|]. split; [reflexivity|]. split; [reflexivity|].
  split; [|split; reflexivity].
  unfold sample_spline in Hp.
  destruct (String.eqb_spec (spline_type spline) "POLY") as [->|]; [simpl; auto|].
  destruct (String.eqb_spec (spline_type spline) "BEZIER") as [->|]; [simpl; auto|].
  destruct (String.eqb_spec (spline_type spline) "NURBS") as [->|]; [simpl; auto|].
  simpl in Hp. discriminate.
Qed.

(* ===================================================================== *)
(** ** What the update writes into the managed nodes *)
(* ===================================================================== *)

(** Steps whose statement raises nothing end well. *)
Lemma exec_no_raise (steps : list step) (t t1 : NodeTree) (r : result unit) :
  (forall s, In s steps -> forall t0 n e, body s t0 n <> Raise e) ->
  exec steps t = (t1, r) -> r = Ok tt.
Proof.
  revert t. induction steps as [|s rest IH]; intros t Hs; simpl.
  - intros [= _ <-]. reflexivity.
  - destruct (run_step s t) as [t' rs] eqn:Hrun.
    unfold run_step, with_node in Hrun.
    destruct (nodes_get (target s) t) as [n|].
    + destruct (body s t n) as [|n'|e] eqn:Hb.
      * injection Hrun as <- <-. apply IH. intros s' Hs'. apply Hs. right. exact Hs'.
      * injection Hrun as <- <-. apply IH. intros s' Hs'. apply Hs. right. exact Hs'.
      * exfalso. exact (Hs s (or_introl eq_refl) t n e Hb).
    + injection Hrun as <- <-. apply IH. intros s' Hs'. apply Hs. right. exact Hs'.
Qed.

(** After the steps [a ++ b], where no step of [a] raises: the steps of [a]
    are quiet on the tree left, whatever the steps of [b] did, and those
    of [b] are when nothing was raised. *)
Lemma exec_ran_quiet (a b : list step) (t t1 : NodeTree) (r : result unit) :
  NoDup (map as_pointer (nodes t)) ->
  (forall s, In s (a ++ b) -> good_step s) ->
  NoDup (map target (a ++ b)) ->
  (forall s, In s a -> forall t0 n e, body s t0 n <> Raise e) ->
  exec (a ++ b) t = (t1, r) ->
  (forall s, In s a -> quiet s t1 (Ok tt)) /\
  (r = Ok tt -> forall s, In s b -> quiet s t1 (Ok tt)) /\
  links t1 = links t /\
  map as_pointer (nodes t1) = map as_pointer (nodes t).
Proof.
  intros Hnd Hgood Hnames Hquiet. rewrite exec_app.
  destruct (exec a t) as [ta ra] eqn:Ha.
  assert (Hra : ra = Ok tt) by (eapply exec_no_raise; eauto). subst ra.
  assert (Hgood_a : forall s, In s ([] ++ a) -> good_step s).
  { intros s Hs. apply Hgood, in_or_app. left. exact Hs. }
  assert (Hnames_a : NoDup (map target ([] ++ a))).
  { rewrite map_app in Hnames. apply NoDup_app in Hnames as (H & _). exact H. }
  destruct (exec_settles a [] t ta (Ok tt) Hnd Hgood_a Hnames_a
              (fun _ H => match H with end) Ha)
    as (_ & Hqa & _ & Hla & Hpa & _).
  intros Hb.
  assert (Hnd_a : NoDup (map as_pointer (nodes ta))) by (rewrite Hpa; exact Hnd).
  destruct (exec_settles b a ta t1 r Hnd_a Hgood Hnames (Hqa eq_refl) Hb)
    as (Hdone & Hqb & _ & Hlb & Hpb & _).
  split; [exact Hdone|]. split; [exact Hqb|].
  split; [rewrite Hlb; exact Hla|]. rewrite Hpb. exact Hpa.
Qed.

(** The steps that write textures and UV names. *)
Lemma texture_steps_never_raise (objs : list Object) (settings : BlenroseMaterialSettings)
    (s : step) :
  In s (map (fun m => {| target := fst m; body := update_texture settings (snd m) |})
            texture_mappings
        ++ map (fun m => {| target := fst m; body := update_uv objs settings (snd m) |})
               uv_mappings)%list ->
  forall t0 n e, body s t0 n <> Raise e.
Proof.
  intros H t0 n e. apply in_app_or in H as [H|H]; apply in_map_iff in H as (m & <- & _); simpl.
  - unfold update_texture. destruct (node_type n =? "TEX_IMAGE"); discriminate.
  - unfold update_uv. destruct (node_type n =? "UVMAP"); [|discriminate].
    destruct (truthy _); discriminate.
Qed.

(** On the tree the in-place update leaves, the texture and UV steps are
    quiet however the update ended, and every step is when it raised
    nothing. *)
Lemma update_nodes_quiet (objs : list Object) (settings : BlenroseMaterialSettings)
    (t t2 : NodeTree) (r : result unit) :
  wf_tree t ->
  update_nodes objs settings t = (t2, r) ->
  (forall m, In m texture_mappings ->
             quiet {| target := fst m; body := update_texture settings (snd m) |} t2 (Ok tt)) /\
  (forall m, In m uv_mappings ->
             quiet {| target := fst m; body := update_uv objs settings (snd m) |} t2 (Ok tt)) /\
  (r = Ok tt -> forall s, In s (node_steps objs settings) -> quiet s t2 (Ok tt)).
Proof.
  intros Hwf. rewrite update_nodes_exec.
  set (a := (map (fun m => {| target := fst m; body := update_texture settings (snd m) |})
                 texture_mappings
             ++ map (fun m => {| target := fst m; body := update_uv objs settings (snd m) |})
                    uv_mappings)%list).
  assert (Hsplit : exists b, node_steps objs settings = (a ++ b)%list).
  { unfold node_steps, a. rewrite app_assoc. eexists. reflexivity. }
  destruct Hsplit as (b & Hsplit).
  destruct (exec (node_steps objs settings) t) as [t1 r1] eqn:Hexec.
  assert (Hgood : forall s, In s (a ++ b) -> good_step s).
  { intros s Hs. rewrite <- Hsplit in Hs. apply (node_steps_good objs settings). exact Hs. }
  assert (Hnames : NoDup (map target (a ++ b))).
  { rewrite <- Hsplit. apply node_steps_distinct. }
  rewrite Hsplit in Hexec.
  destruct (exec_ran_quiet a b t t1 r1 (proj1 Hwf) Hgood Hnames
              (texture_steps_never_raise objs settings) Hexec)
    as (Hqa & Hqb & Hlinks & Hptrs).
  assert (Hwf1 : wf_tree t1).
  { apply wf_tree_intro; [rewrite Hptrs; apply Hwf|].
    rewrite Hlinks, Hptrs. intros k Hk. apply (wf_tree_links t k Hwf Hk). }
  assert (Hin_a : forall s, In s a -> In s (node_steps objs settings)).
  { intros s Hs. rewrite Hsplit. apply in_or_app. left. exact Hs. }
  assert (Htex : forall m, In m texture_mappings ->
                   In {| target := fst m; body := update_texture settings (snd m) |} a).
  { intros m Hm. unfold a. apply in_or_app. left.
    apply (in_map (fun m => {| target := fst m; body := update_texture settings (snd m) |})).
    exact Hm. }
  assert (Huv : forall m, In m uv_mappings ->
                  In {| target := fst m; body := update_uv objs settings (snd m) |} a).
  { intros m Hm. unfold a. apply in_or_app. right.
    apply (in_map (fun m => {| target := fst m; body := update_uv objs settings (snd m) |})).
    exact Hm. }
  destruct r1 as [[]|e].
  2:{ intros [= <- <-]. split; [intros m Hm; apply Hqa, Htex, Hm|].
      split; [intros m Hm; apply Hqa, Huv, Hm|]. discriminate. }
  intros Hconn.
  destruct (connect_lightmap_spec t1 t2 r Hwf1 Hconn) as (Hn & Hwf2 & _ & _ & Hlinked).
  assert (Hq2 : forall s, In s (node_steps objs settings) -> quiet s t1 (Ok tt) ->
                          quiet s t2 (Ok tt)).
  { intros s Hs. apply (quiet_relinked s t1 t2); [|exact Hn|].
    - apply (node_steps_good objs settings). exact Hs.
    - intros n i Hget. apply Hlinked. simpl. intros Hin.
      apply list_elem_of_In in Hin. apply in_map_iff in Hin as (m & Em & Hm).
      apply filter_In in Hm as [Hm Hname]. apply String.eqb_eq in Hname.
      destruct (nodes_get_In _ _ _ Hget) as [Hnin Hnname].
      assert (m = n) by (eapply same_pointer_same_node; [apply Hwf1| | |]; eauto).
      subst m. destruct (node_steps_reserved objs settings s Hs) as [_ Hne].
      congruence. }
  split; [intros m Hm; apply Hq2; [apply Hin_a, Htex, Hm|apply Hqa, Htex, Hm]|].
  split; [intros m Hm; apply Hq2; [apply Hin_a, Huv, Hm|apply Hqa, Huv, Hm]|].
  intros _ s Hs. apply Hq2; [exact Hs|].
  rewrite Hsplit in Hs. apply in_app_or in Hs as [Hs|Hs]; [apply Hqa; exact Hs|].
  apply Hqb; [reflexivity|exact Hs].
Qed.

(** A socket assignment that leaves the node as it is: the socket holds
    the value. *)
Lemma assign_input_fixed (name : string) (v : socket_value) (n : Node) :
  assign_input name v n = Assign n -> input_value name n = Some v.
Proof.
  intros H. destruct (assign_input_Assign _ _ _ _ H) as (i & s & Hi & Hs & _ & E).
  unfold input_value. rewrite Hi.
  assert (Hin : inputs n = <[i := set_default v s]> (inputs n)).
  { rewrite E at 1. reflexivity. }
  rewrite Hin, (nth_error_insert _ _ s _ Hs). reflexivity.
Qed.

Lemma quiet_assign_input (x name : string) (v : socket_value) (t : NodeTree) (n : Node) :
  quiet {| target := x; body := fun _ n => assign_input name v n |} t (Ok tt) ->
  nodes_get x t = Some n -> input_value name n = Some v.
Proof.
  unfold quiet. simpl. intros H Hget. rewrite Hget in H.
  destruct (assign_input name v n) as [|n'|e] eqn:E.
  - unfold assign_input in E. destruct (socket_index name (inputs n)); [|discriminate].
    destruct (nth_error (inputs n) n0); [|discriminate].
    destruct (accepts _ _); discriminate.
  - destruct H as [-> _]. apply assign_input_fixed. exact E.
  - discriminate.
Qed.

(** What a tree that the in-place update leaves as it is holds. *)
Lemma update_nodes_written (objs : list Object) (settings : BlenroseMaterialSettings)
    (t t2 : NodeTree) (r : result unit) :
  wf_tree t ->
  update_nodes objs settings t = (t2, r) ->
  (forall node_name prop_name tex_node,
      In (node_name, prop_name) texture_mappings ->
      nodes_get node_name t2 = Some tex_node -> node_type tex_node = "TEX_IMAGE" ->
      image tex_node = getattr_tex settings prop_name) /\
  (forall node_name prop_name uv_node,
      In (node_name, prop_name) uv_mappings ->
      nodes_get node_name t2 = Some uv_node -> node_type uv_node = "UVMAP" ->
      truthy (getattr_uv objs settings prop_name) = true ->
      uv_map uv_node = getattr_uv objs settings prop_name) /\
  (r = Ok tt ->
   (forall detail_mapping,
       nodes_get "BR_DetailMapping" t2 = Some detail_mapping ->
       input_value "Scale" detail_mapping
       = Some (Vector3 (detail_normal_uv_scale settings)
                       (detail_normal_uv_scale settings) 1.0)) /\
   (forall macro_mapping,
       nodes_get "BR_MacroMapping" t2 = Some macro_mapping ->
       input_value "Scale" macro_mapping
       = Some (Vector3 (macro_overlay_uv_scale settings)
                       (macro_overlay_uv_scale settings) 1.0)) /\
   (forall macro_mix,
       nodes_get "BR_MacroMix" t2 = Some macro_mix ->
       input_value "Fac" macro_mix = Some (Float (macro_overlay_opacity settings)))).
Proof.
  intros Hwf Hu.
  destruct (update_nodes_quiet objs settings t t2 r Hwf Hu) as (Htex & Huv & Hall).
  split; [|split].
  - intros x p n Hin Hget Hty. specialize (Htex (x, p) Hin).
    unfold quiet in Htex. simpl in Htex. rewrite Hget in Htex.
    unfold update_texture in Htex. rewrite Hty in Htex. simpl in Htex.
    destruct Htex as [E _]. rewrite <- E at 1. reflexivity.
  - intros x p n Hin Hget Hty Htruthy. specialize (Huv (x, p) Hin).
    unfold quiet in Huv. simpl in Huv. rewrite Hget in Huv.
    unfold update_uv in Huv. rewrite Hty in Huv. simpl in Huv.
    rewrite Htruthy in Huv.
    destruct Huv as [E _]. rewrite <- E at 1. reflexivity.
  - intros Hr. specialize (Hall Hr).
    assert (Hsteps : forall s, In s [ {| target := "BR_DetailMapping";
           body := fun _ detail_mapping =>
                     assign_input "Scale" (Vector3 (detail_normal_uv_scale settings)
                                                   (detail_normal_uv_scale settings) 1.0)
                                  detail_mapping |};
        {| target := "BR_MacroMapping";
           body := fun _ macro_mapping =>
                     assign_input "Scale" (Vector3 (macro_overlay_uv_scale settings)
                                                   (macro_overlay_uv_scale settings) 1.0)
                                  macro_mapping |};
        {| target := "BR_MacroMix";
           body := fun _ macro_mix =>
                     assign_input "Fac" (Float (macro_overlay_opacity settings)) macro_mix |} ]
        -> quiet s t2 (Ok tt)).
    { intros s Hs. apply Hall. unfold node_steps. apply in_or_app. right.
      apply in_or_app. right. simpl in Hs. simpl. tauto. }
    split; [|split]; intros n Hget.
    + eapply quiet_assign_input; [|exact Hget]. apply Hsteps. simpl. auto.
    + eapply quiet_assign_input; [|exact Hget]. apply Hsteps. simpl. auto.
    + eapply quiet_assign_input; [|exact Hget]. apply Hsteps. simpl. auto.
Qed.

(** X27.  After the update of a material that is there, not suppressed and
    has a well-formed tree, the managed nodes show the settings.  Each Image
    Texture node named in [texture_mappings] holds the image of its
    property, [None] when none is chosen, and each UV Map node named in
    [uv_mappings] holds the UV name of its property when that name is not
    empty; this holds even when a later statement of the update raised.
    When nothing was raised, the "Scale" of "BR_DetailMapping" and of
    "BR_MacroMapping" and the "Fac" of "BR_MacroMix" hold the three scalar
    settings. *)
Theorem synchronize_writes_settings (self : nat) (w w' : World) (mat mat' : Material)
    (nt' : NodeTree) (r : result unit) :
  materials w !! self = Some mat ->
  self ∉ _SUPPRESSED_UPDATE_MATERIALS w ->
  (forall nt, node_tree mat = Some nt -> wf_tree nt) ->
  _update_all_blenrose_nodes self w = (w', r) ->
  materials w' !! self = Some mat' ->
  node_tree mat' = Some nt' ->
  (forall node_name prop_name tex_node,
      In (node_name, prop_name) texture_mappings ->
      nodes_get node_name nt' = Some tex_node -> node_type tex_node = "TEX_IMAGE" ->
      image tex_node = getattr_tex (blenrose_settings mat) prop_name) /\
  (forall node_name prop_name uv_node,
      In (node_name, prop_name) uv_mappings ->
      nodes_get node_name nt' = Some uv_node -> node_type uv_node = "UVMAP" ->
      truthy (getattr_uv (objects w) (blenrose_settings mat) prop_name) = true ->
      uv_map uv_node = getattr_uv (objects w) (blenrose_settings mat) prop_name) /\
  (r = Ok tt ->
   (forall detail_mapping,
       nodes_get "BR_DetailMapping" nt' = Some detail_mapping ->
       input_value "Scale" detail_mapping
       = Some (Vector3 (detail_normal_uv_scale (blenrose_settings mat))
                       (detail_normal_uv_scale (blenrose_settings mat)) 1.0)) /\
   (forall macro_mapping,
       nodes_get "BR_MacroMapping" nt' = Some macro_mapping ->
       input_value "Scale" macro_mapping
       = Some (Vector3 (macro_overlay_uv_scale (blenrose_settings mat))
                       (macro_overlay_uv_scale (blenrose_settings mat)) 1.0)) /\
   (forall macro_mix,
       nodes_get "BR_MacroMix" nt' = Some macro_mix ->
       input_value "Fac" macro_mix
       = Some (Float (macro_overlay_opacity (blenrose_settings mat))))).
Proof.
  intros Hm Hsup Hwf Hrun Hm' Ht'.
  destruct (update_all_cases self w mat Hm Hsup Hwf)
    as [[Hnone Hrun']|[(nt & nt2 & Ht & Hwfnt & Hmiss & Hc & Hrun')
                      |(nt & nt2 & r2 & Ht & Hwfnt & Hmiss & Hu & Hrun')]];
    rewrite Hrun' in Hrun.
  - injection Hrun as <- <-. rewrite store_material_lookup in Hm'. injection Hm' as <-.
    congruence.
  - injection Hrun as <- <-. rewrite store_material_lookup in Hm'. injection Hm' as <-.
    simpl in Ht'. injection Ht' as <-.
    destruct (create_nodes_facts (objects w) (blenrose_settings mat))
      as (nt3 & Hc3 & Hwf3 & _ & Hfix & _).
    rewrite Hc in Hc3. injection Hc3 as <-.
    exact (update_nodes_written _ _ nt2 nt2 (Ok tt) Hwf3 Hfix).
  - injection Hrun as <- <-. rewrite store_material_lookup in Hm'. injection Hm' as <-.
    simpl in Ht'. injection Ht' as <-.
    exact (update_nodes_written _ _ nt nt2 r2 Hwfnt Hu).
Qed.

(* ===================================================================== *)
(** ** Making a material *)
(* ===================================================================== *)

(** In the tree built from settings without textures no Image Texture node
    holds an image, so detection finds nothing in it. *)
Lemma built_tree_detects_nothing (objs : list Object) (settings : BlenroseMaterialSettings)
    (mat_ptr : nat) (mat : Material) :
  textures settings = ∅ ->
  use_nodes mat = true ->
  node_tree mat = Some (fst (create_nodes objs settings empty_tree)) ->
  _detect_textures_from_node_tree objs mat_ptr mat = [].
Proof.
  intros Htex Hu Ht. unfold _detect_textures_from_node_tree. rewrite Hu, Ht. cbn [negb].
  assert (Hnone : forall p, getattr_tex settings p = None)
    by (intros p; unfold getattr_tex; rewrite Htex; apply lookup_empty).
  unfold create_nodes. rewrite !Hnone.
  generalize (getattr_uv objs settings "diffuse_uv") (getattr_uv objs settings "normal_uv")
             (getattr_uv objs settings "specular_uv") (getattr_uv objs settings "lightmap_uv").
  intros u1 u2 u3 u4.
  generalize (detail_normal_uv_scale settings) (macro_overlay_uv_scale settings)
             (macro_overlay_opacity settings).
  intros f1 f2 f3.
  destruct u1 as [|a1 r1], u2 as [|a2 r2], u3 as [|a3 r3], u4 as [|a4 r4];
    vm_compute; reflexivity.
Qed.

Lemma create_nodes_ignores_enabled (objs : list Object) (b : bool)
    (settings : BlenroseMaterialSettings) :
  create_nodes objs (set_enabled b settings) = create_nodes objs settings.
Proof. reflexivity. Qed.

Lemma list_index_inserted (p pos : nat) (mats : list nat) :
  ~ In p mats ->
  list_index p (take pos mats ++ p :: drop pos mats) = Some (Nat.min pos (length mats)) /\
  nth_error (take pos mats ++ p :: drop pos mats) (Nat.min pos (length mats)) = Some p.
Proof.
  revert pos. induction mats as [|m mats IH]; intros pos Hnotin.
  - destruct pos; simpl; rewrite Nat.eqb_refl; auto.
  - destruct pos as [|pos]; simpl.
    + rewrite Nat.eqb_refl. auto.
    + destruct (Nat.eqb_spec m p) as [->|E]; [exfalso; apply Hnotin; left; reflexivity|].
      destruct (IH pos ltac:(intros H; apply Hnotin; right; exact H)) as (I1 & I2).
      rewrite I1. auto.
Qed.

(** X26.  Making a material: the operator never raises.  The new material
    is in the collection where the host put it and the scene's index
    points at it; it is enabled, with the declared defaults for its other
    settings, uses nodes, and its tree is the managed graph of those
    settings, with the three critical nodes.  The objects and the other
    materials are as they were. *)
Theorem new_material_is_active_and_managed (p : nat) (name : string) (pos : nat)
    (mats : list nat) (blenrose_mat_index : Z) (w : World) :
  ~ In p mats ->
  exists (w' : World) (nt' : NodeTree),
    new_material_execute p name pos mats blenrose_mat_index w
    = ((take pos mats ++ p :: drop pos mats)%list, Z.of_nat (Nat.min pos (length mats)), w',
       Ok FINISHED) /\
    nth_error (take pos mats ++ p :: drop pos mats) (Nat.min pos (length mats)) = Some p /\
    materials w' !! p
    = Some {| material_name := name; use_nodes := true; node_tree := Some nt';
              blenrose_settings := set_enabled true default_settings |} /\
    create_nodes (objects w) default_settings empty_tree = (nt', Ok tt) /\
    missing_critical nt' = false /\
    objects w' = objects w /\
    (forall q, q <> p -> materials w' !! q = materials w !! q).
Proof.
  intros Hfresh. destruct (list_index_inserted p pos mats Hfresh) as (Hidx & Hnth).
  set (m0 := set_use_nodes_true (materials_new name)).
  destruct (build_tree_spec (objects w) m0) as (nt1 & Hb & Hc & _ & Hmiss & _).
  { intros nt [= <-]. apply default_node_tree_wf. }
  { intros _. discriminate. }
  change (with_nodes_on m0) with m0 in Hb.
  change (blenrose_settings m0) with default_settings in Hc.
  set (m1 := set_node_tree (Some nt1) m0) in *.
  set (m1e := set_settings (set_enabled true default_settings) m1).
  destruct (build_tree_spec (objects w) m1e) as (nt2 & Hb2 & Hc2 & _).
  { intros nt [= <-]. destruct (create_nodes_facts (objects w) default_settings)
      as (nt3 & Hc3 & Hwf3 & _). rewrite Hc in Hc3. injection Hc3 as <-. exact Hwf3. }
  { intros _. discriminate. }
  change (blenrose_settings m1e) with (set_enabled true default_settings) in Hc2.
  rewrite create_nodes_ignores_enabled, Hc in Hc2. injection Hc2 as <-.
  change (with_nodes_on m1e) with m1e in Hb2.
  assert (Hdetect : _detect_textures_from_node_tree (objects w) p m1e = []).
  { apply (built_tree_detects_nothing (objects w) default_settings);
      [reflexivity|reflexivity|]. rewrite Hc. reflexivity. }
  exists (store_material p (set_node_tree (Some nt1) m1e)
            (set_suppressed (_SUPPRESSED_UPDATE_MATERIALS w ∖ {[ p ]})
                            (store_material p m1e (store_material p m1 w)))), nt1.
  split.
  { unfold new_material_execute. fold m0. rewrite Hb. cbv iota zeta. rewrite Hidx.
    f_equal. f_equal.
    unfold setattr_enabled. rewrite store_material_lookup.
    change (set_settings (set_enabled true (blenrose_settings m1)) m1) with m1e.
    unfold _update_enabled. rewrite store_material_lookup.
    change (enabled (blenrose_settings m1e)) with true.
    change (use_nodes m1e) with true.
    change (node_tree m1e) with (Some nt1). cbv iota.
    change (true && bool_decide (is_Some (Some nt1))) with true. cbv iota.
    unfold _auto_fill_textures_from_node_tree. rewrite store_material_lookup.
    change (objects (store_material p m1e (store_material p m1 w))) with (objects w).
    rewrite Hdetect. cbn [fold_left].
    cbn [materials set_suppressed store_material set_materials].
    rewrite lookup_insert_eq.
    match goal with
    | |- context [_build_blenrose_node_tree ?O m1e] => change O with (objects w)
    end.
    rewrite Hb2. cbn [fst].
    unfold store_material, set_materials, set_suppressed. cbn.
    f_equal. apply set_eq. intros x.
    rewrite !elem_of_difference, elem_of_union, elem_of_singleton. tauto. }
  split; [exact Hnth|].
  split; [cbn; rewrite lookup_insert_eq; reflexivity|].
  split; [exact Hc|]. split; [exact Hmiss|]. split; [reflexivity|].
  intros q Hq. cbn. rewrite !lookup_insert_ne by congruence. reflexivity.
Qed.

(* ===================================================================== *)
(** ** The further properties on the example worlds *)
(* ===================================================================== *)

Lemma authored_tree_wf : wf_tree authored_tree.
Proof. apply (bool_decide_unpack _). vm_compute. exact I. Defined.

Lemma authored_material_there : materials authored_world !! 7%nat = Some authored_material.
Proof. vm_compute. reflexivity. Defined.

(** Material 7 of [user_world]: the diffuse texture assigned is read
    back. *)
Lemma texture_assignment_round_trip_witness :
  settings_of 7 user_world = Some (set_enabled true default_settings) /\
  exists s',
    settings_of 7 (setattr_tex 7 "diffuse_tex" moss_png user_world) = Some s' /\
    getattr_tex s' "diffuse_tex" = Some moss_png.
Proof.
  assert (H : settings_of 7 user_world = Some (set_enabled true default_settings))
    by (vm_compute; reflexivity).
  split; [exact H|].
  destruct (texture_assignment_round_trip 7 "diffuse_tex" moss_png user_world _ H)
    as (s' & Hs & Hget & _).
  exists s'. split; [exact Hs|exact Hget].
Defined.

(** Material 7 of [authored_world]: "Lightmap" is a layer of the scene,
    and reads back as the diffuse UV source once assigned. *)
Lemma uv_assignment_round_trip_witness :
  settings_of 7 authored_world = Some populated_settings /\
  In "Lightmap" (map identifier (uv_channel_items (objects authored_world))) /\
  exists s',
    settings_of 7 (setattr_uv 7 "diffuse_uv" "Lightmap" authored_world) = Some s' /\
    getattr_uv (objects (setattr_uv 7 "diffuse_uv" "Lightmap" authored_world)) s' "diffuse_uv"
    = "Lightmap".
Proof.
  assert (H : settings_of 7 authored_world = Some populated_settings)
    by (vm_compute; reflexivity).
  assert (Hin : In "Lightmap" (map identifier (uv_channel_items (objects authored_world))))
    by (vm_compute; tauto).
  split; [exact H|]. split; [exact Hin|].
  destruct (uv_assignment_round_trip 7 "diffuse_uv" "Lightmap" authored_world _ H)
    as (s' & Hs & Hyes & _).
  exists s'. split; [exact Hs|]. exact (proj1 (Hyes Hin)).
Defined.

(** The default settings have class ENVIRONMENT; DEFAULT is one of its
    subclasses, and reads back once assigned. *)
Lemma subclass_assignment_round_trip_witness :
  In (material_class default_settings) (map identifier MATERIAL_CLASS_ITEMS) /\
  In "DEFAULT" (map identifier (material_subclass_items default_settings)) /\
  exists settings',
    setattr_material_subclass "DEFAULT" default_settings = Ok settings' /\
    getattr_material_subclass settings' = "DEFAULT" /\
    material_class settings' = material_class default_settings /\
    material_subclass_name settings' = "DEFAULT".
Proof.
  assert (H : In (material_class default_settings) (map identifier MATERIAL_CLASS_ITEMS))
    by (vm_compute; tauto).
  assert (Hin : In "DEFAULT" (map identifier (material_subclass_items default_settings)))
    by (vm_compute; tauto).
  split; [exact H|]. split; [exact Hin|].
  exact (proj1 (subclass_assignment_round_trip "DEFAULT" default_settings H) Hin).
Defined.

(** Material 7 of [authored_world]: the auto-fill leaves its tree as it
    is. *)
Lemma auto_fill_keeps_graph_witness :
  materials authored_world !! 7%nat = Some authored_material /\
  exists mat',
    materials (_auto_fill_textures_from_node_tree 7 false authored_world) !! 7%nat
    = Some mat' /\
    node_tree mat' = node_tree authored_material.
Proof.
  split; [exact authored_material_there|].
  destruct (auto_fill_keeps_graph 7 false authored_world authored_material
              authored_material_there) as (mat' & Hm & _ & _ & Ht & _).
  exists mat'. split; [exact Hm|exact Ht].
Defined.

(** Material 7 of [authored_world], enabled: its tree has the critical
    nodes, and an update that follows changes nothing. *)
Lemma enable_builds_managed_graph_witness :
  materials authored_world !! 7%nat = Some authored_material /\
  (forall nt, node_tree authored_material = Some nt -> wf_tree nt) /\
  (use_nodes authored_material = true -> node_tree authored_material <> None) /\
  exists nt',
    (materials (setattr_enabled 7 true authored_world) !! 7%nat ≫= node_tree) = Some nt' /\
    missing_critical nt' = false /\
    _update_all_blenrose_nodes 7 (setattr_enabled 7 true authored_world)
    = (setattr_enabled 7 true authored_world, Ok tt).
Proof.
  assert (H2 : forall nt, node_tree authored_material = Some nt -> wf_tree nt)
    by (intros nt [= <-]; exact authored_tree_wf).
  assert (H3 : use_nodes authored_material = true -> node_tree authored_material <> None)
    by (intros _; discriminate).
  split; [exact authored_material_there|]. split; [exact H2|]. split; [exact H3|].
  destruct (enable_builds_managed_graph 7 authored_world authored_material
              authored_material_there H2 H3)
    as (mat' & nt' & Hm & _ & _ & Ht & _ & _ & _ & _ & Hmiss & _ & _ & Hup).
  exists nt'. split; [rewrite Hm; exact Ht|]. split; [exact Hmiss|exact Hup].
Defined.

(** Material 7 of [authored_enabled_world] holds wall.png for its diffuse
    texture; the detect action finds moss.png in the graph and overwrites
    it. *)
Lemma detect_action_overwrites_witness :
  nth_error [7%nat] (Z.to_nat (clamp_index 5 [7%nat])) = Some 7%nat /\
  materials authored_enabled_world !! 7%nat = Some authored_enabled_material /\
  getattr_tex (blenrose_settings authored_enabled_material) "diffuse_tex" = Some wall_png /\
  exists w' s',
    auto_detect_textures_execute [7%nat] 5 authored_enabled_world = (FINISHED, 1%nat, w') /\
    settings_of 7 w' = Some s' /\
    getattr_tex s' "diffuse_tex" = Some moss_png.
Proof.
  assert (H1 : nth_error [7%nat] (Z.to_nat (clamp_index 5 [7%nat])) = Some 7%nat)
    by reflexivity.
  assert (H2 : materials authored_enabled_world !! 7%nat = Some authored_enabled_material)
    by (vm_compute; reflexivity).
  assert (H3 : _detect_textures_from_node_tree (objects authored_enabled_world) 7
                 authored_enabled_material = [("diffuse", moss_entry)])
    by (vm_compute; reflexivity).
  split; [exact H1|]. split; [exact H2|]. split; [vm_compute; reflexivity|].
  destruct (proj2 (detect_action_overwrites [7%nat] 5 authored_enabled_world 7
                     authored_enabled_material H1 H2) eq_refl)
    as (w' & s' & Hrun & Hs & Hset & _).
  exists w', s'. rewrite H3 in Hrun, Hset. split; [exact Hrun|]. split; [exact Hs|].
  exact (Hset "diffuse" moss_entry "diffuse_tex" (or_introl eq_refl) eq_refl).
Defined.


(** Material 7 of [authored_world], enabled and then disabled: the user's
    nodes are gone and nothing is linked. *)
Lemma disable_does_not_undo_enable_witness :
  materials authored_world !! 7%nat = Some authored_material /\
  (forall nt, node_tree authored_material = Some nt -> wf_tree nt) /\
  (use_nodes authored_material = true -> node_tree authored_material <> None) /\
  exists nt',
    (materials (setattr_enabled 7 false (setattr_enabled 7 true authored_world)) !! 7%nat
     ≫= node_tree) = Some nt' /\
    links nt' = [].
Proof.
  assert (H2 : forall nt, node_tree authored_material = Some nt -> wf_tree nt)
    by (intros nt [= <-]; exact authored_tree_wf).
  assert (H3 : use_nodes authored_material = true -> node_tree authored_material <> None)
    by (intros _; discriminate).
  split; [exact authored_material_there|]. split; [exact H2|]. split; [exact H3|].
  destruct (disable_does_not_undo_enable 7 authored_world authored_material
              authored_material_there H2 H3)
    as (mat' & nt' & Hm & _ & _ & Ht & _ & Hlinks).
  exists nt'. split; [rewrite Hm; exact Ht|exact Hlinks].
Defined.

(** Material 7 of [authored_world] is not enabled and its tree has no
    critical node: assigning it a texture builds the managed graph. *)
Lemma texture_assignment_builds_unmanaged_graph_witness :
  materials authored_world !! 7%nat = Some authored_material /\
  (7%nat ∉ _SUPPRESSED_UPDATE_MATERIALS authored_world) /\
  (forall nt, node_tree authored_material = Some nt ->
              wf_tree nt /\ missing_critical nt = true) /\
  (use_nodes authored_material = true -> node_tree authored_material <> None) /\
  exists mat' nt',
    materials (setattr_tex 7 "normal_tex" wall_png authored_world) !! 7%nat = Some mat' /\
    enabled (blenrose_settings mat') = false /\
    node_tree mat' = Some nt' /\
    missing_critical nt' = false.
Proof.
  assert (H2 : 7%nat ∉ _SUPPRESSED_UPDATE_MATERIALS authored_world)
    by apply nothing_suppressed.
  assert (H3 : forall nt, node_tree authored_material = Some nt ->
                          wf_tree nt /\ missing_critical nt = true).
  { intros nt [= <-]. split; [exact authored_tree_wf|vm_compute; reflexivity]. }
  assert (H4 : use_nodes authored_material = true -> node_tree authored_material <> None)
    by (intros _; discriminate).
  split; [exact authored_material_there|]. split; [exact H2|]. split; [exact H3|].
  split; [exact H4|].
  destruct (texture_assignment_builds_unmanaged_graph 7 "normal_tex" wall_png authored_world
              authored_material authored_material_there H2 H3 H4)
    as (mat' & nt' & Hm & He & _ & _ & Ht & _ & Hmiss).
  exists mat', nt'. split; [exact Hm|]. split; [exact He|]. split; [exact Ht|exact Hmiss].
Defined.

(** The poly line of [path_object] gives [path_record], box and all. *)
Lemma extracted_splines_have_box_witness :
  In path_record (_extract_splines_from_scene identity_matmul [path_object]) /\
  exists (obj : Object) (spline : Spline) (bbox : BBox),
    In obj [path_object] /\ In spline (curve_splines obj) /\
    spline_name path_record = obj_name obj /\
    is_closed path_record = use_cyclic_u spline /\
    spline_kind path_record = spline_type spline /\
    In (spline_kind path_record) ["POLY"; "BEZIER"; "NURBS"] /\
    spline_bbox path_record = Some bbox /\
    _calculate_bbox_from_points (spline_points path_record) = Some bbox.
Proof.
  assert (H : In path_record (_extract_splines_from_scene identity_matmul [path_object]))
    by (vm_compute; left; reflexivity).
  split; [exact H|].
  exact (extracted_splines_have_box identity_matmul [path_object] path_record H).
Defined.

(** A material made in [user_world], whose collection holds material 7:
    the index points at the new material. *)
Lemma new_material_is_active_and_managed_witness :
  ~ In 9%nat [7%nat] /\
  exists w',
    new_material_execute 9 "BlenroseMaterial" 0 [7%nat] 0 user_world
    = ([9%nat; 7%nat], 0%Z, w', Ok FINISHED) /\
    option_map (fun mat => enabled (blenrose_settings mat)) (materials w' !! 9%nat)
    = Some true.
Proof.
  assert (H : ~ In 9%nat [7%nat]) by (intros [H|[]]; discriminate).
  split; [exact H|].
  destruct (new_material_is_active_and_managed 9 "BlenroseMaterial" 0 [7%nat] 0 user_world H)
    as (w' & nt' & Hrun & _ & Hm & _).
  exists w'. split; [exact Hrun|]. rewrite Hm. reflexivity.
Defined.

(** Material 7 of [retextured_world]: its tree has the critical nodes and
    "BR_DiffuseTex" holds no image, while the settings name moss.png; after
    the update the node holds moss.png. *)
Lemma synchronize_writes_settings_witness :
  (materials retextured_world !! 7%nat = Some retextured_material /\
   (7%nat ∉ _SUPPRESSED_UPDATE_MATERIALS retextured_world) /\
   (forall nt, node_tree retextured_material = Some nt -> wf_tree nt)) /\
  missing_critical mixed_tree = false /\
  option_map image (nodes_get "BR_DiffuseTex" mixed_tree) = Some None /\
  exists tex_node,
    nodes_get "BR_DiffuseTex"
              (tree_of (fst (_update_all_blenrose_nodes 7 retextured_world))) = Some tex_node /\
    image tex_node = Some moss_png.
Proof.
  assert (H1 : materials retextured_world !! 7%nat = Some retextured_material)
    by (vm_compute; reflexivity).
  assert (H2 : 7%nat ∉ _SUPPRESSED_UPDATE_MATERIALS retextured_world)
    by apply nothing_suppressed.
  assert (H3 : forall nt, node_tree retextured_material = Some nt -> wf_tree nt).
  { intros nt Ht. simpl in Ht. injection Ht as <-. exact mixed_tree_wf. }
  split; [auto|]. split; [vm_compute; reflexivity|]. split; [vm_compute; reflexivity|].
  destruct (nodes_get "BR_DiffuseTex"
              (tree_of (fst (_update_all_blenrose_nodes 7 retextured_world))))
    as [tex_node|] eqn:Hget; [|vm_compute in Hget; discriminate].
  exists tex_node. split; [reflexivity|].
  destruct (synchronize_writes_settings 7 retextured_world
              (fst (_update_all_blenrose_nodes 7 retextured_world))
              retextured_material
              {| material_name := "Wall"; use_nodes := true;
                 node_tree := Some (tree_of (fst (_update_all_blenrose_nodes 7 retextured_world)));
                 blenrose_settings := retextured_settings |}
              (tree_of (fst (_update_all_blenrose_nodes 7 retextured_world)))
              (snd (_update_all_blenrose_nodes 7 retextured_world))
              H1 H2 H3)
    as (Htex & _).
  - destruct (_update_all_blenrose_nodes 7 retextured_world); reflexivity.
  - vm_compute. reflexivity.
  - reflexivity.
  - rewrite (Htex "BR_DiffuseTex" "diffuse_tex" tex_node).
    + vm_compute. reflexivity.
    + simpl. auto.
    + exact Hget.
    + vm_compute in Hget. injection Hget as <-. reflexivity.
Defined.
